(** * ip_diffim: the kernel solver (KernelSolution.cc, KernelCandidate.cc)

    A shallow embedding of the linear-algebra core of the image-difference
    kernel solver and of the candidate that drives it, followed by the
    properties the specification states about them.

    - C++ [double] is Rocq's primitive binary64 [float]; [std::isnan],
      [<], [==] and the arithmetic are the IEEE operations of the kernel.
    - [Eigen::MatrixXd] is a record with its dimensions and its coefficients
      in column-major order, the storage order [resize] relies on.
    - A C++ member function is a computation in a state-and-exception monad over
      the object's fields: the state survives a [throw], as the fields of a
      C++ object do.
    - Eigen's decompositions and the afw image library are not part of this
      repository: they are the fields of the class [Externals]. *)

From Stdlib Require Import String PrimFloat List ZArith Lia Bool Arith.
From Stdlib Require FloatAxioms.
Import ListNotations.

Set Implicit Arguments.

(** ** Exceptions (lsst::pex::exceptions) *)

Module pexExcept.

(** The classes of lsst::pex::exceptions thrown in these files.
    [Exception] is the base class, which every handler here catches. *)
Inductive ExceptionType :=
| Exception
| InvalidParameterError
| TypeError
| RuntimeError
| LogicError.

(** An operand of [boost::format]'s [%]. *)
Inductive FormatArg :=
| ArgInt (n : Z)
| ArgDouble (d : float).

(** A message: the format string and the operands fed to it, unrendered. *)
Record Message := { format : string; operands : list FormatArg }.

Definition text (s : string) : Message := {| format := s; operands := [] |}.

(** An exception object: its dynamic class and the messages it carries
    (the one it was thrown with first, those of LSST_EXCEPT_ADD after). *)
Record exception := { etype : ExceptionType; what : list Message }.

(** [LSST_EXCEPT(type, message)] *)
Definition LSST_EXCEPT (t : ExceptionType) (m : Message) : exception :=
  {| etype := t; what := [m] |}.

(** [LSST_EXCEPT_ADD(e, message)] *)
Definition LSST_EXCEPT_ADD (e : exception) (m : string) : exception :=
  {| etype := etype e; what := what e ++ [text m] |}.

(** [throw e;] with [e] a [pexExcept::Exception&]: the thrown object is a
    copy of [e] at its static type, the base class. *)
Definition rethrown (e : exception) : exception :=
  {| etype := Exception; what := what e |}.

End pexExcept.
Import pexExcept.

(** ** The monad of member functions *)

(** How a call ends: it returns, it throws, or (for the one loop of these
    files whose end depends on its data) the model's fuel ran out first. *)
Inductive result (A : Type) :=
| Ok (a : A)
| Throw (e : exception)
| Unfinished.
Arguments Ok {A} a.
Arguments Throw {A} e.
Arguments Unfinished {A}.

Definition M (S A : Type) : Type := S -> result A * S.

Definition ret {S A} (a : A) : M S A := fun s => (Ok a, s).

Definition bind {S A B} (m : M S A) (k : A -> M S B) : M S B :=
  fun s => match m s with
           | (Ok a, s') => k a s'
           | (Throw e, s') => (Throw e, s')
           | (Unfinished, s') => (Unfinished, s')
           end.

Definition throw {S A} (e : exception) : M S A := fun s => (Throw e, s).

Definition get {S} : M S S := fun s => (Ok s, s).

Definition gets {S A} (f : S -> A) : M S A := fun s => (Ok (f s), s).

Definition modify {S} (f : S -> S) : M S unit := fun s => (Ok tt, f s).

(** [try { m } catch (pexExcept::Exception& e) { h e }] *)
Definition try_catch {S A} (m : M S A) (h : exception -> M S A) : M S A :=
  fun s => match m s with
           | (Ok a, s') => (Ok a, s')
           | (Throw e, s') => h e s'
           | (Unfinished, s') => (Unfinished, s')
           end.

(** A member function of a base class run on a derived object. *)
Definition lift {S T A} (proj : T -> S) (upd : S -> T -> T) (m : M S A) : M T A :=
  fun t => match m (proj t) with
           | (r, s') => (r, upd s' t)
           end.

(** [if (c) { m }] *)
Definition when {S} (c : bool) (m : M S unit) : M S unit :=
  if c then m else ret tt.

(** [for (x : l) { body x }], in the order of [l]. *)
Fixpoint for_each {S A} (l : list A) (body : A -> M S unit) : M S unit :=
  match l with
  | [] => ret tt
  | x :: l' => bind (body x) (fun _ => for_each l' body)
  end.

Declare Scope monad_scope.
Delimit Scope monad_scope with monad.
Notation "x <- m ;; k" := (bind m (fun x => k))
  (at level 61, m at next level, right associativity) : monad_scope.
Notation "m ;; k" := (bind m (fun _ => k))
  (at level 61, right associativity) : monad_scope.
Notation "' pat <- m ;; k" := (bind m (fun x => match x with pat => k end))
  (at level 61, pat pattern, m at next level, right associativity) : monad_scope.
Open Scope monad_scope.

Definition unfinished {S A} : M S A := fun s => (Unfinished, s).

(** ** Dense matrices and vectors (Eigen) *)

Module Eigen.

Open Scope float_scope.

(** [Eigen::VectorXd] *)
Definition VectorXd := list float.

(** [Eigen::MatrixXd]: coefficient (i, j) is stored at [i + j * rows]. *)
Record MatrixXd := { rows : nat; cols : nat; storage : list float }.

Definition coeff (m : MatrixXd) (i j : nat) : float :=
  nth (i + j * rows m) (storage m) 0.

(** The [r] by [c] matrix whose coefficient (i, j) is [f i j]. *)
Definition generate (r c : nat) (f : nat -> nat -> float) : MatrixXd :=
  {| rows := r; cols := c;
     storage := flat_map (fun j => map (fun i => f i j) (seq 0 r)) (seq 0 c) |}.

(** A default-constructed matrix, 0 by 0. *)
Definition empty : MatrixXd := {| rows := 0; cols := 0; storage := [] |}.

Definition size (m : MatrixXd) : nat := (rows m * cols m)%nat.

Definition Zero (r c : nat) : MatrixXd := generate r c (fun _ _ => 0).

Definition vcoeff (v : VectorXd) (i : nat) : float := nth i v 0.

Definition vgenerate (n : nat) (f : nat -> float) : VectorXd := map f (seq 0 n).

Definition vZero (n : nat) : VectorXd := vgenerate n (fun _ => 0).

(** Sums run in index order. *)
Definition sum (n : nat) (f : nat -> float) : float :=
  fold_left (fun acc k => acc + f k) (seq 0 n) 0.

Definition transpose (m : MatrixXd) : MatrixXd :=
  generate (cols m) (rows m) (fun i j => coeff m j i).

(** [a * b] *)
Definition mul (a b : MatrixXd) : MatrixXd :=
  generate (rows a) (cols b)
    (fun i j => sum (cols a) (fun k => coeff a i k * coeff b k j)).

(** [a * v] *)
Definition mulv (a : MatrixXd) (v : VectorXd) : VectorXd :=
  vgenerate (rows a) (fun i => sum (cols a) (fun k => coeff a i k * vcoeff v k)).

(** [v.transpose() * w], a 1 by 1 product. *)
Definition dot (v w : VectorXd) : float :=
  sum (length v) (fun k => vcoeff v k * vcoeff w k).

(** [d.asDiagonal() * a]: row i of [a] scaled by [d(i)]. *)
Definition diag_mul (d : VectorXd) (a : MatrixXd) : MatrixXd :=
  generate (length d) (cols a) (fun i j => vcoeff d i * coeff a i j).

(** [a * d.asDiagonal()]: column j of [a] scaled by [d(j)]. *)
Definition mul_diag (a : MatrixXd) (d : VectorXd) : MatrixXd :=
  generate (rows a) (length d) (fun i j => coeff a i j * vcoeff d j).

(** [d.asDiagonal() * v] *)
Definition diag_mulv (d v : VectorXd) : VectorXd :=
  vgenerate (length d) (fun i => vcoeff d i * vcoeff v i).

(** [a + b] *)
Definition add (a b : MatrixXd) : MatrixXd :=
  generate (rows a) (cols a) (fun i j => coeff a i j + coeff b i j).

(** [s * a] *)
Definition scale (s : float) (a : MatrixXd) : MatrixXd :=
  generate (rows a) (cols a) (fun i j => s * coeff a i j).

(** [a * s] *)
Definition scale_r (a : MatrixXd) (s : float) : MatrixXd :=
  generate (rows a) (cols a) (fun i j => coeff a i j * s).

(** [s * v] *)
Definition vscale (s : float) (v : VectorXd) : VectorXd :=
  vgenerate (length v) (fun i => s * vcoeff v i).

(** [v * w.transpose()] *)
Definition outer (v w : VectorXd) : MatrixXd :=
  generate (length v) (length w) (fun i j => vcoeff v i * vcoeff w j).

(** [w.transpose()] as a 1 by n matrix. *)
Definition row_of (w : VectorXd) : MatrixXd :=
  generate 1 (length w) (fun _ j => vcoeff w j).

Definition trace (a : MatrixXd) : float :=
  sum (rows a) (fun i => coeff a i i).

(** [a.array().inverse().matrix()] *)
Definition array_inverse (a : MatrixXd) : MatrixXd :=
  generate (rows a) (cols a) (fun i j => 1 / coeff a i j).

Definition varray_inverse (v : VectorXd) : VectorXd :=
  map (fun x => 1 / x) v.

(** [a.block(i0, j0, h, w)] *)
Definition block (a : MatrixXd) (i0 j0 h w : nat) : MatrixXd :=
  generate h w (fun i j => coeff a (i0 + i) (j0 + j)).

(** [a.resize(r, c)] with [r * c] the size [a] has: the storage is kept. *)
Definition resize (a : MatrixXd) (r c : nat) : MatrixXd :=
  {| rows := r; cols := c; storage := storage a |}.

(** [a.col(j)] *)
Definition col (a : MatrixXd) (j : nat) : VectorXd :=
  vgenerate (rows a) (fun i => coeff a i j).

(** [a.col(j) = v] *)
Definition set_col (a : MatrixXd) (j : nat) (v : VectorXd) : MatrixXd :=
  generate (rows a) (cols a)
    (fun i k => if (k =? j)%nat then vcoeff v i else coeff a i k).

(** [a.col(j).fill(x)] *)
Definition fill_col (a : MatrixXd) (j : nat) (x : float) : MatrixXd :=
  generate (rows a) (cols a)
    (fun i k => if (k =? j)%nat then x else coeff a i k).

(** [a(i, j) = x] *)
Definition set_coeff (a : MatrixXd) (i j : nat) (x : float) : MatrixXd :=
  generate (rows a) (cols a)
    (fun r c => if ((r =? i) && (c =? j))%nat then x else coeff a r c).

(** [v(i) = x] *)
Definition vset (v : VectorXd) (i : nat) (x : float) : VectorXd :=
  vgenerate (length v) (fun k => if (k =? i)%nat then x else vcoeff v k).

Definition in_block (i0 j0 h w i j : nat) : bool :=
  ((i0 <=? i) && (i <? i0 + h) && (j0 <=? j) && (j <? j0 + w))%nat.

(** [a.block(i0, j0, h, w) += b] *)
Definition block_add (a : MatrixXd) (i0 j0 h w : nat) (b : MatrixXd) : MatrixXd :=
  generate (rows a) (cols a)
    (fun i j => if in_block i0 j0 h w i j
                then coeff a i j + coeff b (i - i0) (j - j0)
                else coeff a i j).

(** [v.segment(i0, n) += w] *)
Definition segment_add (v : VectorXd) (i0 n : nat) (w : VectorXd) : VectorXd :=
  vgenerate (length v)
    (fun i => if ((i0 <=? i) && (i <? i0 + n))%nat
              then vcoeff v i + vcoeff w (i - i0)
              else vcoeff v i).

(** [b.triangularView<Eigen::Upper>()] read as a dense operand: the strictly
    lower part is zero. *)
Definition triangularView_Upper (b : MatrixXd) : MatrixXd :=
  generate (rows b) (cols b) (fun i j => if (i <=? j)%nat then coeff b i j else 0).

(** [v.maxCoeff()]: the visitor starts at the first coefficient and moves
    to a later one that is greater. Called on an empty vector it is
    undefined in C++; [nan] here. *)
Definition maxCoeff (v : VectorXd) : float :=
  match v with
  | [] => nan
  | x :: xs => fold_left (fun m y => if m <? y then y else m) xs x
  end.

(** [v.minCoeff()] *)
Definition minCoeff (v : VectorXd) : float :=
  match v with
  | [] => nan
  | x :: xs => fold_left (fun m y => if y <? m then y else m) xs x
  end.

End Eigen.
Import Eigen.

(** ** Images, boxes and functions (lsst::afw, lsst::geom, lsst::daf::base) *)

Module afw.

(** [lsst::geom::Box2I]: the corners are inclusive. *)
Record Box2I := { minX : Z; minY : Z; maxX : Z; maxY : Z }.

(** [afw::image::Image]: [array] is indexed [y] then [x], in LOCAL
    coordinates; ([x0], [y0]) is the origin in PARENT coordinates. *)
Record Image := {
  x0 : Z; y0 : Z;
  width : nat; height : nat;
  array : list (list float)
}.

Definition pixel (im : Image) (x y : nat) : float :=
  nth x (nth y (array im) []) 0%float.

(** [im.getBBox(afwImage::LOCAL)] *)
Definition getBBox_LOCAL (im : Image) : Box2I :=
  {| minX := 0; minY := 0;
     maxX := Z.of_nat (width im) - 1; maxY := Z.of_nat (height im) - 1 |}.

(** [im.getBBox()] *)
Definition getBBox (im : Image) : Box2I :=
  {| minX := x0 im; minY := y0 im;
     maxX := x0 im + Z.of_nat (width im) - 1;
     maxY := y0 im + Z.of_nat (height im) - 1 |}.

(** [afw::image::Mask] *)
Record Mask := {
  mask_x0 : Z; mask_y0 : Z;
  mask_width : nat; mask_height : nat;
  mask_array : list (list Z)
}.

(** [afw::image::MaskedImage] *)
Record MaskedImage := { getImage : Image; getMask : Mask; getVariance : Image }.

(** [afw::math::Function2<double>]: its parameters, and its value at
    (x, y) as a function of them. *)
Record SpatialFunction := {
  getParameters : list float;
  evaluate : list float -> float -> float -> float
}.

Definition setParameters (f : SpatialFunction) (p : list float) : SpatialFunction :=
  {| getParameters := p; evaluate := evaluate f |}.

(** The function applied at (x, y): [operator()(x, y)]. *)
Definition call (f : SpatialFunction) (x y : float) : float :=
  evaluate f (getParameters f) x y.

(** [daf::base::PropertySet] and [pex::policy::Policy], through their
    typed lookups. *)
Record PropertySet := {
  getAsBool : string -> bool;
  getAsDouble : string -> float;
  getAsString : string -> string;
  getAsInt : string -> Z
}.

(** [afw::math::LinearCombinationKernel] over basis kernels of type [K].
    afw refuses an empty basis list, so there is a first kernel. With a
    spatial function the coefficients are [spatialParameters], one row per
    basis kernel; without, [kernelParameters]. *)
Record LinearCombinationKernel (K : Type) := {
  firstKernel : K;
  otherKernels : list K;
  kernelParameters : list float;
  spatialFunction : option SpatialFunction;
  spatialParameters : list (list float)
}.

Definition getKernelList {K} (k : LinearCombinationKernel K) : list K :=
  firstKernel k :: otherKernels k.

(** [afw::math::SpatialCellCandidate::Status] *)
Inductive Status := BAD | GOOD | UNKNOWN.

End afw.
Import afw.

(** ** What the model takes from Eigen, afw and the compiler

    The decompositions of Eigen, and afw's kernels, convolution, statistics
    and footprints, by the results the code reads from them; and the order
    in which the arguments of a call are evaluated, where the code has
    arguments that can throw. *)

(** The four calls
    [getDifferenceImage(sol->getKernel(), sol->getBackground())] of
    [KernelCandidate::getDifferenceImage(cand)], by the branch they are in:
    for ORIG, for PCA, and for RECENT on the pca and on the original
    solution. *)
Inductive DifferenceImageCall :=
  | call_ORIG
  | call_PCA
  | call_RECENT_pca
  | call_RECENT_orig.

Class Externals := {
  (** [Eigen::FullPivLU<MatrixXd> lu(m)]: [lu.isInvertible()], [lu.solve(b)] *)
  FullPivLU_isInvertible : MatrixXd -> bool;
  FullPivLU_solve : MatrixXd -> VectorXd -> VectorXd;
  (** [Eigen::SelfAdjointEigenSolver<MatrixXd> s(m)]: [s.eigenvectors()] and
      [s.eigenvalues()], or the exception the step throws. *)
  SelfAdjointEigenSolver : MatrixXd -> exception + MatrixXd * VectorXd;
  (** [m.jacobiSvd().singularValues()], [m.jacobiSvd().matrixV()] *)
  jacobiSvd_singularValues : MatrixXd -> VectorXd;
  jacobiSvd_matrixV : MatrixXd -> MatrixXd;
  (** [m.inverse()] *)
  inverse : MatrixXd -> MatrixXd;
  (** [pow(x, y)] of the C library *)
  pow : float -> float -> float;

  (** [afw::math::Kernel], a basis kernel *)
  Kernel : Type;
  Kernel_shrinkBBox : Kernel -> Box2I -> Box2I;
  Kernel_getCtrX : Kernel -> Z;
  (** [afwMath::convolve(cimage, templateImage, kernel, false)]: the new
      contents of [cimage]. *)
  convolve : Image -> Image -> Kernel -> Image;
  (** [new LinearCombinationKernel(basisList, ...)] on an empty list: the
      exception the constructor is taken to throw (it is afw's code, which
      is not in this repository). *)
  LinearCombinationKernel_empty : exception;
  (** [k.computeImage(image, false)] of a linear combination, at the default
      position: the image written and the sum of its pixels, which is the
      value returned. *)
  computeImage : LinearCombinationKernel Kernel -> Image * float;
  (** [k.computeImage(image, false, x, y)] *)
  computeImage_at : LinearCombinationKernel Kernel -> float -> float -> Image * float;
  (** [afwMath::makeStatistics(im, MIN)] and [(im, MEDIAN)] *)
  makeStatistics_MIN : Image -> float;
  makeStatistics_MEDIAN : Image -> float;
  (** [a += b] and [a = x] on images *)
  Image_plus : Image -> Image -> Image;
  Image_assign : Image -> float -> Image;
  (** [Mask::getPlaneBitMask(name)] *)
  getPlaneBitMask : string -> Z;
  (** [afw::detection::FootprintSet]: from a mask and a bit-mask threshold,
      grown by a number of pixels, and written into a mask with a bit. *)
  FootprintSet : Type;
  FootprintSet_ofMask : Mask -> Z -> FootprintSet;
  FootprintSet_grow : FootprintSet -> Z -> FootprintSet;
  FootprintSet_setMask : FootprintSet -> Mask -> Z -> Mask;
  (** [convolveAndSubtract(template, science, kernel, background)] of
      ImageSubtract.cc. *)
  convolveAndSubtract :
    MaskedImage -> MaskedImage -> LinearCombinationKernel Kernel -> float -> MaskedImage;
  (** Whether [getKernel()] is evaluated before [getBackground()] where
      the two are the arguments of one call: C++ leaves the order of the
      arguments of a call to the compiler (g++ on x86-64 evaluates the last
      argument first). *)
  getKernel_first : DifferenceImageCall -> bool
}.

(** Modelled from the spec: imageToEigenMatrix (ImageSubtract.cc), the matrix
    view of an image in which element (row, col) is the pixel (x = col,
    y = row). *)
Definition imageToEigenMatrix (im : Image) : MatrixXd :=
  generate (height im) (width im) (fun r c => pixel im c r).

(** Conversion to [unsigned int]. *)
Definition to_unsigned (z : Z) : Z := z mod 2 ^ 32.

(** ** KernelSolution *)

Module KernelSolution.

Inductive KernelSolvedBy := NONE | LU | EIGENVECTOR.

(** A C++ enum also holds values that name no enumerator: [UNDEFINED v]. *)
Inductive ConditionNumberType := EIGENVALUE | SVD | UNDEFINED (v : Z).

Record t := {
  _id : Z;
  _mMat : MatrixXd;
  _bVec : VectorXd;
  _aVec : VectorXd;
  _solvedBy : KernelSolvedBy;
  _fitForBackground : bool
}.

Definition set_mMat (m : MatrixXd) (s : t) : t :=
  {| _id := _id s; _mMat := m; _bVec := _bVec s; _aVec := _aVec s;
     _solvedBy := _solvedBy s; _fitForBackground := _fitForBackground s |}.
Definition set_bVec (b : VectorXd) (s : t) : t :=
  {| _id := _id s; _mMat := _mMat s; _bVec := b; _aVec := _aVec s;
     _solvedBy := _solvedBy s; _fitForBackground := _fitForBackground s |}.
Definition set_aVec (a : VectorXd) (s : t) : t :=
  {| _id := _id s; _mMat := _mMat s; _bVec := _bVec s; _aVec := a;
     _solvedBy := _solvedBy s; _fitForBackground := _fitForBackground s |}.
Definition set_solvedBy (x : KernelSolvedBy) (s : t) : t :=
  {| _id := _id s; _mMat := _mMat s; _bVec := _bVec s; _aVec := _aVec s;
     _solvedBy := x; _fitForBackground := _fitForBackground s |}.
Definition set_fitForBackground (f : bool) (s : t) : t :=
  {| _id := _id s; _mMat := _mMat s; _bVec := _bVec s; _aVec := _aVec s;
     _solvedBy := _solvedBy s; _fitForBackground := f |}.

(** The constructors draw the identifier from the static counter
    [_SolutionId], which they increment first; they return the object and
    the counter. *)
Definition new_mb (SolutionId : Z) (mMat : MatrixXd) (bVec : VectorXd)
    (fitForBackground : bool) : t * Z :=
  ({| _id := SolutionId + 1; _mMat := mMat; _bVec := bVec; _aVec := [];
      _solvedBy := NONE; _fitForBackground := fitForBackground |},
   (SolutionId + 1)%Z).

Definition new_fit (SolutionId : Z) (fitForBackground : bool) : t * Z :=
  new_mb SolutionId empty [] fitForBackground.

Definition new (SolutionId : Z) : t * Z := new_fit SolutionId true.

Section WithExternals.
Context {E : Externals}.
Open Scope float_scope.

Definition undefined_type : exception :=
  LSST_EXCEPT InvalidParameterError
    (text "Undefined ConditionNumberType : only EIGENVALUE, SVD allowed.").

Definition unable_to_solve : exception :=
  LSST_EXCEPT Exception (text "Unable to determine kernel solution").

(** [getConditionNumber(mMat, conditionType)] *)
Definition getConditionNumber_m (mMat : MatrixXd)
    (conditionType : ConditionNumberType) : M t float :=
  match conditionType with
  | EIGENVALUE =>
      match SelfAdjointEigenSolver mMat with
      | inl e => throw e
      | inr (_, eValues) =>
          let eMax := maxCoeff eValues in
          let eMin := minCoeff eValues in
          ret (eMax / eMin)
      end
  | SVD =>
      let sValues := jacobiSvd_singularValues mMat in
      let sMax := maxCoeff sValues in
      let sMin := minCoeff sValues in
      ret (sMax / sMin)
  | UNDEFINED _ => throw undefined_type
  end.

(** [getConditionNumber(conditionType)] *)
Definition getConditionNumber (conditionType : ConditionNumberType) : M t float :=
  mMat <- gets _mMat ;;
  getConditionNumber_m mMat conditionType.

(** The loop of the last resort: every eigenvalue that is not zero is
    replaced by its reciprocal. *)
Definition invert_nonzero (eValues : VectorXd) : VectorXd :=
  map (fun e => if negb (e =? 0) then 1 / e else e) eValues.

(** [solve(mMat, bVec)] *)
Definition solve_mb (mMat : MatrixXd) (bVec : VectorXd) : M t unit :=
  modify (set_solvedBy LU) ;;
  aVec <-
    (if FullPivLU_isInvertible mMat then
       ret (FullPivLU_solve mMat bVec)
     else
       (* LAST RESORT *)
       try_catch
         (modify (set_solvedBy EIGENVECTOR) ;;
          match SelfAdjointEigenSolver mMat with
          | inl e => throw e
          | inr (rMat, eValues) =>
              let eValues := invert_nonzero eValues in
              ret (mulv (mul (mul_diag rMat eValues) (transpose rMat)) bVec)
          end)
         (fun _ =>
            modify (set_solvedBy NONE) ;;
            throw unable_to_solve)) ;;
  modify (set_aVec aVec).

(** [solve()] *)
Definition solve : M t unit :=
  mMat <- gets _mMat ;;
  bVec <- gets _bVec ;;
  solve_mb mMat bVec.

End WithExternals.

End KernelSolution.

(** ** StaticKernelSolution *)

Module StaticKernelSolution.

Import KernelSolution.

Section WithExternals.
Context {E : Externals}.
Open Scope float_scope.

Record t := {
  base : KernelSolution.t;
  _cMat : MatrixXd;
  _iVec : VectorXd;
  _ivVec : VectorXd;
  _kernel : LinearCombinationKernel Kernel;
  _background : float;
  _kSum : float
}.

Definition set_base (b : KernelSolution.t) (s : t) : t :=
  {| base := b; _cMat := _cMat s; _iVec := _iVec s; _ivVec := _ivVec s;
     _kernel := _kernel s; _background := _background s; _kSum := _kSum s |}.
Definition set_cMat (c : MatrixXd) (s : t) : t :=
  {| base := base s; _cMat := c; _iVec := _iVec s; _ivVec := _ivVec s;
     _kernel := _kernel s; _background := _background s; _kSum := _kSum s |}.
Definition set_iVec (v : VectorXd) (s : t) : t :=
  {| base := base s; _cMat := _cMat s; _iVec := v; _ivVec := _ivVec s;
     _kernel := _kernel s; _background := _background s; _kSum := _kSum s |}.
Definition set_ivVec (v : VectorXd) (s : t) : t :=
  {| base := base s; _cMat := _cMat s; _iVec := _iVec s; _ivVec := v;
     _kernel := _kernel s; _background := _background s; _kSum := _kSum s |}.
Definition set_kernel (k : LinearCombinationKernel Kernel) (s : t) : t :=
  {| base := base s; _cMat := _cMat s; _iVec := _iVec s; _ivVec := _ivVec s;
     _kernel := k; _background := _background s; _kSum := _kSum s |}.
Definition set_background (x : float) (s : t) : t :=
  {| base := base s; _cMat := _cMat s; _iVec := _iVec s; _ivVec := _ivVec s;
     _kernel := _kernel s; _background := x; _kSum := _kSum s |}.
Definition set_kSum (x : float) (s : t) : t :=
  {| base := base s; _cMat := _cMat s; _iVec := _iVec s; _ivVec := _ivVec s;
     _kernel := _kernel s; _background := _background s; _kSum := x |}.

(** A member function of KernelSolution run on this object. *)
Definition super {A} (m : M KernelSolution.t A) : M t A := lift base set_base m.

(** [_kernel->setKernelParameters(kValues)] *)
Definition setKernelParameters (kValues : list float)
    (k : LinearCombinationKernel Kernel) : LinearCombinationKernel Kernel :=
  {| firstKernel := firstKernel k; otherKernels := otherKernels k;
     kernelParameters := kValues;
     spatialFunction := spatialFunction k;
     spatialParameters := spatialParameters k |}.

(** [StaticKernelSolution(basisList, fitForBackground)]: the object, or the
    exception of afw on an empty basis list, and the static counter. *)
Definition new (SolutionId : Z) (basisList : list Kernel)
    (fitForBackground : bool) : result t * Z :=
  let (b, SolutionId) := KernelSolution.new_fit SolutionId fitForBackground in
  match basisList with
  | [] => (Throw LinearCombinationKernel_empty, SolutionId)
  | k0 :: ks =>
      (Ok {| base := b; _cMat := empty; _iVec := []; _ivVec := [];
             _kernel := {| firstKernel := k0; otherKernels := ks;
                           kernelParameters := repeat 0 (length basisList);
                           spatialFunction := None;
                           spatialParameters := [] |};
             _background := 0; _kSum := 0 |},
       SolutionId)
  end.

Definition not_solved (m : string) : exception :=
  LSST_EXCEPT Exception (text m).

Definition getKernel : M t (LinearCombinationKernel Kernel) :=
  solvedBy <- gets (fun s => _solvedBy (base s)) ;;
  match solvedBy with
  | NONE => throw (not_solved "Kernel not solved; cannot return solution")
  | _ => gets _kernel
  end.

Definition makeKernelImage : M t Image :=
  solvedBy <- gets (fun s => _solvedBy (base s)) ;;
  match solvedBy with
  | NONE => throw (not_solved "Kernel not solved; cannot return image")
  | _ => kernel <- gets _kernel ;; ret (fst (computeImage kernel))
  end.

Definition getBackground : M t float :=
  solvedBy <- gets (fun s => _solvedBy (base s)) ;;
  match solvedBy with
  | NONE => throw (not_solved "Kernel not solved; cannot return background")
  | _ => gets _background
  end.

Definition getKsum : M t float :=
  solvedBy <- gets (fun s => _solvedBy (base s)) ;;
  match solvedBy with
  | NONE => throw (not_solved "Kernel not solved; cannot return ksum")
  | _ => gets _kSum
  end.

Definition getSolutionPair : M t (LinearCombinationKernel Kernel * float) :=
  solvedBy <- gets (fun s => _solvedBy (base s)) ;;
  match solvedBy with
  | NONE => throw (not_solved "Kernel not solved; cannot return solution")
  | _ => kernel <- gets _kernel ;; background <- gets _background ;;
         ret (kernel, background)
  end.

(** The rows and columns of the good region, as the block arguments
    [(startRow, startCol, endRow - startRow, endCol - startCol)]. The
    coordinates are [unsigned int]; [endCol] and [endRow] are one past
    the last good column and row. *)
Definition goodBlock (goodBBox : Box2I) : nat * nat * nat * nat :=
  let startCol := to_unsigned (minX goodBBox) in
  let startRow := to_unsigned (minY goodBBox) in
  let endCol := to_unsigned (maxX goodBBox + 1) in
  let endRow := to_unsigned (maxY goodBBox + 1) in
  (Z.to_nat startRow, Z.to_nat startCol,
   Z.to_nat (to_unsigned (endRow - startRow)),
   Z.to_nat (to_unsigned (endCol - startCol))).

(** [imageToEigenMatrix(im).block(startRow, startCol, endRow - startRow,
    endCol - startCol)] *)
Definition goodPixels (im : Image) (b : nat * nat * nat * nat) : MatrixXd :=
  let '(startRow, startCol, nRows, nCols) := b in
  block (imageToEigenMatrix im) startRow startCol nRows nCols.

(** [m.resize(m.rows() * m.cols(), 1)] *)
Definition to_column (m : MatrixXd) : MatrixXd :=
  resize m (rows m * cols m) 1.

(** An image of the given dimensions, as its constructor leaves it. *)
Definition blank (w h : nat) : Image :=
  {| x0 := 0; y0 := 0; width := w; height := h;
     array := repeat (repeat 0 w) h |}.

(** The loop that convolves the template with each basis kernel: [cimage]
    is reused from one kernel to the next. *)
Fixpoint convolveBasis (cimage templateImage : Image) (basisList : list Kernel)
    (b : nat * nat * nat * nat) : list MatrixXd :=
  match basisList with
  | [] => []
  | k :: rest =>
      let cimage := convolve cimage templateImage k in
      let cMat := to_column (goodPixels cimage b) in
      cMat :: convolveBasis cimage templateImage rest b
  end.

(** The loop [cMat.col(kidxj) = eiterj->col(0)], from column [kidxj] on. *)
Fixpoint loadColumns (cMat : MatrixXd) (kidxj : nat) (l : list MatrixXd) : MatrixXd :=
  match l with
  | [] => cMat
  | c :: rest => loadColumns (set_col cMat kidxj (col c 0)) (S kidxj) rest
  end.

Definition variance_negative : exception :=
  LSST_EXCEPT Exception (text "Error: variance less than 0.0").
Definition variance_zero : exception :=
  LSST_EXCEPT Exception
    (text "Error: variance equals 0.0, cannot inverse variance weight").

(** [build(templateImage, scienceImage, varianceEstimate)] *)
Definition build (templateImage scienceImage varianceEstimate : Image) : M t unit :=
  let varStats := makeStatistics_MIN varianceEstimate in
  if varStats <? 0 then throw variance_negative
  else if varStats =? 0 then throw variance_zero
  else
    kernel <- gets _kernel ;;
    fitForBackground <- gets (fun s => _fitForBackground (base s)) ;;
    let basisList := getKernelList kernel in
    let nKernelParameters := length basisList in
    let nBackgroundParameters := if fitForBackground then 1%nat else 0%nat in
    let nParameters := (nKernelParameters + nBackgroundParameters)%nat in
    let goodBBox := Kernel_shrinkBBox (firstKernel kernel) (getBBox_LOCAL templateImage) in
    let b := goodBlock goodBBox in
    let eigenTemplate := to_column (goodPixels templateImage b) in
    let eigenScience := to_column (goodPixels scienceImage b) in
    let eigeniVariance := to_column (array_inverse (goodPixels varianceEstimate b)) in
    let cimage := blank (width templateImage) (height templateImage) in
    let convolvedEigenList := convolveBasis cimage templateImage basisList b in
    let cMat := Zero (length (col eigenTemplate 0)) nParameters in
    let cMat := loadColumns cMat 0 convolvedEigenList in
    let cMat := if fitForBackground then fill_col cMat (nParameters - 1) 1 else cMat in
    modify (set_cMat cMat) ;;
    modify (set_ivVec (col eigeniVariance 0)) ;;
    modify (set_iVec (col eigenScience 0)) ;;
    (* Make these outside of solve() so I can check condition number *)
    s <- get ;;
    super (modify (set_mMat (mul (transpose (_cMat s)) (diag_mul (_ivVec s) (_cMat s))))) ;;
    super (modify (set_bVec (mulv (transpose (_cMat s)) (diag_mulv (_ivVec s) (_iVec s))))).

(** The loops that copy coefficients out of [_aVec]: the first NaN met
    throws the exception [err] makes for its index. *)
Fixpoint copy_coefficients (err : nat -> exception) (aVec : VectorXd)
    (idxs : list nat) : exception + list float :=
  match idxs with
  | [] => inr []
  | idx :: rest =>
      if is_nan (vcoeff aVec idx) then inl (err idx)
      else match copy_coefficients err aVec rest with
           | inr l => inr (vcoeff aVec idx :: l)
           | inl e => inl e
           end
  end.

Definition of_sum {S A} (r : exception + A) : M S A :=
  match r with inr a => ret a | inl e => throw e end.

Definition kernel_nan (idx : nat) : exception :=
  LSST_EXCEPT Exception
    {| format := "Unable to determine kernel solution %d (nan)";
       operands := [ArgInt (Z.of_nat idx)] |}.
Definition background_nan (idx : nat) : exception :=
  LSST_EXCEPT Exception
    {| format := "Unable to determine background solution %d (nan)";
       operands := [ArgInt (Z.of_nat idx)] |}.

(** [_setKernel()] *)
Definition _setKernel : M t unit :=
  solvedBy <- gets (fun s => _solvedBy (base s)) ;;
  match solvedBy with
  | NONE => throw (not_solved "Kernel not solved; cannot make solution")
  | _ =>
      aVec <- gets (fun s => _aVec (base s)) ;;
      fitForBackground <- gets (fun s => _fitForBackground (base s)) ;;
      kernel <- gets _kernel ;;
      let nParameters := length aVec in
      let nBackgroundParameters := if fitForBackground then 1%nat else 0%nat in
      let nKernelParameters := length (getKernelList kernel) in
      if negb (nParameters =? nKernelParameters + nBackgroundParameters)%nat then
        throw (LSST_EXCEPT Exception (text "Mismatched sizes in kernel solution"))
      else
        (* Fill in the kernel results *)
        kValues <- of_sum (copy_coefficients kernel_nan aVec (seq 0 nKernelParameters)) ;;
        modify (set_kernel (setKernelParameters kValues kernel)) ;;
        kernel <- gets _kernel ;;
        modify (set_kSum (snd (computeImage kernel))) ;;
        when fitForBackground
          (if is_nan (vcoeff aVec (nParameters - 1)) then
             throw (background_nan (nParameters - 1))
           else modify (set_background (vcoeff aVec (nParameters - 1))))
  end.

(** [solve()] *)
Definition solve : M t unit :=
  try_catch (super KernelSolution.solve)
    (fun e => throw (rethrown (LSST_EXCEPT_ADD e "Unable to solve static kernel matrix"))) ;;
  (* Turn matrices into _kernel and _background *)
  _setKernel.

(** [getConditionNumber(conditionType)], inherited. *)
Definition getConditionNumber (conditionType : ConditionNumberType) : M t float :=
  super (KernelSolution.getConditionNumber conditionType).

End WithExternals.

End StaticKernelSolution.

(** ** MaskedKernelSolution *)

Module MaskedKernelSolution.

Import KernelSolution StaticKernelSolution.

Section WithExternals.
Context {E : Externals}.
Open Scope float_scope.

(** The integers from [lo] up to [lo + n - 1]. *)
Definition Zseq (lo : Z) (n : nat) : list Z :=
  map (fun k => (lo + Z.of_nat k)%Z) (seq 0 n).

(** [fp->getSpans()->flatten(out, array, xy0)] for the footprint of a
    box: the pixels of the box row by row, each read from [array] at its
    position relative to [xy0]. *)
Definition flatten {A} (d : A) (box : Box2I) (arr : list (list A)) (ox oy : Z) : list A :=
  flat_map
    (fun y => map (fun x => nth (Z.to_nat (x - ox)) (nth (Z.to_nat (y - oy)) arr []) d)
                  (Zseq (minX box) (Z.to_nat (maxX box - minX box + 1))))
    (Zseq (minY box) (Z.to_nat (maxY box - minY box + 1))).

(** The loops that keep the entries of [v] where the mask is zero. *)
Fixpoint select_good {A} (maskEigen : list Z) (v : list A) : list A :=
  match maskEigen, v with
  | m :: ms, x :: xs =>
      if (m =? 0)%Z then x :: select_good ms xs else select_good ms xs
  | _, _ => []
  end.

(** The convolution loop of [buildWithMask]. *)
Fixpoint convolveBasisMasked (cimage templateImage : Image) (basisList : list Kernel)
    (fullBox : Box2I) (maskEigen : list Z) : list VectorXd :=
  match basisList with
  | [] => []
  | k :: rest =>
      let cimage := convolve cimage templateImage k in
      let eigenC0 := flatten 0 fullBox (array cimage) (x0 cimage) (y0 cimage) in
      let eigenC := select_good maskEigen eigenC0 in
      eigenC :: convolveBasisMasked cimage templateImage rest fullBox maskEigen
  end.

(** The loop [cMat.block(0, kidxj, n, 1) = MatrixXd( *eiterj ).block(0, 0, n, 1)]. *)
Fixpoint loadVectors (cMat : MatrixXd) (kidxj : nat) (l : list VectorXd) : MatrixXd :=
  match l with
  | [] => cMat
  | c :: rest => loadVectors (set_col cMat kidxj c) (S kidxj) rest
  end.

(** A mask of the dimensions of [m], all zero. *)
Definition blank_mask (m : Mask) : Mask :=
  {| mask_x0 := 0; mask_y0 := 0;
     mask_width := mask_width m; mask_height := mask_height m;
     mask_array := repeat (repeat 0%Z (mask_width m)) (mask_height m) |}.

(** [buildWithMask(templateImage, scienceImage, varianceEstimate, pixelMask)].
    The two masks it writes to FITS files are left out. *)
Definition buildWithMask (templateImage scienceImage varianceEstimate : Image)
    (pixelMask : Mask) : M t unit :=
  let varStats := makeStatistics_MIN varianceEstimate in
  if varStats <? 0 then throw variance_negative
  else if varStats =? 0 then throw variance_zero
  else
    (* Full footprint of all input images *)
    let fullFp := getBBox templateImage in
    kernel <- gets _kernel ;;
    fitForBackground <- gets (fun s => _fitForBackground (base s)) ;;
    let basisList := getKernelList kernel in
    let bitMask :=
      Z.lor (Z.lor (Z.lor (getPlaneBitMask "BAD") (getPlaneBitMask "SAT"))
                   (getPlaneBitMask "NO_DATA"))
            (getPlaneBitMask "EDGE") in
    (* Create a Footprint that contains all the masked pixels set above *)
    let maskFpSet := FootprintSet_ofMask pixelMask bitMask in
    (* And spread it by the kernel half width *)
    let growPix := Kernel_getCtrX (firstKernel kernel) in
    let maskedFpSetGrown := FootprintSet_grow maskFpSet growPix in
    let finalMask :=
      FootprintSet_setMask maskedFpSetGrown (blank_mask pixelMask) (getPlaneBitMask "BAD") in
    let maskEigen :=
      flatten 0%Z fullFp (mask_array finalMask) (x0 templateImage) (y0 templateImage) in
    let eigenTemplate0 :=
      flatten 0 fullFp (array templateImage) (x0 templateImage) (y0 templateImage) in
    let eigenScience0 :=
      flatten 0 fullFp (array scienceImage) (x0 scienceImage) (y0 scienceImage) in
    let eigenVariance0 :=
      flatten 0 fullFp (array varianceEstimate) (x0 varianceEstimate) (y0 varianceEstimate) in
    let eigenTemplate := select_good maskEigen eigenTemplate0 in
    let eigenScience := select_good maskEigen eigenScience0 in
    let eigenVariance := select_good maskEigen eigenVariance0 in
    let nKernelParameters := length basisList in
    let nBackgroundParameters := if fitForBackground then 1%nat else 0%nat in
    let nParameters := (nKernelParameters + nBackgroundParameters)%nat in
    let cimage := blank (width templateImage) (height templateImage) in
    let convolvedEigenList :=
      convolveBasisMasked cimage templateImage basisList fullFp maskEigen in
    (* Load matrix with all convolved images *)
    let cMat := Zero (length eigenTemplate) nParameters in
    let cMat := loadVectors cMat 0 convolvedEigenList in
    let cMat := if fitForBackground then fill_col cMat (nParameters - 1) 1 else cMat in
    modify (set_cMat cMat) ;;
    modify (set_ivVec (varray_inverse eigenVariance)) ;;
    modify (set_iVec eigenScience) ;;
    s <- get ;;
    super (modify (set_mMat (mul (mul_diag (transpose (_cMat s)) (_ivVec s)) (_cMat s)))) ;;
    super (modify (set_bVec (mulv (mul_diag (transpose (_cMat s)) (_ivVec s)) (_iVec s)))).

End WithExternals.

End MaskedKernelSolution.

(** ** RegularizedKernelSolution *)

Module RegularizedKernelSolution.

Import KernelSolution.

Section WithExternals.
Context {E : Externals}.
Open Scope float_scope.

(** [_lambda] has no initializer: [None] until [solve] assigns it. *)
Record t := {
  static : StaticKernelSolution.t;
  _hMat : MatrixXd;
  _lambda : option float;
  _policy : PropertySet
}.

Definition set_static (x : StaticKernelSolution.t) (s : t) : t :=
  {| static := x; _hMat := _hMat s; _lambda := _lambda s; _policy := _policy s |}.
Definition set_lambda (l : float) (s : t) : t :=
  {| static := static s; _hMat := _hMat s; _lambda := Some l; _policy := _policy s |}.

(** Member functions of the two base classes run on this object. *)
Definition super {A} (m : M StaticKernelSolution.t A) : M t A :=
  lift static set_static m.
Definition super2 {A} (m : M KernelSolution.t A) : M t A :=
  super (StaticKernelSolution.super m).

Definition new (SolutionId : Z) (basisList : list Kernel) (fitForBackground : bool)
    (hMat : MatrixXd) (policy : PropertySet) : result t * Z :=
  match StaticKernelSolution.new SolutionId basisList fitForBackground with
  | (Ok x, SolutionId) =>
      (Ok {| static := x; _hMat := hMat; _lambda := None; _policy := policy |},
       SolutionId)
  | (Throw e, SolutionId) => (Throw e, SolutionId)
  | (Unfinished, SolutionId) => (Unfinished, SolutionId)
  end.

(** [for (double l = lMin; l <= lMax; l += lStep) lambdas.push_back(f l)].
    The loop ends when [l] passes [lMax], which a step that is not
    positive never brings about: [fuel] bounds the iterations, and [None]
    is the loop still running when it is spent. *)
Fixpoint lambdaLoop (fuel : nat) (f : float -> float) (l lMax lStep : float)
    : option (list float) :=
  match fuel with
  | O => None
  | S fuel =>
      if l <=? lMax then
        match lambdaLoop fuel f (l + lStep) lMax lStep with
        | Some ls => Some (f l :: ls)
        | None => None
        end
      else Some []
  end.

(** [_createLambdaSteps()] *)
Definition _createLambdaSteps (fuel : nat) : M t (list float) :=
  policy <- gets _policy ;;
  let lambdaStepType := getAsString policy "lambdaStepType" in
  if String.eqb lambdaStepType "linear" then
    let lambdaLinMin := getAsDouble policy "lambdaLinMin" in
    let lambdaLinMax := getAsDouble policy "lambdaLinMax" in
    let lambdaLinStep := getAsDouble policy "lambdaLinStep" in
    match lambdaLoop fuel (fun l => l) lambdaLinMin lambdaLinMax lambdaLinStep with
    | Some lambdas => ret lambdas
    | None => unfinished
    end
  else if String.eqb lambdaStepType "log" then
    let lambdaLogMin := getAsDouble policy "lambdaLogMin" in
    let lambdaLogMax := getAsDouble policy "lambdaLogMax" in
    let lambdaLogStep := getAsDouble policy "lambdaLogStep" in
    match lambdaLoop fuel (fun l => pow 10 l) lambdaLogMin lambdaLogMax lambdaLogStep with
    | Some lambdas => ret lambdas
    | None => unfinished
    end
  else
    throw (LSST_EXCEPT Exception (text "lambdaStepType in Policy not recognized")).

(** The truncated reciprocals of [estimateRisk]. *)
Definition truncate_inverse (eMax maxCond : float) (eValues : VectorXd) : VectorXd :=
  map (fun e => if e =? 0 then 0
                else if maxCond <? eMax / e then 0
                else 1 / e) eValues.

Definition size_mismatch : exception :=
  LSST_EXCEPT Exception (text "Matrix size mismatch").

(** The loop of [estimateRisk] over the values of lambda: each one is
    solved for, which leaves its coefficients in [_aVec]. *)
Fixpoint risks_of (vMatvMatT mInv : MatrixXd) (lambdas : list float)
    : M t (list float) :=
  match lambdas with
  | [] => ret []
  | l :: rest =>
      s <- get ;;
      let mMat := _mMat (StaticKernelSolution.base (static s)) in
      let bVec := _bVec (StaticKernelSolution.base (static s)) in
      let mLambda := add mMat (scale l (_hMat s)) in
      try_catch (super2 (solve_mb mLambda bVec))
        (fun e => throw (rethrown
           (LSST_EXCEPT_ADD e "Unable to solve regularized kernel matrix"))) ;;
      aVec <- gets (fun s => _aVec (StaticKernelSolution.base (static s))) ;;
      let term1 := mulv (mul (row_of aVec) vMatvMatT) aVec in
      if negb (length term1 =? 1)%nat then throw size_mismatch
      else
        let term2a := trace (mul vMatvMatT (inverse mLambda)) in
        let term2b := mulv (row_of aVec) (mulv mInv bVec) in
        if negb (length term2b =? 1)%nat then throw size_mismatch
        else
          let risk := vcoeff term1 0 + 2 * (term2a - vcoeff term2b 0) in
          risks <- risks_of vMatvMatT mInv rest ;;
          ret (risk :: risks)
  end.

(** [distance(v.begin(), min_element(v.begin(), v.end()))]: the index of
    the first element no later one is less than. *)
Definition min_element_index (v : list float) : nat :=
  match v with
  | [] => 0%nat
  | x :: xs =>
      fst (fst (fold_left
                  (fun '(best, bestv, i) y =>
                     if y <? bestv then (i, y, S i) else (best, bestv, S i))
                  xs (0%nat, x, 1%nat)))
  end.

(** [estimateRisk(maxCond)] *)
Definition estimateRisk (fuel : nat) (maxCond : float) : M t float :=
  s <- get ;;
  let vMat := jacobiSvd_matrixV (StaticKernelSolution._cMat (static s)) in
  let vMatvMatT := mul vMat (transpose vMat) in
  (* Find pseudo inverse of mMat, which may be ill conditioned *)
  match SelfAdjointEigenSolver (_mMat (StaticKernelSolution.base (static s))) with
  | inl e => throw e
  | inr (rMat, eValues) =>
      let eMax := maxCoeff eValues in
      let eValues := truncate_inverse eMax maxCond eValues in
      let mInv := mul (mul_diag rMat eValues) (transpose rMat) in
      lambdas <- _createLambdaSteps fuel ;;
      risks <- risks_of vMatvMatT mInv lambdas ;;
      let index := min_element_index risks in
      ret (vcoeff lambdas index)
  end.

(** [std::numeric_limits<double>::max()] *)
Definition DBL_MAX : float := 0x1.fffffffffffffp+1023.

Definition lambdaType_not_recognized : exception :=
  LSST_EXCEPT Exception (text "lambdaType in Policy not recognized").

(** The choice of [_lambda] in [solve]. *)
Definition chooseLambda (fuel : nat) : M t unit :=
  s <- get ;;
  let policy := _policy s in
  let lambdaType := getAsString policy "lambdaType" in
  if String.eqb lambdaType "absolute" then
    modify (set_lambda (getAsDouble policy "lambdaValue"))
  else if String.eqb lambdaType "relative" then
    let lambda := trace (_mMat (StaticKernelSolution.base (static s)))
                  / trace (_hMat s) in
    modify (set_lambda (lambda * getAsDouble policy "lambdaScaling"))
  else if String.eqb lambdaType "minimizeBiasedRisk" then
    let tol := getAsDouble policy "maxConditionNumber" in
    lambda <- estimateRisk fuel tol ;;
    modify (set_lambda lambda)
  else if String.eqb lambdaType "minimizeUnbiasedRisk" then
    lambda <- estimateRisk fuel DBL_MAX ;;
    modify (set_lambda lambda)
  else
    throw lambdaType_not_recognized.

(** The value read from [_lambda]; before [solve] has assigned it the
    C++ value is indeterminate, [nan] here. *)
Definition lambda_of (s : t) : float :=
  match _lambda s with Some l => l | None => nan end.

(** The object once [solve] has formed [_mMat] and [_bVec] again from
    [_cMat], [_ivVec] and [_iVec]. *)
Definition with_normal_equations (s : t) : t :=
  let cMat := StaticKernelSolution._cMat (static s) in
  let ivVec := StaticKernelSolution._ivVec (static s) in
  let iVec := StaticKernelSolution._iVec (static s) in
  let b := StaticKernelSolution.base (static s) in
  let b := set_mMat (mul (mul_diag (transpose cMat) ivVec) cMat) b in
  let b := set_bVec (mulv (mul_diag (transpose cMat) ivVec) iVec) b in
  set_static (StaticKernelSolution.set_base b (static s)) s.

Definition rethrow_static (e : exception) : exception :=
  rethrown (LSST_EXCEPT_ADD e "Unable to solve static kernel matrix").

(** The end of [solve], from the value [l] of [_lambda] on: the base
    solver on M + lambda H and b, then the coefficients made into a kernel. *)
Definition solve_system (l : float) : M t unit :=
  s <- get ;;
  try_catch
    (super2 (solve_mb
               (add (_mMat (StaticKernelSolution.base (static s))) (scale l (_hMat s)))
               (_bVec (StaticKernelSolution.base (static s)))))
    (fun e => throw (rethrow_static e)) ;;
  (* Turn matrices into _kernel and _background *)
  super StaticKernelSolution._setKernel.

(** [solve()] *)
Definition solve (fuel : nat) : M t unit :=
  modify with_normal_equations ;;
  chooseLambda fuel ;;
  s <- get ;;
  solve_system (lambda_of s).

(** [getM(includeHmat)] *)
Definition getM (includeHmat : bool) : M t MatrixXd :=
  s <- get ;;
  if includeHmat then
    ret (add (_mMat (StaticKernelSolution.base (static s)))
             (scale (lambda_of s) (_hMat s)))
  else ret (_mMat (StaticKernelSolution.base (static s))).

End WithExternals.

End RegularizedKernelSolution.

(** ** SpatialKernelSolution *)

Module SpatialKernelSolution.

Import KernelSolution.

(** The integers [lo], [lo + 1], ..., below [hi]: the values a loop
    [for (int m = lo; m < hi; m++)] takes. *)
Definition Zrange (lo hi : Z) : list Z :=
  map (fun k => (lo + Z.of_nat k)%Z) (seq 0 (Z.to_nat (hi - lo))).

Section WithExternals.
Context {E : Externals}.
Open Scope float_scope.

Record t := {
  base : KernelSolution.t;
  _spatialKernelFunction : SpatialFunction;
  _constantFirstTerm : bool;
  _kernel : LinearCombinationKernel Kernel;
  _background : SpatialFunction;
  _kSum : float;
  _policy : PropertySet;
  _nbases : Z;
  _nkt : Z;
  _nbt : Z;
  _nt : Z
}.

Definition set_base (b : KernelSolution.t) (s : t) : t :=
  {| base := b; _spatialKernelFunction := _spatialKernelFunction s;
     _constantFirstTerm := _constantFirstTerm s; _kernel := _kernel s;
     _background := _background s; _kSum := _kSum s; _policy := _policy s;
     _nbases := _nbases s; _nkt := _nkt s; _nbt := _nbt s; _nt := _nt s |}.
Definition set_spatialKernelFunction (f : SpatialFunction) (s : t) : t :=
  {| base := base s; _spatialKernelFunction := f;
     _constantFirstTerm := _constantFirstTerm s; _kernel := _kernel s;
     _background := _background s; _kSum := _kSum s; _policy := _policy s;
     _nbases := _nbases s; _nkt := _nkt s; _nbt := _nbt s; _nt := _nt s |}.
Definition set_kernel (k : LinearCombinationKernel Kernel) (s : t) : t :=
  {| base := base s; _spatialKernelFunction := _spatialKernelFunction s;
     _constantFirstTerm := _constantFirstTerm s; _kernel := k;
     _background := _background s; _kSum := _kSum s; _policy := _policy s;
     _nbases := _nbases s; _nkt := _nkt s; _nbt := _nbt s; _nt := _nt s |}.
Definition set_background (f : SpatialFunction) (s : t) : t :=
  {| base := base s; _spatialKernelFunction := _spatialKernelFunction s;
     _constantFirstTerm := _constantFirstTerm s; _kernel := _kernel s;
     _background := f; _kSum := _kSum s; _policy := _policy s;
     _nbases := _nbases s; _nkt := _nkt s; _nbt := _nbt s; _nt := _nt s |}.
Definition set_kSum (x : float) (s : t) : t :=
  {| base := base s; _spatialKernelFunction := _spatialKernelFunction s;
     _constantFirstTerm := _constantFirstTerm s; _kernel := _kernel s;
     _background := _background s; _kSum := x; _policy := _policy s;
     _nbases := _nbases s; _nkt := _nkt s; _nbt := _nbt s; _nt := _nt s |}.

Definition super {A} (m : M KernelSolution.t A) : M t A := lift base set_base m.

(** [_mMat] and [_bVec] updated in place. *)
Definition upd_mMat (f : MatrixXd -> MatrixXd) (s : t) : t :=
  set_base (set_mMat (f (_mMat (base s))) (base s)) s.
Definition upd_bVec (f : VectorXd -> VectorXd) (s : t) : t :=
  set_base (set_bVec (f (_bVec (base s))) (base s)) s.

(** [SpatialKernelSolution(basisList, spatialKernelFunction, background, policy)] *)
Definition new (SolutionId : Z) (basisList : list Kernel)
    (spatialKernelFunction background : SpatialFunction) (policy : PropertySet)
    : result t * Z :=
  let (b, SolutionId) := KernelSolution.new SolutionId in
  let isAlardLupton := String.eqb (getAsString policy "kernelBasisSet") "alard-lupton" in
  let usePca := getAsBool policy "usePcaForSpatialKernel" in
  let constantFirstTerm := isAlardLupton || usePca in
  let fitForBackground := getAsBool policy "fitForBackground" in
  let nbases := Z.of_nat (length basisList) in
  let nkt := Z.of_nat (length (getParameters spatialKernelFunction)) in
  let nbt := if fitForBackground
             then Z.of_nat (length (getParameters background)) else 0%Z in
  let nt := if constantFirstTerm
            then ((nbases - 1) * nkt + 1 + nbt)%Z
            else (nbases * nkt + nbt)%Z in
  let b := set_fitForBackground fitForBackground b in
  let b := set_mMat (Zero (Z.to_nat nt) (Z.to_nat nt)) b in
  let b := set_bVec (vZero (Z.to_nat nt)) b in
  match basisList with
  | [] => (Throw LinearCombinationKernel_empty, SolutionId)
  | k0 :: ks =>
      (Ok {| base := b;
             _spatialKernelFunction := spatialKernelFunction;
             _constantFirstTerm := constantFirstTerm;
             _kernel := {| firstKernel := k0; otherKernels := ks;
                           kernelParameters := [];
                           spatialFunction := Some spatialKernelFunction;
                           spatialParameters := [] |};
             _background := background;
             _kSum := 0;
             _policy := policy;
             _nbases := nbases; _nkt := nkt; _nbt := nbt; _nt := nt |},
       SolutionId)
  end.

(** [params] with its first [n] entries set to zero and then entry
    [idx] set to one: the parameter vector of the loops that evaluate
    the spatial functions. *)
Definition unit_parameters (params : list float) (n idx : nat) : list float :=
  map (fun k => if (k =? idx)%nat then 1
                else if (k <? n)%nat then 0 else vcoeff params k)
      (seq 0 (length params)).

(** The value at (x, y) of each of the first [n] unit parameter vectors. *)
Definition basis_values (f : SpatialFunction) (n : nat) (x y : float) : VectorXd :=
  map (fun idx => call (setParameters f (unit_parameters (getParameters f) n idx)) x y)
      (seq 0 n).

(** The function as the loop leaves it: holding the last parameter
    vector it was given. *)
Definition after_basis_values (f : SpatialFunction) (n : nat) : SpatialFunction :=
  match n with
  | O => f
  | S k => setParameters f (unit_parameters (getParameters f) n k)
  end.

(** First row or column of the block of basis [m]: [m * _nkt - dm]. *)
Definition offset (nkt dm m : Z) : nat := Z.to_nat (m * nkt - dm).

(** The manual fill of the first (non-spatial) term. *)
Definition fill_first_term (qMat : MatrixXd) (wVec pK pB : VectorXd)
    (nbases nkt nbt dm : Z) (mb : nat) (fitForBackground : bool) (s : t) : t :=
  let s := upd_mMat (fun m => set_coeff m 0 0 (coeff m 0 0 + coeff qMat 0 0)) s in
  let s := fold_left
             (fun s m2 =>
                upd_mMat (fun m => block_add m 0 (offset nkt dm m2) 1 (Z.to_nat nkt)
                                     (scale (coeff qMat 0 (Z.to_nat m2)) (row_of pK))) s)
             (Zrange 1 nbases) s in
  let s := upd_bVec (fun b => vset b 0 (vcoeff b 0 + vcoeff wVec 0)) s in
  if fitForBackground then
    upd_mMat (fun m => block_add m 0 mb 1 (Z.to_nat nbt)
                         (scale (coeff qMat 0 (Z.to_nat nbases)) (row_of pB))) s
  else s.

(** One turn of the loop over [m1] that fills in the spatial blocks. *)
Definition fill_block_row (qMat : MatrixXd) (wVec pK : VectorXd)
    (pKpKt pKpBt : MatrixXd) (nbases nkt nbt dm : Z) (mb : nat)
    (fitForBackground : bool) (s : t) (m1 : Z) : t :=
  (* Diagonal kernel-kernel term; only use upper triangular part of pKpKt *)
  let s := upd_mMat
             (fun m => block_add m (offset nkt dm m1) (offset nkt dm m1)
                         (Z.to_nat nkt) (Z.to_nat nkt)
                         (triangularView_Upper
                            (scale_r pKpKt (coeff qMat (Z.to_nat m1) (Z.to_nat m1))))) s in
  (* Kernel-kernel terms *)
  let s := fold_left
             (fun s m2 =>
                upd_mMat
                  (fun m => block_add m (offset nkt dm m1) (offset nkt dm m2)
                              (Z.to_nat nkt) (Z.to_nat nkt)
                              (scale (coeff qMat (Z.to_nat m1) (Z.to_nat m2)) pKpKt)) s)
             (Zrange (m1 + 1) nbases) s in
  (* Kernel cross terms with background *)
  let s := if fitForBackground then
             upd_mMat
               (fun m => block_add m (offset nkt dm m1) mb (Z.to_nat nkt) (Z.to_nat nbt)
                           (scale (coeff qMat (Z.to_nat m1) (Z.to_nat nbases)) pKpBt)) s
           else s in
  (* B vector *)
  upd_bVec (fun b => segment_add b (offset nkt dm m1) (Z.to_nat nkt)
                       (vscale (vcoeff wVec (Z.to_nat m1)) pK)) s.

(** Background-background terms only. *)
Definition fill_background (qMat : MatrixXd) (wVec pB : VectorXd)
    (pBpBt : MatrixXd) (nbases nbt : Z) (mb : nat) (s : t) : t :=
  let s := upd_mMat
             (fun m => block_add m mb mb (Z.to_nat nbt) (Z.to_nat nbt)
                         (triangularView_Upper
                            (scale_r pBpBt
                               (coeff qMat (Z.to_nat nbases) (Z.to_nat nbases))))) s in
  upd_bVec (fun b => segment_add b mb (Z.to_nat nbt)
                       (vscale (vcoeff wVec (Z.to_nat nbases)) pB)) s.

(** The vectors P of [addConstraint]: the spatial kernel functions and,
    when the background is fit, the background functions at the
    candidate's centre. *)
Definition pK_of (s : t) (xCenter yCenter : float) : VectorXd :=
  basis_values (_spatialKernelFunction s) (Z.to_nat (_nkt s)) xCenter yCenter.
Definition pB_of (s : t) (xCenter yCenter : float) : VectorXd :=
  if _fitForBackground (base s)
  then basis_values (_background s) (Z.to_nat (_nbt s)) xCenter yCenter
  else [].

(** [addConstraint(xCenter, yCenter, qMat, wVec)], as the change it makes
    to the object: it throws nothing. *)
Definition addConstraint_state (xCenter yCenter : float) (qMat : MatrixXd)
    (wVec : VectorXd) (s : t) : t :=
  let nbases := _nbases s in
  let nkt := _nkt s in
  let nbt := _nbt s in
  let fitForBackground := _fitForBackground (base s) in
  (* Calculate P matrices *)
  let pK := pK_of s xCenter yCenter in
  let pB := pB_of s xCenter yCenter in
  let s := set_spatialKernelFunction
             (after_basis_values (_spatialKernelFunction s) (Z.to_nat nkt)) s in
  let pKpKt := outer pK pK in
  let s := if fitForBackground
           then set_background (after_basis_values (_background s) (Z.to_nat nbt)) s
           else s in
  let pBpBt := if fitForBackground then outer pB pB else empty in
  let pKpBt := if fitForBackground then outer pK pB else empty in
  (* first index to start the spatial blocks *)
  let m0 := if _constantFirstTerm s then 1%Z else 0%Z in
  (* how many rows/cols to adjust the matrices/vectors *)
  let dm := if _constantFirstTerm s then (nkt - 1)%Z else 0%Z in
  (* where to start the background terms *)
  let mb := Z.to_nat (_nt s - nbt) in
  let s := if _constantFirstTerm s
           then fill_first_term qMat wVec pK pB nbases nkt nbt dm mb fitForBackground s
           else s in
  (* Fill in the spatial blocks *)
  let s := fold_left
             (fill_block_row qMat wVec pK pKpKt pKpBt nbases nkt nbt dm mb fitForBackground)
             (Zrange m0 nbases) s in
  if fitForBackground
  then fill_background qMat wVec pB pBpBt nbases nbt mb s
  else s.

Definition addConstraint (xCenter yCenter : float) (qMat : MatrixXd)
    (wVec : VectorXd) : M t unit :=
  modify (addConstraint_state xCenter yCenter qMat wVec).

(** The loops of [solve] that fill in the other half of [_mMat]:
    [_mMat(j,i) = _mMat(i,j)] for [i < j < _nt]. *)
Definition mirror_row (m : MatrixXd) (nt : Z) (i : Z) : MatrixXd :=
  fold_left (fun m j => set_coeff m (Z.to_nat j) (Z.to_nat i)
                          (coeff m (Z.to_nat i) (Z.to_nat j)))
            (Zrange (i + 1) nt) m.
Definition fill_other_half (m : MatrixXd) (nt : Z) : MatrixXd :=
  fold_left (fun m i => mirror_row m nt i) (Zrange 0 nt) m.

Definition makeKernelImage (x y : float) : M t Image :=
  solvedBy <- gets (fun s => _solvedBy (base s)) ;;
  match solvedBy with
  | NONE => throw (LSST_EXCEPT Exception (text "Kernel not solved; cannot return image"))
  | _ => kernel <- gets _kernel ;; ret (fst (computeImage_at kernel x y))
  end.

Definition getSolutionPair : M t (LinearCombinationKernel Kernel * SpatialFunction) :=
  solvedBy <- gets (fun s => _solvedBy (base s)) ;;
  match solvedBy with
  | NONE => throw (LSST_EXCEPT Exception (text "Kernel not solved; cannot return solution"))
  | _ => kernel <- gets _kernel ;; background <- gets _background ;;
         ret (kernel, background)
  end.

(** The exceptions of [_setKernel], which number its three kernel messages. *)
Definition kernel_nan_I (cNumber : float) (idx : nat) : exception :=
  LSST_EXCEPT Exception
    {| format := "I. Unable to determine spatial kernel solution %d (nan).  Condition number = %.3e";
       operands := [ArgInt (Z.of_nat idx); ArgDouble cNumber] |}.
Definition kernel_nan_II (cNumber : float) (idx : nat) : exception :=
  LSST_EXCEPT Exception
    {| format := "II. Unable to determine spatial kernel solution %d (nan).  Condition number = %.3e";
       operands := [ArgInt (Z.of_nat idx); ArgDouble cNumber] |}.
Definition kernel_nan_III (cNumber : float) (idx : nat) : exception :=
  LSST_EXCEPT Exception
    {| format := "III. Unable to determine spatial kernel solution %d (nan).  Condition number = %.3e";
       operands := [ArgInt (Z.of_nat idx); ArgDouble cNumber] |}.
Definition background_nan (idx : nat) : exception :=
  LSST_EXCEPT Exception
    {| format := "Unable to determine spatial background solution %d (nan)";
       operands := [ArgInt (Z.of_nat idx)] |}.

(** The loop over the bases that sets the kernel coefficients when the
    kernel varies spatially: [idx] runs through [_aVec]; the first term
    takes one coefficient when it is constant, and every other term
    [nkt]. *)
Fixpoint spatial_coefficients (cNumber : float) (aVec : VectorXd) (nkt : nat)
    (constantFirstTerm : bool) (bases : list nat) (idx : nat)
    : exception + list (list float) :=
  match bases with
  | [] => inr []
  | i :: rest =>
      if (i =? 0)%nat && constantFirstTerm then
        if is_nan (vcoeff aVec idx) then inl (kernel_nan_II cNumber idx)
        else
          match spatial_coefficients cNumber aVec nkt constantFirstTerm rest (S idx) with
          | inl e => inl e
          | inr rows => inr ((vcoeff aVec idx :: repeat 0 (nkt - 1)) :: rows)
          end
      else
        match StaticKernelSolution.copy_coefficients (kernel_nan_III cNumber) aVec
                (seq idx nkt) with
        | inl e => inl e
        | inr row =>
            match spatial_coefficients cNumber aVec nkt constantFirstTerm rest
                    (idx + nkt) with
            | inl e => inl e
            | inr rows => inr (row :: rows)
            end
        end
  end.

(** [_setKernel()] *)
Definition _setKernel : M t unit :=
  (* Report on condition number *)
  cNumber <- super (getConditionNumber EIGENVALUE) ;;
  s <- get ;;
  let aVec := _aVec (base s) in
  let nbases := Z.to_nat (_nbases s) in
  (if (_nkt s =? 1)%Z then
     (* Not spatially varying *)
     kCoeffs <- StaticKernelSolution.of_sum
                  (StaticKernelSolution.copy_coefficients (kernel_nan_I cNumber) aVec
                     (seq 0 nbases)) ;;
     modify (set_kernel
               {| firstKernel := firstKernel (_kernel s);
                  otherKernels := otherKernels (_kernel s);
                  kernelParameters := kCoeffs;
                  spatialFunction := None;
                  spatialParameters := [] |})
   else
     (* Set the kernel coefficients *)
     kCoeffs <- StaticKernelSolution.of_sum
                  (spatial_coefficients cNumber aVec (Z.to_nat (_nkt s))
                     (_constantFirstTerm s) (seq 0 nbases) 0) ;;
     modify (set_kernel
               {| firstKernel := firstKernel (_kernel s);
                  otherKernels := otherKernels (_kernel s);
                  kernelParameters := kernelParameters (_kernel s);
                  spatialFunction := spatialFunction (_kernel s);
                  spatialParameters := kCoeffs |})) ;;
  (* Set kernel Sum *)
  kernel <- gets _kernel ;;
  modify (set_kSum (snd (computeImage kernel))) ;;
  (* Set the background coefficients *)
  bgCoeffs <-
    (if _fitForBackground (base s) then
       StaticKernelSolution.of_sum
         (StaticKernelSolution.copy_coefficients background_nan aVec
            (seq (Z.to_nat (_nt s - _nbt s)) (Z.to_nat (_nbt s))))
     else ret [0]) ;;
  modify (fun s => set_background (setParameters (_background s) bgCoeffs) s).

(** [solve()] *)
Definition solve : M t unit :=
  (* Fill in the other half of mMat *)
  modify (fun s => upd_mMat (fun m => fill_other_half m (_nt s)) s) ;;
  try_catch (super KernelSolution.solve)
    (fun e => throw (rethrown (LSST_EXCEPT_ADD e "Unable to solve spatial kernel matrix"))) ;;
  (* Turn matrices into _kernel and _background *)
  _setKernel.

End WithExternals.

End SpatialKernelSolution.

(** ** ImageStatistics (ImageStatistics.h), by what its callers read

    The object holds the sums of the last [apply]; a call that throws
    leaves the object in the state the field gives with the exception. *)

Class Statistics := {
  ImageStatistics : Type;
  (** [ImageStatistics<PixelT>(policy)] *)
  ImageStatistics_new : PropertySet -> ImageStatistics;
  (** [imstats.apply(image)] *)
  ImageStatistics_apply :
    MaskedImage -> ImageStatistics -> option exception * ImageStatistics;
  (** [imstats.apply(image, core)] *)
  ImageStatistics_apply_core :
    MaskedImage -> Z -> ImageStatistics -> option exception * ImageStatistics;
  (** [imstats.getMean()], [imstats.getRms()], [imstats.getVariance()] *)
  ImageStatistics_getMean : ImageStatistics -> float;
  ImageStatistics_getRms : ImageStatistics -> float;
  ImageStatistics_getVariance : ImageStatistics -> float
}.

(** ** KernelCandidate *)

Module KernelCandidate.

Import KernelSolution.

Inductive CandidateSwitch := ORIG | PCA | RECENT.

Section WithExternals.
Context {E : Externals}.
Open Scope float_scope.

(** What a [shared_ptr<StaticKernelSolution>] of the candidate points to:
    an object of the class itself or of RegularizedKernelSolution. *)
Inductive Solution :=
| Static (s : StaticKernelSolution.t)
| Regularized (r : RegularizedKernelSolution.t).

Definition static_of (sol : Solution) : StaticKernelSolution.t :=
  match sol with
  | Static s => s
  | Regularized r => RegularizedKernelSolution.static r
  end.

Definition with_static (x : StaticKernelSolution.t) (sol : Solution) : Solution :=
  match sol with
  | Static _ => Static x
  | Regularized r => Regularized (RegularizedKernelSolution.set_static x r)
  end.

(** A member function StaticKernelSolution does not override further. *)
Definition inherited {A} (m : M StaticKernelSolution.t A) : M Solution A :=
  lift static_of with_static m.

(** [sol->solve()], which is virtual. *)
Definition virtual_solve (fuel : nat) : M Solution unit :=
  fun sol =>
    match sol with
    | Static s =>
        let (r, s) := StaticKernelSolution.solve s in (r, Static s)
    | Regularized x =>
        let (r, x) := RegularizedKernelSolution.solve fuel x in (r, Regularized x)
    end.

Record t := {
  _status : Status;
  _templateMaskedImage : MaskedImage;
  _scienceMaskedImage : MaskedImage;
  _varianceEstimate : option Image;
  _ps : PropertySet;
  _coreFlux : float;
  _isInitialized : bool;
  _useRegularization : bool;
  _fitForBackground : bool;
  _kernelSolutionOrig : option Solution;
  _kernelSolutionPca : option Solution
}.

Definition setStatus (x : Status) (c : t) : t :=
  {| _status := x; _templateMaskedImage := _templateMaskedImage c;
     _scienceMaskedImage := _scienceMaskedImage c;
     _varianceEstimate := _varianceEstimate c; _ps := _ps c;
     _coreFlux := _coreFlux c; _isInitialized := _isInitialized c;
     _useRegularization := _useRegularization c;
     _fitForBackground := _fitForBackground c;
     _kernelSolutionOrig := _kernelSolutionOrig c;
     _kernelSolutionPca := _kernelSolutionPca c |}.
Definition set_varianceEstimate (x : Image) (c : t) : t :=
  {| _status := _status c; _templateMaskedImage := _templateMaskedImage c;
     _scienceMaskedImage := _scienceMaskedImage c;
     _varianceEstimate := Some x; _ps := _ps c;
     _coreFlux := _coreFlux c; _isInitialized := _isInitialized c;
     _useRegularization := _useRegularization c;
     _fitForBackground := _fitForBackground c;
     _kernelSolutionOrig := _kernelSolutionOrig c;
     _kernelSolutionPca := _kernelSolutionPca c |}.
Definition set_isInitialized (x : bool) (c : t) : t :=
  {| _status := _status c; _templateMaskedImage := _templateMaskedImage c;
     _scienceMaskedImage := _scienceMaskedImage c;
     _varianceEstimate := _varianceEstimate c; _ps := _ps c;
     _coreFlux := _coreFlux c; _isInitialized := x;
     _useRegularization := _useRegularization c;
     _fitForBackground := _fitForBackground c;
     _kernelSolutionOrig := _kernelSolutionOrig c;
     _kernelSolutionPca := _kernelSolutionPca c |}.
Definition set_useRegularization (x : bool) (c : t) : t :=
  {| _status := _status c; _templateMaskedImage := _templateMaskedImage c;
     _scienceMaskedImage := _scienceMaskedImage c;
     _varianceEstimate := _varianceEstimate c; _ps := _ps c;
     _coreFlux := _coreFlux c; _isInitialized := _isInitialized c;
     _useRegularization := x;
     _fitForBackground := _fitForBackground c;
     _kernelSolutionOrig := _kernelSolutionOrig c;
     _kernelSolutionPca := _kernelSolutionPca c |}.
Definition set_kernelSolutionOrig (x : Solution) (c : t) : t :=
  {| _status := _status c; _templateMaskedImage := _templateMaskedImage c;
     _scienceMaskedImage := _scienceMaskedImage c;
     _varianceEstimate := _varianceEstimate c; _ps := _ps c;
     _coreFlux := _coreFlux c; _isInitialized := _isInitialized c;
     _useRegularization := _useRegularization c;
     _fitForBackground := _fitForBackground c;
     _kernelSolutionOrig := Some x;
     _kernelSolutionPca := _kernelSolutionPca c |}.
Definition set_kernelSolutionPca (x : Solution) (c : t) : t :=
  {| _status := _status c; _templateMaskedImage := _templateMaskedImage c;
     _scienceMaskedImage := _scienceMaskedImage c;
     _varianceEstimate := _varianceEstimate c; _ps := _ps c;
     _coreFlux := _coreFlux c; _isInitialized := _isInitialized c;
     _useRegularization := _useRegularization c;
     _fitForBackground := _fitForBackground c;
     _kernelSolutionOrig := _kernelSolutionOrig c;
     _kernelSolutionPca := Some x |}.

(** The state the candidate's member functions run in: the candidate and
    the static counter of solution identifiers. *)
Record state := { SolutionId : Z; this : t }.

Definition on_this (f : t -> t) (w : state) : state :=
  {| SolutionId := SolutionId w; this := f (this w) |}.

(** [slot = shared_ptr(new ...)]: the constructor runs, and on success
    the slot points to the new object, which is returned. *)
Definition construct (mk : Z -> result Solution * Z) (store : Solution -> t -> t)
    : M state Solution :=
  fun w =>
    match mk (SolutionId w) with
    | (Ok sol, id) => (Ok sol, {| SolutionId := id; this := store sol (this w) |})
    | (Throw e, id) => (Throw e, {| SolutionId := id; this := this w |})
    | (Unfinished, id) => (Unfinished, {| SolutionId := id; this := this w |})
    end.

(** [slot->m()] on the object [sol] the slot points to: the object as
    the call leaves it is stored back and returned with the value. *)
Definition call_on {A} (store : Solution -> t -> t) (sol : Solution) (m : M Solution A)
    : M state (A * Solution) :=
  fun w =>
    match m sol with
    | (Ok a, sol') => (Ok (a, sol'), on_this (store sol') w)
    | (Throw e, sol') => (Throw e, on_this (store sol') w)
    | (Unfinished, sol') => (Unfinished, on_this (store sol') w)
    end.

Definition new_Static (basisList : list Kernel) (fitForBackground : bool)
    (SolutionId : Z) : result Solution * Z :=
  match StaticKernelSolution.new SolutionId basisList fitForBackground with
  | (Ok s, id) => (Ok (Static s), id)
  | (Throw e, id) => (Throw e, id)
  | (Unfinished, id) => (Unfinished, id)
  end.

Definition new_Regularized (basisList : list Kernel) (fitForBackground : bool)
    (hMat : MatrixXd) (ps : PropertySet) (SolutionId : Z) : result Solution * Z :=
  match RegularizedKernelSolution.new SolutionId basisList fitForBackground hMat ps with
  | (Ok r, id) => (Ok (Regularized r), id)
  | (Throw e, id) => (Throw e, id)
  | (Unfinished, id) => (Unfinished, id)
  end.

(** [_buildKernelSolution(basisList, hMat)]. [varianceEstimate] is the
    image [_varianceEstimate] points to, which [build] has just set. *)
Definition _buildKernelSolution (fuel : nat) (varianceEstimate : Image)
    (basisList : list Kernel) (hMat : MatrixXd) : M state unit :=
  c <- gets this ;;
  let checkConditionNumber := getAsBool (_ps c) "checkConditionNumber" in
  let maxConditionNumber := getAsDouble (_ps c) "maxConditionNumber" in
  let conditionNumberType := getAsString (_ps c) "conditionNumberType" in
  ctype <-
    (if String.eqb conditionNumberType "SVD" then ret SVD
     else if String.eqb conditionNumberType "EIGENVALUE" then ret EIGENVALUE
     else throw (LSST_EXCEPT TypeError (text "conditionNumberType not recognized"))) ;;
  let templateImage := getImage (_templateMaskedImage c) in
  let scienceImage := getImage (_scienceMaskedImage c) in
  (* Do we have a regularization matrix?  If so use it *)
  if (0 <? size hMat)%nat then
    modify (on_this (set_useRegularization true)) ;;
    if _isInitialized c then
      sol <- construct (new_Regularized basisList (_fitForBackground c) hMat (_ps c))
               set_kernelSolutionPca ;;
      '(_, sol) <- call_on set_kernelSolutionPca sol
                     (inherited (StaticKernelSolution.build
                                   templateImage scienceImage varianceEstimate)) ;;
      bad <- (if checkConditionNumber then
                '(cNumber, _) <- call_on set_kernelSolutionPca sol
                                   (inherited (StaticKernelSolution.getConditionNumber ctype)) ;;
                ret (maxConditionNumber <? cNumber)
              else ret false) ;;
      if bad then modify (on_this (setStatus BAD))
      else
        call_on set_kernelSolutionPca sol (virtual_solve fuel) ;; ret tt
    else
      sol <- construct (new_Regularized basisList (_fitForBackground c) hMat (_ps c))
               set_kernelSolutionOrig ;;
      '(_, sol) <- call_on set_kernelSolutionOrig sol
                     (inherited (StaticKernelSolution.build
                                   templateImage scienceImage varianceEstimate)) ;;
      bad <- (if checkConditionNumber then
                '(cNumber, _) <- call_on set_kernelSolutionOrig sol
                                   (inherited (StaticKernelSolution.getConditionNumber ctype)) ;;
                ret (maxConditionNumber <? cNumber)
              else ret false) ;;
      if bad then modify (on_this (setStatus BAD))
      else
        call_on set_kernelSolutionOrig sol (virtual_solve fuel) ;; ret tt
  else
    modify (on_this (set_useRegularization false)) ;;
    if _isInitialized c then
      sol <- construct (new_Static basisList (_fitForBackground c))
               set_kernelSolutionPca ;;
      '(_, sol) <- call_on set_kernelSolutionPca sol
                     (inherited (StaticKernelSolution.build
                                   templateImage scienceImage varianceEstimate)) ;;
      bad <- (if checkConditionNumber then
                '(cNumber, _) <- call_on set_kernelSolutionPca sol
                                   (inherited (StaticKernelSolution.getConditionNumber ctype)) ;;
                ret (maxConditionNumber <? cNumber)
              else ret false) ;;
      if bad then modify (on_this (setStatus BAD))
      else
        call_on set_kernelSolutionPca sol (virtual_solve fuel) ;; ret tt
    else
      sol <- construct (new_Static basisList (_fitForBackground c))
               set_kernelSolutionOrig ;;
      '(_, sol) <- call_on set_kernelSolutionOrig sol
                     (inherited (StaticKernelSolution.build
                                   templateImage scienceImage varianceEstimate)) ;;
      bad <- (if checkConditionNumber then
                '(cNumber, _) <- call_on set_kernelSolutionOrig sol
                                   (inherited (StaticKernelSolution.getConditionNumber ctype)) ;;
                ret (maxConditionNumber <? cNumber)
              else ret false) ;;
      if bad then modify (on_this (setStatus BAD))
      else
        call_on set_kernelSolutionOrig sol (virtual_solve fuel) ;; ret tt.

(** A member function that reads a solution: run on the object a slot
    points to, for its value. *)
Definition read {A} (sol : Solution) (m : M StaticKernelSolution.t A) : M state A :=
  fun w =>
    match m (static_of sol) with
    | (Ok a, _) => (Ok a, w)
    | (Throw e, _) => (Throw e, w)
    | (Unfinished, _) => (Unfinished, w)
    end.

(** [getDifferenceImage(kernel, background)] *)
Definition getDifferenceImage_kb (kernel : LinearCombinationKernel Kernel)
    (background : float) : M state MaskedImage :=
  c <- gets this ;;
  ret (convolveAndSubtract (_templateMaskedImage c) (_scienceMaskedImage c)
         kernel background).

(** [getDifferenceImage(sol->getKernel(), sol->getBackground())]: the two
    arguments in the order of the compiler, then the call. *)
Definition differenceImage_of (call : DifferenceImageCall) (sol : Solution)
    : M state MaskedImage :=
  if getKernel_first call then
    kernel <- read sol StaticKernelSolution.getKernel ;;
    background <- read sol StaticKernelSolution.getBackground ;;
    getDifferenceImage_kb kernel background
  else
    background <- read sol StaticKernelSolution.getBackground ;;
    kernel <- read sol StaticKernelSolution.getKernel ;;
    getDifferenceImage_kb kernel background.

(** [getDifferenceImage(cand)]. A switch value that names no enumerator
    is outside the type. *)
Definition getDifferenceImage (cand : CandidateSwitch) : M state MaskedImage :=
  c <- gets this ;;
  match cand with
  | ORIG =>
      match _kernelSolutionOrig c with
      | Some sol => differenceImage_of call_ORIG sol
      | None => throw (LSST_EXCEPT RuntimeError (text "Original kernel does not exist"))
      end
  | PCA =>
      match _kernelSolutionPca c with
      | Some sol => differenceImage_of call_PCA sol
      | None => throw (LSST_EXCEPT RuntimeError (text "Pca kernel does not exist"))
      end
  | RECENT =>
      match _kernelSolutionPca c with
      | Some sol => differenceImage_of call_RECENT_pca sol
      | None =>
          match _kernelSolutionOrig c with
          | Some sol => differenceImage_of call_RECENT_orig sol
          | None => throw (LSST_EXCEPT RuntimeError (text "No kernels exist"))
          end
      end
  end.

(** [build(basisList, hMat)] *)
Definition build_h (fuel : nat) (basisList : list Kernel) (hMat : MatrixXd)
    : M state unit :=
  c <- gets this ;;
  (* Variance estimate comes from sum of image variances *)
  let var := Image_plus (getVariance (_scienceMaskedImage c))
                        (getVariance (_templateMaskedImage c)) in
  let var :=
    if getAsBool (_ps c) "constantVarianceWeighting" then
      (* Constant variance weighting *)
      let varStats := makeStatistics_MEDIAN var in
      let varValue := if varStats <=? 0 then 1 else varStats in
      Image_assign var varValue
    else var in
  modify (on_this (set_varianceEstimate var)) ;;
  try_catch (_buildKernelSolution fuel var basisList hMat)
    (fun e => throw (rethrown e)) ;;
  (if getAsBool (_ps c) "iterateSingleKernel"
      && negb (getAsBool (_ps c) "constantVarianceWeighting") then
     diffim <- getDifferenceImage RECENT ;;
     modify (on_this (set_varianceEstimate (getVariance diffim))) ;;
     try_catch (_buildKernelSolution fuel (getVariance diffim) basisList hMat)
       (fun e => throw (rethrown e))
   else ret tt) ;;
  modify (on_this (set_isInitialized true)).

(** [build(basisList)] *)
Definition build (fuel : nat) (basisList : list Kernel) : M state unit :=
  build_h fuel basisList empty.

(** [getKernel(cand)] *)
Definition getKernel (cand : CandidateSwitch) : M state (LinearCombinationKernel Kernel) :=
  c <- gets this ;;
  match cand with
  | ORIG =>
      match _kernelSolutionOrig c with
      | Some sol => read sol StaticKernelSolution.getKernel
      | None => throw (LSST_EXCEPT RuntimeError (text "Original kernel does not exist"))
      end
  | PCA =>
      match _kernelSolutionPca c with
      | Some sol => read sol StaticKernelSolution.getKernel
      | None => throw (LSST_EXCEPT RuntimeError (text "Pca kernel does not exist"))
      end
  | RECENT =>
      match _kernelSolutionPca c with
      | Some sol => read sol StaticKernelSolution.getKernel
      | None =>
          match _kernelSolutionOrig c with
          | Some sol => read sol StaticKernelSolution.getKernel
          | None => throw (LSST_EXCEPT RuntimeError (text "No kernels exist"))
          end
      end
  end.

(** [getBackground(cand)] *)
Definition getBackground (cand : CandidateSwitch) : M state float :=
  c <- gets this ;;
  match cand with
  | ORIG =>
      match _kernelSolutionOrig c with
      | Some sol => read sol StaticKernelSolution.getBackground
      | None => throw (LSST_EXCEPT RuntimeError (text "Original kernel does not exist"))
      end
  | PCA =>
      match _kernelSolutionPca c with
      | Some sol => read sol StaticKernelSolution.getBackground
      | None => throw (LSST_EXCEPT RuntimeError (text "Pca kernel does not exist"))
      end
  | RECENT =>
      match _kernelSolutionPca c with
      | Some sol => read sol StaticKernelSolution.getBackground
      | None =>
          match _kernelSolutionOrig c with
          | Some sol => read sol StaticKernelSolution.getBackground
          | None => throw (LSST_EXCEPT RuntimeError (text "No kernels exist"))
          end
      end
  end.

(** [getKsum(cand)] *)
Definition getKsum (cand : CandidateSwitch) : M state float :=
  c <- gets this ;;
  match cand with
  | ORIG =>
      match _kernelSolutionOrig c with
      | Some sol => read sol StaticKernelSolution.getKsum
      | None => throw (LSST_EXCEPT RuntimeError (text "Original kernel does not exist"))
      end
  | PCA =>
      match _kernelSolutionPca c with
      | Some sol => read sol StaticKernelSolution.getKsum
      | None => throw (LSST_EXCEPT RuntimeError (text "Pca kernel does not exist"))
      end
  | RECENT =>
      match _kernelSolutionPca c with
      | Some sol => read sol StaticKernelSolution.getKsum
      | None =>
          match _kernelSolutionOrig c with
          | Some sol => read sol StaticKernelSolution.getKsum
          | None => throw (LSST_EXCEPT RuntimeError (text "No kernels exist"))
          end
      end
  end.

(** [getKernelImage(cand)] *)
Definition getKernelImage (cand : CandidateSwitch) : M state Image :=
  c <- gets this ;;
  match cand with
  | ORIG =>
      match _kernelSolutionOrig c with
      | Some sol => read sol StaticKernelSolution.makeKernelImage
      | None => throw (LSST_EXCEPT RuntimeError (text "Original kernel does not exist"))
      end
  | PCA =>
      match _kernelSolutionPca c with
      | Some sol => read sol StaticKernelSolution.makeKernelImage
      | None => throw (LSST_EXCEPT RuntimeError (text "Pca kernel does not exist"))
      end
  | RECENT =>
      match _kernelSolutionPca c with
      | Some sol => read sol StaticKernelSolution.makeKernelImage
      | None =>
          match _kernelSolutionOrig c with
          | Some sol => read sol StaticKernelSolution.makeKernelImage
          | None => throw (LSST_EXCEPT RuntimeError (text "No kernels exist"))
          end
      end
  end.

(** [getImage()] *)
Definition getImage : M state Image := getKernelImage ORIG.

(** [getKernelSolution(cand)]: the pointer in the slot. *)
Definition getKernelSolution (cand : CandidateSwitch) : M state Solution :=
  c <- gets this ;;
  match cand with
  | ORIG =>
      match _kernelSolutionOrig c with
      | Some sol => ret sol
      | None => throw (LSST_EXCEPT RuntimeError (text "Original kernel does not exist"))
      end
  | PCA =>
      match _kernelSolutionPca c with
      | Some sol => ret sol
      | None => throw (LSST_EXCEPT RuntimeError (text "Pca kernel does not exist"))
      end
  | RECENT =>
      match _kernelSolutionPca c with
      | Some sol => ret sol
      | None =>
          match _kernelSolutionOrig c with
          | Some sol => ret sol
          | None => throw (LSST_EXCEPT RuntimeError (text "No kernels exist"))
          end
      end
  end.

End WithExternals.

Section WithStatistics.
Context {E : Externals} {I : Statistics}.
Open Scope float_scope.

Definition set_coreFlux (x : float) (c : t) : t :=
  {| _status := _status c; _templateMaskedImage := _templateMaskedImage c;
     _scienceMaskedImage := _scienceMaskedImage c;
     _varianceEstimate := _varianceEstimate c; _ps := _ps c;
     _coreFlux := x; _isInitialized := _isInitialized c;
     _useRegularization := _useRegularization c;
     _fitForBackground := _fitForBackground c;
     _kernelSolutionOrig := _kernelSolutionOrig c;
     _kernelSolutionPca := _kernelSolutionPca c |}.

(** The member initializers the two constructors share; the base class
    starts the status at UNKNOWN. The centre and the source are read by
    none of the member functions here. *)
Definition initial (templateMaskedImage scienceMaskedImage : MaskedImage)
    (ps : PropertySet) (coreFlux : float) : t :=
  {| _status := UNKNOWN;
     _templateMaskedImage := templateMaskedImage;
     _scienceMaskedImage := scienceMaskedImage;
     _varianceEstimate := None;
     _ps := ps;
     _coreFlux := coreFlux;
     _isInitialized := false;
     _useRegularization := false;
     _fitForBackground := getAsBool ps "fitForBackground";
     _kernelSolutionOrig := None;
     _kernelSolutionPca := None |}.

(** [KernelCandidate(xCenter, yCenter, templateMaskedImage,
    scienceMaskedImage, ps)] *)
Definition new (templateMaskedImage scienceMaskedImage : MaskedImage)
    (ps : PropertySet) : t :=
  let c := initial templateMaskedImage scienceMaskedImage ps 0 in
  (* Rank by mean core S/N in science image *)
  let imstats := ImageStatistics_new ps in
  let candidateCoreRadius := getAsInt ps "candidateCoreRadius" in
  match ImageStatistics_apply_core scienceMaskedImage candidateCoreRadius imstats with
  | (Some _, _) => setStatus BAD c
  | (None, imstats) => set_coreFlux (ImageStatistics_getMean imstats) c
  end.

(** [KernelCandidate(source, templateMaskedImage, scienceMaskedImage, ps)];
    [psfInstFlux] is [source->getPsfInstFlux()]. *)
Definition new_source (psfInstFlux : float)
    (templateMaskedImage scienceMaskedImage : MaskedImage) (ps : PropertySet) : t :=
  initial templateMaskedImage scienceMaskedImage ps psfInstFlux.

End WithStatistics.

End KernelCandidate.

(** ** BuildSingleKernelVisitor *)

Module BuildSingleKernelVisitor.

Import KernelSolution.

Section WithExternals.
Context {E : Externals} {I : Statistics}.
Open Scope float_scope.

(** [_nRejected] and [_nProcessed] are counters of candidates: integers. *)
Record t := {
  _basisList : list Kernel;
  _policy : PropertySet;
  _hMat : MatrixXd;
  _imstats : ImageStatistics;
  _skipBuilt : bool;
  _nRejected : Z;
  _nProcessed : Z;
  _useRegularization : bool;
  _useCoreStats : bool;
  _coreRadius : Z
}.

Definition set_imstats (x : ImageStatistics) (v : t) : t :=
  {| _basisList := _basisList v; _policy := _policy v; _hMat := _hMat v;
     _imstats := x; _skipBuilt := _skipBuilt v;
     _nRejected := _nRejected v; _nProcessed := _nProcessed v;
     _useRegularization := _useRegularization v;
     _useCoreStats := _useCoreStats v; _coreRadius := _coreRadius v |}.
Definition set_nRejected (x : Z) (v : t) : t :=
  {| _basisList := _basisList v; _policy := _policy v; _hMat := _hMat v;
     _imstats := _imstats v; _skipBuilt := _skipBuilt v;
     _nRejected := x; _nProcessed := _nProcessed v;
     _useRegularization := _useRegularization v;
     _useCoreStats := _useCoreStats v; _coreRadius := _coreRadius v |}.
Definition set_nProcessed (x : Z) (v : t) : t :=
  {| _basisList := _basisList v; _policy := _policy v; _hMat := _hMat v;
     _imstats := _imstats v; _skipBuilt := _skipBuilt v;
     _nRejected := _nRejected v; _nProcessed := x;
     _useRegularization := _useRegularization v;
     _useCoreStats := _useCoreStats v; _coreRadius := _coreRadius v |}.

(** [BuildSingleKernelVisitor(basisList, policy)] *)
Definition new (basisList : list Kernel) (policy : PropertySet) : t :=
  {| _basisList := basisList; _policy := policy; _hMat := empty;
     _imstats := ImageStatistics_new policy; _skipBuilt := true;
     _nRejected := 0; _nProcessed := 0;
     _useRegularization := false;
     _useCoreStats := getAsBool policy "useCoreStats";
     _coreRadius := getAsInt policy "candidateCoreRadius" |}.

(** [BuildSingleKernelVisitor(basisList, policy, hMat)] *)
Definition new_h (basisList : list Kernel) (policy : PropertySet) (hMat : MatrixXd) : t :=
  {| _basisList := basisList; _policy := policy; _hMat := hMat;
     _imstats := ImageStatistics_new policy; _skipBuilt := true;
     _nRejected := 0; _nProcessed := 0;
     _useRegularization := true;
     _useCoreStats := getAsBool policy "useCoreStats";
     _coreRadius := getAsInt policy "candidateCoreRadius" |}.

(** What [processCandidate] runs on: the visitor, the candidate it is
    given (with the static counter of solution identifiers), and the chi2
    the candidate's base class holds. *)
Record world := {
  self : t;
  kCandidate : KernelCandidate.state;
  _chi2 : float
}.

Definition set_self (v : t) (w : world) : world :=
  {| self := v; kCandidate := kCandidate w; _chi2 := _chi2 w |}.
Definition set_kCandidate (k : KernelCandidate.state) (w : world) : world :=
  {| self := self w; kCandidate := k; _chi2 := _chi2 w |}.
(** [kCandidate->setChi2(x)] *)
Definition setChi2 (x : float) (w : world) : world :=
  {| self := self w; kCandidate := kCandidate w; _chi2 := x |}.

(** A member function of the candidate, and one of the visitor. *)
Definition on_candidate {A} (m : M KernelCandidate.state A) : M world A :=
  lift kCandidate set_kCandidate m.
Definition on_self {A} (m : M t A) : M world A := lift self set_self m.

(** [kCandidate->setStatus(x)] *)
Definition setStatus (x : Status) : M world unit :=
  on_candidate (modify (KernelCandidate.on_this (KernelCandidate.setStatus x))).

(** [_nRejected += 1] *)
Definition reject : M world unit :=
  on_self (modify (fun v => set_nRejected (_nRejected v + 1) v)).

(** [_imstats.apply(diffim)] and [_imstats.apply(diffim, core)] *)
Definition apply (diffim : MaskedImage) (core : option Z) : M world unit :=
  fun w =>
    let (r, imstats) :=
      match core with
      | Some core => ImageStatistics_apply_core diffim core (_imstats (self w))
      | None => ImageStatistics_apply diffim (_imstats (self w))
      end in
    (match r with Some e => Throw e | None => Ok tt end,
     set_self (set_imstats imstats (self w)) w).

(** [processCandidate(candidate)]. [isKernelCandidate] is whether the
    dynamic cast of [candidate] gives a KernelCandidate; the [return]s in
    the handlers are the [false] the guarded blocks end with. *)
Definition processCandidate (fuel : nat) (isKernelCandidate : bool) : M world unit :=
  if negb isKernelCandidate then
    throw (LSST_EXCEPT LogicError
             (text "Failed to cast SpatialCellCandidate to KernelCandidate"))
  else
    v <- gets self ;;
    initialized <- gets (fun w => KernelCandidate._isInitialized
                                    (KernelCandidate.this (kCandidate w))) ;;
    if _skipBuilt v && initialized then ret tt
    else
      (* Build its kernel here *)
      built <-
        try_catch
          ((if _useRegularization v
            then on_candidate (KernelCandidate.build_h fuel (_basisList v) (_hMat v))
            else on_candidate (KernelCandidate.build fuel (_basisList v))) ;;
           ret true)
          (fun _ => setStatus BAD ;; reject ;; ret false) ;;
      if negb built then ret tt
      else
        status <- gets (fun w => KernelCandidate._status
                                   (KernelCandidate.this (kCandidate w))) ;;
        match status with
        | BAD => reject
        | _ =>
            (* Make diffim and set chi2 from result.  Note that you need to
               use the most recent kernel *)
            diffim <- on_candidate
                        (KernelCandidate.getDifferenceImage KernelCandidate.RECENT) ;;
            measured <-
              try_catch
                (apply diffim (if _useCoreStats v then Some (_coreRadius v) else None) ;;
                 ret true)
                (fun _ => setStatus BAD ;; ret false) ;;
            if negb measured then ret tt
            else
              on_self (modify (fun v => set_nProcessed (_nProcessed v + 1) v)) ;;
              imstats <- gets (fun w => _imstats (self w)) ;;
              modify (setChi2 (ImageStatistics_getVariance imstats)) ;;
              kSum <- on_candidate (KernelCandidate.getKsum KernelCandidate.RECENT) ;;
              background <- on_candidate
                              (KernelCandidate.getBackground KernelCandidate.RECENT) ;;
              let meanIsNan := is_nan (ImageStatistics_getMean imstats) in
              let rmsIsNan := is_nan (ImageStatistics_getRms imstats) in
              if meanIsNan || rmsIsNan then
                setStatus BAD ;; reject
              else
                (if getAsBool (_policy v) "singleKernelClipping" then
                   if getAsDouble (_policy v) "candidateResidualMeanMax"
                      <? abs (ImageStatistics_getMean imstats) then
                     setStatus BAD ;; reject
                   else if getAsDouble (_policy v) "candidateResidualStdMax"
                           <? ImageStatistics_getRms imstats then
                     setStatus BAD ;; reject
                   else setStatus GOOD
                 else setStatus GOOD) ;;
                (* Core resids for debugging *)
                if negb (_useCoreStats v) then
                  try_catch (apply diffim (Some (_coreRadius v)))
                    (fun _ => setStatus BAD)
                else ret tt
        end.

End WithExternals.

End BuildSingleKernelVisitor.

(** ** A small instance of the externals

    Enough of Eigen and afw to evaluate the model on 1 by 1 and 2 by 2
    systems and on small images: Cramer's rule for the LU solver, an
    eigen-solver for diagonal matrices that throws on any other matrix,
    basis kernels that are delta functions with a half-width. *)

Module Small.

Open Scope float_scope.

Definition det2 (m : MatrixXd) : float :=
  coeff m 0 0 * coeff m 1 1 - coeff m 0 1 * coeff m 1 0.

Definition isInvertible (m : MatrixXd) : bool :=
  match rows m, cols m with
  | 1%nat, 1%nat => negb (coeff m 0 0 =? 0)
  | 2%nat, 2%nat => negb (det2 m =? 0)
  | _, _ => false
  end.

Definition lu_solve (m : MatrixXd) (b : VectorXd) : VectorXd :=
  match rows m with
  | 1%nat => [vcoeff b 0 / coeff m 0 0]
  | 2%nat => [(vcoeff b 0 * coeff m 1 1 - coeff m 0 1 * vcoeff b 1) / det2 m;
              (coeff m 0 0 * vcoeff b 1 - vcoeff b 0 * coeff m 1 0) / det2 m]
  | _ => vZero (length b)
  end.

Definition inverse2 (m : MatrixXd) : MatrixXd :=
  match rows m with
  | 1%nat => generate 1 1 (fun _ _ => 1 / coeff m 0 0)
  | _ => generate 2 2 (fun i j =>
           match i, j with
           | 0%nat, 0%nat => coeff m 1 1 / det2 m
           | 0%nat, _ => - coeff m 0 1 / det2 m
           | _, 0%nat => - coeff m 1 0 / det2 m
           | _, _ => coeff m 0 0 / det2 m
           end)
  end.

Definition identity (n : nat) : MatrixXd :=
  generate n n (fun i j => if (i =? j)%nat then 1 else 0).

Definition no_convergence : exception :=
  LSST_EXCEPT Exception (text "eigen-solver: not a diagonal matrix").

(** Eigenvalues in increasing order, as Eigen returns them. *)
Definition eigen (m : MatrixXd) : exception + MatrixXd * VectorXd :=
  match rows m, cols m with
  | 1%nat, 1%nat => inr (identity 1, [coeff m 0 0])
  | 2%nat, 2%nat =>
      if (coeff m 0 1 =? 0) && (coeff m 1 0 =? 0) then
        if coeff m 1 1 <? coeff m 0 0
        then inr (generate 2 2 (fun i j => if (i =? j)%nat then 0 else 1),
                  [coeff m 1 1; coeff m 0 0])
        else inr (identity 2, [coeff m 0 0; coeff m 1 1])
      else inl no_convergence
  | _, _ => inl no_convergence
  end.

Definition singularValues (m : MatrixXd) : VectorXd :=
  match rows m, cols m with
  | 1%nat, 1%nat => [abs (coeff m 0 0)]
  | 2%nat, 2%nat =>
      if abs (coeff m 0 0) <? abs (coeff m 1 1)
      then [abs (coeff m 1 1); abs (coeff m 0 0)]
      else [abs (coeff m 0 0); abs (coeff m 1 1)]
  | _, _ => []
  end.

Definition shrink (k : nat) (b : Box2I) : Box2I :=
  {| minX := minX b + Z.of_nat k; minY := minY b + Z.of_nat k;
     maxX := maxX b - Z.of_nat k; maxY := maxY b - Z.of_nat k |}.

Definition minimum (im : Image) : float :=
  minCoeff (concat (array im)).

Fixpoint insert (x : float) (l : list float) : list float :=
  match l with
  | [] => [x]
  | y :: l' => if x <=? y then x :: l else y :: insert x l'
  end.

Definition median (im : Image) : float :=
  let l := fold_right insert [] (concat (array im)) in
  nth (length l / 2) l 0.

Definition plus (a b : Image) : Image :=
  {| x0 := x0 a; y0 := y0 a; width := width a; height := height a;
     array := map (fun y => map (fun x => pixel a x y + pixel b x y) (seq 0 (width a)))
                  (seq 0 (height a)) |}.

Definition assign (a : Image) (v : float) : Image :=
  {| x0 := x0 a; y0 := y0 a; width := width a; height := height a;
     array := repeat (repeat v (width a)) (height a) |}.

Definition planeBit (name : string) : Z :=
  if String.eqb name "BAD" then 1
  else if String.eqb name "SAT" then 2
  else if String.eqb name "NO_DATA" then 256
  else if String.eqb name "EDGE" then 16
  else 0.

Definition threshold (m : Mask) (bits : Z) : Mask :=
  {| mask_x0 := mask_x0 m; mask_y0 := mask_y0 m;
     mask_width := mask_width m; mask_height := mask_height m;
     mask_array := map (map (fun v => Z.land v bits)) (mask_array m) |}.

Definition stamp (fp m : Mask) (bit : Z) : Mask :=
  {| mask_x0 := mask_x0 m; mask_y0 := mask_y0 m;
     mask_width := mask_width m; mask_height := mask_height m;
     mask_array := map (map (fun v => if (v =? 0)%Z then 0%Z else bit)) (mask_array fp) |}.

Definition kernelSum (k : LinearCombinationKernel nat) : Image * float :=
  ({| x0 := 0; y0 := 0; width := 0; height := 0; array := [] |},
   fold_left (fun acc x => acc + x) (kernelParameters k) 0).

(** Delta-function kernels of half-width [k]: convolution copies the
    template; footprints do not grow. The arguments of a call are evaluated
    from the last to the first, as g++ does. *)
Definition externals : Externals := {|
  FullPivLU_isInvertible := isInvertible;
  FullPivLU_solve := lu_solve;
  SelfAdjointEigenSolver := eigen;
  jacobiSvd_singularValues := singularValues;
  jacobiSvd_matrixV := fun m => identity (cols m);
  inverse := inverse2;
  pow := fun x _ => x;
  Kernel := nat;
  Kernel_shrinkBBox := shrink;
  Kernel_getCtrX := Z.of_nat;
  convolve := fun _ templateImage _ => templateImage;
  LinearCombinationKernel_empty :=
    LSST_EXCEPT InvalidParameterError (text "kernelList has no kernels");
  computeImage := kernelSum;
  computeImage_at := fun k _ _ => kernelSum k;
  makeStatistics_MIN := minimum;
  makeStatistics_MEDIAN := median;
  Image_plus := plus;
  Image_assign := assign;
  getPlaneBitMask := planeBit;
  FootprintSet := Mask;
  FootprintSet_ofMask := threshold;
  FootprintSet_grow := fun fp _ => fp;
  FootprintSet_setMask := stamp;
  convolveAndSubtract := fun _ science _ _ => science;
  getKernel_first := fun _ => false
|}.

Definition matrix2 (a b c d : float) : MatrixXd :=
  {| rows := 2; cols := 2; storage := [a; c; b; d] |}.

Definition constant_image (w h : nat) (v : float) : Image :=
  {| x0 := 0; y0 := 0; width := w; height := h; array := repeat (repeat v w) h |}.

Definition fresh : KernelSolution.t := fst (KernelSolution.new 0).

(** *** Objects the properties are run on *)

Import KernelSolution.
Local Open Scope string_scope.

Definition kernel (k : nat) : @Kernel externals := k.

Definition lookup {A : Type} (d : A) (l : list (string * A)) (k : string) : A :=
  match find (fun p => String.eqb (fst p) k) l with
  | Some p => snd p
  | None => d
  end.

(** A property set: the flags that are set, the numbers and the words. *)
Definition policy (flags : list string) (numbers : list (string * float))
    (words : list (string * string)) : PropertySet :=
  {| getAsBool := fun k => existsb (String.eqb k) flags;
     getAsDouble := lookup 0 numbers;
     getAsString := lookup EmptyString words;
     getAsInt := fun _ => 0%Z |}.

(** p0 + p1 x, and the constant p0. *)
Definition linear : SpatialFunction :=
  {| getParameters := [0; 0];
     evaluate := fun p x _ => vcoeff p 0 + vcoeff p 1 * x |}.
Definition constant : SpatialFunction :=
  {| getParameters := [0]; evaluate := fun p _ _ => vcoeff p 0 |}.

Definition ramp : Image :=
  {| x0 := 0; y0 := 0; width := 3; height := 3;
     array := [[1; 2; 3]; [4; 5; 6]; [7; 8; 9]] |}.

Definition clear_mask : Mask :=
  {| mask_x0 := 0; mask_y0 := 0; mask_width := 3; mask_height := 3;
     mask_array := repeat (repeat 0%Z 3) 3 |}.

(** A matrix with eigenvalues of both signs. *)
Definition indefinite : MatrixXd := matrix2 1 0 0 (-2).

(** The static solution the constructor makes for one basis kernel. *)
Definition static (fit : bool) : StaticKernelSolution.t :=
  {| StaticKernelSolution.base := fst (KernelSolution.new_fit 0 fit);
     StaticKernelSolution._cMat := empty;
     StaticKernelSolution._iVec := [];
     StaticKernelSolution._ivVec := [];
     StaticKernelSolution._kernel :=
       {| firstKernel := kernel 1; otherKernels := []; kernelParameters := [0];
          spatialFunction := None; spatialParameters := [] |};
     StaticKernelSolution._background := 0;
     StaticKernelSolution._kSum := 0 |}.

(** A static solution that [solve] has given the coefficients [aVec]. *)
Definition solved (aVec : VectorXd) : StaticKernelSolution.t :=
  StaticKernelSolution.set_base
    (set_aVec aVec (set_solvedBy LU (fst (KernelSolution.new_fit 0 true))))
    (static true).

Definition regularized (lambdaType : string) : RegularizedKernelSolution.t :=
  {| RegularizedKernelSolution.static :=
       snd (StaticKernelSolution.build ramp ramp (constant_image 3 3 2) (static true));
     RegularizedKernelSolution._hMat := identity 2;
     RegularizedKernelSolution._lambda := None;
     RegularizedKernelSolution._policy :=
       policy [] [("lambdaValue", 3); ("lambdaScaling", 2)]
              [("lambdaType", lambdaType)] |}.

(** The spatial solution the constructor makes for two basis kernels,
    linear spatial variation of the kernel and of the background. *)
Definition spatial : SpatialKernelSolution.t :=
  {| SpatialKernelSolution.base :=
       set_bVec (vZero 6) (set_mMat (Zero 6 6) (set_fitForBackground true fresh));
     SpatialKernelSolution._spatialKernelFunction := linear;
     SpatialKernelSolution._constantFirstTerm := false;
     SpatialKernelSolution._kernel :=
       {| firstKernel := kernel 1; otherKernels := [kernel 1]; kernelParameters := [];
          spatialFunction := Some linear; spatialParameters := [] |};
     SpatialKernelSolution._background := linear;
     SpatialKernelSolution._kSum := 0;
     SpatialKernelSolution._policy :=
       policy ["fitForBackground"] [] [("kernelBasisSet", "delta-function")];
     SpatialKernelSolution._nbases := 2; SpatialKernelSolution._nkt := 2;
     SpatialKernelSolution._nbt := 2; SpatialKernelSolution._nt := 6 |}.

Definition ones (n : nat) : MatrixXd := generate n n (fun _ _ => 1).

(** A spatial solution of one basis kernel without spatial variation,
    solved with the coefficients [aVec]: one for the kernel, one for the
    background. *)
Definition spatial_solved (aVec : VectorXd) : SpatialKernelSolution.t :=
  {| SpatialKernelSolution.base :=
       set_aVec aVec
         (set_solvedBy LU
            (set_bVec [2; 4]
               (set_mMat (matrix2 2 0 0 4) (set_fitForBackground true fresh))));
     SpatialKernelSolution._spatialKernelFunction := constant;
     SpatialKernelSolution._constantFirstTerm := false;
     SpatialKernelSolution._kernel :=
       {| firstKernel := kernel 1; otherKernels := []; kernelParameters := [];
          spatialFunction := Some constant; spatialParameters := [] |};
     SpatialKernelSolution._background := constant;
     SpatialKernelSolution._kSum := 0;
     SpatialKernelSolution._policy :=
       policy ["fitForBackground"] [] [("kernelBasisSet", "delta-function")];
     SpatialKernelSolution._nbases := 1; SpatialKernelSolution._nkt := 1;
     SpatialKernelSolution._nbt := 1; SpatialKernelSolution._nt := 2 |}.

(** A candidate on a 3 by 3 stamp whose property set has the flags
    [flags] and checks the condition number against 0.5. *)
Definition candidate (flags : list string) (initialized : bool)
    : KernelCandidate.state (E := externals) :=
  let masked := {| getImage := ramp; getMask := clear_mask;
                   getVariance := constant_image 3 3 1 |} in
  {| KernelCandidate.SolutionId := 0;
     KernelCandidate.this :=
       {| KernelCandidate._status := UNKNOWN;
          KernelCandidate._templateMaskedImage := masked;
          KernelCandidate._scienceMaskedImage := masked;
          KernelCandidate._varianceEstimate := None;
          KernelCandidate._ps :=
            policy flags [("maxConditionNumber", 0.5)]
                   [("conditionNumberType", "EIGENVALUE")];
          KernelCandidate._coreFlux := 0;
          KernelCandidate._isInitialized := initialized;
          KernelCandidate._useRegularization := false;
          KernelCandidate._fitForBackground := false;
          KernelCandidate._kernelSolutionOrig := None;
          KernelCandidate._kernelSolutionPca := None |} |}.

(** The moments of the pixels of the image plane, counted by adding ones:
    an image without pixels, or a negative core radius, throws. *)
Record moments := { mean : float; rms : float }.

Definition no_pixels : exception :=
  LSST_EXCEPT Exception (text "image statistics: no pixels").

Definition moments_of (im : MaskedImage) (st : moments) : option exception * moments :=
  match concat (array (getImage im)) with
  | [] => (Some no_pixels, st)
  | l =>
      let n := fold_left (fun acc _ => acc + 1) l 0 in
      (None,
       {| mean := fold_left (fun acc x => acc + x) l 0 / n;
          rms := sqrt (fold_left (fun acc x => acc + x * x) l 0 / n) |})
  end.

Definition statistics : Statistics := {|
  ImageStatistics := moments;
  ImageStatistics_new := fun _ => {| mean := 0; rms := 0 |};
  ImageStatistics_apply := moments_of;
  ImageStatistics_apply_core := fun im core st =>
    if (core <? 0)%Z then (Some no_pixels, st) else moments_of im st;
  ImageStatistics_getMean := mean;
  ImageStatistics_getRms := rms;
  ImageStatistics_getVariance := fun st => rms st * rms st
|}.

(** A candidate as [candidate], with the words [words] in its property
    set and [template] for the template image. *)
Definition candidate_of (flags : list string) (words : list (string * string))
    (template : Image) : KernelCandidate.state (E := externals) :=
  let c := KernelCandidate.this (candidate flags false) in
  {| KernelCandidate.SolutionId := 0;
     KernelCandidate.this :=
       {| KernelCandidate._status := UNKNOWN;
          KernelCandidate._templateMaskedImage :=
            {| getImage := template; getMask := clear_mask;
               getVariance := constant_image 3 3 1 |};
          KernelCandidate._scienceMaskedImage := KernelCandidate._scienceMaskedImage c;
          KernelCandidate._varianceEstimate := None;
          KernelCandidate._ps := policy flags [("maxConditionNumber", 0.5)] words;
          KernelCandidate._coreFlux := 0;
          KernelCandidate._isInitialized := false;
          KernelCandidate._useRegularization := false;
          KernelCandidate._fitForBackground := false;
          KernelCandidate._kernelSolutionOrig := None;
          KernelCandidate._kernelSolutionPca := None |} |}.

(** A static solution of the 1 by 1 system [m a = b]. *)
Definition system (m b : float) : StaticKernelSolution.t :=
  StaticKernelSolution.set_base
    (set_bVec [b] (set_mMat (generate 1 1 (fun _ _ => m)) (fst (KernelSolution.new_fit 0 false))))
    (static false).

(** A visitor for one basis kernel, and the visit of a candidate. *)
Definition visitor (useCoreStats : bool) (coreRadius : Z)
    : BuildSingleKernelVisitor.t (E := externals) (I := statistics) :=
  {| BuildSingleKernelVisitor._basisList := [kernel 1];
     BuildSingleKernelVisitor._policy := policy [] [] [];
     BuildSingleKernelVisitor._hMat := empty;
     BuildSingleKernelVisitor._imstats := @ImageStatistics_new statistics (policy [] [] []);
     BuildSingleKernelVisitor._skipBuilt := true;
     BuildSingleKernelVisitor._nRejected := 0;
     BuildSingleKernelVisitor._nProcessed := 0;
     BuildSingleKernelVisitor._useRegularization := false;
     BuildSingleKernelVisitor._useCoreStats := useCoreStats;
     BuildSingleKernelVisitor._coreRadius := coreRadius |}.

Definition visit (v : BuildSingleKernelVisitor.t (E := externals) (I := statistics))
    (k : KernelCandidate.state (E := externals))
    : BuildSingleKernelVisitor.world (E := externals) (I := statistics) :=
  {| BuildSingleKernelVisitor.self := v;
     BuildSingleKernelVisitor.kCandidate := k;
     BuildSingleKernelVisitor._chi2 := 0 |}.

(** A regularized solution of one basis kernel, built, whose property set
    has the numbers [numbers] and the words [words]. *)
Definition regularized_of (numbers : list (string * float)) (words : list (string * string))
    : RegularizedKernelSolution.t :=
  {| RegularizedKernelSolution.static :=
       snd (StaticKernelSolution.build ramp ramp (constant_image 3 3 2) (static false));
     RegularizedKernelSolution._hMat := identity 1;
     RegularizedKernelSolution._lambda := None;
     RegularizedKernelSolution._policy := policy [] numbers words |}.

(** The grid 0, 0.5, 1, and one whose step is zero. *)
Definition grid (lambdaLinStep : float) : RegularizedKernelSolution.t :=
  regularized_of
    [("lambdaLinMin", 0); ("lambdaLinMax", 1); ("lambdaLinStep", lambdaLinStep)]
    [("lambdaType", "minimizeBiasedRisk"); ("lambdaStepType", "linear")].

(** A mask that flags the pixel in the middle as BAD. *)
Definition middle_mask : Mask :=
  {| mask_x0 := 0; mask_y0 := 0; mask_width := 3; mask_height := 3;
     mask_array := [[0; 0; 0]; [0; 1; 0]; [0; 0; 0]]%Z |}.

(** [ramp] with [v] for the pixel in the middle. *)
Definition ramp_with (v : float) : Image :=
  {| x0 := 0; y0 := 0; width := 3; height := 3;
     array := [[1; 2; 3]; [4; v; 6]; [7; 8; 9]] |}.

(** The spatial solution the constructor makes for two basis kernels of the
    Alard-Lupton set, whose first term does not vary: linear spatial
    variation of the second kernel and of the background. *)
Definition spatial_first_term : SpatialKernelSolution.t :=
  {| SpatialKernelSolution.base :=
       set_bVec (vZero 5) (set_mMat (Zero 5 5) (set_fitForBackground true fresh));
     SpatialKernelSolution._spatialKernelFunction := linear;
     SpatialKernelSolution._constantFirstTerm := true;
     SpatialKernelSolution._kernel :=
       {| firstKernel := kernel 1; otherKernels := [kernel 1]; kernelParameters := [];
          spatialFunction := Some linear; spatialParameters := [] |};
     SpatialKernelSolution._background := linear;
     SpatialKernelSolution._kSum := 0;
     SpatialKernelSolution._policy :=
       policy ["fitForBackground"] [] [("kernelBasisSet", "alard-lupton")];
     SpatialKernelSolution._nbases := 2; SpatialKernelSolution._nkt := 2;
     SpatialKernelSolution._nbt := 2; SpatialKernelSolution._nt := 5 |}.

End Small.

(** * Vocabulary of the properties

    What the statements below are phrased with: quantities of the
    specification, and readings of the state of a solution. *)

Unset Implicit Arguments.

Section Vocabulary.
Context {E : Externals}.
Open Scope float_scope.
Import KernelSolution StaticKernelSolution.

(** The ratio the specification words: the largest over the smallest
    absolute value of the eigenvalues. *)
Definition absolute_eigenvalue_ratio (eValues : VectorXd) : float :=
  maxCoeff (map abs eValues) / minCoeff (map abs eValues).

(** The lambda types [solve] knows. *)
Definition recognized (lambdaType : string) : bool :=
  String.eqb lambdaType "absolute" || String.eqb lambdaType "relative"
  || String.eqb lambdaType "minimizeBiasedRisk"
  || String.eqb lambdaType "minimizeUnbiasedRisk".

(** The number of coefficients the loop over the bases reads: one for a
    constant first term, [nkt] for every other term. *)
Definition span (constantFirstTerm : bool) (nkt : nat) (bases : list nat) : nat :=
  fold_right (fun i n => ((if (i =? 0)%nat && constantFirstTerm then 1 else nkt) + n)%nat)
             0%nat bases.

(** Every operand of every message of an exception. *)
Definition operands_of (e : exception) : list FormatArg :=
  flat_map operands (what e).

(** An exception carries the number [d] when one of its messages has it
    as an operand. *)
Definition mentions (e : exception) (d : float) : Prop :=
  exists m, In m (what e) /\ In (ArgDouble d) (operands m).

(** What the constructor establishes about the sizes of a spatial solution. *)
Definition spatial_sizes (s : SpatialKernelSolution.t) : Prop :=
  let nbases := SpatialKernelSolution._nbases s in
  let nkt := SpatialKernelSolution._nkt s in
  let nbt := SpatialKernelSolution._nbt s in
  (1 <= nbases)%Z /\ (0 <= nkt)%Z /\ (0 <= nbt)%Z
  /\ SpatialKernelSolution._nt s
     = (if SpatialKernelSolution._constantFirstTerm s
        then (nbases - 1) * nkt + 1 + nbt else nbases * nkt + nbt)%Z
  /\ (_fitForBackground (SpatialKernelSolution.base s) = false -> nbt = 0%Z).

(** The coefficients [_setKernel] of SpatialKernelSolution checks for the
    kernel and for the background. *)
Definition spatial_kernel_check (cNumber : float) (s : SpatialKernelSolution.t)
    : exception + unit :=
  let aVec := _aVec (SpatialKernelSolution.base s) in
  let nbases := Z.to_nat (SpatialKernelSolution._nbases s) in
  if (SpatialKernelSolution._nkt s =? 1)%Z then
    match copy_coefficients (SpatialKernelSolution.kernel_nan_I cNumber) aVec (seq 0 nbases)
    with inl e => inl e | inr _ => inr tt end
  else
    match SpatialKernelSolution.spatial_coefficients cNumber aVec
            (Z.to_nat (SpatialKernelSolution._nkt s))
            (SpatialKernelSolution._constantFirstTerm s) (seq 0 nbases) 0
    with inl e => inl e | inr _ => inr tt end.

Definition spatial_background_check (s : SpatialKernelSolution.t) : exception + unit :=
  if _fitForBackground (SpatialKernelSolution.base s) then
    match copy_coefficients SpatialKernelSolution.background_nan
            (_aVec (SpatialKernelSolution.base s))
            (seq (Z.to_nat (SpatialKernelSolution._nt s - SpatialKernelSolution._nbt s))
                 (Z.to_nat (SpatialKernelSolution._nbt s)))
    with inl e => inl e | inr _ => inr tt end
  else inr tt.

(** The solution a candidate constructs: of RegularizedKernelSolution when
    it is given a regularization matrix, of StaticKernelSolution otherwise. *)
Definition solution_of (regularized : bool) (hMat : MatrixXd) (ps : PropertySet)
    (s : StaticKernelSolution.t) : KernelCandidate.Solution :=
  if regularized then
    KernelCandidate.Regularized
      {| RegularizedKernelSolution.static := s;
         RegularizedKernelSolution._hMat := hMat;
         RegularizedKernelSolution._lambda := None;
         RegularizedKernelSolution._policy := ps |}
  else KernelCandidate.Static s.

(** The slot a build fills: [_kernelSolutionPca] once the candidate is
    initialized, [_kernelSolutionOrig] before. *)
Definition slot_of (initialized : bool)
    : KernelCandidate.Solution -> KernelCandidate.t -> KernelCandidate.t :=
  if initialized then KernelCandidate.set_kernelSolutionPca
  else KernelCandidate.set_kernelSolutionOrig.

(** The pixels of [im] over [box], column after column: the order of the
    vectors of the design system. *)
Definition good_pixels_of (im : Image) (box : Box2I) : list float :=
  flat_map
    (fun j => map (fun i => pixel im (Z.to_nat (minX box) + j) (Z.to_nat (minY box) + i))
                  (seq 0 (Z.to_nat (maxY box - minY box + 1))))
    (seq 0 (Z.to_nat (maxX box - minX box + 1))).

(** [box] lies inside the image, in LOCAL coordinates. *)
Definition inside (box : Box2I) (im : Image) : Prop :=
  (0 <= minX box <= maxX box)%Z /\ (maxX box < Z.of_nat (width im))%Z
  /\ (0 <= minY box <= maxY box)%Z /\ (maxY box < Z.of_nat (height im))%Z
  /\ (Z.of_nat (width im) < 2 ^ 32)%Z /\ (Z.of_nat (height im) < 2 ^ 32)%Z.

(** The matrix and the vector of a spatial solution, and its sizes. *)
Definition mMat_of (s : SpatialKernelSolution.t) : MatrixXd :=
  _mMat (SpatialKernelSolution.base s).
Definition bVec_of (s : SpatialKernelSolution.t) : VectorXd :=
  _bVec (SpatialKernelSolution.base s).
Definition sized (n : nat) (s : SpatialKernelSolution.t) : Prop :=
  rows (mMat_of s) = n /\ cols (mMat_of s) = n /\ length (bVec_of s) = n.

(** A step of the accumulation that leaves an entry of the matrix, or of the
    vector, as it was. *)
Definition keeps_entry (n r c : nat) (x : float) (s : SpatialKernelSolution.t) : Prop :=
  sized n s /\ coeff (mMat_of s) r c = x.
Definition keeps_segment (n k : nat) (x : float) (s : SpatialKernelSolution.t) : Prop :=
  sized n s /\ vcoeff (bVec_of s) k = x.

(** The three stages of [addConstraint] after the P vectors: the constant
    first term, the loop over the spatial blocks, the background. *)
Definition stages (qMat : MatrixXd) (wVec pK pB : VectorXd) (nbases nkt nbt dm : Z)
    (mb : nat) (constantFirstTerm fit : bool) (s : SpatialKernelSolution.t)
    : SpatialKernelSolution.t :=
  let pKpKt := outer pK pK in
  let pKpBt := if fit then outer pK pB else empty in
  let pBpBt := if fit then outer pB pB else empty in
  let m0 := if constantFirstTerm then 1%Z else 0%Z in
  let s := if constantFirstTerm
           then SpatialKernelSolution.fill_first_term qMat wVec pK pB nbases nkt nbt dm mb fit s
           else s in
  let s := fold_left
             (SpatialKernelSolution.fill_block_row qMat wVec pK pKpKt pKpBt
                nbases nkt nbt dm mb fit)
             (SpatialKernelSolution.Zrange m0 nbases) s in
  if fit then SpatialKernelSolution.fill_background qMat wVec pB pBpBt nbases nbt mb s else s.

(** The solution once [addConstraint] has evaluated its spatial functions,
    which it leaves holding the last parameter vector it gave them. *)
Definition evaluated (s : SpatialKernelSolution.t) : SpatialKernelSolution.t :=
  let s1 := SpatialKernelSolution.set_spatialKernelFunction
              (SpatialKernelSolution.after_basis_values
                 (SpatialKernelSolution._spatialKernelFunction s)
                 (Z.to_nat (SpatialKernelSolution._nkt s))) s in
  if _fitForBackground (SpatialKernelSolution.base s)
  then SpatialKernelSolution.set_background
         (SpatialKernelSolution.after_basis_values
            (SpatialKernelSolution._background s)
            (Z.to_nat (SpatialKernelSolution._nbt s))) s1
  else s1.
(** The selector [_buildKernelSolution] reads from the property set. *)
Definition ctype_of (ps : PropertySet) : option ConditionNumberType :=
  if String.eqb (getAsString ps "conditionNumberType") "SVD" then Some SVD
  else if String.eqb (getAsString ps "conditionNumberType") "EIGENVALUE" then Some EIGENVALUE
  else None.

Definition conditionNumberType_not_recognized : exception :=
  LSST_EXCEPT TypeError (text "conditionNumberType not recognized").

(** The candidate of [w] with the regularization flag set and [sol] in the
    slot a build fills, and the counter of identifiers at [id]. *)
Definition with_slot (w : KernelCandidate.state) (id : Z) (regularized : bool)
    (sol : KernelCandidate.Solution) : KernelCandidate.state :=
  {| KernelCandidate.SolutionId := id;
     KernelCandidate.this :=
       slot_of (KernelCandidate._isInitialized (KernelCandidate.this w)) sol
         (KernelCandidate.set_useRegularization regularized (KernelCandidate.this w)) |}.

(** The four paths of [_buildKernelSolution] as one: construct, build,
    check the condition number, solve. *)
Definition buildKernelSolution_steps (fuel : nat) (varianceEstimate : Image)
    (basisList : list Kernel) (hMat : MatrixXd) (w : KernelCandidate.state)
    : result unit * KernelCandidate.state :=
  let c := KernelCandidate.this w in
  let ps := KernelCandidate._ps c in
  let regularized := (0 <? size hMat)%nat in
  match ctype_of ps with
  | None => (Throw conditionNumberType_not_recognized, w)
  | Some ctype =>
      match StaticKernelSolution.new (KernelCandidate.SolutionId w) basisList
              (KernelCandidate._fitForBackground c) with
      | (Ok s0, id) =>
          match StaticKernelSolution.build
                  (getImage (KernelCandidate._templateMaskedImage c))
                  (getImage (KernelCandidate._scienceMaskedImage c))
                  varianceEstimate s0 with
          | (Ok _, s1) =>
              let solved :=
                match KernelCandidate.virtual_solve fuel
                        (solution_of regularized hMat ps s1) with
                | (Ok _, sol) => (Ok tt, with_slot w id regularized sol)
                | (Throw e, sol) => (Throw e, with_slot w id regularized sol)
                | (Unfinished, sol) => (Unfinished, with_slot w id regularized sol)
                end in
              let built := with_slot w id regularized (solution_of regularized hMat ps s1) in
              if getAsBool ps "checkConditionNumber" then
                match fst (StaticKernelSolution.getConditionNumber ctype s1) with
                | Ok cNumber =>
                    if getAsDouble ps "maxConditionNumber" <? cNumber
                    then (Ok tt, KernelCandidate.on_this (KernelCandidate.setStatus BAD) built)
                    else solved
                | Throw e => (Throw e, built)
                | Unfinished => (Unfinished, built)
                end
              else solved
          | (Throw e, s1) =>
              (Throw e, with_slot w id regularized (solution_of regularized hMat ps s1))
          | (Unfinished, s1) =>
              (Unfinished, with_slot w id regularized (solution_of regularized hMat ps s1))
          end
      | (Throw e, id) =>
          (Throw e,
           {| KernelCandidate.SolutionId := id;
              KernelCandidate.this := KernelCandidate.set_useRegularization regularized c |})
      | (Unfinished, id) =>
          (Unfinished,
           {| KernelCandidate.SolutionId := id;
              KernelCandidate.this := KernelCandidate.set_useRegularization regularized c |})
      end
  end.


(** What a build keeps of a candidate: the status unless it becomes BAD,
    the images, the property set, and the solution in the slot the build
    does not fill. *)
Definition rebuilt (c c' : KernelCandidate.t) : Prop :=
  (KernelCandidate._status c' = KernelCandidate._status c
   \/ KernelCandidate._status c' = BAD)
  /\ KernelCandidate._isInitialized c' = KernelCandidate._isInitialized c
  /\ KernelCandidate._ps c' = KernelCandidate._ps c
  /\ KernelCandidate._templateMaskedImage c' = KernelCandidate._templateMaskedImage c
  /\ KernelCandidate._scienceMaskedImage c' = KernelCandidate._scienceMaskedImage c
  /\ KernelCandidate._fitForBackground c' = KernelCandidate._fitForBackground c
  /\ KernelCandidate._coreFlux c' = KernelCandidate._coreFlux c
  /\ (KernelCandidate._isInitialized c = true ->
      KernelCandidate._kernelSolutionOrig c' = KernelCandidate._kernelSolutionOrig c)
  /\ (KernelCandidate._isInitialized c = false ->
      KernelCandidate._kernelSolutionPca c' = KernelCandidate._kernelSolutionPca c).

(** The solution RECENT names: the pca one when there is one. *)
Definition recent (c : KernelCandidate.t) : option KernelCandidate.Solution :=
  match KernelCandidate._kernelSolutionPca c with
  | Some x => Some x
  | None => KernelCandidate._kernelSolutionOrig c
  end.

(** A solution whose results can be read: it is solved, none of the
    parameters of its kernel is NaN, nor its background when that is fit,
    and [kSum] is the sum of the kernel's image. *)
Definition usable (s : StaticKernelSolution.t) : Prop :=
  _solvedBy (base s) <> NONE
  /\ Forall (fun x => is_nan x = false) (kernelParameters (_kernel s))
  /\ (_fitForBackground (base s) = true -> is_nan (_background s) = false)
  /\ _kSum s = snd (computeImage (_kernel s)).

(** A candidate as the constructors and the builds keep it: once
    initialized it has an original solution, and before it has no pca
    solution. *)
Definition well_formed (c : KernelCandidate.t) : Prop :=
  (KernelCandidate._isInitialized c = true -> KernelCandidate._kernelSolutionOrig c <> None)
  /\ (KernelCandidate._isInitialized c = false -> KernelCandidate._kernelSolutionPca c = None).

(** The loop variable of [_createLambdaSteps] after [k] additions of the
    step, each one rounded. *)
Fixpoint stepped (l lStep : float) (k : nat) : float :=
  match k with
  | O => l
  | S k => stepped (l + lStep) lStep k
  end.

(** The loop of [_createLambdaSteps] the property set selects: what is
    pushed for a value of the loop variable, and the bounds and the step. *)
Definition lambda_loop_of (policy : PropertySet)
    (f : float -> float) (lMin lMax lStep : float) : Prop :=
  (getAsString policy "lambdaStepType" = "linear"%string
   /\ f = (fun l => l)
   /\ lMin = getAsDouble policy "lambdaLinMin"
   /\ lMax = getAsDouble policy "lambdaLinMax"
   /\ lStep = getAsDouble policy "lambdaLinStep")
  \/ (getAsString policy "lambdaStepType" = "log"%string
      /\ f = (fun l => pow 10 l)
      /\ lMin = getAsDouble policy "lambdaLogMin"
      /\ lMax = getAsDouble policy "lambdaLogMax"
      /\ lStep = getAsDouble policy "lambdaLogStep").

(** Two regularized solutions that differ at most in the coefficients and
    in how they were solved. *)
Definition same_system (s s' : RegularizedKernelSolution.t) : Prop :=
  RegularizedKernelSolution._hMat s' = RegularizedKernelSolution._hMat s
  /\ RegularizedKernelSolution._policy s' = RegularizedKernelSolution._policy s
  /\ RegularizedKernelSolution._lambda s' = RegularizedKernelSolution._lambda s
  /\ _cMat (RegularizedKernelSolution.static s') = _cMat (RegularizedKernelSolution.static s)
  /\ _iVec (RegularizedKernelSolution.static s') = _iVec (RegularizedKernelSolution.static s)
  /\ _ivVec (RegularizedKernelSolution.static s')
     = _ivVec (RegularizedKernelSolution.static s)
  /\ _kernel (RegularizedKernelSolution.static s')
     = _kernel (RegularizedKernelSolution.static s)
  /\ _background (RegularizedKernelSolution.static s')
     = _background (RegularizedKernelSolution.static s)
  /\ _kSum (RegularizedKernelSolution.static s') = _kSum (RegularizedKernelSolution.static s)
  /\ _mMat (base (RegularizedKernelSolution.static s'))
     = _mMat (base (RegularizedKernelSolution.static s))
  /\ _bVec (base (RegularizedKernelSolution.static s'))
     = _bVec (base (RegularizedKernelSolution.static s))
  /\ _fitForBackground (base (RegularizedKernelSolution.static s'))
     = _fitForBackground (base (RegularizedKernelSolution.static s)).

(** The coefficients of basis kernel [m] in the solution vector: the
    entries from the offset of its block on, and for a constant first term
    the first entry followed by zeros. *)
Definition spatial_row (aVec : VectorXd) (nkt : Z) (constantFirstTerm : bool) (m : nat)
    : list float :=
  if (m =? 0)%nat && constantFirstTerm
  then vcoeff aVec 0 :: repeat 0 (Z.to_nat nkt - 1)
  else map (vcoeff aVec)
           (seq (SpatialKernelSolution.offset nkt
                   (if constantFirstTerm then nkt - 1 else 0)%Z (Z.of_nat m))
                (Z.to_nat nkt)).

(** The kernel [_setKernel] of SpatialKernelSolution makes from the
    coefficients, and the parameters it gives the background. *)
Definition spatial_kernel_of (cNumber : float) (s : SpatialKernelSolution.t)
    : exception + LinearCombinationKernel Kernel :=
  let aVec := _aVec (SpatialKernelSolution.base s) in
  let nbases := Z.to_nat (SpatialKernelSolution._nbases s) in
  let kernel := SpatialKernelSolution._kernel s in
  if (SpatialKernelSolution._nkt s =? 1)%Z then
    match copy_coefficients (SpatialKernelSolution.kernel_nan_I cNumber) aVec (seq 0 nbases)
    with
    | inl e => inl e
    | inr kCoeffs =>
        inr {| firstKernel := firstKernel kernel; otherKernels := otherKernels kernel;
               kernelParameters := kCoeffs; spatialFunction := None;
               spatialParameters := [] |}
    end
  else
    match SpatialKernelSolution.spatial_coefficients cNumber aVec
            (Z.to_nat (SpatialKernelSolution._nkt s))
            (SpatialKernelSolution._constantFirstTerm s) (seq 0 nbases) 0
    with
    | inl e => inl e
    | inr kCoeffs =>
        inr {| firstKernel := firstKernel kernel; otherKernels := otherKernels kernel;
               kernelParameters := kernelParameters kernel;
               spatialFunction := spatialFunction kernel;
               spatialParameters := kCoeffs |}
    end.

Definition spatial_background_of (s : SpatialKernelSolution.t) : exception + list float :=
  if _fitForBackground (SpatialKernelSolution.base s) then
    copy_coefficients SpatialKernelSolution.background_nan
      (_aVec (SpatialKernelSolution.base s))
      (seq (Z.to_nat (SpatialKernelSolution._nt s - SpatialKernelSolution._nbt s))
           (Z.to_nat (SpatialKernelSolution._nbt s)))
  else inr [0].

(** The solution as [solve] of SpatialKernelSolution hands it to the linear
    solver: the matrix with its other half filled in. *)
Definition symmetrized (s : SpatialKernelSolution.t) : KernelSolution.t :=
  set_mMat (SpatialKernelSolution.fill_other_half (_mMat (SpatialKernelSolution.base s))
              (SpatialKernelSolution._nt s))
           (SpatialKernelSolution.base s).

(** The value an array holds for the position [p] of the parent frame,
    the origin of the array at ([ox], [oy]). *)
Definition at_position {A : Type} (d : A) (arr : list (list A)) (ox oy : Z) (p : Z * Z)
    : A :=
  nth (Z.to_nat (fst p - ox)) (nth (Z.to_nat (snd p - oy)) arr []) d.

(** The positions of [box], row by row, at which the mask holds zero. *)
Definition good_positions (box : Box2I) (mask : list (list Z)) (ox oy : Z)
    : list (Z * Z) :=
  flat_map
    (fun y => map (fun x => (x, y))
                  (filter (fun x => (at_position 0%Z mask ox oy (x, y) =? 0)%Z)
                          (MaskedKernelSolution.Zseq (minX box)
                             (Z.to_nat (maxX box - minX box + 1)))))
    (MaskedKernelSolution.Zseq (minY box) (Z.to_nat (maxY box - minY box + 1))).

(** The mask [buildWithMask] ends with: the pixels of [pixelMask] flagged
    BAD, SAT, NO_DATA or EDGE, grown by the half width of the kernel. *)
Definition finalMask_of (kernel : LinearCombinationKernel Kernel) (pixelMask : Mask) : Mask :=
  FootprintSet_setMask
    (FootprintSet_grow
       (FootprintSet_ofMask pixelMask
          (Z.lor (Z.lor (Z.lor (getPlaneBitMask "BAD") (getPlaneBitMask "SAT"))
                        (getPlaneBitMask "NO_DATA"))
                 (getPlaneBitMask "EDGE")))
       (Kernel_getCtrX (firstKernel kernel)))
    (MaskedKernelSolution.blank_mask pixelMask) (getPlaneBitMask "BAD").

(** The parameter vectors of the two spatial functions have the lengths
    the constructor read off them. *)
Definition function_sizes (s : SpatialKernelSolution.t) : Prop :=
  Z.of_nat (length (getParameters (SpatialKernelSolution._spatialKernelFunction s)))
  = SpatialKernelSolution._nkt s
  /\ (_fitForBackground (SpatialKernelSolution.base s) = true ->
      Z.of_nat (length (getParameters (SpatialKernelSolution._background s)))
      = SpatialKernelSolution._nbt s).

(** The unit vector of the last of [n] parameters, which the loops of
    [addConstraint] over the parameters give a function last. *)
Definition last_unit (n : nat) : list float :=
  map (fun k => if (k =? n - 1)%nat then 1 else 0) (seq 0 n).

(** The arguments of a call of [addConstraint]. *)
Record constraint := {
  at_x : float;
  at_y : float;
  q_of : MatrixXd;
  w_of : VectorXd
}.

(** The calls of [addConstraint] for a list of candidates, in order. *)
Fixpoint addConstraints (cs : list constraint) : M SpatialKernelSolution.t unit :=
  match cs with
  | [] => ret tt
  | c :: cs =>
      SpatialKernelSolution.addConstraint (at_x c) (at_y c) (q_of c) (w_of c) ;;
      addConstraints cs
  end.

(** Every entry below the diagonal of the leading [n] rows is zero. *)
Definition upper_triangular (n : nat) (m : MatrixXd) : Prop :=
  forall r c, (c < r)%nat -> (r < n)%nat -> coeff m r c = 0.

(** The call [getDifferenceImage(RECENT)] makes on a candidate: on its pca
    solution when it has one, on the original one otherwise. *)
Definition recent_call (c : KernelCandidate.t) : DifferenceImageCall :=
  match KernelCandidate._kernelSolutionPca c with
  | Some _ => call_RECENT_pca
  | None => call_RECENT_orig
  end.

(** What the getter says that is evaluated first at a call, [getKernel()]
    or [getBackground()], on a solution that is not solved. *)
Definition first_getter_message (call : DifferenceImageCall) : string :=
  if getKernel_first call
  then "Kernel not solved; cannot return solution"
  else "Kernel not solved; cannot return background".

End Vocabulary.

Section VisitorVocabulary.
Context {E : Externals} {I : Statistics}.
Open Scope float_scope.

(** The regularization matrix a visitor builds with. *)
Definition hMat_of (v : BuildSingleKernelVisitor.t) : MatrixXd :=
  if BuildSingleKernelVisitor._useRegularization v
  then BuildSingleKernelVisitor._hMat v else empty.

(** The statistics a visit takes first: of the core when useCoreStats is
    set, of the whole difference image otherwise. *)
Definition first_statistics (v : BuildSingleKernelVisitor.t) (diffim : MaskedImage)
    : option exception * ImageStatistics :=
  if BuildSingleKernelVisitor._useCoreStats v
  then ImageStatistics_apply_core diffim (BuildSingleKernelVisitor._coreRadius v)
         (BuildSingleKernelVisitor._imstats v)
  else ImageStatistics_apply diffim (BuildSingleKernelVisitor._imstats v).

(** The difference image of a candidate for the solution [sol]. *)
Definition diffim_of (k : KernelCandidate.state) (sol : KernelCandidate.Solution)
    : MaskedImage :=
  convolveAndSubtract
    (KernelCandidate._templateMaskedImage (KernelCandidate.this k))
    (KernelCandidate._scienceMaskedImage (KernelCandidate.this k))
    (StaticKernelSolution._kernel (KernelCandidate.static_of sol))
    (StaticKernelSolution._background (KernelCandidate.static_of sol)).

(** The residuals pass the test of the visitor: neither is NaN, and with
    singleKernelClipping neither is above its limit. *)
Definition residuals_pass (policy : PropertySet) (st : ImageStatistics) : Prop :=
  is_nan (ImageStatistics_getMean st) = false
  /\ is_nan (ImageStatistics_getRms st) = false
  /\ (getAsBool policy "singleKernelClipping" = true ->
      (getAsDouble policy "candidateResidualMeanMax" <? abs (ImageStatistics_getMean st))
      = false
      /\ (getAsDouble policy "candidateResidualStdMax" <? ImageStatistics_getRms st)
         = false).

End VisitorVocabulary.

(** * Properties *)

(** ** Coefficients of generated matrices and vectors *)

Lemma nth_flat_map_rows (A : Type) (d : A) (g : nat -> list A) (r : nat) :
  (forall j, length (g j) = r) ->
  forall c a k i, (k < c)%nat -> (i < r)%nat ->
    nth (i + k * r) (flat_map g (seq a c)) d = nth i (g (a + k)%nat) d.
Proof.
  intros Hlen c. induction c as [|c IH]; intros a k i Hk Hi; [lia|].
  simpl. destruct k as [|k].
  - replace (i + 0 * r)%nat with i by lia. replace (a + 0)%nat with a by lia.
    rewrite app_nth1 by (rewrite Hlen; lia). reflexivity.
  - rewrite app_nth2 by (rewrite Hlen; simpl; lia).
    rewrite Hlen. replace (i + S k * r - r)%nat with (i + k * r)%nat by (simpl; lia).
    rewrite IH by lia. f_equal. f_equal. lia.
Qed.

Lemma nth_map_seq (A : Type) (d : A) (g : nat -> A) (a n i : nat) :
  (i < n)%nat -> nth i (map g (seq a n)) d = g (a + i)%nat.
Proof.
  intros Hi.
  rewrite (nth_indep _ d (g 0%nat)) by (rewrite length_map, length_seq; exact Hi).
  rewrite map_nth, seq_nth by assumption. reflexivity.
Qed.

Lemma coeff_generate (r c : nat) (f : nat -> nat -> float) (i j : nat) :
  (i < r)%nat -> (j < c)%nat -> coeff (generate r c f) i j = f i j.
Proof.
  intros Hi Hj. unfold coeff, generate. simpl.
  rewrite (nth_flat_map_rows float 0%float (fun j => map (fun i => f i j) (seq 0 r)) r);
    [| intros; rewrite length_map, length_seq; reflexivity | assumption | assumption].
  rewrite nth_map_seq by assumption. reflexivity.
Qed.

Lemma vcoeff_vgenerate (n : nat) (f : nat -> float) (i : nat) :
  (i < n)%nat -> vcoeff (vgenerate n f) i = f i.
Proof.
  intros Hi. unfold vcoeff, vgenerate. rewrite nth_map_seq by assumption. reflexivity.
Qed.

Lemma length_vgenerate (n : nat) (f : nat -> float) : length (vgenerate n f) = n.
Proof. unfold vgenerate. rewrite length_map, length_seq. reflexivity. Qed.

Lemma vgenerate_nth (l : list float) :
  vgenerate (length l) (fun i => nth i l 0%float) = l.
Proof.
  unfold vgenerate. apply nth_ext with (d := 0%float) (d' := 0%float).
  - rewrite length_map, length_seq. reflexivity.
  - intros n Hn. rewrite length_map, length_seq in Hn.
    rewrite nth_map_seq by assumption. reflexivity.
Qed.

Lemma length_flat_map_rows (A : Type) (g : nat -> list A) (r : nat) :
  (forall j, length (g j) = r) ->
  forall c a, length (flat_map g (seq a c)) = (c * r)%nat.
Proof.
  intros Hlen c. induction c as [|c IH]; intros a; [reflexivity|].
  simpl. rewrite length_app, Hlen, IH. reflexivity.
Qed.

Lemma length_storage_generate (r c : nat) (f : nat -> nat -> float) :
  length (storage (generate r c f)) = (c * r)%nat.
Proof.
  unfold generate. simpl. apply length_flat_map_rows.
  intros. rewrite length_map, length_seq. reflexivity.
Qed.

(** Unfolding the monad on a run. *)
Ltac run :=
  unfold bind, ret, throw, get, gets, modify, try_catch, lift, when, unfinished.

Section Properties.
Context {E : Externals}.
Open Scope float_scope.

(** *** KernelSolution::solve *)

Import KernelSolution.

Lemma invert_nonzero_length (eValues : VectorXd) :
  length (invert_nonzero eValues) = length eValues.
Proof. unfold invert_nonzero. apply length_map. Qed.

Lemma invert_nonzero_coeff (eValues : VectorXd) (i : nat) :
  (i < length eValues)%nat ->
  ((vcoeff eValues i =? 0) = false ->
     vcoeff (invert_nonzero eValues) i = 1 / vcoeff eValues i)
  /\ ((vcoeff eValues i =? 0) = true ->
        vcoeff (invert_nonzero eValues) i = vcoeff eValues i).
Proof.
  intros Hi. unfold vcoeff, invert_nonzero.
  set (f := fun e : float => if negb (e =? 0) then 1 / e else e).
  rewrite (nth_indep (map f eValues) 0 (f 0)) by (rewrite length_map; exact Hi).
  rewrite (map_nth f). unfold f. split; intros H; rewrite H; reflexivity.
Qed.

(** The three ways through [solve(M, b)]. *)
Lemma solve_mb_run (mMat : MatrixXd) (bVec : VectorXd) (s : t) :
  solve_mb mMat bVec s
  = if FullPivLU_isInvertible mMat then
      (Ok tt, set_aVec (FullPivLU_solve mMat bVec) (set_solvedBy LU s))
    else match SelfAdjointEigenSolver mMat with
         | inr (rMat, eValues) =>
             (Ok tt,
              set_aVec (mulv (mul (mul_diag rMat (invert_nonzero eValues))
                                  (transpose rMat)) bVec)
                (set_solvedBy EIGENVECTOR s))
         | inl _ => (Throw unable_to_solve, set_solvedBy NONE s)
         end.
Proof.
  unfold solve_mb. run.
  destruct (FullPivLU_isInvertible mMat); [reflexivity|].
  destruct (SelfAdjointEigenSolver mMat) as [e | [rMat eValues]]; reflexivity.
Qed.

(** C1. [solve(M, b)]: when the LU decomposition finds M invertible the
    coefficients are its solution of M a = b (M^-1 b) and [solvedBy] is
    LU; otherwise, with M = R diag(e) R^T the eigendecomposition Eigen
    returns, the coefficients are R diag(e') R^T b, where e'(i) = 1/e(i)
    for every e(i) that is not zero and e'(i) is the zero e(i) otherwise,
    and [solvedBy] is EIGENVECTOR; and when the eigendecomposition throws,
    [solvedBy] is NONE, the coefficients are left as they were and the
    call throws. *)
Theorem solve_LU_then_eigenvector (mMat : MatrixXd) (bVec : VectorXd) (s : t) :
  (FullPivLU_isInvertible mMat = true ->
     solve_mb mMat bVec s
     = (Ok tt, set_aVec (FullPivLU_solve mMat bVec) (set_solvedBy LU s)))
  /\ (FullPivLU_isInvertible mMat = false ->
      forall rMat eValues, SelfAdjointEigenSolver mMat = inr (rMat, eValues) ->
      exists eInv,
        solve_mb mMat bVec s
        = (Ok tt, set_aVec (mulv (mul (mul_diag rMat eInv) (transpose rMat)) bVec)
                    (set_solvedBy EIGENVECTOR s))
        /\ length eInv = length eValues
        /\ forall i, (i < length eValues)%nat ->
             ((vcoeff eValues i =? 0) = false -> vcoeff eInv i = 1 / vcoeff eValues i)
             /\ ((vcoeff eValues i =? 0) = true ->
                   vcoeff eInv i = vcoeff eValues i /\ (vcoeff eInv i =? 0) = true))
  /\ (FullPivLU_isInvertible mMat = false ->
      forall e, SelfAdjointEigenSolver mMat = inl e ->
      solve_mb mMat bVec s = (Throw unable_to_solve, set_solvedBy NONE s)).
Proof.
  rewrite solve_mb_run. repeat split.
  - intros Hlu. rewrite Hlu. reflexivity.
  - intros Hlu rMat eValues Heig. exists (invert_nonzero eValues).
    split; [| split].
    + rewrite Hlu, Heig. reflexivity.
    + apply invert_nonzero_length.
    + intros i Hi. destruct (invert_nonzero_coeff eValues i Hi) as [Hne Heq].
      split; [exact Hne|]. intros Hz. rewrite (Heq Hz). split; [reflexivity | exact Hz].
  - intros Hlu e Heig. rewrite Hlu, Heig. reflexivity.
Qed.

(** A run of [solve(M, b)] either stores coefficients and ends solved by
    LU or EIGENVECTOR, or throws with [solvedBy] at NONE and nothing else
    changed. *)
Lemma solve_mb_outcome (mMat : MatrixXd) (bVec : VectorXd) (s : t) :
  (exists a k, (k = LU \/ k = EIGENVECTOR)
               /\ solve_mb mMat bVec s = (Ok tt, set_aVec a (set_solvedBy k s)))
  \/ (exists e, solve_mb mMat bVec s = (Throw e, set_solvedBy NONE s)).
Proof.
  rewrite solve_mb_run.
  destruct (FullPivLU_isInvertible mMat).
  - left. exists (FullPivLU_solve mMat bVec), LU. split; [left|]; reflexivity.
  - destruct (SelfAdjointEigenSolver mMat) as [e | [rMat eValues]].
    + right. eexists. reflexivity.
    + left. eexists. exists EIGENVECTOR. split; [right|]; reflexivity.
Qed.

(** *** KernelSolution::getConditionNumber *)

(** C4, amended. [getConditionNumber(M, EIGENVALUE)] returns the largest
    eigenvalue of M divided by the smallest, both taken with their signs
    (so it is the ratio of the absolute values whenever every eigenvalue is
    its own absolute value); [getConditionNumber(M, SVD)] returns the
    largest singular value divided by the smallest; with any other
    selector the call throws InvalidParameterError. The object is left as
    it was. *)
Theorem getConditionNumber_ratio (mMat : MatrixXd) (s : t) :
  (forall rMat eValues, SelfAdjointEigenSolver mMat = inr (rMat, eValues) ->
     getConditionNumber_m mMat EIGENVALUE s
     = (Ok (maxCoeff eValues / minCoeff eValues), s)
     /\ (map abs eValues = eValues ->
         getConditionNumber_m mMat EIGENVALUE s
         = (Ok (absolute_eigenvalue_ratio eValues), s)))
  /\ getConditionNumber_m mMat SVD s
     = (Ok (maxCoeff (jacobiSvd_singularValues mMat)
            / minCoeff (jacobiSvd_singularValues mMat)), s)
  /\ (forall v, getConditionNumber_m mMat (UNDEFINED v) s = (Throw undefined_type, s)).
Proof.
  split; [| split].
  - intros rMat eValues Heig.
    assert (H : getConditionNumber_m mMat EIGENVALUE s
                = (Ok (maxCoeff eValues / minCoeff eValues), s)).
    { unfold getConditionNumber_m. rewrite Heig. reflexivity. }
    split; [exact H|]. intros Habs. rewrite H.
    unfold absolute_eigenvalue_ratio. rewrite Habs. reflexivity.
  - reflexivity.
  - intros v. reflexivity.
Qed.

(** *** The variance checks of build and buildWithMask *)

Import StaticKernelSolution.

(** C7. [build] and [buildWithMask] alike: when the minimum of the
    variance image is less than zero the call throws ("variance less than
    0.0"), when it is equal to zero the call throws as well, and a call
    that returns found a minimum that is neither: no C, M or b is formed
    from a variance whose minimum is not positive. *)
Theorem build_rejects_nonpositive_variance
    (templateImage scienceImage varianceEstimate : Image) (pixelMask : Mask) (s : t) :
  let vmin := makeStatistics_MIN varianceEstimate in
  ((vmin <? 0) = true ->
     fst (build templateImage scienceImage varianceEstimate s) = Throw variance_negative
     /\ fst (MaskedKernelSolution.buildWithMask
               templateImage scienceImage varianceEstimate pixelMask s)
        = Throw variance_negative)
  /\ ((vmin =? 0) = true ->
      (exists e, fst (build templateImage scienceImage varianceEstimate s) = Throw e)
      /\ (exists e, fst (MaskedKernelSolution.buildWithMask
                           templateImage scienceImage varianceEstimate pixelMask s)
                    = Throw e)
      /\ ((vmin <? 0) = false ->
          fst (build templateImage scienceImage varianceEstimate s) = Throw variance_zero
          /\ fst (MaskedKernelSolution.buildWithMask
                    templateImage scienceImage varianceEstimate pixelMask s)
             = Throw variance_zero))
  /\ (fst (build templateImage scienceImage varianceEstimate s) = Ok tt ->
      (vmin <? 0) = false /\ (vmin =? 0) = false)
  /\ (fst (MaskedKernelSolution.buildWithMask
             templateImage scienceImage varianceEstimate pixelMask s) = Ok tt ->
      (vmin <? 0) = false /\ (vmin =? 0) = false).
Proof.
  intros vmin. unfold build, MaskedKernelSolution.buildWithMask. fold vmin.
  destruct (vmin <? 0) eqn:Hneg; destruct (vmin =? 0) eqn:Hzero; run; simpl.
  all: repeat split; intros; try discriminate; eauto.
Qed.

(** C10. When [build] or [buildWithMask] fails on the minimum of the
    variance, negative or zero, the solution is left exactly as it was:
    every field (C, V, Y, M, b, solvedBy, kernel, background, kSum) has the
    value it had before the call. *)
Theorem build_failure_leaves_solution
    (templateImage scienceImage varianceEstimate : Image) (pixelMask : Mask) (s : t) :
  (makeStatistics_MIN varianceEstimate <? 0) = true
  \/ (makeStatistics_MIN varianceEstimate =? 0) = true ->
  (exists e, build templateImage scienceImage varianceEstimate s = (Throw e, s))
  /\ (exists e, MaskedKernelSolution.buildWithMask
                  templateImage scienceImage varianceEstimate pixelMask s
                = (Throw e, s)).
Proof.
  intros H. unfold build, MaskedKernelSolution.buildWithMask.
  destruct (makeStatistics_MIN varianceEstimate <? 0) eqn:Hneg.
  - split; eexists; reflexivity.
  - destruct H as [H|H]; [discriminate|]. rewrite H. split; eexists; reflexivity.
Qed.

(** *** The accessors of an unsolved solution *)

Lemma setKernel_keeps_base (s : t) : base (snd (_setKernel s)) = base s.
Proof.
  unfold _setKernel, of_sum. run. cbv beta.
  destruct (_solvedBy (base s)); [reflexivity | |].
  all: destruct (negb _); [reflexivity |].
  all: destruct (copy_coefficients _ _ _); [reflexivity |].
  all: destruct (_fitForBackground (base s)); [| reflexivity].
  all: destruct (is_nan _); reflexivity.
Qed.

(** C8. On a StaticKernelSolution whose [solvedBy] is NONE each of
    [getKernel], [getBackground], [getKsum], [makeKernelImage] and
    [getSolutionPair] throws "Kernel not solved" and changes nothing. The
    coefficient vector is defined only by a successful solve: a new
    solution has [solvedBy] NONE and no coefficients, and a [solve] that
    leaves [solvedBy] at NONE has thrown and has not touched them. *)
Theorem unsolved_solution_has_no_result :
  (forall s : t, _solvedBy (base s) = NONE ->
     getKernel s = (Throw (not_solved "Kernel not solved; cannot return solution"), s)
     /\ getBackground s
        = (Throw (not_solved "Kernel not solved; cannot return background"), s)
     /\ getKsum s = (Throw (not_solved "Kernel not solved; cannot return ksum"), s)
     /\ makeKernelImage s
        = (Throw (not_solved "Kernel not solved; cannot return image"), s)
     /\ getSolutionPair s
        = (Throw (not_solved "Kernel not solved; cannot return solution"), s))
  /\ (forall id basisList fit (s : t),
        fst (new id basisList fit) = Ok s ->
        _solvedBy (base s) = NONE /\ _aVec (base s) = [])
  /\ (forall s : t,
        _solvedBy (base (snd (solve s))) = NONE ->
        (exists e, fst (solve s) = Throw e)
        /\ _aVec (base (snd (solve s))) = _aVec (base s)).
Proof.
  split; [| split].
  - intros s H. unfold getKernel, getBackground, getKsum, makeKernelImage, getSolutionPair.
    run. rewrite H. repeat split.
  - intros id basisList fit s. unfold new. simpl.
    destruct basisList; simpl; intros H; inversion H; subst; simpl. split; reflexivity.
  - intros s. unfold solve, super, KernelSolution.solve. run. cbv beta.
    destruct (solve_mb_outcome (_mMat (base s)) (_bVec (base s)) (base s))
      as [[a [k [Hk Hrun]]] | [e Hrun]]; rewrite Hrun; cbv beta iota.
    + rewrite (surjective_pairing (_setKernel _)). cbn [fst snd].
      rewrite setKernel_keeps_base. cbn [base set_base].
      intros H. exfalso. destruct Hk as [Hk | Hk]; rewrite Hk in H; discriminate.
    + cbn [fst snd base set_base]. intros _. split; [eexists; reflexivity | reflexivity].
Qed.
(** *** RegularizedKernelSolution::solve *)

Lemma chooseLambda_absolute (fuel : nat) (s : RegularizedKernelSolution.t) :
  getAsString (RegularizedKernelSolution._policy s) "lambdaType" = "absolute"%string ->
  RegularizedKernelSolution.chooseLambda fuel s
  = (Ok tt,
     RegularizedKernelSolution.set_lambda
       (getAsDouble (RegularizedKernelSolution._policy s) "lambdaValue") s).
Proof.
  intros H. unfold RegularizedKernelSolution.chooseLambda. run. rewrite H. reflexivity.
Qed.

Lemma chooseLambda_relative (fuel : nat) (s : RegularizedKernelSolution.t) :
  getAsString (RegularizedKernelSolution._policy s) "lambdaType" = "relative"%string ->
  RegularizedKernelSolution.chooseLambda fuel s
  = (Ok tt,
     RegularizedKernelSolution.set_lambda
       (trace (_mMat (base (RegularizedKernelSolution.static s)))
        / trace (RegularizedKernelSolution._hMat s)
        * getAsDouble (RegularizedKernelSolution._policy s) "lambdaScaling") s).
Proof.
  intros H. unfold RegularizedKernelSolution.chooseLambda. run. rewrite H. reflexivity.
Qed.

Lemma chooseLambda_not_recognized (fuel : nat) (s : RegularizedKernelSolution.t) :
  recognized (getAsString (RegularizedKernelSolution._policy s) "lambdaType") = false ->
  RegularizedKernelSolution.chooseLambda fuel s
  = (Throw RegularizedKernelSolution.lambdaType_not_recognized, s).
Proof.
  unfold recognized. intros H.
  apply orb_false_elim in H. destruct H as [H H4].
  apply orb_false_elim in H. destruct H as [H H3].
  apply orb_false_elim in H. destruct H as [H1 H2].
  unfold RegularizedKernelSolution.chooseLambda. run. rewrite H1, H2, H3, H4. reflexivity.
Qed.

(** Choosing lambda assigns [_lambda] and nothing else of what the final
    solve reads, unless it throws. *)
Lemma chooseLambda_assigns (fuel : nat) (s s2 : RegularizedKernelSolution.t) :
  RegularizedKernelSolution.chooseLambda fuel s = (Ok tt, s2) ->
  exists l, RegularizedKernelSolution._lambda s2 = Some l.
Proof.
  unfold RegularizedKernelSolution.chooseLambda. run.
  repeat match goal with
         | |- context [if ?c then _ else _] => destruct c
         end.
  - intros H. inversion H. eexists. reflexivity.
  - intros H. inversion H. eexists. reflexivity.
  - destruct (RegularizedKernelSolution.estimateRisk fuel _ s) as [[l | e |] s'];
      intros H; inversion H. eexists. reflexivity.
  - destruct (RegularizedKernelSolution.estimateRisk fuel _ s) as [[l | e |] s'];
      intros H; inversion H. eexists. reflexivity.
  - intros H. inversion H.
Qed.

Lemma solve_system_keeps_lambda (l : float) (s : RegularizedKernelSolution.t) :
  RegularizedKernelSolution._lambda (snd (RegularizedKernelSolution.solve_system l s))
  = RegularizedKernelSolution._lambda s.
Proof.
  unfold RegularizedKernelSolution.solve_system, RegularizedKernelSolution.super2,
    RegularizedKernelSolution.super, super. run. cbv beta.
  match goal with
  | |- context [solve_mb ?m ?b ?x] =>
      destruct (solve_mb_outcome m b x) as [[a [k [_ H]]] | [e H]]; rewrite H
  end; cbv beta iota; [| reflexivity].
  destruct (_setKernel _) as [[? | ? |] ?]; reflexivity.
Qed.

Lemma solve_system_LU (l : float) (s : RegularizedKernelSolution.t) :
  FullPivLU_isInvertible
    (add (_mMat (base (RegularizedKernelSolution.static s)))
         (scale l (RegularizedKernelSolution._hMat s))) = true ->
  _aVec (base (RegularizedKernelSolution.static
                 (snd (RegularizedKernelSolution.solve_system l s))))
  = FullPivLU_solve
      (add (_mMat (base (RegularizedKernelSolution.static s)))
           (scale l (RegularizedKernelSolution._hMat s)))
      (_bVec (base (RegularizedKernelSolution.static s))).
Proof.
  intros Hinv.
  unfold RegularizedKernelSolution.solve_system, RegularizedKernelSolution.super2,
    RegularizedKernelSolution.super, super. run. cbv beta.
  rewrite solve_mb_run, Hinv. cbv beta iota.
  rewrite (surjective_pairing (_setKernel _)). cbn [snd fst].
  cbn [RegularizedKernelSolution.static RegularizedKernelSolution.set_static].
  rewrite setKernel_keeps_base. reflexivity.
Qed.

(** C5. [RegularizedKernelSolution::solve]: with lambdaType "absolute" lambda
    is the configured lambdaValue; with "relative" it is trace M / trace H
    multiplied by the configured lambdaScaling (M being the matrix C^T V C
    the call has just formed); a lambdaType that is none of the four known
    makes the call throw; and once a lambda is chosen the base solver
    [solve(M + lambda H, b)] is what runs, so that when the LU decomposition
    finds M + lambda H invertible the coefficients are its solution. *)
Theorem regularized_solve_lambda (fuel : nat) (s : RegularizedKernelSolution.t) :
  let s1 := RegularizedKernelSolution.with_normal_equations s in
  let policy := RegularizedKernelSolution._policy s in
  let mMat := _mMat (base (RegularizedKernelSolution.static s1)) in
  let bVec := _bVec (base (RegularizedKernelSolution.static s1)) in
  let hMat := RegularizedKernelSolution._hMat s in
  (getAsString policy "lambdaType" = "absolute"%string ->
     let l := getAsDouble policy "lambdaValue" in
     RegularizedKernelSolution._lambda (snd (RegularizedKernelSolution.solve fuel s)) = Some l
     /\ RegularizedKernelSolution.solve fuel s
        = RegularizedKernelSolution.solve_system l (RegularizedKernelSolution.set_lambda l s1))
  /\ (getAsString policy "lambdaType" = "relative"%string ->
      let l := trace mMat / trace hMat * getAsDouble policy "lambdaScaling" in
      RegularizedKernelSolution._lambda (snd (RegularizedKernelSolution.solve fuel s)) = Some l
      /\ RegularizedKernelSolution.solve fuel s
         = RegularizedKernelSolution.solve_system l (RegularizedKernelSolution.set_lambda l s1))
  /\ (recognized (getAsString policy "lambdaType") = false ->
      RegularizedKernelSolution.solve fuel s
      = (Throw RegularizedKernelSolution.lambdaType_not_recognized, s1))
  /\ (forall s2, RegularizedKernelSolution.chooseLambda fuel s1 = (Ok tt, s2) ->
      exists l, RegularizedKernelSolution._lambda s2 = Some l
        /\ RegularizedKernelSolution.solve fuel s = RegularizedKernelSolution.solve_system l s2
        /\ (FullPivLU_isInvertible
              (add (_mMat (base (RegularizedKernelSolution.static s2)))
                   (scale l (RegularizedKernelSolution._hMat s2))) = true ->
            _aVec (base (RegularizedKernelSolution.static
                           (snd (RegularizedKernelSolution.solve fuel s))))
            = FullPivLU_solve
                (add (_mMat (base (RegularizedKernelSolution.static s2)))
                     (scale l (RegularizedKernelSolution._hMat s2)))
                (_bVec (base (RegularizedKernelSolution.static s2))))).
Proof.
  intros s1 policy mMat bVec hMat.
  assert (Hsolve : forall s2,
            RegularizedKernelSolution.chooseLambda fuel s1 = (Ok tt, s2) ->
            RegularizedKernelSolution.solve fuel s
            = RegularizedKernelSolution.solve_system (RegularizedKernelSolution.lambda_of s2) s2).
  { intros s2 H. unfold RegularizedKernelSolution.solve.
    unfold bind at 1. unfold modify at 1. fold s1.
    unfold bind at 1. rewrite H. reflexivity. }
  split; [| split; [| split]].
  - intros Habs l.
    pose proof (chooseLambda_absolute fuel s1 Habs) as Hc.
    rewrite (Hsolve _ Hc). split; [| reflexivity].
    apply solve_system_keeps_lambda.
  - intros Hrel l.
    pose proof (chooseLambda_relative fuel s1 Hrel) as Hc.
    rewrite (Hsolve _ Hc). split; [| reflexivity].
    apply solve_system_keeps_lambda.
  - intros Hnot.
    pose proof (chooseLambda_not_recognized fuel s1 Hnot) as Hc.
    unfold RegularizedKernelSolution.solve.
    unfold bind at 1. unfold modify at 1. fold s1.
    unfold bind at 1. rewrite Hc. reflexivity.
  - intros s2 Hc. destruct (chooseLambda_assigns _ _ _ Hc) as [l Hl].
    exists l. split; [exact Hl|].
    assert (Hlam : RegularizedKernelSolution.lambda_of s2 = l).
    { unfold RegularizedKernelSolution.lambda_of. rewrite Hl. reflexivity. }
    rewrite (Hsolve _ Hc), Hlam. split; [reflexivity|].
    intros Hinv. apply solve_system_LU. exact Hinv.
Qed.

(** *** NaN coefficients *)

Lemma copy_coefficients_nan (err : nat -> exception) (aVec : VectorXd) (idxs : list nat) :
  (exists i, In i idxs /\ is_nan (vcoeff aVec i) = true) ->
  exists i, In i idxs /\ is_nan (vcoeff aVec i) = true
            /\ copy_coefficients err aVec idxs = inl (err i).
Proof.
  induction idxs as [|idx rest IH]; intros [i [Hin Hnan]]; [destruct Hin|].
  simpl. destruct (is_nan (vcoeff aVec idx)) eqn:Hidx.
  - exists idx. auto.
  - destruct Hin as [Heq | Hin]; [subst; congruence|].
    destruct IH as [j [Hj [Hjn Hc]]]; [exists i; auto|].
    exists j. rewrite Hc. auto.
Qed.

Lemma copy_coefficients_inr (err : nat -> exception) (aVec : VectorXd) (idxs : list nat)
    (l : list float) :
  copy_coefficients err aVec idxs = inr l ->
  forall i, In i idxs -> is_nan (vcoeff aVec i) = false.
Proof.
  revert l. induction idxs as [|idx rest IH]; intros l H i Hin; [destruct Hin|].
  simpl in H. destruct (is_nan (vcoeff aVec idx)) eqn:Hidx; [discriminate|].
  destruct (copy_coefficients err aVec rest) as [e | l'] eqn:Hc; [discriminate|].
  destruct Hin as [Heq | Hin]; [subst; exact Hidx | exact (IH l' eq_refl i Hin)].
Qed.

Lemma copy_coefficients_inl (err : nat -> exception) (aVec : VectorXd) (idxs : list nat)
    (e : exception) :
  copy_coefficients err aVec idxs = inl e ->
  exists i, In i idxs /\ is_nan (vcoeff aVec i) = true /\ e = err i.
Proof.
  induction idxs as [|idx rest IH]; intros H; [discriminate|].
  simpl in H. destruct (is_nan (vcoeff aVec idx)) eqn:Hidx.
  - inversion H. exists idx. simpl. auto.
  - destruct (copy_coefficients err aVec rest) as [e' | l'] eqn:Hc; [|discriminate].
    inversion H; subst. destruct (IH eq_refl) as [i [Hin [Hn He]]].
    exists i. simpl. auto.
Qed.

(** [_setKernel] of StaticKernelSolution throws as soon as [_aVec] holds a
    NaN: the exception names the position of a NaN, as a kernel or as the
    background coefficient, unless the solution is unsolved or of the wrong
    size, which throws too. *)
Lemma static_setKernel_nan (s : t) (idx : nat) :
  (idx < length (_aVec (base s)))%nat ->
  is_nan (vcoeff (_aVec (base s)) idx) = true ->
  exists e, fst (_setKernel s) = Throw e
    /\ etype e = Exception
    /\ (_solvedBy (base s) <> NONE ->
        length (_aVec (base s))
        = (length (getKernelList (_kernel s))
           + (if _fitForBackground (base s) then 1 else 0))%nat ->
        exists i, is_nan (vcoeff (_aVec (base s)) i) = true
                  /\ (e = kernel_nan i \/ e = background_nan i)).
Proof.
  intros Hidx Hnan. unfold _setKernel, of_sum. run. cbv beta.
  match goal with
  | |- context [match _solvedBy (base s) with
                | NONE => _ | LU => ?y | EIGENVECTOR => _ end] => set (body := y)
  end.
  assert (Hmain :
    exists e, fst (body s) = Throw e /\ etype e = Exception
      /\ (length (_aVec (base s))
          = (length (getKernelList (_kernel s))
             + (if _fitForBackground (base s) then 1 else 0))%nat ->
          exists i, is_nan (vcoeff (_aVec (base s)) i) = true
                    /\ (e = kernel_nan i \/ e = background_nan i))).
  { unfold body. clear body.
    destruct (length (_aVec (base s)) =? _)%nat eqn:Hsize; cbn [negb]; cbv beta iota.
    - apply Nat.eqb_eq in Hsize.
      destruct (copy_coefficients kernel_nan _ _) as [e | kValues] eqn:Hk; cbv beta iota.
      + destruct (copy_coefficients_inl _ _ _ _ Hk) as [i [_ [Hi He]]].
        exists e. subst e. simpl. eauto 6.
      + assert (Hge : (length (getKernelList (_kernel s)) <= idx)%nat).
        { destruct (Nat.lt_ge_cases idx (length (getKernelList (_kernel s))))
            as [Hlt | Hge]; [| exact Hge].
          rewrite (copy_coefficients_inr _ _ _ _ Hk idx) in Hnan; [discriminate|].
          apply in_seq. lia. }
        destruct (_fitForBackground (base s)); [| lia].
        assert (Hlast : (length (_aVec (base s)) - 1)%nat = idx) by lia.
        rewrite Hlast, Hnan. exists (background_nan idx). simpl. eauto 6.
    - eexists. simpl. repeat split. intros Hlen. rewrite Hlen, Nat.eqb_refl in Hsize.
      discriminate. }
  destruct (_solvedBy (base s)) eqn:Hs.
  - eexists. cbn [fst]. split; [reflexivity|]. split; [reflexivity|]. congruence.
  - destruct Hmain as [e [H1 [H2 H3]]]. exists e. repeat split; auto.
  - destruct Hmain as [e [H1 [H2 H3]]]. exists e. repeat split; auto.
Qed.

Lemma span_later (constantFirstTerm : bool) (nkt n i0 : nat) :
  (1 <= i0)%nat -> span constantFirstTerm nkt (seq i0 n) = (n * nkt)%nat.
Proof.
  revert i0. induction n as [|n IH]; intros i0 Hi0; [reflexivity|].
  simpl. rewrite IH by lia. destruct i0; [lia|]. reflexivity.
Qed.

Lemma span_all (constantFirstTerm : bool) (nkt n : nat) :
  span constantFirstTerm nkt (seq 0 (S n))
  = ((if constantFirstTerm then 1 else nkt) + n * nkt)%nat.
Proof. simpl. rewrite span_later by lia. reflexivity. Qed.

Lemma spatial_coefficients_inl (cNumber : float) (aVec : VectorXd) (nkt : nat)
    (constantFirstTerm : bool) (bases : list nat) :
  forall idx0 e,
    SpatialKernelSolution.spatial_coefficients cNumber aVec nkt constantFirstTerm bases idx0
    = inl e ->
    exists i, is_nan (vcoeff aVec i) = true
      /\ (e = SpatialKernelSolution.kernel_nan_II cNumber i
          \/ e = SpatialKernelSolution.kernel_nan_III cNumber i).
Proof.
  induction bases as [|b rest IH]; intros idx0 e H; [discriminate|].
  simpl in H. destruct ((b =? 0)%nat && constantFirstTerm).
  - destruct (is_nan (vcoeff aVec idx0)) eqn:Hn.
    + inversion H. eauto.
    + destruct (SpatialKernelSolution.spatial_coefficients _ _ _ _ rest (S idx0))
        as [e' | rows] eqn:Hr; [| discriminate].
      inversion H; subst. eapply IH; eauto.
  - destruct (copy_coefficients _ aVec (seq idx0 nkt)) as [e' | row] eqn:Hc.
    + inversion H; subst. destruct (copy_coefficients_inl _ _ _ _ Hc) as [i [_ [Hi He]]].
      eauto.
    + destruct (SpatialKernelSolution.spatial_coefficients _ _ _ _ rest (idx0 + nkt))
        as [e' | rows] eqn:Hr; [| discriminate].
      inversion H; subst. eapply IH; eauto.
Qed.

Lemma copy_coefficients_clean (err : nat -> exception) (aVec : VectorXd) (idxs : list nat) :
  (forall i, In i idxs -> is_nan (vcoeff aVec i) = false) ->
  exists l, copy_coefficients err aVec idxs = inr l.
Proof.
  induction idxs as [|idx rest IH]; intros H; [eexists; reflexivity|].
  simpl. rewrite (H idx) by (left; reflexivity).
  destruct IH as [l Hl]; [intros i Hi; apply H; right; exact Hi|].
  rewrite Hl. eexists. reflexivity.
Qed.

Lemma spatial_coefficients_clean (cNumber : float) (aVec : VectorXd) (nkt : nat)
    (constantFirstTerm : bool) (bases : list nat) :
  forall idx0,
    (forall i, (idx0 <= i < idx0 + span constantFirstTerm nkt bases)%nat ->
               is_nan (vcoeff aVec i) = false) ->
    exists rows,
      SpatialKernelSolution.spatial_coefficients cNumber aVec nkt constantFirstTerm
        bases idx0 = inr rows.
Proof.
  induction bases as [|b rest IH]; intros idx0 H; [eexists; reflexivity|].
  simpl in *. destruct ((b =? 0)%nat && constantFirstTerm).
  - rewrite (H idx0) by lia.
    destruct (IH (S idx0)) as [rows Hr]; [intros i Hi; apply H; lia|].
    rewrite Hr. eexists. reflexivity.
  - destruct (copy_coefficients_clean (SpatialKernelSolution.kernel_nan_III cNumber)
                aVec (seq idx0 nkt)) as [row Hrow].
    { intros i Hi. apply in_seq in Hi. apply H. lia. }
    rewrite Hrow.
    destruct (IH (idx0 + nkt)%nat) as [rows Hr]; [intros i Hi; apply H; lia|].
    rewrite Hr. eexists. reflexivity.
Qed.

Lemma spatial_coefficients_inr (cNumber : float) (aVec : VectorXd) (nkt : nat)
    (constantFirstTerm : bool) (bases : list nat) :
  forall idx0 rows,
    SpatialKernelSolution.spatial_coefficients cNumber aVec nkt constantFirstTerm bases idx0
    = inr rows ->
    forall i, (idx0 <= i < idx0 + span constantFirstTerm nkt bases)%nat ->
              is_nan (vcoeff aVec i) = false.
Proof.
  induction bases as [|b rest IH]; intros idx0 rows H i Hi; [simpl in Hi; lia|].
  simpl in H, Hi. destruct ((b =? 0)%nat && constantFirstTerm).
  - destruct (is_nan (vcoeff aVec idx0)) eqn:Hn; [discriminate|].
    destruct (SpatialKernelSolution.spatial_coefficients _ _ _ _ rest (S idx0))
      as [e' | rows'] eqn:Hr; [discriminate|].
    destruct (Nat.eq_dec i idx0) as [-> | Hne]; [exact Hn|].
    apply (IH _ _ Hr). lia.
  - destruct (copy_coefficients _ aVec (seq idx0 nkt)) as [e' | row] eqn:Hc; [discriminate|].
    destruct (SpatialKernelSolution.spatial_coefficients _ _ _ _ rest (idx0 + nkt))
      as [e' | rows'] eqn:Hr; [discriminate|].
    destruct (Nat.lt_ge_cases i (idx0 + nkt)) as [Hlt | Hge].
    + apply (copy_coefficients_inr _ _ _ _ Hc). apply in_seq. lia.
    + apply (IH _ _ Hr). lia.
Qed.

Lemma spatial_setKernel_outcome (s : SpatialKernelSolution.t) (rMat : MatrixXd)
    (eValues : VectorXd) :
  SelfAdjointEigenSolver (_mMat (SpatialKernelSolution.base s)) = inr (rMat, eValues) ->
  fst (SpatialKernelSolution._setKernel s)
  = match spatial_kernel_check (maxCoeff eValues / minCoeff eValues) s with
    | inl e => Throw e
    | inr _ => match spatial_background_check s with
               | inl e => Throw e
               | inr _ => Ok tt
               end
    end.
Proof.
  intros Heig.
  unfold SpatialKernelSolution._setKernel, SpatialKernelSolution.super,
    KernelSolution.getConditionNumber, getConditionNumber_m, of_sum,
    spatial_kernel_check, spatial_background_check.
  run. cbv beta. rewrite Heig. cbv beta iota.
  cbn [SpatialKernelSolution.base SpatialKernelSolution.set_base
       SpatialKernelSolution._nkt SpatialKernelSolution._nbases
       SpatialKernelSolution._constantFirstTerm SpatialKernelSolution._nt
       SpatialKernelSolution._nbt].
  destruct (SpatialKernelSolution._nkt s =? 1)%Z.
  - destruct (copy_coefficients (SpatialKernelSolution.kernel_nan_I _) _ _);
      [reflexivity|]. cbv beta iota.
    destruct (_fitForBackground (SpatialKernelSolution.base s)); [| reflexivity].
    destruct (copy_coefficients SpatialKernelSolution.background_nan _ _); reflexivity.
  - destruct (SpatialKernelSolution.spatial_coefficients _ _ _ _ _ _);
      [reflexivity|]. cbv beta iota.
    destruct (_fitForBackground (SpatialKernelSolution.base s)); [| reflexivity].
    destruct (copy_coefficients SpatialKernelSolution.background_nan _ _); reflexivity.
Qed.

(** The kernel coefficients of a spatial solution are the first
    [_nt - _nbt] entries of [_aVec]. *)
Lemma spatial_kernel_span (s : SpatialKernelSolution.t) :
  spatial_sizes s ->
  let nKernel := Z.to_nat (SpatialKernelSolution._nt s - SpatialKernelSolution._nbt s) in
  ((SpatialKernelSolution._nkt s =? 1)%Z = true ->
     Z.to_nat (SpatialKernelSolution._nbases s) = nKernel)
  /\ span (SpatialKernelSolution._constantFirstTerm s)
          (Z.to_nat (SpatialKernelSolution._nkt s))
          (seq 0 (Z.to_nat (SpatialKernelSolution._nbases s))) = nKernel.
Proof.
  intros [Hnb [Hnkt [Hnbt [Hnt _]]]] nKernel. unfold nKernel. rewrite Hnt.
  set (nbases := SpatialKernelSolution._nbases s) in *.
  set (nkt := SpatialKernelSolution._nkt s) in *.
  set (nbt := SpatialKernelSolution._nbt s) in *.
  split.
  - intros H1. apply Z.eqb_eq in H1. rewrite H1.
    destruct (SpatialKernelSolution._constantFirstTerm s); f_equal; lia.
  - destruct (Z.to_nat nbases) as [|n] eqn:Hn; [lia|].
    rewrite span_all.
    assert (Hn' : nbases = Z.of_nat (S n)) by lia.
    assert (Hk : nkt = Z.of_nat (Z.to_nat nkt)) by lia.
    destruct (SpatialKernelSolution._constantFirstTerm s).
    + apply Nat2Z.inj. rewrite Z2Nat.id by nia.
      rewrite Nat2Z.inj_add, Nat2Z.inj_mul. rewrite <- Hk. nia.
    + apply Nat2Z.inj. rewrite Z2Nat.id by nia.
      rewrite Nat2Z.inj_add, Nat2Z.inj_mul. rewrite <- Hk. nia.
Qed.

Lemma spatial_kernel_check_nan (cNumber : float) (s : SpatialKernelSolution.t) (idx : nat) :
  spatial_sizes s ->
  (idx < Z.to_nat (SpatialKernelSolution._nt s - SpatialKernelSolution._nbt s))%nat ->
  is_nan (vcoeff (_aVec (SpatialKernelSolution.base s)) idx) = true ->
  exists e i, spatial_kernel_check cNumber s = inl e
    /\ is_nan (vcoeff (_aVec (SpatialKernelSolution.base s)) i) = true
    /\ (e = SpatialKernelSolution.kernel_nan_I cNumber i
        \/ e = SpatialKernelSolution.kernel_nan_II cNumber i
        \/ e = SpatialKernelSolution.kernel_nan_III cNumber i).
Proof.
  intros Hsizes Hidx Hnan. destruct (spatial_kernel_span s Hsizes) as [H1 Hspan].
  unfold spatial_kernel_check.
  destruct (SpatialKernelSolution._nkt s =? 1)%Z.
  - destruct (copy_coefficients _ _ _) as [e | l] eqn:Hc.
    + destruct (copy_coefficients_inl _ _ _ _ Hc) as [i [_ [Hi He]]]. eauto 8.
    + rewrite (copy_coefficients_inr _ _ _ _ Hc idx) in Hnan; [discriminate|].
      apply in_seq. rewrite (H1 eq_refl). lia.
  - destruct (SpatialKernelSolution.spatial_coefficients _ _ _ _ _ _) as [e | l] eqn:Hc.
    + destruct (spatial_coefficients_inl _ _ _ _ _ _ _ Hc) as [i [Hi He]].
      exists e, i. split; [reflexivity|]. split; [exact Hi|]. destruct He; auto.
    + assert (Hf : is_nan (vcoeff (_aVec (SpatialKernelSolution.base s)) idx) = false).
      { eapply spatial_coefficients_inr; [exact Hc|]. rewrite Hspan. lia. }
      congruence.
Qed.

Lemma spatial_kernel_check_clean (cNumber : float) (s : SpatialKernelSolution.t) :
  spatial_sizes s ->
  (forall idx,
     (idx < Z.to_nat (SpatialKernelSolution._nt s - SpatialKernelSolution._nbt s))%nat ->
     is_nan (vcoeff (_aVec (SpatialKernelSolution.base s)) idx) = false) ->
  spatial_kernel_check cNumber s = inr tt.
Proof.
  intros Hsizes Hclean. destruct (spatial_kernel_span s Hsizes) as [H1 Hspan].
  unfold spatial_kernel_check.
  destruct (SpatialKernelSolution._nkt s =? 1)%Z.
  - destruct (copy_coefficients_clean (SpatialKernelSolution.kernel_nan_I cNumber)
                (_aVec (SpatialKernelSolution.base s))
                (seq 0 (Z.to_nat (SpatialKernelSolution._nbases s)))) as [l Hl].
    { intros i Hi. apply in_seq in Hi. apply Hclean. rewrite <- (H1 eq_refl). lia. }
    rewrite Hl. reflexivity.
  - destruct (spatial_coefficients_clean cNumber (_aVec (SpatialKernelSolution.base s))
                (Z.to_nat (SpatialKernelSolution._nkt s))
                (SpatialKernelSolution._constantFirstTerm s)
                (seq 0 (Z.to_nat (SpatialKernelSolution._nbases s))) 0%nat) as [l Hl].
    { intros i Hi. apply Hclean. rewrite <- Hspan. lia. }
    rewrite Hl. reflexivity.
Qed.

Lemma spatial_background_check_nan (s : SpatialKernelSolution.t) (idx : nat) :
  spatial_sizes s ->
  (Z.to_nat (SpatialKernelSolution._nt s - SpatialKernelSolution._nbt s) <= idx
   < Z.to_nat (SpatialKernelSolution._nt s))%nat ->
  is_nan (vcoeff (_aVec (SpatialKernelSolution.base s)) idx) = true ->
  exists i, spatial_background_check s = inl (SpatialKernelSolution.background_nan i)
            /\ is_nan (vcoeff (_aVec (SpatialKernelSolution.base s)) i) = true.
Proof.
  intros [Hnb [Hnkt [Hnbt [Hnt Hfit]]]] Hidx Hnan. unfold spatial_background_check.
  destruct (_fitForBackground (SpatialKernelSolution.base s)).
  - destruct (copy_coefficients _ _ _) as [e | l] eqn:Hc.
    + destruct (copy_coefficients_inl _ _ _ _ Hc) as [i [_ [Hi He]]]. subst e. eauto.
    + rewrite (copy_coefficients_inr _ _ _ _ Hc idx) in Hnan; [discriminate|].
      apply in_seq. lia.
  - rewrite (Hfit eq_refl) in Hidx. lia.
Qed.

Lemma mentions_kernel_nan (cNumber : float) (i : nat) (e : exception) :
  e = SpatialKernelSolution.kernel_nan_I cNumber i
  \/ e = SpatialKernelSolution.kernel_nan_II cNumber i
  \/ e = SpatialKernelSolution.kernel_nan_III cNumber i ->
  mentions e cNumber /\ etype e = Exception.
Proof.
  intros [H | [H | H]]; subst e; (split; [| reflexivity]);
    eexists; (split; [left; reflexivity | right; left; reflexivity]).
Qed.

(** A spatial solution whose only NaN is a background coefficient throws
    the background exception, which carries the position alone. *)
Lemma spatial_background_nan_message (s : SpatialKernelSolution.t) (rMat : MatrixXd)
    (eValues : VectorXd) (idx : nat) :
  spatial_sizes s ->
  SelfAdjointEigenSolver (_mMat (SpatialKernelSolution.base s)) = inr (rMat, eValues) ->
  (forall i,
     (i < Z.to_nat (SpatialKernelSolution._nt s - SpatialKernelSolution._nbt s))%nat ->
     is_nan (vcoeff (_aVec (SpatialKernelSolution.base s)) i) = false) ->
  (Z.to_nat (SpatialKernelSolution._nt s - SpatialKernelSolution._nbt s) <= idx
   < Z.to_nat (SpatialKernelSolution._nt s))%nat ->
  is_nan (vcoeff (_aVec (SpatialKernelSolution.base s)) idx) = true ->
  exists i, fst (SpatialKernelSolution._setKernel s)
            = Throw (SpatialKernelSolution.background_nan i)
            /\ operands_of (SpatialKernelSolution.background_nan i) = [ArgInt (Z.of_nat i)].
Proof.
  intros Hsizes Heig Hclean Hidx Hnan.
  rewrite (spatial_setKernel_outcome s _ _ Heig).
  rewrite (spatial_kernel_check_clean _ s Hsizes Hclean).
  destruct (spatial_background_check_nan s idx Hsizes Hidx Hnan) as [i [Hb _]].
  rewrite Hb. exists i. split; reflexivity.
Qed.

(** *** The condition-number gate of KernelCandidate *)

Lemma set_base_base (s : t) : set_base (base s) s = s.
Proof. destruct s. reflexivity. Qed.

Lemma static_getConditionNumber_keeps (ctype : ConditionNumberType) (s : t) :
  snd (getConditionNumber ctype s) = s.
Proof.
  unfold getConditionNumber, super, KernelSolution.getConditionNumber, getConditionNumber_m.
  run. cbv beta.
  destruct ctype; [destruct (SelfAdjointEigenSolver _) as [e | [rMat eValues]] | |];
    apply set_base_base.
Qed.

Lemma build_keeps_solvedBy (templateImage scienceImage varianceEstimate : Image) (s : t) :
  _solvedBy (base (snd (build templateImage scienceImage varianceEstimate s)))
  = _solvedBy (base s).
Proof.
  unfold build, super. run. cbv beta.
  destruct (makeStatistics_MIN varianceEstimate <? 0); [reflexivity|].
  destruct (makeStatistics_MIN varianceEstimate =? 0); reflexivity.
Qed.

(** A solution [build] has just filled has not been solved. *)
Lemma built_not_solved (templateImage scienceImage varianceEstimate : Image)
    (id : Z) (basisList : list Kernel) (fit : bool) (s0 s1 : t) :
  fst (new id basisList fit) = Ok s0 ->
  build templateImage scienceImage varianceEstimate s0 = (Ok tt, s1) ->
  _solvedBy (base s1) = NONE.
Proof.
  intros Hnew Hbuild.
  pose proof (build_keeps_solvedBy templateImage scienceImage varianceEstimate s0) as H.
  rewrite Hbuild in H. cbn [snd] in H. rewrite H.
  unfold new in Hnew. cbn in Hnew. destruct basisList; [discriminate|].
  inversion Hnew. reflexivity.
Qed.

(** The run of [_buildKernelSolution] that the condition number ends. *)
Lemma gate_returns (fuel : nat) (varianceEstimate : Image)
    (basisList : list Kernel) (hMat : MatrixXd) (w : KernelCandidate.state)
    (ctype : ConditionNumberType) (s0 s1 : StaticKernelSolution.t) (cNumber : float) :
  let c := KernelCandidate.this w in
  let ps := KernelCandidate._ps c in
  getAsBool ps "checkConditionNumber" = true ->
  (getAsString ps "conditionNumberType" = "SVD"%string /\ ctype = SVD
   \/ getAsString ps "conditionNumberType" = "EIGENVALUE"%string /\ ctype = EIGENVALUE) ->
  fst (new (KernelCandidate.SolutionId w) basisList (KernelCandidate._fitForBackground c))
  = Ok s0 ->
  build (getImage (KernelCandidate._templateMaskedImage c))
        (getImage (KernelCandidate._scienceMaskedImage c)) varianceEstimate s0
  = (Ok tt, s1) ->
  fst (getConditionNumber ctype s1) = Ok cNumber ->
  (getAsDouble ps "maxConditionNumber" <? cNumber) = true ->
  let regularized := (0 <? size hMat)%nat in
  KernelCandidate._buildKernelSolution fuel varianceEstimate basisList hMat w
  = (Ok tt,
     {| KernelCandidate.SolutionId := (KernelCandidate.SolutionId w + 1)%Z;
        KernelCandidate.this :=
          KernelCandidate.setStatus BAD
            (slot_of (KernelCandidate._isInitialized c)
               (solution_of regularized hMat ps s1)
               (KernelCandidate.set_useRegularization regularized c)) |}).
Proof.
  intros c ps Hcheck Hctype Hnew Hbuild Hcond Hmax regularized.
  assert (Hkeep : getConditionNumber ctype s1 = (Ok cNumber, s1)).
  { rewrite (surjective_pairing (getConditionNumber ctype s1)), Hcond,
      static_getConditionNumber_keeps. reflexivity. }
  assert (Hnew' : new (KernelCandidate.SolutionId w) basisList
                    (KernelCandidate._fitForBackground c)
                  = (Ok s0, (KernelCandidate.SolutionId w + 1)%Z)).
  { unfold new in *. cbn in *. destruct basisList; [discriminate|].
    inversion Hnew. reflexivity. }
  unfold KernelCandidate._buildKernelSolution.
  unfold KernelCandidate.construct, KernelCandidate.call_on, KernelCandidate.inherited,
    KernelCandidate.new_Regularized, KernelCandidate.new_Static,
    RegularizedKernelSolution.new, solution_of, slot_of.
  run. cbv beta. fold c. fold ps. rewrite Hcheck. fold regularized.
  assert (Hct : ((String.eqb (getAsString ps "conditionNumberType") "SVD" = true
                  /\ ctype = SVD)
                 \/ (String.eqb (getAsString ps "conditionNumberType") "SVD" = false
                     /\ String.eqb (getAsString ps "conditionNumberType") "EIGENVALUE" = true
                     /\ ctype = EIGENVALUE))).
  { destruct Hctype as [[Hs Hc] | [Hs Hc]]; rewrite Hs; [left | right]; auto. }
  destruct Hct as [[Hs Hc] | [Hs [Hs' Hc]]]; rewrite Hs; try rewrite Hs';
    subst ctype; cbv beta iota.
  all: destruct regularized; destruct (KernelCandidate._isInitialized c);
    cbv beta iota; cbn [KernelCandidate.this KernelCandidate.SolutionId KernelCandidate.on_this];
    fold c; rewrite Hnew'; cbv beta iota;
    cbn [KernelCandidate.static_of KernelCandidate.with_static
         RegularizedKernelSolution.static RegularizedKernelSolution.set_static
         RegularizedKernelSolution._hMat RegularizedKernelSolution._lambda
         RegularizedKernelSolution._policy
         KernelCandidate.this KernelCandidate.SolutionId KernelCandidate.on_this];
    rewrite Hbuild; cbv beta iota;
    cbn [KernelCandidate.static_of KernelCandidate.with_static
         RegularizedKernelSolution.static RegularizedKernelSolution.set_static
         RegularizedKernelSolution._hMat RegularizedKernelSolution._lambda
         RegularizedKernelSolution._policy
         KernelCandidate.this KernelCandidate.SolutionId KernelCandidate.on_this];
    rewrite Hkeep; cbv beta iota; rewrite Hmax; reflexivity.
Qed.

(** X20. The gate inside [_buildKernelSolution]. With checkConditionNumber
    enabled, when the condition number of the solution just built exceeds
    maxConditionNumber, in each of the four paths of
    [_buildKernelSolution] (original or pca slot, regularized or not) that
    call returns normally with the candidate's status BAD and the slot
    holding the solution exactly as the solution's [build] left it:
    [solve] has not run on it (its [solvedBy] is still NONE) and nothing is
    thrown. What [KernelCandidate::build] does after this call is another
    matter. *)
Theorem condition_number_gate (fuel : nat) (varianceEstimate : Image)
    (basisList : list Kernel) (hMat : MatrixXd) (w : KernelCandidate.state)
    (ctype : ConditionNumberType) (s0 s1 : StaticKernelSolution.t) (cNumber : float) :
  let c := KernelCandidate.this w in
  let ps := KernelCandidate._ps c in
  getAsBool ps "checkConditionNumber" = true ->
  (getAsString ps "conditionNumberType" = "SVD"%string /\ ctype = SVD
   \/ getAsString ps "conditionNumberType" = "EIGENVALUE"%string /\ ctype = EIGENVALUE) ->
  fst (new (KernelCandidate.SolutionId w) basisList (KernelCandidate._fitForBackground c))
  = Ok s0 ->
  build (getImage (KernelCandidate._templateMaskedImage c))
        (getImage (KernelCandidate._scienceMaskedImage c)) varianceEstimate s0
  = (Ok tt, s1) ->
  fst (getConditionNumber ctype s1) = Ok cNumber ->
  (getAsDouble ps "maxConditionNumber" <? cNumber) = true ->
  let regularized := (0 <? size hMat)%nat in
  KernelCandidate._buildKernelSolution fuel varianceEstimate basisList hMat w
  = (Ok tt,
     {| KernelCandidate.SolutionId := (KernelCandidate.SolutionId w + 1)%Z;
        KernelCandidate.this :=
          KernelCandidate.setStatus BAD
            (slot_of (KernelCandidate._isInitialized c)
               (solution_of regularized hMat ps s1)
               (KernelCandidate.set_useRegularization regularized c)) |})
  /\ _solvedBy (base s1) = NONE.
Proof.
  intros c ps Hcheck Hctype Hnew Hbuild Hcond Hmax regularized.
  split.
  - exact (gate_returns fuel varianceEstimate basisList hMat w ctype s0 s1 cNumber
             Hcheck Hctype Hnew Hbuild Hcond Hmax).
  - exact (built_not_solved _ _ _ _ _ _ s0 s1 Hnew Hbuild).
Qed.

(** The slot the call reads as the most recent solution. *)
Lemma recent_slot (initialized : bool) (sol : KernelCandidate.Solution)
    (c : KernelCandidate.t) :
  initialized = true \/ KernelCandidate._kernelSolutionPca c = None ->
  match KernelCandidate._kernelSolutionPca (slot_of initialized sol c) with
  | Some x => Some x
  | None => KernelCandidate._kernelSolutionOrig (slot_of initialized sol c)
  end = Some sol.
Proof.
  intros [Hi | Hp].
  - subst initialized. reflexivity.
  - destruct initialized; [reflexivity|]. cbn. rewrite Hp. reflexivity.
Qed.

Lemma slot_of_isInitialized (initialized : bool) (sol : KernelCandidate.Solution)
    (c : KernelCandidate.t) :
  KernelCandidate._isInitialized (slot_of initialized sol c)
  = KernelCandidate._isInitialized c.
Proof. destruct initialized; reflexivity. Qed.

(** The difference image of a most recent solution that is not solved. *)
Lemma recent_not_solved (w : KernelCandidate.state) (sol : KernelCandidate.Solution) :
  match KernelCandidate._kernelSolutionPca (KernelCandidate.this w) with
  | Some x => Some x
  | None => KernelCandidate._kernelSolutionOrig (KernelCandidate.this w)
  end = Some sol ->
  _solvedBy (base (KernelCandidate.static_of sol)) = NONE ->
  KernelCandidate.getDifferenceImage KernelCandidate.RECENT w
  = (Throw (not_solved (first_getter_message (recent_call (KernelCandidate.this w)))), w).
Proof.
  intros Hrecent Hnone.
  assert (Hread : forall call,
            KernelCandidate.differenceImage_of call sol w
            = (Throw (not_solved (first_getter_message call)), w)).
  { intros call.
    unfold KernelCandidate.differenceImage_of, first_getter_message.
    destruct (getKernel_first call);
      unfold KernelCandidate.read, getKernel, getBackground; run;
      rewrite Hnone; reflexivity. }
  unfold KernelCandidate.getDifferenceImage, recent_call. run. cbv beta.
  destruct (KernelCandidate._kernelSolutionPca (KernelCandidate.this w)) as [x|].
  - injection Hrecent as Hx. subst x. apply Hread.
  - rewrite Hrecent. apply Hread.
Qed.

(** The call of [getDifferenceImage(RECENT)] once a build has filled its
    slot: on the pca solution of an initialized candidate. *)
Lemma recent_call_slot (initialized : bool) (sol : KernelCandidate.Solution)
    (c : KernelCandidate.t) :
  initialized = true \/ KernelCandidate._kernelSolutionPca c = None ->
  recent_call (slot_of initialized sol c)
  = if initialized then call_RECENT_pca else call_RECENT_orig.
Proof.
  unfold recent_call. intros [Hi | Hp].
  - subst initialized. reflexivity.
  - destruct initialized; [reflexivity|]. cbn. rewrite Hp. reflexivity.
Qed.

(** X1. [build(basisList, hMat)] after the gate: the call goes on. When the
    property set asks to iterate the single kernel (and not for constant
    variance weighting) it takes the difference image of the most recent
    solution, the one the gate left unsolved, and throws "Kernel not
    solved": with the words of [getKernel()], "cannot return solution",
    where the compiler evaluates that argument of the call first, and with
    those of [getBackground()], "cannot return background", where it
    evaluates that one first. The status is BAD and the candidate is not
    initialized. Without iterateSingleKernel it returns, with status BAD,
    and marks the candidate initialized. *)
Theorem build_after_gate (fuel : nat) (basisList : list Kernel) (hMat : MatrixXd)
    (w : KernelCandidate.state) (ctype : ConditionNumberType)
    (s0 s1 : StaticKernelSolution.t) (cNumber : float) :
  let c := KernelCandidate.this w in
  let ps := KernelCandidate._ps c in
  let var := Image_plus (getVariance (KernelCandidate._scienceMaskedImage c))
                        (getVariance (KernelCandidate._templateMaskedImage c)) in
  getAsBool ps "constantVarianceWeighting" = false ->
  getAsBool ps "checkConditionNumber" = true ->
  (getAsString ps "conditionNumberType" = "SVD"%string /\ ctype = SVD
   \/ getAsString ps "conditionNumberType" = "EIGENVALUE"%string /\ ctype = EIGENVALUE) ->
  fst (new (KernelCandidate.SolutionId w) basisList (KernelCandidate._fitForBackground c))
  = Ok s0 ->
  build (getImage (KernelCandidate._templateMaskedImage c))
        (getImage (KernelCandidate._scienceMaskedImage c)) var s0
  = (Ok tt, s1) ->
  fst (getConditionNumber ctype s1) = Ok cNumber ->
  (getAsDouble ps "maxConditionNumber" <? cNumber) = true ->
  KernelCandidate._isInitialized c = true \/ KernelCandidate._kernelSolutionPca c = None ->
  let w' := snd (KernelCandidate.build_h fuel basisList hMat w) in
  let call := if KernelCandidate._isInitialized c
              then call_RECENT_pca else call_RECENT_orig in
  KernelCandidate._status (KernelCandidate.this w') = BAD
  /\ (getAsBool ps "iterateSingleKernel" = true ->
      fst (KernelCandidate.build_h fuel basisList hMat w)
      = Throw (not_solved
                 (if getKernel_first call
                  then "Kernel not solved; cannot return solution"
                  else "Kernel not solved; cannot return background"))
      /\ KernelCandidate._isInitialized (KernelCandidate.this w')
         = KernelCandidate._isInitialized c)
  /\ (getAsBool ps "iterateSingleKernel" = false ->
      fst (KernelCandidate.build_h fuel basisList hMat w) = Ok tt
      /\ KernelCandidate._isInitialized (KernelCandidate.this w') = true).
Proof.
  intros c ps var Hcvw Hcheck Hctype Hnew Hbuild Hcond Hmax Hslot.
  pose proof (built_not_solved _ _ _ _ _ _ s0 s1 Hnew Hbuild) as Hnone.
  pose proof (gate_returns fuel var basisList hMat
                (KernelCandidate.on_this (KernelCandidate.set_varianceEstimate var) w)
                ctype s0 s1 cNumber Hcheck Hctype Hnew Hbuild Hcond Hmax) as Hgate.
  cbv zeta in Hgate.
  unfold KernelCandidate.build_h. run. cbv beta. fold c. fold ps.
  rewrite Hcvw. fold var. rewrite Hgate.
  match goal with
  | |- context [KernelCandidate.Build_state ?a ?b] =>
      set (w2 := KernelCandidate.Build_state a b)
  end.
  assert (Hstatus : KernelCandidate._status (KernelCandidate.this w2) = BAD)
    by reflexivity.
  assert (Hinit : KernelCandidate._isInitialized (KernelCandidate.this w2)
                  = KernelCandidate._isInitialized c).
  { unfold w2.
    cbn [KernelCandidate.this KernelCandidate.setStatus KernelCandidate._isInitialized].
    rewrite slot_of_isInitialized. reflexivity. }
  assert (Hdiff : KernelCandidate.getDifferenceImage KernelCandidate.RECENT w2
                  = (Throw (not_solved
                              (first_getter_message
                                 (if KernelCandidate._isInitialized c
                                  then call_RECENT_pca else call_RECENT_orig))), w2)).
  { rewrite <- (recent_call_slot (KernelCandidate._isInitialized c)
                  (solution_of (0 <? size hMat)%nat hMat ps s1)
                  (KernelCandidate.set_useRegularization (0 <? size hMat)%nat
                     (KernelCandidate.this
                        (KernelCandidate.on_this
                           (KernelCandidate.set_varianceEstimate var) w)))) by exact Hslot.
    apply (recent_not_solved w2 (solution_of (0 <? size hMat)%nat hMat ps s1)).
    - apply (recent_slot (KernelCandidate._isInitialized c)). exact Hslot.
    - unfold solution_of. destruct (0 <? size hMat)%nat; exact Hnone. }
  destruct (getAsBool ps "iterateSingleKernel"); cbn [andb negb].
  - rewrite Hdiff. cbn [fst snd].
    split; [exact Hstatus|].
    split; [intros _; split; [reflexivity | exact Hinit] | intros H; discriminate H].
  - cbn [fst snd].
    split; [exact Hstatus|].
    split; [intros H; discriminate H | intros _; split; reflexivity].
Qed.

(** *** The normal equations of StaticKernelSolution::build *)

Lemma goodBlock_inside (box : Box2I) (im : Image) :
  inside box im ->
  goodBlock box
  = (Z.to_nat (minY box), Z.to_nat (minX box),
     Z.to_nat (maxY box - minY box + 1), Z.to_nat (maxX box - minX box + 1)).
Proof.
  intros [Hx [Hw [Hy [Hh [Hwb Hhb]]]]]. unfold goodBlock, to_unsigned.
  rewrite (Z.mod_small (minX box)), (Z.mod_small (minY box)),
    (Z.mod_small (maxX box + 1)), (Z.mod_small (maxY box + 1)) by lia.
  rewrite !Z.mod_small by lia.
  replace (maxY box + 1 - minY box)%Z with (maxY box - minY box + 1)%Z by lia.
  replace (maxX box + 1 - minX box)%Z with (maxX box - minX box + 1)%Z by lia.
  reflexivity.
Qed.

Lemma map_flat_map (A B C : Type) (f : B -> C) (g : A -> list B) (l : list A) :
  map f (flat_map g l) = flat_map (fun a => map f (g a)) l.
Proof.
  induction l as [|a l IH]; [reflexivity|]. simpl. rewrite map_app, IH. reflexivity.
Qed.

Lemma flat_map_ext_in (A B : Type) (f g : A -> list B) (l : list A) :
  (forall a, In a l -> f a = g a) -> flat_map f l = flat_map g l.
Proof.
  induction l as [|a l IH]; intros H; [reflexivity|]. simpl.
  rewrite (H a) by (left; reflexivity). rewrite IH; [reflexivity|].
  intros b Hb. apply H. right. exact Hb.
Qed.

(** A generated matrix laid out as one column is its storage. *)
Lemma col_to_column (h w : nat) (g : nat -> nat -> float) :
  col (to_column (generate h w g)) 0 = storage (generate h w g).
Proof.
  pose proof (length_storage_generate h w g) as Hlen.
  unfold col, to_column, resize, coeff.
  change (rows (generate h w g)) with h. change (cols (generate h w g)) with w.
  cbn [rows cols storage].
  set (st := storage (generate h w g)) in *.
  etransitivity; [| apply vgenerate_nth].
  rewrite Hlen, (Nat.mul_comm w h).
  unfold vgenerate. apply map_ext. intros i. f_equal. lia.
Qed.

Lemma storage_goodPixels (im : Image) (r0 c0 h w : nat) (f : float -> float) :
  (r0 + h <= height im)%nat -> (c0 + w <= width im)%nat ->
  storage (generate h w (fun i j => f (coeff (goodPixels im (r0, c0, h, w)) i j)))
  = flat_map (fun j => map (fun i => f (pixel im (c0 + j) (r0 + i))) (seq 0 h)) (seq 0 w).
Proof.
  intros Hh Hw. unfold generate. cbn [storage].
  apply flat_map_ext_in. intros j Hj. apply in_seq in Hj.
  apply map_ext_in. intros i Hi. apply in_seq in Hi.
  unfold goodPixels, block. rewrite coeff_generate by lia.
  unfold imageToEigenMatrix. rewrite coeff_generate by lia. reflexivity.
Qed.

Lemma loadColumns_dims (l : list MatrixXd) :
  forall cMat k, rows (loadColumns cMat k l) = rows cMat
                 /\ cols (loadColumns cMat k l) = cols cMat.
Proof.
  induction l as [|c l IH]; intros cMat k; [split; reflexivity|].
  simpl. destruct (IH (set_col cMat k (col c 0)) (S k)) as [Hr Hc].
  rewrite Hr, Hc. split; reflexivity.
Qed.

Lemma length_convolveBasis (basisList : list Kernel) :
  forall cimage templateImage b,
    length (convolveBasis cimage templateImage basisList b) = length basisList.
Proof.
  induction basisList as [|k rest IH]; intros; [reflexivity|]. simpl. rewrite IH. reflexivity.
Qed.

(** The state [build] leaves when the variance passes its checks. *)
Lemma build_run (templateImage scienceImage varianceEstimate : Image) (s s' : t) :
  build templateImage scienceImage varianceEstimate s = (Ok tt, s') ->
  let kernel := _kernel s in
  let fit := _fitForBackground (base s) in
  let basisList := getKernelList kernel in
  let nParameters := (length basisList + (if fit then 1 else 0))%nat in
  let b := goodBlock (Kernel_shrinkBBox (firstKernel kernel) (getBBox_LOCAL templateImage)) in
  let cMat0 :=
    loadColumns
      (Zero (length (col (to_column (goodPixels templateImage b)) 0)) nParameters) 0
      (convolveBasis (blank (width templateImage) (height templateImage))
         templateImage basisList b) in
  let cMat := if fit then fill_col cMat0 (nParameters - 1) 1 else cMat0 in
  let ivVec := col (to_column (array_inverse (goodPixels varianceEstimate b))) 0 in
  let iVec := col (to_column (goodPixels scienceImage b)) 0 in
  _cMat s' = cMat /\ _ivVec s' = ivVec /\ _iVec s' = iVec
  /\ _mMat (base s') = mul (transpose cMat) (diag_mul ivVec cMat)
  /\ _bVec (base s') = mulv (transpose cMat) (diag_mulv ivVec iVec)
  /\ _kernel s' = _kernel s.
Proof.
  unfold build, super. run. cbv beta.
  destruct (makeStatistics_MIN varianceEstimate <? 0); [discriminate|].
  destruct (makeStatistics_MIN varianceEstimate =? 0); [discriminate|].
  cbv beta iota. intros H. inversion H. clear H.
  cbv zeta. repeat split.
Qed.

Lemma coeff_fill_col (m : MatrixXd) (j : nat) (x : float) (i : nat) :
  (i < rows m)%nat -> (j < cols m)%nat -> coeff (fill_col m j x) i j = x.
Proof.
  intros Hi Hj. unfold fill_col. rewrite coeff_generate by assumption.
  rewrite Nat.eqb_refl. reflexivity.
Qed.

(** C2. After [build(template, science, variance)] succeeds, the stored
    matrices satisfy M = C^T (V C) and b = C^T (V Y), where V holds the
    reciprocals of the variance pixels over the good region, Y the science
    pixels over the good region, C has one row per good pixel and one column
    per basis kernel and, when the background is fit, one more column, the
    last, which is all ones. *)
Theorem build_normal_equations
    (templateImage scienceImage varianceEstimate : Image) (s s' : t) :
  build templateImage scienceImage varianceEstimate s = (Ok tt, s') ->
  let box := Kernel_shrinkBBox (firstKernel (_kernel s)) (getBBox_LOCAL templateImage) in
  inside box scienceImage -> inside box varianceEstimate ->
  let nKernel := length (getKernelList (_kernel s)) in
  let nPixels :=
    (Z.to_nat (maxY box - minY box + 1) * Z.to_nat (maxX box - minX box + 1))%nat in
  _mMat (base s') = mul (transpose (_cMat s')) (diag_mul (_ivVec s') (_cMat s'))
  /\ _bVec (base s') = mulv (transpose (_cMat s')) (diag_mulv (_ivVec s') (_iVec s'))
  /\ _ivVec s' = map (fun v => 1 / v) (good_pixels_of varianceEstimate box)
  /\ _iVec s' = good_pixels_of scienceImage box
  /\ rows (_cMat s') = nPixels
  /\ length (_ivVec s') = nPixels /\ length (_iVec s') = nPixels
  /\ (_fitForBackground (base s) = true ->
      cols (_cMat s') = (nKernel + 1)%nat
      /\ forall i, (i < nPixels)%nat -> coeff (_cMat s') i nKernel = 1)
  /\ (_fitForBackground (base s) = false -> cols (_cMat s') = nKernel).
Proof.
  intros Hbuild box Hsci Hvar nKernel nPixels.
  destruct (build_run _ _ _ _ _ Hbuild) as [HC [HV [HY [HM [Hb _]]]]].
  assert (HM' : _mMat (base s')
                = mul (transpose (_cMat s')) (diag_mul (_ivVec s') (_cMat s')))
    by (rewrite HM, HC, HV; reflexivity).
  assert (Hb' : _bVec (base s')
                = mulv (transpose (_cMat s')) (diag_mulv (_ivVec s') (_iVec s')))
    by (rewrite Hb, HC, HV, HY; reflexivity).
  clear HM Hb.
  fold box in HC, HV, HY.
  pose proof (goodBlock_inside box scienceImage Hsci) as Hblock.
  rewrite Hblock in HC, HV, HY.
  destruct Hsci as [Hx [Hw [Hy [Hh [Hwb Hhb]]]]].
  destruct Hvar as [_ [Hw' [_ [Hh' _]]]].
  assert (HVeq : _ivVec s' = map (fun v => 1 / v) (good_pixels_of varianceEstimate box)).
  { rewrite HV. unfold array_inverse.
    change (rows (goodPixels varianceEstimate _)) with (Z.to_nat (maxY box - minY box + 1)).
    change (cols (goodPixels varianceEstimate _)) with (Z.to_nat (maxX box - minX box + 1)).
    rewrite col_to_column.
    rewrite (storage_goodPixels varianceEstimate _ _ _ _ (fun v => 1 / v)) by lia.
    unfold good_pixels_of. rewrite map_flat_map.
    apply flat_map_ext_in. intros j _. rewrite map_map. reflexivity. }
  assert (HYeq : _iVec s' = good_pixels_of scienceImage box).
  { rewrite HY. unfold goodPixels at 1. unfold block. rewrite col_to_column.
    unfold good_pixels_of, generate. cbn [storage].
    apply flat_map_ext_in. intros j Hj. apply in_seq in Hj.
    apply map_ext_in. intros i Hi. apply in_seq in Hi.
    unfold imageToEigenMatrix. rewrite coeff_generate by lia. reflexivity. }
  assert (Hlen : forall im, length (good_pixels_of im box) = nPixels).
  { intros im. unfold good_pixels_of, nPixels.
    rewrite (length_flat_map_rows _ _ (Z.to_nat (maxY box - minY box + 1)));
      [apply Nat.mul_comm|].
    intros j. rewrite length_map, length_seq. reflexivity. }
  assert (Hrows0 : length (col (to_column (goodPixels templateImage
                     (Z.to_nat (minY box), Z.to_nat (minX box),
                      Z.to_nat (maxY box - minY box + 1),
                      Z.to_nat (maxX box - minX box + 1)))) 0) = nPixels).
  { unfold col. rewrite length_vgenerate. reflexivity. }
  rewrite Hrows0 in HC.
  split; [exact HM'|]. split; [exact Hb'|].
  split; [exact HVeq|]. split; [exact HYeq|].
  match type of HC with
  | _ = if _ then fill_col ?m _ _ else _ =>
      destruct (loadColumns_dims
                  (convolveBasis (blank (width templateImage) (height templateImage))
                     templateImage (getKernelList (_kernel s))
                     (Z.to_nat (minY box), Z.to_nat (minX box),
                      Z.to_nat (maxY box - minY box + 1),
                      Z.to_nat (maxX box - minX box + 1)))
                  (Zero nPixels
                     (length (getKernelList (_kernel s))
                      + (if _fitForBackground (base s) then 1 else 0))) 0)
        as [Hr Hc]
  end.
  change (rows (Zero nPixels _)) with nPixels in Hr.
  change (cols (Zero nPixels ?n)) with n in Hc.
  split; [rewrite HC; destruct (_fitForBackground (base s)); exact Hr|].
  split; [rewrite HVeq, length_map; apply Hlen|].
  split; [rewrite HYeq; apply Hlen|].
  split.
  - intros Hfit. rewrite Hfit in HC, Hc, Hr.
    split; [rewrite HC; exact Hc|].
    intros i Hi. rewrite HC.
    replace (length (getKernelList (_kernel s)) + 1 - 1)%nat with nKernel
      by (unfold nKernel; lia).
    apply coeff_fill_col; [rewrite Hr; exact Hi | rewrite Hc; unfold nKernel; lia].
  - intros Hfit. rewrite Hfit in HC, Hc. rewrite HC, Hc. unfold nKernel. lia.
Qed.

(** *** The accumulation of SpatialKernelSolution::addConstraint *)

Lemma in_block_spec (i0 j0 h w i j : nat) :
  in_block i0 j0 h w i j = true
  <-> (i0 <= i < i0 + h)%nat /\ (j0 <= j < j0 + w)%nat.
Proof.
  unfold in_block. rewrite !andb_true_iff, !Nat.leb_le, !Nat.ltb_lt. lia.
Qed.

Lemma in_block_out (i0 j0 h w i j : nat) :
  (i < i0 \/ i0 + h <= i \/ j < j0 \/ j0 + w <= j)%nat ->
  in_block i0 j0 h w i j = false.
Proof.
  intros H. destruct (in_block i0 j0 h w i j) eqn:Hb; [| reflexivity].
  apply in_block_spec in Hb. lia.
Qed.

Lemma in_block_in (i0 j0 h w i j : nat) :
  (i < h)%nat -> (j < w)%nat -> in_block i0 j0 h w (i0 + i) (j0 + j) = true.
Proof. intros Hi Hj. apply in_block_spec. lia. Qed.

Lemma coeff_block_add (a : MatrixXd) (i0 j0 h w : nat) (b : MatrixXd) (i j : nat) :
  (i < rows a)%nat -> (j < cols a)%nat ->
  coeff (block_add a i0 j0 h w b) i j
  = if in_block i0 j0 h w i j
    then coeff a i j + coeff b (i - i0) (j - j0) else coeff a i j.
Proof. intros Hi Hj. unfold block_add. rewrite coeff_generate by assumption. reflexivity. Qed.

Lemma coeff_set_coeff (a : MatrixXd) (i j : nat) (x : float) (r c : nat) :
  (r < rows a)%nat -> (c < cols a)%nat ->
  coeff (set_coeff a i j x) r c
  = if ((r =? i) && (c =? j))%nat then x else coeff a r c.
Proof. intros Hr Hc. unfold set_coeff. rewrite coeff_generate by assumption. reflexivity. Qed.

Lemma vcoeff_segment_add (v : VectorXd) (i0 n : nat) (w : VectorXd) (i : nat) :
  (i < length v)%nat ->
  vcoeff (segment_add v i0 n w) i
  = if ((i0 <=? i) && (i <? i0 + n))%nat then vcoeff v i + vcoeff w (i - i0) else vcoeff v i.
Proof. intros Hi. unfold segment_add. rewrite vcoeff_vgenerate by assumption. reflexivity. Qed.

Lemma vcoeff_vset (v : VectorXd) (i : nat) (x : float) (k : nat) :
  (k < length v)%nat ->
  vcoeff (vset v i x) k = if (k =? i)%nat then x else vcoeff v k.
Proof. intros Hk. unfold vset. rewrite vcoeff_vgenerate by assumption. reflexivity. Qed.

Lemma in_Zrange (lo hi x : Z) : In x (SpatialKernelSolution.Zrange lo hi) <-> (lo <= x < hi)%Z.
Proof.
  unfold SpatialKernelSolution.Zrange. rewrite in_map_iff. split.
  - intros [k [Hk Hin]]. apply in_seq in Hin. lia.
  - intros H. exists (Z.to_nat (x - lo)). split; [lia|]. apply in_seq. lia.
Qed.

Lemma map_seq_from (A : Type) (f : nat -> A) (n : nat) :
  forall a, map f (seq a n) = map (fun k => f (a + k)%nat) (seq 0 n).
Proof.
  induction n as [|n IH]; intros a; [reflexivity|].
  simpl. rewrite Nat.add_0_r. f_equal.
  rewrite IH, <- seq_shift, map_map. apply map_ext. intros k. f_equal. lia.
Qed.

Lemma Zrange_split (lo hi m : Z) :
  (lo <= m < hi)%Z ->
  SpatialKernelSolution.Zrange lo hi
  = SpatialKernelSolution.Zrange lo m ++ m :: SpatialKernelSolution.Zrange (m + 1) hi.
Proof.
  intros H. unfold SpatialKernelSolution.Zrange.
  replace (Z.to_nat (hi - lo)) with (Z.to_nat (m - lo) + S (Z.to_nat (hi - (m + 1))))%nat
    by lia.
  rewrite seq_app, map_app. f_equal.
  rewrite map_seq_from. simpl. f_equal; [lia|].
  rewrite <- seq_shift, !map_map. apply map_ext. intros k. lia.
Qed.

(** Projections of an updated spatial solution. *)
Ltac fields :=
  cbn [SpatialKernelSolution.base SpatialKernelSolution.set_base
       KernelSolution._mMat KernelSolution.set_mMat
       KernelSolution._bVec KernelSolution.set_bVec].

Lemma fold_invariant (A : Type) (P : SpatialKernelSolution.t -> Prop)
    (f : SpatialKernelSolution.t -> A -> SpatialKernelSolution.t) (l : list A) :
  (forall s a, In a l -> P s -> P (f s a)) ->
  forall s, P s -> P (fold_left f l s).
Proof.
  induction l as [|a l IH]; intros Hstep s Hs; [exact Hs|].
  simpl. apply IH.
  - intros s' a' Hin. apply Hstep. right. exact Hin.
  - apply Hstep; [left; reflexivity | exact Hs].
Qed.

Lemma if_holds (b : bool) (P : SpatialKernelSolution.t -> Prop)
    (x y : SpatialKernelSolution.t) :
  (b = true -> P x) -> (b = false -> P y) -> P (if b then x else y).
Proof. destruct b; auto. Qed.

Lemma block_add_sized (n i0 j0 h w : nat) (b : MatrixXd) (s : SpatialKernelSolution.t) :
  sized n s ->
  sized n (SpatialKernelSolution.upd_mMat (fun m => block_add m i0 j0 h w b) s).
Proof. intros [Hr [Hc Hl]]. repeat split; assumption. Qed.

Lemma block_add_keeps (n r c : nat) (x : float) (i0 j0 h w : nat) (b : MatrixXd)
    (s : SpatialKernelSolution.t) :
  (r < n)%nat -> (c < n)%nat ->
  (r < i0 \/ i0 + h <= r \/ c < j0 \/ j0 + w <= c)%nat ->
  keeps_entry n r c x s ->
  keeps_entry n r c x (SpatialKernelSolution.upd_mMat (fun m => block_add m i0 j0 h w b) s).
Proof.
  intros Hr Hc Hout [Hs Hx]. split; [apply block_add_sized; exact Hs|].
  destruct Hs as [Hrows [Hcols _]].
  unfold mMat_of, SpatialKernelSolution.upd_mMat. fields.
  rewrite coeff_block_add by (unfold mMat_of in *; lia).
  rewrite in_block_out by exact Hout. exact Hx.
Qed.

Lemma block_add_hits (n : nat) (x : float) (i0 j0 h w i j : nat) (b : MatrixXd)
    (s : SpatialKernelSolution.t) :
  (i0 + i < n)%nat -> (j0 + j < n)%nat -> (i < h)%nat -> (j < w)%nat ->
  keeps_entry n (i0 + i) (j0 + j) x s ->
  keeps_entry n (i0 + i) (j0 + j) (x + coeff b i j)
    (SpatialKernelSolution.upd_mMat (fun m => block_add m i0 j0 h w b) s).
Proof.
  intros Hr Hc Hi Hj [Hs Hx]. split; [apply block_add_sized; exact Hs|].
  destruct Hs as [Hrows [Hcols _]].
  unfold mMat_of, SpatialKernelSolution.upd_mMat. fields.
  rewrite coeff_block_add by (unfold mMat_of in *; lia).
  rewrite in_block_in by assumption.
  replace (i0 + i - i0)%nat with i by lia. replace (j0 + j - j0)%nat with j by lia.
  unfold mMat_of in Hx. rewrite Hx. reflexivity.
Qed.

Lemma segment_add_sized (n i0 k : nat) (w : VectorXd) (s : SpatialKernelSolution.t) :
  sized n s ->
  sized n (SpatialKernelSolution.upd_bVec (fun b => segment_add b i0 k w) s).
Proof.
  intros [Hr [Hc Hl]]. repeat split; try assumption.
  unfold bVec_of, SpatialKernelSolution.upd_bVec. fields.
  unfold segment_add. rewrite length_vgenerate. exact Hl.
Qed.

Lemma segment_add_keeps_entry (n r c : nat) (x : float) (i0 k : nat) (w : VectorXd)
    (s : SpatialKernelSolution.t) :
  keeps_entry n r c x s ->
  keeps_entry n r c x (SpatialKernelSolution.upd_bVec (fun b => segment_add b i0 k w) s).
Proof. intros [Hs Hx]. split; [apply segment_add_sized; exact Hs | exact Hx]. Qed.

Lemma block_add_keeps_segment (n k : nat) (x : float) (i0 j0 h w : nat) (b : MatrixXd)
    (s : SpatialKernelSolution.t) :
  keeps_segment n k x s ->
  keeps_segment n k x (SpatialKernelSolution.upd_mMat (fun m => block_add m i0 j0 h w b) s).
Proof. intros [Hs Hx]. split; [apply block_add_sized; exact Hs | exact Hx]. Qed.

Lemma segment_add_keeps (n k : nat) (x : float) (i0 len : nat) (w : VectorXd)
    (s : SpatialKernelSolution.t) :
  (k < n)%nat -> (k < i0 \/ i0 + len <= k)%nat ->
  keeps_segment n k x s ->
  keeps_segment n k x (SpatialKernelSolution.upd_bVec (fun b => segment_add b i0 len w) s).
Proof.
  intros Hk Hout [Hs Hx]. split; [apply segment_add_sized; exact Hs|].
  destruct Hs as [_ [_ Hl]].
  unfold bVec_of, SpatialKernelSolution.upd_bVec. fields.
  rewrite vcoeff_segment_add by (unfold bVec_of in *; lia).
  destruct ((i0 <=? k) && (k <? i0 + len))%nat eqn:Hb; [| exact Hx].
  apply andb_true_iff in Hb. rewrite Nat.leb_le, Nat.ltb_lt in Hb. lia.
Qed.

Lemma segment_add_hits (n : nat) (x : float) (i0 len i : nat) (w : VectorXd)
    (s : SpatialKernelSolution.t) :
  (i0 + i < n)%nat -> (i < len)%nat ->
  keeps_segment n (i0 + i) x s ->
  keeps_segment n (i0 + i) (x + vcoeff w i)
    (SpatialKernelSolution.upd_bVec (fun b => segment_add b i0 len w) s).
Proof.
  intros Hk Hi [Hs Hx]. split; [apply segment_add_sized; exact Hs|].
  destruct Hs as [_ [_ Hl]].
  unfold bVec_of, SpatialKernelSolution.upd_bVec. fields.
  rewrite vcoeff_segment_add by (unfold bVec_of in *; lia).
  replace ((i0 <=? i0 + i) && (i0 + i <? i0 + len))%nat with true
    by (symmetry; apply andb_true_iff; rewrite Nat.leb_le, Nat.ltb_lt; lia).
  replace (i0 + i - i0)%nat with i by lia.
  unfold bVec_of in Hx. rewrite Hx. reflexivity.
Qed.

Lemma set_coeff_keeps (n r c : nat) (x : float) (i j : nat)
    (f : MatrixXd -> float) (s : SpatialKernelSolution.t) :
  (r < n)%nat -> (c < n)%nat -> (r <> i \/ c <> j) ->
  keeps_entry n r c x s ->
  keeps_entry n r c x (SpatialKernelSolution.upd_mMat (fun m => set_coeff m i j (f m)) s).
Proof.
  intros Hr Hc Hout [[Hrows [Hcols Hl]] Hx]. split; [repeat split; assumption|].
  unfold mMat_of, SpatialKernelSolution.upd_mMat. fields.
  rewrite coeff_set_coeff by (unfold mMat_of in *; lia).
  destruct ((r =? i) && (c =? j))%nat eqn:Hb; [| exact Hx].
  apply andb_true_iff in Hb. rewrite !Nat.eqb_eq in Hb. lia.
Qed.

Lemma set_coeff_keeps_segment (n k : nat) (x : float) (i j : nat)
    (f : MatrixXd -> float) (s : SpatialKernelSolution.t) :
  keeps_segment n k x s ->
  keeps_segment n k x (SpatialKernelSolution.upd_mMat (fun m => set_coeff m i j (f m)) s).
Proof. intros [[Hr [Hc Hl]] Hx]. split; [repeat split; assumption | exact Hx]. Qed.

Lemma vset_sized (n i : nat) (f : VectorXd -> float) (s : SpatialKernelSolution.t) :
  sized n s -> sized n (SpatialKernelSolution.upd_bVec (fun b => vset b i (f b)) s).
Proof.
  intros [Hr [Hc Hl]]. repeat split; try assumption.
  unfold bVec_of, SpatialKernelSolution.upd_bVec. fields.
  unfold vset. rewrite length_vgenerate. exact Hl.
Qed.

Lemma vset_keeps_entry (n r c : nat) (x : float) (i : nat) (f : VectorXd -> float)
    (s : SpatialKernelSolution.t) :
  keeps_entry n r c x s ->
  keeps_entry n r c x (SpatialKernelSolution.upd_bVec (fun b => vset b i (f b)) s).
Proof. intros [Hs Hx]. split; [apply vset_sized; exact Hs | exact Hx]. Qed.

Lemma vset_keeps (n k : nat) (x : float) (i : nat) (f : VectorXd -> float)
    (s : SpatialKernelSolution.t) :
  (k < n)%nat -> k <> i ->
  keeps_segment n k x s ->
  keeps_segment n k x (SpatialKernelSolution.upd_bVec (fun b => vset b i (f b)) s).
Proof.
  intros Hk Hne [Hs Hx]. split; [apply vset_sized; exact Hs|].
  destruct Hs as [_ [_ Hl]].
  unfold bVec_of, SpatialKernelSolution.upd_bVec. fields.
  rewrite vcoeff_vset by (unfold bVec_of in *; lia).
  destruct (k =? i)%nat eqn:Hb; [apply Nat.eqb_eq in Hb; lia | exact Hx].
Qed.

Section Accumulation.

(** The values [addConstraint] computes before it touches the matrix. *)
Variables (qMat : MatrixXd) (wVec pK pB : VectorXd).
Variables (nbases nkt nbt dm : Z) (mb n : nat) (constantFirstTerm fit : bool).

Let K := Z.to_nat nkt.
Let B := Z.to_nat nbt.
Let m0 : Z := if constantFirstTerm then 1%Z else 0%Z.
Let start (m : Z) : nat := SpatialKernelSolution.offset nkt dm m.
Let pKpKt := outer pK pK.
Let pKpBt := if fit then outer pK pB else empty.
Let pBpBt := if fit then outer pB pB else empty.
Let q (a b : Z) : float := coeff qMat (Z.to_nat a) (Z.to_nat b).
Let row_step :=
  SpatialKernelSolution.fill_block_row qMat wVec pK pKpKt pKpBt nbases nkt nbt dm mb fit.

Hypothesis Hnb : (1 <= nbases)%Z.
Hypothesis Hnkt : (0 <= nkt)%Z.
Hypothesis Hnbt : (0 <= nbt)%Z.
Hypothesis Hdm : dm = if constantFirstTerm then (nkt - 1)%Z else 0%Z.
Hypothesis Hmb : Z.of_nat mb = (nbases * nkt - dm)%Z.
Hypothesis Hn : Z.of_nat n = (Z.of_nat mb + nbt)%Z.
Hypothesis HpK : length pK = K.
Hypothesis HpB : fit = true -> length pB = B.

Lemma start_spec (m : Z) :
  (m0 <= m <= nbases)%Z -> Z.of_nat (start m) = (m * nkt - dm)%Z.
Proof.
  intros Hm. unfold start, SpatialKernelSolution.offset, m0 in *.
  rewrite Z2Nat.id; [reflexivity|]. rewrite Hdm. destruct constantFirstTerm; nia.
Qed.

Lemma start_next (m m' : Z) :
  (m0 <= m < m')%Z -> (m' <= nbases)%Z -> (start m + K <= start m')%nat.
Proof.
  intros Hm Hm'. apply Nat2Z.inj_le. rewrite Nat2Z.inj_add.
  rewrite !start_spec by lia. unfold K. rewrite Z2Nat.id by lia. nia.
Qed.

Lemma start_end (m : Z) : (m0 <= m < nbases)%Z -> (start m + K <= mb)%nat.
Proof.
  intros Hm. apply Nat2Z.inj_le. rewrite Nat2Z.inj_add, Hmb.
  rewrite start_spec by lia. unfold K. rewrite Z2Nat.id by lia. nia.
Qed.

Lemma start_positive (m : Z) :
  constantFirstTerm = true -> (m0 <= m <= nbases)%Z -> (1 <= start m)%nat.
Proof.
  intros Hc Hm. apply Nat2Z.inj_le. rewrite start_spec by lia.
  unfold m0 in Hm. rewrite Hdm. rewrite Hc in *. nia.
Qed.

Lemma mb_positive : constantFirstTerm = true -> (1 <= mb)%nat.
Proof. intros Hc. apply Nat2Z.inj_le. rewrite Hmb, Hdm, Hc. nia. Qed.

Lemma mb_end : (mb + B = n)%nat.
Proof. apply Nat2Z.inj. rewrite Nat2Z.inj_add, Hn. unfold B. rewrite Z2Nat.id by lia. lia. Qed.

(** One turn of the loop over [m1] leaves the rows of the other blocks. *)
Lemma row_step_keeps (m : Z) (r c : nat) (x : float) (s : SpatialKernelSolution.t) :
  (r < n)%nat -> (c < n)%nat ->
  (r < start m \/ start m + K <= r)%nat ->
  keeps_entry n r c x s -> keeps_entry n r c x (row_step s m).
Proof.
  intros Hr Hc Hout Hs. unfold row_step, SpatialKernelSolution.fill_block_row.
  unfold start, K in Hout.
  apply segment_add_keeps_entry.
  match goal with
  | |- keeps_entry _ _ _ _ (if fit then SpatialKernelSolution.upd_mMat _ ?y else _) =>
      assert (H2 : keeps_entry n r c x y)
  end.
  { apply fold_invariant.
    - intros s' m2 _ Hs'. apply block_add_keeps; [assumption | assumption | lia | exact Hs'].
    - apply block_add_keeps; [assumption | assumption | lia | exact Hs]. }
  destruct fit; [| exact H2].
  apply block_add_keeps; [assumption | assumption | lia | exact H2].
Qed.

Lemma row_step_keeps_segment (m : Z) (k : nat) (x : float) (s : SpatialKernelSolution.t) :
  (k < n)%nat -> (k < start m \/ start m + K <= k)%nat ->
  keeps_segment n k x s -> keeps_segment n k x (row_step s m).
Proof.
  intros Hk Hout Hs. unfold row_step, SpatialKernelSolution.fill_block_row.
  unfold start, K in Hout.
  apply segment_add_keeps; [assumption | lia |].
  match goal with
  | |- keeps_segment _ _ _ (if fit then SpatialKernelSolution.upd_mMat _ ?y else _) =>
      assert (H2 : keeps_segment n k x y)
  end.
  { apply fold_invariant.
    - intros s' m2 _ Hs'. apply block_add_keeps_segment. exact Hs'.
    - apply block_add_keeps_segment. exact Hs. }
  destruct fit; [| exact H2].
  apply block_add_keeps_segment. exact H2.
Qed.

(** The turns of the loop for a range of bases the entry is not in. *)
Lemma rows_keep (lo hi : Z) (r c : nat) (x : float) (s : SpatialKernelSolution.t) :
  (r < n)%nat -> (c < n)%nat ->
  (forall m, (lo <= m < hi)%Z -> (r < start m \/ start m + K <= r)%nat) ->
  keeps_entry n r c x s ->
  keeps_entry n r c x (fold_left row_step (SpatialKernelSolution.Zrange lo hi) s).
Proof.
  intros Hr Hc Hout. apply fold_invariant.
  intros s' m Hin Hs'. apply in_Zrange in Hin. apply row_step_keeps; auto.
Qed.

Lemma rows_keep_segment (lo hi : Z) (k : nat) (x : float) (s : SpatialKernelSolution.t) :
  (k < n)%nat ->
  (forall m, (lo <= m < hi)%Z -> (k < start m \/ start m + K <= k)%nat) ->
  keeps_segment n k x s ->
  keeps_segment n k x (fold_left row_step (SpatialKernelSolution.Zrange lo hi) s).
Proof.
  intros Hk Hout. apply fold_invariant.
  intros s' m Hin Hs'. apply in_Zrange in Hin. apply row_step_keeps_segment; auto.
Qed.
(** The inner loop over [m2], for the bases whose columns the entry is not in. *)
Lemma columns_keep (m lo hi : Z) (r c : nat) (x : float) (s : SpatialKernelSolution.t) :
  (r < n)%nat -> (c < n)%nat ->
  (forall m2, (lo <= m2 < hi)%Z -> (c < start m2 \/ start m2 + K <= c)%nat) ->
  keeps_entry n r c x s ->
  keeps_entry n r c x
    (fold_left
       (fun s m2 =>
          SpatialKernelSolution.upd_mMat
            (fun m' => block_add m' (SpatialKernelSolution.offset nkt dm m)
                         (SpatialKernelSolution.offset nkt dm m2)
                         (Z.to_nat nkt) (Z.to_nat nkt)
                         (scale (coeff qMat (Z.to_nat m) (Z.to_nat m2)) pKpKt)) s)
       (SpatialKernelSolution.Zrange lo hi) s).
Proof.
  intros Hr Hc Hout. apply fold_invariant.
  intros s' m2 Hin Hs'. apply in_Zrange in Hin. specialize (Hout m2 Hin).
  unfold start, K in Hout.
  apply block_add_keeps; [assumption | assumption | lia | exact Hs'].
Qed.

(** The entries of the blocks, as the operands of the additions have them. *)
Lemma coeff_kernel_block (a : float) (i j : nat) :
  (i < K)%nat -> (j < K)%nat ->
  coeff (scale a pKpKt) i j = a * (vcoeff pK i * vcoeff pK j).
Proof.
  intros Hi Hj. unfold scale, pKpKt, outer. cbn [rows cols generate].
  rewrite HpK. rewrite !coeff_generate by assumption. reflexivity.
Qed.

Lemma coeff_upper_kernel_block (a : float) (i j : nat) :
  (i < K)%nat -> (j < K)%nat ->
  coeff (triangularView_Upper (scale_r pKpKt a)) i j
  = if (i <=? j)%nat then (vcoeff pK i * vcoeff pK j) * a else 0.
Proof.
  intros Hi Hj. unfold triangularView_Upper, scale_r, pKpKt, outer. cbn [rows cols generate].
  rewrite HpK. rewrite !coeff_generate by assumption. reflexivity.
Qed.

Lemma coeff_cross_block (a : float) (i j : nat) :
  fit = true -> (i < K)%nat -> (j < B)%nat ->
  coeff (scale a pKpBt) i j = a * (vcoeff pK i * vcoeff pB j).
Proof.
  intros Hfit Hi Hj. unfold pKpBt. rewrite Hfit.
  unfold scale, outer. cbn [rows cols generate].
  rewrite HpK, (HpB Hfit). rewrite !coeff_generate by assumption. reflexivity.
Qed.

Lemma coeff_upper_background_block (a : float) (i j : nat) :
  fit = true -> (i < B)%nat -> (j < B)%nat ->
  coeff (triangularView_Upper (scale_r pBpBt a)) i j
  = if (i <=? j)%nat then (vcoeff pB i * vcoeff pB j) * a else 0.
Proof.
  intros Hfit Hi Hj. unfold pBpBt. rewrite Hfit.
  unfold triangularView_Upper, scale_r, outer. cbn [rows cols generate].
  rewrite (HpB Hfit). rewrite !coeff_generate by assumption. reflexivity.
Qed.

Lemma vcoeff_vscale (a : float) (v : VectorXd) (i : nat) :
  (i < length v)%nat -> vcoeff (vscale a v) i = a * vcoeff v i.
Proof. intros Hi. unfold vscale. rewrite vcoeff_vgenerate by assumption. reflexivity. Qed.

(** Arithmetic on the offsets of the blocks. *)
Ltac geometry := unfold start, K, B in *; lia.

(** Case analysis on a flag that other quantities are defined from. *)
Ltac by_cases b H :=
  match goal with
  | |- ?P (if b then ?x else ?y) => apply (if_holds b P x y); intros H
  end.

(** The turn of the loop for [m1 = m] adds the upper triangle to the
    diagonal block of [m]. *)
Lemma row_step_diagonal (m : Z) (i j : nat) (x : float) (s : SpatialKernelSolution.t) :
  (m0 <= m < nbases)%Z -> (i < K)%nat -> (j < K)%nat ->
  keeps_entry n (start m + i) (start m + j) x s ->
  keeps_entry n (start m + i) (start m + j)
    (x + (if (i <=? j)%nat then (vcoeff pK i * vcoeff pK j) * q m m else 0))
    (row_step s m).
Proof.
  intros Hm Hi Hj Hs.
  pose proof (start_end m Hm) as Hend. pose proof mb_end as Hmbn.
  assert (Hnext : forall m2, (m + 1 <= m2 < nbases)%Z -> (start m + K <= start m2)%nat)
    by (intros m2 H2; apply start_next; geometry).
  rewrite <- (coeff_upper_kernel_block (q m m) i j Hi Hj).
  unfold row_step, SpatialKernelSolution.fill_block_row.
  apply segment_add_keeps_entry.
  match goal with
  | |- keeps_entry _ _ _ ?v (if fit then SpatialKernelSolution.upd_mMat _ ?y else _) =>
      assert (H2 : keeps_entry n (start m + i) (start m + j) v y)
  end.
  { apply columns_keep; [geometry | geometry | intros m2 H2; specialize (Hnext m2 H2); geometry |].
    apply block_add_hits; [geometry | geometry | exact Hi | exact Hj | exact Hs]. }
  destruct fit; [| exact H2].
  apply block_add_keeps; [geometry | geometry | geometry | exact H2].
Qed.

(** It adds the whole of [qMat(m, m2) * pKpKt] to the block of a later [m2]. *)
Lemma row_step_off_diagonal (m m2 : Z) (i j : nat) (x : float)
    (s : SpatialKernelSolution.t) :
  (m0 <= m < m2)%Z -> (m2 < nbases)%Z -> (i < K)%nat -> (j < K)%nat ->
  keeps_entry n (start m + i) (start m2 + j) x s ->
  keeps_entry n (start m + i) (start m2 + j)
    (x + q m m2 * (vcoeff pK i * vcoeff pK j)) (row_step s m).
Proof.
  intros Hm Hm2 Hi Hj Hs.
  assert (Hend : (start m + K <= mb)%nat) by (apply start_end; geometry).
  assert (Hend2 : (start m2 + K <= mb)%nat) by (apply start_end; geometry).
  assert (H12 : (start m + K <= start m2)%nat) by (apply start_next; geometry).
  pose proof mb_end as Hmbn.
  rewrite <- (coeff_kernel_block (q m m2) i j Hi Hj).
  unfold row_step, SpatialKernelSolution.fill_block_row.
  apply segment_add_keeps_entry.
  match goal with
  | |- keeps_entry _ _ _ ?v (if fit then SpatialKernelSolution.upd_mMat _ ?y else _) =>
      assert (H2 : keeps_entry n (start m + i) (start m2 + j) v y)
  end.
  { rewrite (Zrange_split (m + 1) nbases m2) by geometry.
    rewrite fold_left_app. cbn [fold_left].
    apply columns_keep;
      [geometry | geometry
       | intros m3 H3; assert (start m2 + K <= start m3)%nat by (apply start_next; geometry); geometry |].
    apply block_add_hits; [geometry | geometry | exact Hi | exact Hj |].
    apply columns_keep;
      [geometry | geometry
       | intros m3 H3; assert (start m3 + K <= start m2)%nat by (apply start_next; geometry); geometry |].
    apply block_add_keeps; [geometry | geometry | geometry | exact Hs]. }
  destruct fit; [| exact H2].
  apply block_add_keeps; [geometry | geometry | geometry | exact H2].
Qed.

(** It adds [qMat(m, nbases) * pKpBt] to the cross block of [m]. *)
Lemma row_step_cross (m : Z) (i j : nat) (x : float) (s : SpatialKernelSolution.t) :
  fit = true -> (m0 <= m < nbases)%Z -> (i < K)%nat -> (j < B)%nat ->
  keeps_entry n (start m + i) (mb + j) x s ->
  keeps_entry n (start m + i) (mb + j)
    (x + q m nbases * (vcoeff pK i * vcoeff pB j)) (row_step s m).
Proof.
  intros Hfit Hm Hi Hj Hs.
  pose proof (start_end m Hm) as Hend. pose proof mb_end as Hmbn.
  rewrite <- (coeff_cross_block (q m nbases) i j Hfit Hi Hj).
  unfold row_step, SpatialKernelSolution.fill_block_row.
  apply segment_add_keeps_entry. rewrite Hfit.
  apply block_add_hits; [geometry | geometry | exact Hi | exact Hj |].
  apply columns_keep;
    [geometry | geometry
     | intros m3 H3; assert (start m3 + K <= mb)%nat by (apply start_end; geometry); geometry |].
  apply block_add_keeps; [geometry | geometry | geometry | exact Hs].
Qed.

(** It adds [wVec(m) * pK] to the segment of [m]. *)
Lemma row_step_segment (m : Z) (i : nat) (x : float) (s : SpatialKernelSolution.t) :
  (m0 <= m < nbases)%Z -> (i < K)%nat ->
  keeps_segment n (start m + i) x s ->
  keeps_segment n (start m + i) (x + vcoeff wVec (Z.to_nat m) * vcoeff pK i) (row_step s m).
Proof.
  intros Hm Hi Hs.
  pose proof (start_end m Hm) as Hend. pose proof mb_end as Hmbn.
  rewrite <- (vcoeff_vscale (vcoeff wVec (Z.to_nat m)) pK i) by (rewrite HpK; exact Hi).
  unfold row_step, SpatialKernelSolution.fill_block_row.
  apply segment_add_hits; [geometry | exact Hi |].
  match goal with
  | |- keeps_segment _ _ ?v (if fit then SpatialKernelSolution.upd_mMat _ ?y else _) =>
      assert (H2 : keeps_segment n (start m + i) v y)
  end.
  { apply fold_invariant.
    - intros s' m2 _ Hs'. apply block_add_keeps_segment. exact Hs'.
    - apply block_add_keeps_segment. exact Hs. }
  destruct fit; [| exact H2].
  apply block_add_keeps_segment. exact H2.
Qed.

(** The first, constant term is row 0 of the matrix and of the vector. *)
Lemma first_term_keeps (r c : nat) (x : float) (s : SpatialKernelSolution.t) :
  (1 <= r < n)%nat -> (c < n)%nat ->
  keeps_entry n r c x s ->
  keeps_entry n r c x
    (SpatialKernelSolution.fill_first_term qMat wVec pK pB nbases nkt nbt dm mb fit s).
Proof.
  intros Hr Hc Hs. unfold SpatialKernelSolution.fill_first_term.
  match goal with
  | |- keeps_entry _ _ _ _ (if fit then SpatialKernelSolution.upd_mMat _ ?y else _) =>
      assert (H2 : keeps_entry n r c x y)
  end.
  { apply vset_keeps_entry. apply fold_invariant.
    - intros s' m2 _ Hs'. apply block_add_keeps; [lia | lia | lia | exact Hs'].
    - apply set_coeff_keeps; [lia | lia | lia | exact Hs]. }
  destruct fit; [| exact H2].
  apply block_add_keeps; [lia | lia | lia | exact H2].
Qed.

Lemma first_term_keeps_segment (k : nat) (x : float) (s : SpatialKernelSolution.t) :
  (1 <= k < n)%nat ->
  keeps_segment n k x s ->
  keeps_segment n k x
    (SpatialKernelSolution.fill_first_term qMat wVec pK pB nbases nkt nbt dm mb fit s).
Proof.
  intros Hk Hs. unfold SpatialKernelSolution.fill_first_term.
  match goal with
  | |- keeps_segment _ _ _ (if fit then SpatialKernelSolution.upd_mMat _ ?y else _) =>
      assert (H2 : keeps_segment n k x y)
  end.
  { apply vset_keeps; [lia | lia |]. apply fold_invariant.
    - intros s' m2 _ Hs'. apply block_add_keeps_segment. exact Hs'.
    - apply set_coeff_keeps_segment. exact Hs. }
  destruct fit; [| exact H2].
  apply block_add_keeps_segment. exact H2.
Qed.

(** The background terms are the last [nbt] rows. *)
Lemma background_keeps (r c : nat) (x : float) (s : SpatialKernelSolution.t) :
  (r < mb)%nat -> (c < n)%nat ->
  keeps_entry n r c x s ->
  keeps_entry n r c x (SpatialKernelSolution.fill_background qMat wVec pB pBpBt nbases nbt mb s).
Proof.
  intros Hr Hc Hs. pose proof mb_end as Hmbn. unfold SpatialKernelSolution.fill_background.
  apply segment_add_keeps_entry.
  apply block_add_keeps; [lia | lia | lia | exact Hs].
Qed.

Lemma background_keeps_segment (k : nat) (x : float) (s : SpatialKernelSolution.t) :
  (k < mb)%nat ->
  keeps_segment n k x s ->
  keeps_segment n k x (SpatialKernelSolution.fill_background qMat wVec pB pBpBt nbases nbt mb s).
Proof.
  intros Hk Hs. pose proof mb_end as Hmbn. unfold SpatialKernelSolution.fill_background.
  apply segment_add_keeps; [lia | lia |].
  apply block_add_keeps_segment. exact Hs.
Qed.

Lemma background_hits (i j : nat) (x : float) (s : SpatialKernelSolution.t) :
  fit = true -> (i < B)%nat -> (j < B)%nat ->
  keeps_entry n (mb + i) (mb + j) x s ->
  keeps_entry n (mb + i) (mb + j)
    (x + (if (i <=? j)%nat then (vcoeff pB i * vcoeff pB j) * q nbases nbases else 0))
    (SpatialKernelSolution.fill_background qMat wVec pB pBpBt nbases nbt mb s).
Proof.
  intros Hfit Hi Hj Hs. pose proof mb_end as Hmbn.
  rewrite <- (coeff_upper_background_block (q nbases nbases) i j Hfit Hi Hj).
  unfold SpatialKernelSolution.fill_background.
  apply segment_add_keeps_entry.
  apply block_add_hits; [lia | lia | exact Hi | exact Hj | exact Hs].
Qed.

Lemma background_hits_segment (j : nat) (x : float) (s : SpatialKernelSolution.t) :
  fit = true -> (j < B)%nat ->
  keeps_segment n (mb + j) x s ->
  keeps_segment n (mb + j) (x + vcoeff wVec (Z.to_nat nbases) * vcoeff pB j)
    (SpatialKernelSolution.fill_background qMat wVec pB pBpBt nbases nbt mb s).
Proof.
  intros Hfit Hj Hs. pose proof mb_end as Hmbn.
  rewrite <- (vcoeff_vscale (vcoeff wVec (Z.to_nat nbases)) pB j)
    by (rewrite (HpB Hfit); exact Hj).
  unfold SpatialKernelSolution.fill_background.
  apply segment_add_hits; [lia | exact Hj |].
  apply block_add_keeps_segment. exact Hs.
Qed.

(** The stages on the values of this section, and what they unfold to. *)
Let run_stages := stages qMat wVec pK pB nbases nkt nbt dm mb constantFirstTerm fit.
Let middle (s : SpatialKernelSolution.t) : SpatialKernelSolution.t :=
  fold_left row_step (SpatialKernelSolution.Zrange m0 nbases)
    (if constantFirstTerm
     then SpatialKernelSolution.fill_first_term qMat wVec pK pB nbases nkt nbt dm mb fit s
     else s).

Lemma run_stages_unfold (s : SpatialKernelSolution.t) :
  run_stages s
  = if fit
    then SpatialKernelSolution.fill_background qMat wVec pB pBpBt nbases nbt mb (middle s)
    else middle s.
Proof. reflexivity. Qed.

(** An entry in the rows of the block [m], through the three stages, when
    the turn of the loop for [m] adds [d] to it. *)
Lemma stages_kernel_row (m : Z) (i c : nat) (x d : float) (s : SpatialKernelSolution.t) :
  (m0 <= m < nbases)%Z -> (i < K)%nat -> (c < n)%nat ->
  (forall s', keeps_entry n (start m + i) c x s' ->
              keeps_entry n (start m + i) c (x + d) (row_step s' m)) ->
  keeps_entry n (start m + i) c x s ->
  keeps_entry n (start m + i) c (x + d) (run_stages s).
Proof.
  intros Hm Hi Hc Hstep Hs.
  pose proof (start_end m Hm) as Hend. pose proof mb_end as Hmbn.
  rewrite run_stages_unfold. unfold middle.
  match goal with
  | |- keeps_entry _ _ _ _ (if fit then _ ?y else _) =>
      assert (H2 : keeps_entry n (start m + i) c (x + d) y)
  end.
  { rewrite (Zrange_split m0 nbases m) by lia.
    rewrite fold_left_app. cbn [fold_left].
    apply rows_keep;
      [geometry | exact Hc
       | intros m3 H3; assert (start m + K <= start m3)%nat by (apply start_next; lia);
         geometry |].
    apply Hstep.
    apply rows_keep;
      [geometry | exact Hc
       | intros m3 H3; assert (start m3 + K <= start m)%nat by (apply start_next; lia);
         geometry |].
    by_cases constantFirstTerm Hcft; [| exact Hs].
    apply first_term_keeps; [| exact Hc | exact Hs].
    assert (1 <= start m)%nat by (apply start_positive; [exact Hcft | lia]).
    geometry. }
  by_cases fit Hfit; [| exact H2].
  apply background_keeps; [geometry | exact Hc | exact H2].
Qed.

Lemma stages_kernel_segment (m : Z) (i : nat) (x : float) (s : SpatialKernelSolution.t) :
  (m0 <= m < nbases)%Z -> (i < K)%nat ->
  keeps_segment n (start m + i) x s ->
  keeps_segment n (start m + i) (x + vcoeff wVec (Z.to_nat m) * vcoeff pK i) (run_stages s).
Proof.
  intros Hm Hi Hs.
  pose proof (start_end m Hm) as Hend. pose proof mb_end as Hmbn.
  rewrite run_stages_unfold. unfold middle.
  match goal with
  | |- keeps_segment _ _ ?v (if fit then _ ?y else _) =>
      assert (H2 : keeps_segment n (start m + i) v y)
  end.
  { rewrite (Zrange_split m0 nbases m) by lia.
    rewrite fold_left_app. cbn [fold_left].
    apply rows_keep_segment;
      [geometry
       | intros m3 H3; assert (start m + K <= start m3)%nat by (apply start_next; lia);
         geometry |].
    apply row_step_segment; [exact Hm | exact Hi |].
    apply rows_keep_segment;
      [geometry
       | intros m3 H3; assert (start m3 + K <= start m)%nat by (apply start_next; lia);
         geometry |].
    by_cases constantFirstTerm Hcft; [| exact Hs].
    apply first_term_keeps_segment; [| exact Hs].
    assert (1 <= start m)%nat by (apply start_positive; [exact Hcft | lia]).
    geometry. }
  by_cases fit Hfit; [| exact H2].
  apply background_keeps_segment; [geometry | exact H2].
Qed.

(** An entry of the background rows, through the three stages. *)
Lemma stages_background (i j : nat) (x : float) (s : SpatialKernelSolution.t) :
  fit = true -> (i < B)%nat -> (j < B)%nat ->
  keeps_entry n (mb + i) (mb + j) x s ->
  keeps_entry n (mb + i) (mb + j)
    (x + (if (i <=? j)%nat then (vcoeff pB i * vcoeff pB j) * q nbases nbases else 0))
    (run_stages s).
Proof.
  intros Hfit Hi Hj Hs. pose proof mb_end as Hmbn.
  rewrite run_stages_unfold. unfold middle.
  by_cases fit Hfit'; [| rewrite Hfit in Hfit'; discriminate].
  apply background_hits; [exact Hfit | exact Hi | exact Hj |].
  apply rows_keep;
    [lia | lia
     | intros m3 H3; assert (start m3 + K <= mb)%nat by (apply start_end; lia); geometry |].
  by_cases constantFirstTerm Hcft; [| exact Hs].
  apply first_term_keeps; [| lia | exact Hs].
  assert (1 <= mb)%nat by (apply mb_positive; exact Hcft). lia.
Qed.

Lemma stages_background_segment (j : nat) (x : float) (s : SpatialKernelSolution.t) :
  fit = true -> (j < B)%nat ->
  keeps_segment n (mb + j) x s ->
  keeps_segment n (mb + j) (x + vcoeff wVec (Z.to_nat nbases) * vcoeff pB j) (run_stages s).
Proof.
  intros Hfit Hj Hs. pose proof mb_end as Hmbn.
  rewrite run_stages_unfold. unfold middle.
  by_cases fit Hfit'; [| rewrite Hfit in Hfit'; discriminate].
  apply background_hits_segment; [exact Hfit | exact Hj |].
  apply rows_keep_segment;
    [lia
     | intros m3 H3; assert (start m3 + K <= mb)%nat by (apply start_end; lia); geometry |].
  by_cases constantFirstTerm Hcft; [| exact Hs].
  apply first_term_keeps_segment; [| exact Hs].
  assert (1 <= mb)%nat by (apply mb_positive; exact Hcft). lia.
Qed.

Lemma stages_diagonal (m : Z) (i j : nat) (x : float) (s : SpatialKernelSolution.t) :
  (m0 <= m < nbases)%Z -> (i < K)%nat -> (j < K)%nat ->
  keeps_entry n (start m + i) (start m + j) x s ->
  keeps_entry n (start m + i) (start m + j)
    (x + (if (i <=? j)%nat then (vcoeff pK i * vcoeff pK j) * q m m else 0))
    (run_stages s).
Proof.
  intros Hm Hi Hj Hs.
  pose proof (start_end m Hm) as Hend. pose proof mb_end as Hmbn.
  apply stages_kernel_row; [exact Hm | exact Hi | geometry | | exact Hs].
  intros s' Hs'. apply row_step_diagonal; assumption.
Qed.

Lemma stages_off_diagonal (m m2 : Z) (i j : nat) (x : float)
    (s : SpatialKernelSolution.t) :
  (m0 <= m < m2)%Z -> (m2 < nbases)%Z -> (i < K)%nat -> (j < K)%nat ->
  keeps_entry n (start m + i) (start m2 + j) x s ->
  keeps_entry n (start m + i) (start m2 + j)
    (x + q m m2 * (vcoeff pK i * vcoeff pK j)) (run_stages s).
Proof.
  intros Hm Hm2 Hi Hj Hs.
  assert (Hend2 : (start m2 + K <= mb)%nat) by (apply start_end; lia).
  pose proof mb_end as Hmbn.
  apply stages_kernel_row; [lia | exact Hi | geometry | | exact Hs].
  intros s' Hs'. apply row_step_off_diagonal; assumption.
Qed.

Lemma stages_cross (m : Z) (i j : nat) (x : float) (s : SpatialKernelSolution.t) :
  fit = true -> (m0 <= m < nbases)%Z -> (i < K)%nat -> (j < B)%nat ->
  keeps_entry n (start m + i) (mb + j) x s ->
  keeps_entry n (start m + i) (mb + j)
    (x + q m nbases * (vcoeff pK i * vcoeff pB j)) (run_stages s).
Proof.
  intros Hfit Hm Hi Hj Hs. pose proof mb_end as Hmbn.
  apply stages_kernel_row; [exact Hm | exact Hi | geometry | | exact Hs].
  intros s' Hs'. apply row_step_cross; assumption.
Qed.

(** The additions of a turn of the loop are at columns from the block of
    its basis on. *)
Lemma row_step_keeps_left (m : Z) (r c : nat) (x : float) (s : SpatialKernelSolution.t) :
  (m0 <= m < nbases)%Z -> (r < n)%nat -> (c < start m)%nat ->
  keeps_entry n r c x s -> keeps_entry n r c x (row_step s m).
Proof.
  intros Hm Hr Hc Hs.
  pose proof (start_end m Hm) as Hend. pose proof mb_end as Hmbn.
  assert (Hnext : forall m2, (m + 1 <= m2 < nbases)%Z -> (start m + K <= start m2)%nat)
    by (intros m2 H2; apply start_next; geometry).
  unfold row_step, SpatialKernelSolution.fill_block_row.
  apply segment_add_keeps_entry.
  match goal with
  | |- keeps_entry _ _ _ _ (if fit then SpatialKernelSolution.upd_mMat _ ?y else _) =>
      assert (H2 : keeps_entry n r c x y)
  end.
  { apply fold_invariant.
    - intros s' m2 Hin Hs'. apply in_Zrange in Hin. specialize (Hnext m2 Hin).
      apply block_add_keeps; [exact Hr | geometry | geometry | exact Hs'].
    - apply block_add_keeps; [exact Hr | geometry | geometry | exact Hs]. }
  destruct fit; [| exact H2].
  apply block_add_keeps; [exact Hr | geometry | geometry | exact H2].
Qed.

(** An entry no stage writes: not in row 0 with a constant first term, left
    of the block of its row, and not in the background block. *)
Lemma stages_keeps (r c : nat) (x : float) (s : SpatialKernelSolution.t) :
  (r < n)%nat -> (c < n)%nat ->
  (constantFirstTerm = true -> (1 <= r)%nat) ->
  (forall m, (m0 <= m < nbases)%Z ->
             (r < start m \/ start m + K <= r \/ c < start m)%nat) ->
  (r < mb \/ c < mb)%nat ->
  keeps_entry n r c x s -> keeps_entry n r c x (run_stages s).
Proof.
  intros Hr Hc Hfirst Hrows Hback Hs. pose proof mb_end as Hmbn.
  rewrite run_stages_unfold. unfold middle.
  match goal with
  | |- keeps_entry _ _ _ _ (if fit then _ ?y else _) => assert (H2 : keeps_entry n r c x y)
  end.
  { apply fold_invariant.
    - intros s' m Hin Hs'. apply in_Zrange in Hin.
      destruct (Hrows m Hin) as [H | [H | H]].
      + apply row_step_keeps; [exact Hr | exact Hc | left; exact H | exact Hs'].
      + apply row_step_keeps; [exact Hr | exact Hc | right; exact H | exact Hs'].
      + apply row_step_keeps_left; [exact Hin | exact Hr | exact H | exact Hs'].
    - by_cases constantFirstTerm Hcft; [| exact Hs].
      apply first_term_keeps; [specialize (Hfirst Hcft); lia | exact Hc | exact Hs]. }
  by_cases fit Hfit; [| exact H2].
  destruct Hback as [H | H].
  - apply background_keeps; [exact H | exact Hc | exact H2].
  - unfold SpatialKernelSolution.fill_background.
    apply segment_add_keeps_entry.
    apply block_add_keeps; [exact Hr | exact Hc | lia | exact H2].
Qed.

(** The manual fill of the constant first term: row 0 of the matrix and of
    the vector. *)
Lemma coeff_first_row (a : float) (v : VectorXd) (j : nat) :
  (j < length v)%nat -> coeff (scale a (row_of v)) 0 j = a * vcoeff v j.
Proof.
  intros Hj. unfold scale, row_of. cbn [rows cols generate].
  rewrite !coeff_generate by lia. reflexivity.
Qed.

Lemma first_term_corner (x : float) (s : SpatialKernelSolution.t) :
  constantFirstTerm = true -> (1 <= n)%nat ->
  keeps_entry n 0 0 x s ->
  keeps_entry n 0 0 (x + coeff qMat 0 0)
    (SpatialKernelSolution.fill_first_term qMat wVec pK pB nbases nkt nbt dm mb fit s).
Proof.
  intros Hcft Hn1 Hs. unfold SpatialKernelSolution.fill_first_term.
  pose proof (mb_positive Hcft) as Hmb1.
  match goal with
  | |- keeps_entry _ _ _ ?v (if fit then SpatialKernelSolution.upd_mMat _ ?y else _) =>
      assert (H2 : keeps_entry n 0 0 v y)
  end.
  { apply vset_keeps_entry. apply fold_invariant.
    - intros s' m2 Hin Hs'. apply in_Zrange in Hin.
      assert (1 <= start m2)%nat by (apply start_positive; [exact Hcft | unfold m0; rewrite Hcft; lia]).
      apply block_add_keeps; [lia | lia | geometry | exact Hs'].
    - destruct Hs as [[Hrows [Hcols Hl]] Hx]. split; [repeat split; assumption|].
      unfold mMat_of, SpatialKernelSolution.upd_mMat. fields.
      rewrite coeff_set_coeff by (unfold mMat_of in *; lia).
      cbn [Nat.eqb andb]. unfold mMat_of in Hx. rewrite Hx. reflexivity. }
  destruct fit; [| exact H2].
  apply block_add_keeps; [lia | lia | lia | exact H2].
Qed.

Lemma first_term_row (m2 : Z) (j : nat) (x : float) (s : SpatialKernelSolution.t) :
  constantFirstTerm = true -> (1 <= m2 < nbases)%Z -> (j < K)%nat ->
  keeps_entry n 0 (start m2 + j) x s ->
  keeps_entry n 0 (start m2 + j) (x + q 0 m2 * vcoeff pK j)
    (SpatialKernelSolution.fill_first_term qMat wVec pK pB nbases nkt nbt dm mb fit s).
Proof.
  intros Hcft Hm2 Hj Hs. unfold SpatialKernelSolution.fill_first_term.
  assert (Hm0 : m0 = 1%Z) by (unfold m0; rewrite Hcft; reflexivity).
  assert (Hend : (start m2 + K <= mb)%nat) by (apply start_end; lia).
  assert (Hpos : (1 <= start m2)%nat) by (apply start_positive; [exact Hcft | lia]).
  pose proof mb_end as Hmbn.
  rewrite <- (coeff_first_row (q 0 m2) pK j) by (rewrite HpK; exact Hj).
  match goal with
  | |- keeps_entry _ _ _ ?v (if fit then SpatialKernelSolution.upd_mMat _ ?y else _) =>
      assert (H2 : keeps_entry n 0 (start m2 + j) v y)
  end.
  { apply vset_keeps_entry.
    rewrite (Zrange_split 1 nbases m2) by lia.
    rewrite fold_left_app. cbn [fold_left].
    apply fold_invariant.
    - intros s' m3 Hin Hs'. apply in_Zrange in Hin.
      assert (start m2 + K <= start m3)%nat by (apply start_next; lia).
      apply block_add_keeps; [geometry | geometry | geometry | exact Hs'].
    - apply (block_add_hits n x 0 (start m2) 1 K 0 j);
        [geometry | geometry | lia | exact Hj |].
      apply fold_invariant.
      + intros s' m3 Hin Hs'. apply in_Zrange in Hin.
        assert (start m3 + K <= start m2)%nat by (apply start_next; lia).
        apply block_add_keeps; [geometry | geometry | geometry | exact Hs'].
      + apply set_coeff_keeps; [geometry | geometry | geometry | exact Hs]. }
  destruct fit; [| exact H2].
  apply block_add_keeps; [geometry | geometry | geometry | exact H2].
Qed.

Lemma first_term_cross (j : nat) (x : float) (s : SpatialKernelSolution.t) :
  constantFirstTerm = true -> fit = true -> (j < B)%nat ->
  keeps_entry n 0 (mb + j) x s ->
  keeps_entry n 0 (mb + j) (x + q 0 nbases * vcoeff pB j)
    (SpatialKernelSolution.fill_first_term qMat wVec pK pB nbases nkt nbt dm mb fit s).
Proof.
  intros Hcft Hfit Hj Hs. unfold SpatialKernelSolution.fill_first_term.
  assert (Hm0 : m0 = 1%Z) by (unfold m0; rewrite Hcft; reflexivity).
  pose proof (mb_positive Hcft) as Hmb1. pose proof mb_end as Hmbn.
  rewrite <- (coeff_first_row (q 0 nbases) pB j) by (rewrite (HpB Hfit); exact Hj).
  rewrite Hfit.
  apply (block_add_hits n x 0 mb 1 B 0 j); [lia | lia | lia | exact Hj |].
  apply vset_keeps_entry. apply fold_invariant.
  - intros s' m3 Hin Hs'. apply in_Zrange in Hin.
    assert (start m3 + K <= mb)%nat by (apply start_end; lia).
    apply block_add_keeps; [lia | lia | geometry | exact Hs'].
  - apply set_coeff_keeps; [lia | lia | lia | exact Hs].
Qed.

Lemma first_term_segment (x : float) (s : SpatialKernelSolution.t) :
  (1 <= n)%nat ->
  keeps_segment n 0 x s ->
  keeps_segment n 0 (x + vcoeff wVec 0)
    (SpatialKernelSolution.fill_first_term qMat wVec pK pB nbases nkt nbt dm mb fit s).
Proof.
  intros Hn1 Hs. unfold SpatialKernelSolution.fill_first_term.
  match goal with
  | |- keeps_segment _ _ ?v (if fit then SpatialKernelSolution.upd_mMat _ ?y else _) =>
      assert (H2 : keeps_segment n 0 v y)
  end.
  { match goal with
    | |- keeps_segment _ _ _ (SpatialKernelSolution.upd_bVec _ ?y) =>
        assert (H1 : keeps_segment n 0 x y)
    end.
    { apply fold_invariant.
      - intros s' m2 _ Hs'. apply block_add_keeps_segment. exact Hs'.
      - apply set_coeff_keeps_segment. exact Hs. }
    destruct H1 as [Hsz Hx]. split; [apply vset_sized; exact Hsz|].
    destruct Hsz as [_ [_ Hl]].
    unfold bVec_of, SpatialKernelSolution.upd_bVec. fields.
    rewrite vcoeff_vset by (unfold bVec_of in *; lia).
    cbn [Nat.eqb]. unfold bVec_of in Hx. rewrite Hx. reflexivity. }
  destruct fit; [| exact H2].
  apply block_add_keeps_segment. exact H2.
Qed.

(** Row 0 through the stages: only the first term writes it. *)
Lemma stages_first_row (c : nat) (x d : float) (s : SpatialKernelSolution.t) :
  constantFirstTerm = true -> (c < n)%nat ->
  (forall s', keeps_entry n 0 c x s' ->
              keeps_entry n 0 c (x + d)
                (SpatialKernelSolution.fill_first_term qMat wVec pK pB nbases nkt nbt dm mb
                   fit s')) ->
  keeps_entry n 0 c x s -> keeps_entry n 0 c (x + d) (run_stages s).
Proof.
  intros Hcft Hc Hstep Hs.
  pose proof (mb_positive Hcft) as Hmb1. pose proof mb_end as Hmbn.
  rewrite run_stages_unfold. unfold middle. rewrite Hcft.
  match goal with
  | |- keeps_entry _ _ _ ?v (if fit then _ ?y else _) => assert (H2 : keeps_entry n 0 c v y)
  end.
  { apply rows_keep; [lia | exact Hc | | apply Hstep; exact Hs].
    intros m Hm. left.
    assert (1 <= start m)%nat by (apply start_positive; [exact Hcft | lia]).
    geometry. }
  by_cases fit Hfit; [| exact H2].
  apply background_keeps; [lia | exact Hc | exact H2].
Qed.

Lemma stages_first_segment (x : float) (s : SpatialKernelSolution.t) :
  constantFirstTerm = true ->
  keeps_segment n 0 x s ->
  keeps_segment n 0 (x + vcoeff wVec 0) (run_stages s).
Proof.
  intros Hcft Hs.
  pose proof (mb_positive Hcft) as Hmb1. pose proof mb_end as Hmbn.
  rewrite run_stages_unfold. unfold middle. rewrite Hcft.
  match goal with
  | |- keeps_segment _ _ ?v (if fit then _ ?y else _) => assert (H2 : keeps_segment n 0 v y)
  end.
  { apply rows_keep_segment; [lia | | apply first_term_segment; [lia | exact Hs]].
    intros m Hm. left.
    assert (1 <= start m)%nat by (apply start_positive; [exact Hcft | lia]).
    geometry. }
  by_cases fit Hfit; [| exact H2].
  apply background_keeps_segment; [lia | exact H2].
Qed.

End Accumulation.

Lemma addConstraint_state_stages (xCenter yCenter : float) (qMat : MatrixXd)
    (wVec : VectorXd) (s : SpatialKernelSolution.t) :
  SpatialKernelSolution.addConstraint_state xCenter yCenter qMat wVec s
  = stages qMat wVec
      (SpatialKernelSolution.pK_of s xCenter yCenter)
      (SpatialKernelSolution.pB_of s xCenter yCenter)
      (SpatialKernelSolution._nbases s) (SpatialKernelSolution._nkt s)
      (SpatialKernelSolution._nbt s)
      (if SpatialKernelSolution._constantFirstTerm s
       then (SpatialKernelSolution._nkt s - 1)%Z else 0%Z)
      (Z.to_nat (SpatialKernelSolution._nt s - SpatialKernelSolution._nbt s))
      (SpatialKernelSolution._constantFirstTerm s)
      (_fitForBackground (SpatialKernelSolution.base s))
      (evaluated s).
Proof.
  unfold SpatialKernelSolution.addConstraint_state, stages, evaluated.
  destruct (_fitForBackground (SpatialKernelSolution.base s)); reflexivity.
Qed.

Lemma evaluated_mMat (s : SpatialKernelSolution.t) : mMat_of (evaluated s) = mMat_of s.
Proof.
  unfold evaluated. destruct (_fitForBackground (SpatialKernelSolution.base s)); reflexivity.
Qed.

Lemma evaluated_bVec (s : SpatialKernelSolution.t) : bVec_of (evaluated s) = bVec_of s.
Proof.
  unfold evaluated. destruct (_fitForBackground (SpatialKernelSolution.base s)); reflexivity.
Qed.

Lemma evaluated_keeps_entry (n r c : nat) (s : SpatialKernelSolution.t) :
  sized n s -> keeps_entry n r c (coeff (mMat_of s) r c) (evaluated s).
Proof.
  intros Hs. unfold keeps_entry, sized. rewrite evaluated_mMat, evaluated_bVec.
  split; [exact Hs | reflexivity].
Qed.

Lemma evaluated_keeps_segment (n k : nat) (s : SpatialKernelSolution.t) :
  sized n s -> keeps_segment n k (vcoeff (bVec_of s) k) (evaluated s).
Proof.
  intros Hs. unfold keeps_segment, sized. rewrite evaluated_mMat, evaluated_bVec.
  split; [exact Hs | reflexivity].
Qed.

Lemma length_basis_values (f : SpatialFunction) (n : nat) (x y : float) :
  length (SpatialKernelSolution.basis_values f n x y) = n.
Proof. unfold SpatialKernelSolution.basis_values. rewrite length_map, length_seq. reflexivity. Qed.

(** *** The other half of the matrix, filled in by SpatialKernelSolution::solve *)

(** Comparisons of indices, as propositions. *)
Ltac reflect_nat :=
  repeat match goal with
         | H : (_ =? _)%nat = true |- _ => apply Nat.eqb_eq in H
         | H : (_ =? _)%nat = false |- _ => apply Nat.eqb_neq in H
         | H : (_ <? _)%nat = true |- _ => apply Nat.ltb_lt in H
         | H : (_ <? _)%nat = false |- _ => apply Nat.ltb_ge in H
         end.

Lemma existsb_Zrange (lo hi : Z) (r : nat) :
  (0 <= lo)%Z ->
  existsb (fun j => (Z.to_nat j =? r)%nat) (SpatialKernelSolution.Zrange lo hi)
  = ((Z.to_nat lo <=? r) && (r <? Z.to_nat hi))%nat.
Proof.
  intros Hlo.
  destruct ((Z.to_nat lo <=? r) && (r <? Z.to_nat hi))%nat eqn:Hb.
  - apply andb_true_iff in Hb. rewrite Nat.leb_le, Nat.ltb_lt in Hb.
    apply existsb_exists. exists (Z.of_nat r). split.
    + apply in_Zrange. lia.
    + apply Nat.eqb_eq. lia.
  - apply not_true_is_false. intros Hex. apply existsb_exists in Hex.
    destruct Hex as [j [Hin Hj]]. apply in_Zrange in Hin. apply Nat.eqb_eq in Hj.
    apply andb_false_iff in Hb. rewrite Nat.leb_gt, Nat.ltb_ge in Hb. lia.
Qed.

(** The writes of one turn of the outer loop: column [i], below the
    diagonal, from row [i], which they do not touch. *)
Lemma mirror_writes (n i : nat) (l : list Z) :
  (forall j, In j l -> (i < Z.to_nat j < n)%nat) ->
  forall m : MatrixXd, rows m = n -> cols m = n ->
  let m' := fold_left (fun m j => set_coeff m (Z.to_nat j) i (coeff m i (Z.to_nat j))) l m in
  rows m' = n /\ cols m' = n
  /\ forall r c, (r < n)%nat -> (c < n)%nat ->
       coeff m' r c
       = if ((c =? i)%nat && existsb (fun j => (Z.to_nat j =? r)%nat) l)%bool
         then coeff m i r else coeff m r c.
Proof.
  induction l as [|j l IH]; intros Hl m Hrows Hcols; cbn [fold_left existsb].
  - split; [exact Hrows|]. split; [exact Hcols|].
    intros r c _ _. rewrite andb_false_r. reflexivity.
  - assert (Hj : (i < Z.to_nat j < n)%nat) by (apply Hl; left; reflexivity).
    specialize (IH (fun j' Hin => Hl j' (or_intror Hin))
                   (set_coeff m (Z.to_nat j) i (coeff m i (Z.to_nat j))) Hrows Hcols).
    cbv zeta in IH. destruct IH as [Hr' [Hc' IH]].
    split; [exact Hr'|]. split; [exact Hc'|].
    intros r c Hr Hc. rewrite (IH r c Hr Hc).
    rewrite !coeff_set_coeff by lia.
    rewrite (Nat.eqb_sym r (Z.to_nat j)).
    destruct (c =? i)%nat eqn:Hci, (Z.to_nat j =? r)%nat eqn:Hjr,
             (existsb (fun j0 => (Z.to_nat j0 =? r)%nat) l) eqn:Hex,
             (i =? Z.to_nat j)%nat eqn:Hij, (r =? i)%nat eqn:Hri;
      cbn [andb orb]; reflect_nat; try reflexivity; try lia; subst; reflexivity.
Qed.

Lemma mirror_row_coeff (m : MatrixXd) (nt i : Z) :
  rows m = Z.to_nat nt -> cols m = Z.to_nat nt -> (0 <= i < nt)%Z ->
  let m' := SpatialKernelSolution.mirror_row m nt i in
  rows m' = Z.to_nat nt /\ cols m' = Z.to_nat nt
  /\ forall r c, (r < Z.to_nat nt)%nat -> (c < Z.to_nat nt)%nat ->
       coeff m' r c
       = if ((c =? Z.to_nat i) && (Z.to_nat i <? r))%nat
         then coeff m (Z.to_nat i) r else coeff m r c.
Proof.
  intros Hrows Hcols Hi. unfold SpatialKernelSolution.mirror_row.
  destruct (mirror_writes (Z.to_nat nt) (Z.to_nat i) (SpatialKernelSolution.Zrange (i + 1) nt))
    with (m := m) as [Hr' [Hc' Hco]]; [| exact Hrows | exact Hcols |].
  { intros j Hin. apply in_Zrange in Hin. lia. }
  cbv zeta. split; [exact Hr'|]. split; [exact Hc'|].
  intros r c Hr Hc. rewrite (Hco r c Hr Hc).
  rewrite existsb_Zrange by lia.
  replace (Z.to_nat (i + 1) <=? r)%nat with (Z.to_nat i <? r)%nat.
  - replace (r <? Z.to_nat nt)%nat with true by (symmetry; apply Nat.ltb_lt; exact Hr).
    rewrite andb_true_r. reflexivity.
  - unfold Nat.ltb. f_equal. lia.
Qed.

(** The turns of the outer loop: each reads the upper half, which none
    writes. *)
Lemma mirror_rows (nt : Z) (l : list Z) :
  (forall i, In i l -> (0 <= i < nt)%Z) ->
  forall m : MatrixXd, rows m = Z.to_nat nt -> cols m = Z.to_nat nt ->
  let m' := fold_left (fun m i => SpatialKernelSolution.mirror_row m nt i) l m in
  rows m' = Z.to_nat nt /\ cols m' = Z.to_nat nt
  /\ forall r c, (r < Z.to_nat nt)%nat -> (c < Z.to_nat nt)%nat ->
       coeff m' r c
       = if ((c <? r)%nat && existsb (fun i => (Z.to_nat i =? c)%nat) l)%bool
         then coeff m c r else coeff m r c.
Proof.
  induction l as [|i l IH]; intros Hl m Hrows Hcols; cbn [fold_left existsb].
  - split; [exact Hrows|]. split; [exact Hcols|].
    intros r c _ _. rewrite andb_false_r. reflexivity.
  - assert (Hi : (0 <= i < nt)%Z) by (apply Hl; left; reflexivity).
    destruct (mirror_row_coeff m nt i Hrows Hcols Hi) as [Hr1 [Hc1 Hco1]].
    specialize (IH (fun i' Hin => Hl i' (or_intror Hin))
                   (SpatialKernelSolution.mirror_row m nt i) Hr1 Hc1).
    cbv zeta in IH. destruct IH as [Hr' [Hc' IH]].
    split; [exact Hr'|]. split; [exact Hc'|].
    intros r c Hr Hc. rewrite (IH r c Hr Hc).
    rewrite (Hco1 c r Hc Hr), (Hco1 r c Hr Hc).
    rewrite (Nat.eqb_sym c (Z.to_nat i)), (Nat.eqb_sym r (Z.to_nat i)).
    destruct (c <? r)%nat eqn:Hcr, (Z.to_nat i =? c)%nat eqn:Hic,
             (existsb (fun i0 => (Z.to_nat i0 =? c)%nat) l) eqn:Hex,
             (Z.to_nat i =? r)%nat eqn:Hir, (Z.to_nat i <? c)%nat eqn:Hlc,
             (Z.to_nat i <? r)%nat eqn:Hlr;
      cbn [andb orb]; reflect_nat; try reflexivity; try lia; subst; reflexivity.
Qed.

(** [fill_other_half] keeps the upper half and copies it below the diagonal. *)
Lemma fill_other_half_coeff (m : MatrixXd) (nt : Z) (r c : nat) :
  rows m = Z.to_nat nt -> cols m = Z.to_nat nt ->
  (r < Z.to_nat nt)%nat -> (c < Z.to_nat nt)%nat ->
  coeff (SpatialKernelSolution.fill_other_half m nt) r c
  = if (c <? r)%nat then coeff m c r else coeff m r c.
Proof.
  intros Hrows Hcols Hr Hc. unfold SpatialKernelSolution.fill_other_half.
  destruct (mirror_rows nt (SpatialKernelSolution.Zrange 0 nt)) with (m := m)
    as [_ [_ Hco]]; [| exact Hrows | exact Hcols |].
  { intros i Hin. apply in_Zrange in Hin. exact Hin. }
  rewrite (Hco r c Hr Hc). rewrite existsb_Zrange by lia.
  replace (c <? Z.to_nat nt)%nat with true by (symmetry; apply Nat.ltb_lt; exact Hc).
  cbn [Z.to_nat Nat.leb andb]. rewrite andb_true_r. reflexivity.
Qed.

Lemma set_coeff_sized (n i j : nat) (f : MatrixXd -> float) (s : SpatialKernelSolution.t) :
  sized n s -> sized n (SpatialKernelSolution.upd_mMat (fun m => set_coeff m i j (f m)) s).
Proof. intros [Hr [Hc Hl]]. repeat split; assumption. Qed.

(** [addConstraint] keeps the sizes of the matrix and of the vector. *)
Lemma addConstraint_sized (n : nat) (xCenter yCenter : float) (qMat : MatrixXd)
    (wVec : VectorXd) (s : SpatialKernelSolution.t) :
  sized n s ->
  sized n (SpatialKernelSolution.addConstraint_state xCenter yCenter qMat wVec s).
Proof.
  intros Hs. rewrite addConstraint_state_stages.
  assert (He : sized n (evaluated s)).
  { unfold sized. rewrite evaluated_mMat, evaluated_bVec. exact Hs. }
  unfold stages.
  assert (Hrow : forall qM wV pK a b nb nkt nbt dm mb fit s' m,
             sized n s' ->
             sized n (SpatialKernelSolution.fill_block_row qM wV pK a b nb nkt nbt dm mb
                        fit s' m)).
  { intros qM wV pK a b nb nkt nbt dm mb fit s' m Hs'.
    unfold SpatialKernelSolution.fill_block_row.
    apply segment_add_sized.
    apply if_holds; intros _; [apply block_add_sized|];
      (apply fold_invariant; [intros; apply block_add_sized; assumption |];
       apply block_add_sized; exact Hs'). }
  apply if_holds; intros _;
    [unfold SpatialKernelSolution.fill_background;
     apply segment_add_sized; apply block_add_sized |];
    (apply fold_invariant; [intros; apply Hrow; assumption |];
     apply if_holds; intros _; [| exact He];
     unfold SpatialKernelSolution.fill_first_term;
     apply if_holds; intros _; [apply block_add_sized|];
     (apply vset_sized; apply fold_invariant;
      [intros; apply block_add_sized; assumption |];
      apply set_coeff_sized; exact He)).
Qed.

(** What the sizes the constructor sets give for the offsets of the blocks. *)
Lemma spatial_geometry (s : SpatialKernelSolution.t) :
  spatial_sizes s ->
  let nbases := SpatialKernelSolution._nbases s in
  let nkt := SpatialKernelSolution._nkt s in
  let nbt := SpatialKernelSolution._nbt s in
  let dm := if SpatialKernelSolution._constantFirstTerm s then (nkt - 1)%Z else 0%Z in
  let mb := Z.to_nat (SpatialKernelSolution._nt s - nbt) in
  Z.of_nat mb = (nbases * nkt - dm)%Z
  /\ Z.of_nat (Z.to_nat (SpatialKernelSolution._nt s)) = (Z.of_nat mb + nbt)%Z.
Proof.
  intros [Hnb [Hnkt [Hnbt [Hnt _]]]]. cbv zeta. rewrite Hnt.
  destruct (SpatialKernelSolution._constantFirstTerm s); split; nia.
Qed.

(** C3, amended: [addConstraint(x, y, Q, w)] throws nothing, keeps the sizes
    of the matrix and of the vector, and adds, entry by entry with pK and pB
    the values of the spatial kernel functions and of the background
    functions at (x, y): to the kernel-kernel block of [m1 < m2] the whole of
    [Q(m1,m2) * pK pKt]; to the diagonal block of [m1] the upper triangle of
    [pK pKt * Q(m1,m1)] and zero below the diagonal; when the background is
    fit, to the cross block of [m1] the whole of [Q(m1,nBases) * pK pBt] and
    to the background block the upper triangle of [pB pBt * Q(nBases,nBases)]
    and zero below the diagonal; to the segment of [m1] of the vector
    [w(m1) * pK] and to its background segment [w(nBases) * pB]. The block
    of a pair of kernels [m2 < m1], below the block diagonal, is not
    written. [solve] then runs the linear solver and [_setKernel] on the
    solution whose matrix has its upper half copied below the diagonal,
    which is symmetric. *)
Theorem addConstraint_accumulates (xCenter yCenter : float) (qMat : MatrixXd)
    (wVec : VectorXd) (s : SpatialKernelSolution.t) :
  spatial_sizes s ->
  sized (Z.to_nat (SpatialKernelSolution._nt s)) s ->
  let nbases := SpatialKernelSolution._nbases s in
  let nkt := SpatialKernelSolution._nkt s in
  let nbt := SpatialKernelSolution._nbt s in
  let fit := _fitForBackground (SpatialKernelSolution.base s) in
  let m0 := if SpatialKernelSolution._constantFirstTerm s then 1%Z else 0%Z in
  let dm := if SpatialKernelSolution._constantFirstTerm s then (nkt - 1)%Z else 0%Z in
  let mb := Z.to_nat (SpatialKernelSolution._nt s - nbt) in
  let start := SpatialKernelSolution.offset nkt dm in
  let pK := vcoeff (SpatialKernelSolution.pK_of s xCenter yCenter) in
  let pB := vcoeff (SpatialKernelSolution.pB_of s xCenter yCenter) in
  let q := fun a b : Z => coeff qMat (Z.to_nat a) (Z.to_nat b) in
  let w := fun a : Z => vcoeff wVec (Z.to_nat a) in
  let s' := SpatialKernelSolution.addConstraint_state xCenter yCenter qMat wVec s in
  SpatialKernelSolution.addConstraint xCenter yCenter qMat wVec s = (Ok tt, s')
  /\ sized (Z.to_nat (SpatialKernelSolution._nt s)) s'
  /\ (forall m1 m2 i j, (m0 <= m1 < m2)%Z -> (m2 < nbases)%Z ->
        (i < Z.to_nat nkt)%nat -> (j < Z.to_nat nkt)%nat ->
        coeff (mMat_of s') (start m1 + i) (start m2 + j)
        = coeff (mMat_of s) (start m1 + i) (start m2 + j) + q m1 m2 * (pK i * pK j))
  /\ (forall m1 i j, (m0 <= m1 < nbases)%Z ->
        (i < Z.to_nat nkt)%nat -> (j < Z.to_nat nkt)%nat ->
        coeff (mMat_of s') (start m1 + i) (start m1 + j)
        = coeff (mMat_of s) (start m1 + i) (start m1 + j)
          + (if (i <=? j)%nat then (pK i * pK j) * q m1 m1 else 0))
  /\ (fit = true ->
      (forall m1 i j, (m0 <= m1 < nbases)%Z ->
         (i < Z.to_nat nkt)%nat -> (j < Z.to_nat nbt)%nat ->
         coeff (mMat_of s') (start m1 + i) (mb + j)
         = coeff (mMat_of s) (start m1 + i) (mb + j) + q m1 nbases * (pK i * pB j))
      /\ (forall i j, (i < Z.to_nat nbt)%nat -> (j < Z.to_nat nbt)%nat ->
            coeff (mMat_of s') (mb + i) (mb + j)
            = coeff (mMat_of s) (mb + i) (mb + j)
              + (if (i <=? j)%nat then (pB i * pB j) * q nbases nbases else 0))
      /\ (forall j, (j < Z.to_nat nbt)%nat ->
            vcoeff (bVec_of s') (mb + j)
            = vcoeff (bVec_of s) (mb + j) + w nbases * pB j))
  /\ (forall m1 i, (m0 <= m1 < nbases)%Z -> (i < Z.to_nat nkt)%nat ->
        vcoeff (bVec_of s') (start m1 + i)
        = vcoeff (bVec_of s) (start m1 + i) + w m1 * pK i)
  /\ (forall m1 m2 i j, (m0 <= m2 < m1)%Z -> (m1 < nbases)%Z ->
        (i < Z.to_nat nkt)%nat -> (j < Z.to_nat nkt)%nat ->
        coeff (mMat_of s') (start m1 + i) (start m2 + j)
        = coeff (mMat_of s) (start m1 + i) (start m2 + j))
  /\ (forall u : SpatialKernelSolution.t,
        sized (Z.to_nat (SpatialKernelSolution._nt u)) u ->
        let filled :=
          SpatialKernelSolution.upd_mMat
            (fun m => SpatialKernelSolution.fill_other_half m (SpatialKernelSolution._nt u))
            u in
        SpatialKernelSolution.solve u
        = (try_catch (SpatialKernelSolution.super KernelSolution.solve)
             (fun e => throw (rethrown (LSST_EXCEPT_ADD e
                                          "Unable to solve spatial kernel matrix"))) ;;
           SpatialKernelSolution._setKernel) filled
        /\ bVec_of filled = bVec_of u
        /\ forall r c, (r < Z.to_nat (SpatialKernelSolution._nt u))%nat ->
                       (c < Z.to_nat (SpatialKernelSolution._nt u))%nat ->
             coeff (mMat_of filled) r c
             = (if (c <? r)%nat then coeff (mMat_of u) c r else coeff (mMat_of u) r c)
             /\ coeff (mMat_of filled) r c = coeff (mMat_of filled) c r).
Proof.
  intros Hsizes Hsized. cbv zeta.
  pose proof (spatial_geometry s Hsizes) as Hgeo. cbv zeta in Hgeo.
  destruct Hgeo as [Hmb Hn].
  destruct Hsizes as [Hnb [Hnkt [Hnbt [Hnt Hnofit]]]].
  assert (HpK : length (SpatialKernelSolution.pK_of s xCenter yCenter)
                = Z.to_nat (SpatialKernelSolution._nkt s))
    by apply length_basis_values.
  assert (HpB : _fitForBackground (SpatialKernelSolution.base s) = true ->
                length (SpatialKernelSolution.pB_of s xCenter yCenter)
                = Z.to_nat (SpatialKernelSolution._nbt s)).
  { intros Hfit. unfold SpatialKernelSolution.pB_of. rewrite Hfit.
    apply length_basis_values. }
  split; [reflexivity|].
  split; [apply addConstraint_sized; exact Hsized|].
  rewrite addConstraint_state_stages.
  split.
  { intros m1 m2 i j Hm1 Hm2 Hi Hj.
    apply (stages_off_diagonal qMat wVec _ _ _ _ _ _ _ _ _ _
             Hnb Hnkt Hnbt eq_refl Hmb Hn HpK HpB m1 m2 i j _ (evaluated s) Hm1 Hm2 Hi Hj).
    apply evaluated_keeps_entry. exact Hsized. }
  split.
  { intros m1 i j Hm1 Hi Hj.
    apply (stages_diagonal qMat wVec _ _ _ _ _ _ _ _ _ _
             Hnb Hnkt Hnbt eq_refl Hmb Hn HpK HpB m1 i j _ (evaluated s) Hm1 Hi Hj).
    apply evaluated_keeps_entry. exact Hsized. }
  split.
  { intros Hfit. split; [| split].
    - intros m1 i j Hm1 Hi Hj.
      apply (stages_cross qMat wVec _ _ _ _ _ _ _ _ _ _
               Hnb Hnkt Hnbt eq_refl Hmb Hn HpK HpB m1 i j _ (evaluated s) Hfit Hm1 Hi Hj).
      apply evaluated_keeps_entry. exact Hsized.
    - intros i j Hi Hj.
      apply (stages_background qMat wVec _ _ _ _ _ _ _ _ _ _
               Hnb Hnkt Hnbt eq_refl Hmb Hn HpK HpB i j _ (evaluated s) Hfit Hi Hj).
      apply evaluated_keeps_entry. exact Hsized.
    - intros j Hj.
      apply (stages_background_segment qMat wVec _ _ _ _ _ _ _ _ _ _
               Hnb Hnkt Hnbt eq_refl Hmb Hn HpK HpB j _ (evaluated s) Hfit Hj).
      apply evaluated_keeps_segment. exact Hsized. }
  split.
  { intros m1 i Hm1 Hi.
    apply (stages_kernel_segment qMat wVec _ _ _ _ _ _ _ _ _ _
             Hnb Hnkt Hnbt eq_refl Hmb Hn HpK HpB m1 i _ (evaluated s) Hm1 Hi).
    apply evaluated_keeps_segment. exact Hsized. }
  split.
  { intros m1 m2 i j Hm2 Hm1 Hi Hj.
    assert (Hstart : forall m,
              ((if SpatialKernelSolution._constantFirstTerm s then 1 else 0) <= m
               <= SpatialKernelSolution._nbases s)%Z ->
              Z.of_nat (SpatialKernelSolution.offset (SpatialKernelSolution._nkt s)
                          (if SpatialKernelSolution._constantFirstTerm s
                           then (SpatialKernelSolution._nkt s - 1)%Z else 0%Z) m)
              = (m * SpatialKernelSolution._nkt s
                 - (if SpatialKernelSolution._constantFirstTerm s
                    then (SpatialKernelSolution._nkt s - 1)%Z else 0%Z))%Z).
    { intros m Hm. unfold SpatialKernelSolution.offset.
      rewrite Z2Nat.id; [reflexivity|].
      destruct (SpatialKernelSolution._constantFirstTerm s); nia. }
    pose proof (Hstart m1 ltac:(lia)) as H1. pose proof (Hstart m2 ltac:(lia)) as H2.
    apply (stages_keeps qMat wVec _ _ _ _ _ _ _ _ _ _
             Hnb Hnkt Hnbt eq_refl Hmb Hn HpK HpB _ _ _ (evaluated s)).
    - nia.
    - nia.
    - intros Hcft. rewrite Hcft in *. nia.
    - intros m Hm. pose proof (Hstart m ltac:(lia)) as H3.
      destruct (Z_lt_le_dec m m1) as [Hlt | Hge].
      + right. left. nia.
      + destruct (Z.eq_dec m m1) as [He | Hne].
        * right. right. subst m. nia.
        * left. nia.
    - left. nia.
    - apply evaluated_keeps_entry. exact Hsized. }
  intros u [Hrows [Hcols _]].
  split; [reflexivity|]. split; [reflexivity|].
  intros r c Hr Hc.
  assert (Hrc : forall r c, (r < Z.to_nat (SpatialKernelSolution._nt u))%nat ->
                            (c < Z.to_nat (SpatialKernelSolution._nt u))%nat ->
            coeff (mMat_of (SpatialKernelSolution.upd_mMat
                     (fun m => SpatialKernelSolution.fill_other_half m
                                 (SpatialKernelSolution._nt u)) u)) r c
            = if (c <? r)%nat then coeff (mMat_of u) c r else coeff (mMat_of u) r c).
  { intros r' c' Hr' Hc'. unfold mMat_of, SpatialKernelSolution.upd_mMat. fields.
    apply fill_other_half_coeff; assumption. }
  split; [apply Hrc; assumption|].
  rewrite (Hrc r c Hr Hc), (Hrc c r Hc Hr).
  destruct (c <? r)%nat eqn:H1, (r <? c)%nat eqn:H2; reflect_nat;
    try reflexivity; try lia.
  replace c with r by lia. reflexivity.
Qed.
(** *** The sizes of a spatial solution, from the constructor on *)

Lemma new_spatial_sizes (id : Z) (basisList : list Kernel)
    (spatialKernelFunction background : SpatialFunction) (policy : PropertySet)
    (s : SpatialKernelSolution.t) (id' : Z) :
  SpatialKernelSolution.new id basisList spatialKernelFunction background policy
  = (Ok s, id') ->
  spatial_sizes s /\ sized (Z.to_nat (SpatialKernelSolution._nt s)) s.
Proof.
  unfold SpatialKernelSolution.new.
  destruct (KernelSolution.new id) as [b id1].
  remember (Z.of_nat (length basisList)) as nbases eqn:Hnbases.
  remember (Z.of_nat (length (getParameters spatialKernelFunction))) as nkt eqn:Hnkt.
  remember (Z.of_nat (length (getParameters background))) as nbg eqn:Hnbg.
  destruct basisList as [|k0 ks]; [discriminate|].
  assert (Hnb : (1 <= nbases)%Z) by (rewrite Hnbases; cbn [length]; lia).
  clear Hnbases.
  intros Hnew. injection Hnew as Hs _. subst s.
  unfold spatial_sizes, sized, mMat_of, bVec_of.
  cbn [SpatialKernelSolution._nbases SpatialKernelSolution._nkt SpatialKernelSolution._nbt
       SpatialKernelSolution._nt SpatialKernelSolution._constantFirstTerm
       SpatialKernelSolution.base
       KernelSolution._fitForBackground KernelSolution._mMat KernelSolution._bVec
       KernelSolution.set_fitForBackground KernelSolution.set_mMat KernelSolution.set_bVec].
  unfold vZero. rewrite length_vgenerate.
  repeat split.
  - exact Hnb.
  - lia.
  - destruct (getAsBool policy "fitForBackground"); lia.
  - intros Hfit. rewrite Hfit. reflexivity.
Qed.

Lemma addConstraint_spatial_sizes (xCenter yCenter : float) (qMat : MatrixXd)
    (wVec : VectorXd) (s : SpatialKernelSolution.t) :
  spatial_sizes s ->
  spatial_sizes (SpatialKernelSolution.addConstraint_state xCenter yCenter qMat wVec s)
  /\ SpatialKernelSolution._nt
       (SpatialKernelSolution.addConstraint_state xCenter yCenter qMat wVec s)
     = SpatialKernelSolution._nt s.
Proof.
  intros Hs. rewrite addConstraint_state_stages.
  set (same := fun s' : SpatialKernelSolution.t =>
         SpatialKernelSolution._nbases s' = SpatialKernelSolution._nbases s
         /\ SpatialKernelSolution._nkt s' = SpatialKernelSolution._nkt s
         /\ SpatialKernelSolution._nbt s' = SpatialKernelSolution._nbt s
         /\ SpatialKernelSolution._nt s' = SpatialKernelSolution._nt s
         /\ SpatialKernelSolution._constantFirstTerm s'
            = SpatialKernelSolution._constantFirstTerm s
         /\ _fitForBackground (SpatialKernelSolution.base s')
            = _fitForBackground (SpatialKernelSolution.base s)).
  assert (HM : forall f s', same s' -> same (SpatialKernelSolution.upd_mMat f s')).
  { intros f s' H. exact H. }
  assert (HB : forall f s', same s' -> same (SpatialKernelSolution.upd_bVec f s')).
  { intros f s' H. exact H. }
  assert (He : same (evaluated s)).
  { unfold same, evaluated.
    destruct (_fitForBackground (SpatialKernelSolution.base s)) eqn:Hf;
      cbn; rewrite ?Hf; repeat split. }
  assert (Hrow : forall qM wV pK a b nb nkt nbt dm mb fit s' m,
             same s' ->
             same (SpatialKernelSolution.fill_block_row qM wV pK a b nb nkt nbt dm mb
                     fit s' m)).
  { intros qM wV pK a b nb nkt nbt dm mb fit s' m Hs'.
    unfold SpatialKernelSolution.fill_block_row.
    apply HB.
    apply (if_holds fit same); intros _; [apply HM|];
      (apply fold_invariant; [intros; apply HM; assumption |]; apply HM; exact Hs'). }
  match goal with
  | |- spatial_sizes ?u /\ _ => assert (Hsame : same u)
  end.
  { unfold stages.
    apply (if_holds _ same); intros _;
      [unfold SpatialKernelSolution.fill_background; apply HB; apply HM |];
      (apply fold_invariant; [intros; apply Hrow; assumption |];
       apply (if_holds _ same); intros _; [| exact He];
       unfold SpatialKernelSolution.fill_first_term;
       apply (if_holds _ same); intros _; [apply HM|];
       (apply HB; apply fold_invariant; [intros; apply HM; assumption |];
        apply HM; exact He)). }
  destruct Hsame as [H1 [H2 [H3 [H4 [H5 H6]]]]].
  split; [| exact H4].
  unfold spatial_sizes in *. rewrite H1, H2, H3, H4, H5, H6. exact Hs.
Qed.

(** ** Further properties of the code *)

(** *** StaticKernelSolution::solve and _setKernel *)

(** The run of [_setKernel], step by step. *)
Lemma static_setKernel_run (s : StaticKernelSolution.t) :
  let aVec := _aVec (StaticKernelSolution.base s) in
  let fit := _fitForBackground (StaticKernelSolution.base s) in
  let nKernel := length (getKernelList (StaticKernelSolution._kernel s)) in
  StaticKernelSolution._setKernel s
  = match _solvedBy (StaticKernelSolution.base s) with
    | NONE =>
        (Throw (StaticKernelSolution.not_solved "Kernel not solved; cannot make solution"), s)
    | _ =>
        if negb (length aVec =? nKernel + (if fit then 1 else 0))%nat then
          (Throw (LSST_EXCEPT Exception (text "Mismatched sizes in kernel solution")), s)
        else
          match StaticKernelSolution.copy_coefficients StaticKernelSolution.kernel_nan aVec
                  (seq 0 nKernel) with
          | inl e => (Throw e, s)
          | inr kValues =>
              let kernel :=
                StaticKernelSolution.setKernelParameters kValues
                  (StaticKernelSolution._kernel s) in
              let s1 :=
                StaticKernelSolution.set_kSum (snd (computeImage kernel))
                  (StaticKernelSolution.set_kernel kernel s) in
              if fit then
                if is_nan (vcoeff aVec (length aVec - 1)) then
                  (Throw (StaticKernelSolution.background_nan (length aVec - 1)), s1)
                else
                  (Ok tt,
                   StaticKernelSolution.set_background (vcoeff aVec (length aVec - 1)) s1)
              else (Ok tt, s1)
          end
    end.
Proof.
  cbv zeta. unfold StaticKernelSolution._setKernel, StaticKernelSolution.of_sum. run. cbv beta.
  destruct (_solvedBy (StaticKernelSolution.base s)); [reflexivity | |].
  all: destruct (negb _); [reflexivity |].
  all: destruct (StaticKernelSolution.copy_coefficients _ _ _); [reflexivity |].
  all: cbn [StaticKernelSolution._kernel StaticKernelSolution.set_kernel
            StaticKernelSolution.base StaticKernelSolution.set_kSum].
  all: destruct (_fitForBackground (StaticKernelSolution.base s)); [| reflexivity].
  all: destruct (is_nan _); reflexivity.
Qed.

(** The coefficients the loops copy are the leading ones, in order. *)
Lemma copy_coefficients_firstn (err : nat -> exception) (aVec : VectorXd) (n : nat)
    (l : list float) :
  (n <= length aVec)%nat ->
  StaticKernelSolution.copy_coefficients err aVec (seq 0 n) = inr l ->
  l = firstn n aVec.
Proof.
  intros Hn Hcopy.
  assert (Hgen : forall idxs l',
             StaticKernelSolution.copy_coefficients err aVec idxs = inr l' ->
             l' = map (vcoeff aVec) idxs).
  { induction idxs as [|i idxs IH]; intros l' H; cbn in H.
    - injection H as H. subst l'. reflexivity.
    - destruct (is_nan (vcoeff aVec i)); [discriminate H|].
      destruct (StaticKernelSolution.copy_coefficients err aVec idxs) as [e | l0];
        [discriminate H|].
      injection H as H. subst l'. cbn [map]. f_equal. apply IH. reflexivity. }
  rewrite (Hgen _ _ Hcopy). clear Hcopy Hgen.
  revert n Hn. induction aVec as [|a aVec IH]; intros n Hn.
  - cbn in Hn. replace n with 0%nat by lia. reflexivity.
  - destruct n as [|n]; [reflexivity|].
    cbn [seq map firstn]. f_equal. rewrite <- seq_shift, map_map.
    rewrite <- (IH n) by (cbn in Hn; lia). reflexivity.
Qed.

(** The linear solver, run by the [solve] of a static solution. *)
Lemma static_solve_run (s : StaticKernelSolution.t) :
  (exists a k, (k = LU \/ k = EIGENVECTOR)
     /\ StaticKernelSolution.solve s
        = StaticKernelSolution._setKernel
            (StaticKernelSolution.set_base
               (set_aVec a (set_solvedBy k (StaticKernelSolution.base s))) s))
  \/ StaticKernelSolution.solve s
     = (Throw (rethrown (LSST_EXCEPT_ADD unable_to_solve
                           "Unable to solve static kernel matrix")),
        StaticKernelSolution.set_base (set_solvedBy NONE (StaticKernelSolution.base s)) s).
Proof.
  unfold StaticKernelSolution.solve, StaticKernelSolution.super, KernelSolution.solve.
  run. cbv beta.
  destruct (FullPivLU_isInvertible (_mMat (StaticKernelSolution.base s))) eqn:Hlu.
  - left. exists (FullPivLU_solve (_mMat (StaticKernelSolution.base s))
                    (_bVec (StaticKernelSolution.base s))), LU.
    split; [left; reflexivity|].
    rewrite solve_mb_run, Hlu. reflexivity.
  - destruct (SelfAdjointEigenSolver (_mMat (StaticKernelSolution.base s)))
      as [e | [rMat eValues]] eqn:Heig.
    + right. rewrite solve_mb_run, Hlu, Heig. reflexivity.
    + left. eexists. exists EIGENVECTOR. split; [right; reflexivity|].
      rewrite solve_mb_run, Hlu, Heig. reflexivity.
Qed.

(** X2. A [solve] of a static solution that returns has coefficients that
    are all finite or infinite, none NaN, as many as basis kernels plus one
    when the background is fit; the kernel has the leading ones as its
    parameters, [kSum] is the sum of that kernel's image, the background is
    the last coefficient when it is fit and is left alone when not; the
    design matrix and the normal equations are as they were; and
    [getKernel], [getBackground] and [getKsum] then return these. *)
Theorem solve_gives_finite_coefficients (s s' : StaticKernelSolution.t) :
  StaticKernelSolution.solve s = (Ok tt, s') ->
  let aVec := _aVec (StaticKernelSolution.base s') in
  let nKernel := length (getKernelList (StaticKernelSolution._kernel s)) in
  let fit := _fitForBackground (StaticKernelSolution.base s) in
  (_solvedBy (StaticKernelSolution.base s') = LU
   \/ _solvedBy (StaticKernelSolution.base s') = EIGENVECTOR)
  /\ length aVec = (nKernel + (if fit then 1 else 0))%nat
  /\ (forall i, (i < length aVec)%nat -> is_nan (vcoeff aVec i) = false)
  /\ getKernelList (StaticKernelSolution._kernel s')
     = getKernelList (StaticKernelSolution._kernel s)
  /\ kernelParameters (StaticKernelSolution._kernel s') = firstn nKernel aVec
  /\ StaticKernelSolution._kSum s' = snd (computeImage (StaticKernelSolution._kernel s'))
  /\ StaticKernelSolution._background s'
     = (if fit then vcoeff aVec nKernel else StaticKernelSolution._background s)
  /\ (StaticKernelSolution._cMat s' = StaticKernelSolution._cMat s
      /\ StaticKernelSolution._iVec s' = StaticKernelSolution._iVec s
      /\ StaticKernelSolution._ivVec s' = StaticKernelSolution._ivVec s
      /\ _mMat (StaticKernelSolution.base s') = _mMat (StaticKernelSolution.base s)
      /\ _bVec (StaticKernelSolution.base s') = _bVec (StaticKernelSolution.base s))
  /\ StaticKernelSolution.getKernel s' = (Ok (StaticKernelSolution._kernel s'), s')
  /\ StaticKernelSolution.getBackground s' = (Ok (StaticKernelSolution._background s'), s')
  /\ StaticKernelSolution.getKsum s' = (Ok (StaticKernelSolution._kSum s'), s').
Proof.
  intros Hsolve. cbv zeta.
  destruct (static_solve_run s) as [[a [k [Hk Hrun]]] | Hrun];
    rewrite Hrun in Hsolve; [| discriminate Hsolve].
  clear Hrun. rewrite static_setKernel_run in Hsolve. cbv zeta in Hsolve.
  cbn [StaticKernelSolution.base StaticKernelSolution.set_base
       StaticKernelSolution._kernel
       _solvedBy _aVec _fitForBackground set_aVec set_solvedBy] in Hsolve.
  set (nKernel := length (getKernelList (StaticKernelSolution._kernel s))) in *.
  set (fit := _fitForBackground (StaticKernelSolution.base s)) in *.
  assert (Hgetters : forall u : StaticKernelSolution.t,
             _solvedBy (StaticKernelSolution.base u) = k ->
             StaticKernelSolution.getKernel u = (Ok (StaticKernelSolution._kernel u), u)
             /\ StaticKernelSolution.getBackground u
                = (Ok (StaticKernelSolution._background u), u)
             /\ StaticKernelSolution.getKsum u = (Ok (StaticKernelSolution._kSum u), u)).
  { intros u Hu.
    unfold StaticKernelSolution.getKernel, StaticKernelSolution.getBackground,
      StaticKernelSolution.getKsum. run. rewrite Hu.
    destruct Hk as [Hk | Hk]; rewrite Hk; repeat split. }
  assert (Hbody :
    (if negb (length a =? nKernel + (if fit then 1 else 0))%nat
     then (Throw (LSST_EXCEPT Exception (text "Mismatched sizes in kernel solution")),
           StaticKernelSolution.set_base
             (set_aVec a (set_solvedBy k (StaticKernelSolution.base s))) s)
     else
       match StaticKernelSolution.copy_coefficients StaticKernelSolution.kernel_nan a
               (seq 0 nKernel) with
       | inl e => (Throw e,
                   StaticKernelSolution.set_base
                     (set_aVec a (set_solvedBy k (StaticKernelSolution.base s))) s)
       | inr kValues =>
           let kernel :=
             StaticKernelSolution.setKernelParameters kValues
               (StaticKernelSolution._kernel s) in
           let s1 :=
             StaticKernelSolution.set_kSum (snd (computeImage kernel))
               (StaticKernelSolution.set_kernel kernel
                  (StaticKernelSolution.set_base
                     (set_aVec a (set_solvedBy k (StaticKernelSolution.base s))) s)) in
           if fit then
             if is_nan (vcoeff a (length a - 1)) then
               (Throw (StaticKernelSolution.background_nan (length a - 1)), s1)
             else (Ok tt, StaticKernelSolution.set_background (vcoeff a (length a - 1)) s1)
           else (Ok tt, s1)
       end) = (Ok tt, s')).
  { clear Hgetters. destruct Hk as [Hk | Hk]; subst k; exact Hsolve. }
  clear Hsolve.
  destruct (length a =? nKernel + (if fit then 1 else 0))%nat eqn:Hlen;
    cbn [negb] in Hbody; [| discriminate Hbody].
  apply Nat.eqb_eq in Hlen.
  destruct (StaticKernelSolution.copy_coefficients StaticKernelSolution.kernel_nan a
              (seq 0 nKernel)) as [e | kValues] eqn:Hcopy; [discriminate Hbody|].
  pose proof (copy_coefficients_inr _ _ _ _ Hcopy) as Hclean.
  assert (Hle : (nKernel <= length a)%nat) by (rewrite Hlen; apply Nat.le_add_r).
  pose proof (copy_coefficients_firstn _ _ _ _ Hle Hcopy) as HkV.
  cbv zeta in Hbody.
  destruct fit eqn:Hfit.
  - destruct (is_nan (vcoeff a (length a - 1))) eqn:Hnan; [discriminate Hbody|].
    injection Hbody as Hs'.
    assert (Hsk : _solvedBy (StaticKernelSolution.base s') = k)
      by (rewrite <- Hs'; reflexivity).
    pose proof (Hgetters s' Hsk) as Hg. clear Hgetters Hsk. subst s'.
    cbn [StaticKernelSolution.base StaticKernelSolution.set_base
         StaticKernelSolution.set_background StaticKernelSolution.set_kSum
         StaticKernelSolution.set_kernel StaticKernelSolution._kernel
         StaticKernelSolution._kSum StaticKernelSolution._background
         StaticKernelSolution._cMat StaticKernelSolution._iVec StaticKernelSolution._ivVec
         _solvedBy _aVec _mMat _bVec set_aVec set_solvedBy].
    split; [exact Hk|]. split; [exact Hlen|].
    split.
    { intros i Hi. destruct (Nat.eq_dec i (length a - 1)) as [Heq | Hne].
      - rewrite Heq. exact Hnan.
      - apply Hclean. apply in_seq. lia. }
    split; [reflexivity|]. split; [exact HkV|]. split; [reflexivity|].
    split; [f_equal; lia|].
    split; [repeat split|].
    exact Hg.
  - injection Hbody as Hs'.
    assert (Hsk : _solvedBy (StaticKernelSolution.base s') = k)
      by (rewrite <- Hs'; reflexivity).
    pose proof (Hgetters s' Hsk) as Hg. clear Hgetters Hsk. subst s'.
    cbn [StaticKernelSolution.base StaticKernelSolution.set_base
         StaticKernelSolution.set_background StaticKernelSolution.set_kSum
         StaticKernelSolution.set_kernel StaticKernelSolution._kernel
         StaticKernelSolution._kSum StaticKernelSolution._background
         StaticKernelSolution._cMat StaticKernelSolution._iVec StaticKernelSolution._ivVec
         _solvedBy _aVec _mMat _bVec set_aVec set_solvedBy].
    split; [exact Hk|]. split; [exact Hlen|].
    split; [intros i Hi; apply Hclean; apply in_seq; lia|].
    split; [reflexivity|]. split; [exact HkV|]. split; [reflexivity|].
    split; [reflexivity|].
    split; [repeat split|].
    exact Hg.
Qed.

(** X3. A [solve] of a static solution that throws. When the linear solver
    threw, the exception is its own with "Unable to solve static kernel
    matrix" added, [solvedBy] is NONE and nothing else has changed. When
    the linear solver returned and [_setKernel] threw (a size mismatch or
    a NaN coefficient), [solvedBy] stays LU or EIGENVECTOR: [getKernel]
    and [getBackground] then return instead of throwing "Kernel not
    solved", the background being the one from before the call; the kernel
    and [kSum] are those from before the call too, unless the NaN is the
    background coefficient, when they have already been replaced. *)
Theorem failed_solve_leaves_getters_open (s s' : StaticKernelSolution.t) (e : exception) :
  StaticKernelSolution.solve s = (Throw e, s') ->
  let aVec := _aVec (StaticKernelSolution.base s') in
  let nKernel := length (getKernelList (StaticKernelSolution._kernel s)) in
  let fit := _fitForBackground (StaticKernelSolution.base s) in
  (e = rethrown (LSST_EXCEPT_ADD unable_to_solve "Unable to solve static kernel matrix")
   /\ s' = StaticKernelSolution.set_base
             (set_solvedBy NONE (StaticKernelSolution.base s)) s)
  \/ ((_solvedBy (StaticKernelSolution.base s') = LU
       \/ _solvedBy (StaticKernelSolution.base s') = EIGENVECTOR)
      /\ StaticKernelSolution.getKernel s' = (Ok (StaticKernelSolution._kernel s'), s')
      /\ StaticKernelSolution.getBackground s' = (Ok (StaticKernelSolution._background s), s')
      /\ ((e = LSST_EXCEPT Exception (text "Mismatched sizes in kernel solution")
           /\ length aVec <> (nKernel + (if fit then 1 else 0))%nat
           /\ StaticKernelSolution._kernel s' = StaticKernelSolution._kernel s
           /\ StaticKernelSolution._kSum s' = StaticKernelSolution._kSum s)
          \/ (exists i, (i < nKernel)%nat /\ is_nan (vcoeff aVec i) = true
                /\ e = StaticKernelSolution.kernel_nan i
                /\ StaticKernelSolution._kernel s' = StaticKernelSolution._kernel s
                /\ StaticKernelSolution._kSum s' = StaticKernelSolution._kSum s)
          \/ (fit = true /\ is_nan (vcoeff aVec nKernel) = true
              /\ e = StaticKernelSolution.background_nan nKernel
              /\ kernelParameters (StaticKernelSolution._kernel s') = firstn nKernel aVec
              /\ StaticKernelSolution._kSum s'
                 = snd (computeImage (StaticKernelSolution._kernel s'))))).
Proof.
  intros Hsolve. cbv zeta.
  destruct (static_solve_run s) as [[a [k [Hk Hrun]]] | Hrun];
    rewrite Hrun in Hsolve;
    [| left; injection Hsolve as He Hs; subst e s'; split; reflexivity].
  right. clear Hrun. rewrite static_setKernel_run in Hsolve. cbv zeta in Hsolve.
  cbn [StaticKernelSolution.base StaticKernelSolution.set_base
       StaticKernelSolution._kernel
       _solvedBy _aVec _fitForBackground set_aVec set_solvedBy] in Hsolve.
  set (nKernel := length (getKernelList (StaticKernelSolution._kernel s))) in *.
  set (fit := _fitForBackground (StaticKernelSolution.base s)) in *.
  set (s0 := StaticKernelSolution.set_base
               (set_aVec a (set_solvedBy k (StaticKernelSolution.base s))) s) in *.
  assert (Hgetters : forall u : StaticKernelSolution.t,
             _solvedBy (StaticKernelSolution.base u) = k ->
             StaticKernelSolution.getKernel u = (Ok (StaticKernelSolution._kernel u), u)
             /\ StaticKernelSolution.getBackground u
                = (Ok (StaticKernelSolution._background u), u)).
  { intros u Hu.
    unfold StaticKernelSolution.getKernel, StaticKernelSolution.getBackground. run.
    rewrite Hu. destruct Hk as [Hk | Hk]; rewrite Hk; repeat split. }
  assert (Hbody :
    (if negb (length a =? nKernel + (if fit then 1 else 0))%nat
     then (Throw (LSST_EXCEPT Exception (text "Mismatched sizes in kernel solution")), s0)
     else
       match StaticKernelSolution.copy_coefficients StaticKernelSolution.kernel_nan a
               (seq 0 nKernel) with
       | inl e => (Throw e, s0)
       | inr kValues =>
           let kernel :=
             StaticKernelSolution.setKernelParameters kValues
               (StaticKernelSolution._kernel s) in
           let s1 :=
             StaticKernelSolution.set_kSum (snd (computeImage kernel))
               (StaticKernelSolution.set_kernel kernel s0) in
           if fit then
             if is_nan (vcoeff a (length a - 1)) then
               (Throw (StaticKernelSolution.background_nan (length a - 1)), s1)
             else (Ok tt, StaticKernelSolution.set_background (vcoeff a (length a - 1)) s1)
           else (Ok tt, s1)
       end) = (Throw e, s')).
  { clear Hgetters. unfold s0. destruct Hk as [Hk | Hk]; subst k; exact Hsolve. }
  clear Hsolve.
  assert (Hfinish : forall u : StaticKernelSolution.t,
             _solvedBy (StaticKernelSolution.base u) = k ->
             StaticKernelSolution._background u = StaticKernelSolution._background s ->
             (_solvedBy (StaticKernelSolution.base u) = LU
              \/ _solvedBy (StaticKernelSolution.base u) = EIGENVECTOR)
             /\ StaticKernelSolution.getKernel u = (Ok (StaticKernelSolution._kernel u), u)
             /\ StaticKernelSolution.getBackground u
                = (Ok (StaticKernelSolution._background s), u)).
  { intros u Hu Hb. destruct (Hgetters u Hu) as [H1 H2].
    split; [rewrite Hu; exact Hk|]. split; [exact H1|]. rewrite <- Hb. exact H2. }
  clear Hgetters.
  destruct (length a =? nKernel + (if fit then 1 else 0))%nat eqn:Hlen; cbn [negb] in Hbody.
  - apply Nat.eqb_eq in Hlen.
    destruct (StaticKernelSolution.copy_coefficients StaticKernelSolution.kernel_nan a
                (seq 0 nKernel)) as [e0 | kValues] eqn:Hcopy.
    + injection Hbody as He Hs. subst e0 s'.
      destruct (Hfinish s0 eq_refl eq_refl) as [H1 [H2 H3]].
      split; [exact H1|]. split; [exact H2|]. split; [exact H3|].
      right. left.
      destruct (copy_coefficients_inl _ _ _ _ Hcopy) as [i [Hin [Hnan He]]].
      apply in_seq in Hin. exists i.
      split; [lia|]. split; [exact Hnan|]. split; [exact He|]. split; reflexivity.
    + cbv zeta in Hbody.
      assert (Hle : (nKernel <= length a)%nat) by (rewrite Hlen; apply Nat.le_add_r).
      pose proof (copy_coefficients_firstn _ _ _ _ Hle Hcopy) as HkV.
      destruct fit eqn:Hfit; [| discriminate Hbody].
      destruct (is_nan (vcoeff a (length a - 1))) eqn:Hnan; [| discriminate Hbody].
      injection Hbody as He Hs. subst e s'.
      match goal with
      | |- context [StaticKernelSolution.getKernel ?u] =>
          destruct (Hfinish u eq_refl eq_refl) as [H1 [H2 H3]]
      end.
      split; [exact H1|]. split; [exact H2|]. split; [exact H3|].
      right. right.
      replace (length a - 1)%nat with nKernel in * by lia.
      split; [reflexivity|]. split; [exact Hnan|]. split; [reflexivity|].
      split; [exact HkV | reflexivity].
  - apply Nat.eqb_neq in Hlen.
    injection Hbody as He Hs. subst e s'.
    destruct (Hfinish s0 eq_refl eq_refl) as [H1 [H2 H3]].
    split; [exact H1|]. split; [exact H2|]. split; [exact H3|].
    left. split; [reflexivity|]. split; [exact Hlen|]. split; reflexivity.
Qed.

(** *** KernelCandidate::_buildKernelSolution and build *)

Lemma buildKernelSolution_run (fuel : nat) (varianceEstimate : Image)
    (basisList : list Kernel) (hMat : MatrixXd) (w : KernelCandidate.state) :
  KernelCandidate._buildKernelSolution fuel varianceEstimate basisList hMat w
  = buildKernelSolution_steps fuel varianceEstimate basisList hMat w.
Proof.
  unfold buildKernelSolution_steps, ctype_of, with_slot.
  unfold KernelCandidate._buildKernelSolution.
  unfold KernelCandidate.construct, KernelCandidate.call_on, KernelCandidate.inherited,
    KernelCandidate.new_Regularized, KernelCandidate.new_Static,
    RegularizedKernelSolution.new, solution_of, slot_of.
  run. cbv beta zeta.
  destruct (String.eqb (getAsString (KernelCandidate._ps (KernelCandidate.this w))
                          "conditionNumberType") "SVD");
    [| destruct (String.eqb (getAsString (KernelCandidate._ps (KernelCandidate.this w))
                               "conditionNumberType") "EIGENVALUE"); [| reflexivity]].
  all: cbv beta iota.
  all: destruct (0 <? size hMat)%nat;
    destruct (KernelCandidate._isInitialized (KernelCandidate.this w)) eqn:Hinit;
    cbv beta iota;
    cbn [KernelCandidate.this KernelCandidate.SolutionId KernelCandidate.on_this
         KernelCandidate._isInitialized KernelCandidate.set_useRegularization];
    destruct (StaticKernelSolution.new (KernelCandidate.SolutionId w) basisList
                (KernelCandidate._fitForBackground (KernelCandidate.this w)))
      as [[s0 | e | ] id];
    cbv beta iota; try reflexivity.
  all: cbn [KernelCandidate.static_of KernelCandidate.with_static
            RegularizedKernelSolution.static RegularizedKernelSolution.set_static
            RegularizedKernelSolution._hMat RegularizedKernelSolution._lambda
            RegularizedKernelSolution._policy].
  all: destruct (build (getImage (KernelCandidate._templateMaskedImage (KernelCandidate.this w)))
                   (getImage (KernelCandidate._scienceMaskedImage (KernelCandidate.this w)))
                   varianceEstimate s0) as [[[] | e | ] s1];
    cbv beta iota;
    cbn [KernelCandidate.this KernelCandidate.SolutionId KernelCandidate.on_this
         KernelCandidate.static_of KernelCandidate.with_static
         RegularizedKernelSolution.static RegularizedKernelSolution.set_static
         RegularizedKernelSolution._hMat RegularizedKernelSolution._lambda
         RegularizedKernelSolution._policy];
    try reflexivity.
  all: destruct (getAsBool (KernelCandidate._ps (KernelCandidate.this w))
                   "checkConditionNumber"); cbv beta iota.
  all: try (match goal with
            | |- context [getConditionNumber ?c ?s] =>
                let r := fresh "r" in
                let s2 := fresh "s2" in
                let Hc := fresh "Hc" in
                let Hk := fresh "Hk" in
                pose proof (static_getConditionNumber_keeps c s) as Hk;
                destruct (getConditionNumber c s) as [r s2] eqn:Hc;
                cbn [snd] in Hk; subst s2; cbn [fst];
                destruct r as [cNumber | e | ]
            end;
            cbv beta iota;
            cbn [KernelCandidate.this KernelCandidate.SolutionId KernelCandidate.on_this
                 KernelCandidate.static_of KernelCandidate.with_static
                 RegularizedKernelSolution.static RegularizedKernelSolution.set_static
                 RegularizedKernelSolution._hMat RegularizedKernelSolution._lambda
                 RegularizedKernelSolution._policy];
            try reflexivity;
            destruct (getAsDouble (KernelCandidate._ps (KernelCandidate.this w))
                        "maxConditionNumber" <? cNumber);
            cbv beta iota; try reflexivity).
  all: cbn [KernelCandidate.this KernelCandidate.SolutionId KernelCandidate.on_this
            KernelCandidate.static_of KernelCandidate.with_static
            RegularizedKernelSolution.static RegularizedKernelSolution.set_static
            RegularizedKernelSolution._hMat RegularizedKernelSolution._lambda
            RegularizedKernelSolution._policy].
  all: unfold RegularizedKernelSolution.set_static;
    cbn [RegularizedKernelSolution.static RegularizedKernelSolution._hMat
         RegularizedKernelSolution._lambda RegularizedKernelSolution._policy].
  all: match goal with
       | |- context [KernelCandidate.virtual_solve ?f ?sol] =>
           destruct (KernelCandidate.virtual_solve f sol) as [[[] | e | ] sol2]
       end; reflexivity.
Qed.


Lemma ctype_of_unrecognized (ps : PropertySet) :
  getAsString ps "conditionNumberType" <> "SVD"%string ->
  getAsString ps "conditionNumberType" <> "EIGENVALUE"%string ->
  ctype_of ps = None.
Proof.
  intros H1 H2. unfold ctype_of.
  apply String.eqb_neq in H1. apply String.eqb_neq in H2.
  rewrite H1, H2. reflexivity.
Qed.

Lemma ctype_of_recognized (ps : PropertySet) (ctype : ConditionNumberType) :
  (getAsString ps "conditionNumberType" = "SVD"%string /\ ctype = SVD
   \/ getAsString ps "conditionNumberType" = "EIGENVALUE"%string /\ ctype = EIGENVALUE) ->
  ctype_of ps = Some ctype.
Proof.
  unfold ctype_of. intros [[Hs Hc] | [Hs Hc]]; rewrite Hs; subst ctype; reflexivity.
Qed.

Lemma new_counter (id : Z) (basisList : list Kernel) (fit : bool) :
  snd (new id basisList fit) = (id + 1)%Z.
Proof. unfold new. cbn. destruct basisList; reflexivity. Qed.

Lemma new_unsolved (id : Z) (basisList : list Kernel) (fit : bool) (s0 : t) :
  fst (new id basisList fit) = Ok s0 ->
  _solvedBy (base s0) = NONE /\ _cMat s0 = empty /\ _mMat (base s0) = empty
  /\ _fitForBackground (base s0) = fit /\ getKernelList (_kernel s0) = basisList
  /\ _id (base s0) = (id + 1)%Z.
Proof.
  unfold new. cbn. destruct basisList; [discriminate|].
  intros H. inversion H. repeat split; reflexivity.
Qed.

(** The variance checks [build] starts with. *)
Lemma build_variance_run (templateImage scienceImage varianceEstimate : Image) (s : t) :
  (makeStatistics_MIN varianceEstimate <? 0) = true
  \/ (makeStatistics_MIN varianceEstimate =? 0) = true ->
  build templateImage scienceImage varianceEstimate s
  = (Throw (if makeStatistics_MIN varianceEstimate <? 0
            then variance_negative else variance_zero), s).
Proof.
  intros H. unfold build. run.
  destruct (makeStatistics_MIN varianceEstimate <? 0); [reflexivity|].
  destruct H as [H | H]; [discriminate|]. rewrite H. reflexivity.
Qed.

(** X4. The failures of [_buildKernelSolution] before a solution is built.
    A conditionNumberType other than "SVD" and "EIGENVALUE" throws a
    TypeError and leaves the candidate as it was, whether or not
    checkConditionNumber asks for the number. With a recognized type, an
    empty basis list (on which the constructor of afw's kernel is taken to
    throw) throws that exception with only the regularization flag set and
    the counter of identifiers advanced; and a
    variance estimate whose minimum is negative or zero throws the variance
    error of [build] with the new solution, unbuilt and unsolved, already in
    the slot the build fills, replacing what the slot held; the status is
    not changed. *)
Theorem buildKernelSolution_failures (fuel : nat) (varianceEstimate : Image)
    (basisList : list Kernel) (hMat : MatrixXd) (w : KernelCandidate.state) :
  let c := KernelCandidate.this w in
  let ps := KernelCandidate._ps c in
  let regularized := (0 <? size hMat)%nat in
  let vmin := makeStatistics_MIN varianceEstimate in
  let r := KernelCandidate._buildKernelSolution fuel varianceEstimate basisList hMat w in
  (getAsString ps "conditionNumberType" <> "SVD"%string ->
   getAsString ps "conditionNumberType" <> "EIGENVALUE"%string ->
   r = (Throw (LSST_EXCEPT TypeError (text "conditionNumberType not recognized")), w))
  /\ (getAsString ps "conditionNumberType" = "SVD"%string
      \/ getAsString ps "conditionNumberType" = "EIGENVALUE"%string ->
      (basisList = [] ->
       r = (Throw LinearCombinationKernel_empty,
            {| KernelCandidate.SolutionId := (KernelCandidate.SolutionId w + 1)%Z;
               KernelCandidate.this := KernelCandidate.set_useRegularization regularized c |}))
      /\ (basisList <> [] ->
          (vmin <? 0) = true \/ (vmin =? 0) = true ->
          exists s0,
            fst (new (KernelCandidate.SolutionId w) basisList
                   (KernelCandidate._fitForBackground c)) = Ok s0
            /\ _solvedBy (base s0) = NONE /\ _cMat s0 = empty
            /\ r = (Throw (if vmin <? 0 then variance_negative else variance_zero),
                    {| KernelCandidate.SolutionId := (KernelCandidate.SolutionId w + 1)%Z;
                       KernelCandidate.this :=
                         slot_of (KernelCandidate._isInitialized c)
                           (solution_of regularized hMat ps s0)
                           (KernelCandidate.set_useRegularization regularized c) |})
            /\ KernelCandidate._status (KernelCandidate.this (snd r))
               = KernelCandidate._status c)).
Proof.
  intros c ps regularized vmin r.
  unfold r. rewrite buildKernelSolution_run. unfold buildKernelSolution_steps.
  fold c. fold ps. fold regularized. cbv zeta.
  split.
  - intros H1 H2. rewrite (ctype_of_unrecognized ps H1 H2). reflexivity.
  - intros Hrec.
    assert (Hct : exists ctype, ctype_of ps = Some ctype).
    { destruct Hrec as [H | H]; [exists SVD | exists EIGENVALUE];
        apply ctype_of_recognized; auto. }
    destruct Hct as [ctype Hct]. rewrite Hct.
    split.
    + intros Hnil. subst basisList. reflexivity.
    + intros Hne Hvar.
      pose proof (new_counter (KernelCandidate.SolutionId w) basisList
                    (KernelCandidate._fitForBackground c)) as Hid.
      pose proof (new_unsolved (KernelCandidate.SolutionId w) basisList
                    (KernelCandidate._fitForBackground c)) as Hnew.
      destruct (new (KernelCandidate.SolutionId w) basisList
                  (KernelCandidate._fitForBackground c)) as [[s0 | e | ] id] eqn:Hn.
      2, 3: exfalso; unfold new in Hn; cbn in Hn; destruct basisList;
        [apply Hne; reflexivity | discriminate].
      cbn [snd] in Hid. subst id.
      destruct (Hnew s0 eq_refl) as [Hs [Hc _]].
      exists s0. split; [reflexivity|]. split; [exact Hs|]. split; [exact Hc|].
      rewrite (build_variance_run _ _ varianceEstimate s0 Hvar).
      unfold with_slot. cbn [snd KernelCandidate.this].
      split; [reflexivity|].
      unfold slot_of. destruct (KernelCandidate._isInitialized (KernelCandidate.this w));
        reflexivity.
Qed.

(** A comparison with a NaN on its right does not hold. *)
Lemma ltb_nan (x y : float) : is_nan y = true -> (x <? y) = false.
Proof.
  unfold is_nan. rewrite FloatAxioms.eqb_spec, FloatAxioms.ltb_spec.
  unfold SpecFloat.SFeqb, SpecFloat.SFltb.
  destruct (FloatOps.Prim2SF y) as [sy | sy | | sy my ey].
  - cbn. discriminate.
  - cbn. destruct sy; discriminate.
  - intros _. destruct (FloatOps.Prim2SF x); reflexivity.
  - cbn. destruct sy; rewrite Z.compare_refl, Pos.compare_refl; discriminate.
Qed.

(** X5. What the gate lets through. With checkConditionNumber enabled, a
    condition number that is NaN (for one, that of a matrix of zeros, whose
    largest and smallest eigenvalue are both zero), or is not above
    maxConditionNumber, does not stop the build: [solve] runs on the
    solution exactly as it does with the check disabled, its outcome is the
    outcome of the call, and the status is not changed. *)
Theorem gate_lets_nan_through (fuel : nat) (varianceEstimate : Image)
    (basisList : list Kernel) (hMat : MatrixXd) (w : KernelCandidate.state)
    (ctype : ConditionNumberType) (s0 s1 : StaticKernelSolution.t) (cNumber : float) :
  let c := KernelCandidate.this w in
  let ps := KernelCandidate._ps c in
  getAsBool ps "checkConditionNumber" = true ->
  (getAsString ps "conditionNumberType" = "SVD"%string /\ ctype = SVD
   \/ getAsString ps "conditionNumberType" = "EIGENVALUE"%string /\ ctype = EIGENVALUE) ->
  fst (new (KernelCandidate.SolutionId w) basisList (KernelCandidate._fitForBackground c))
  = Ok s0 ->
  build (getImage (KernelCandidate._templateMaskedImage c))
        (getImage (KernelCandidate._scienceMaskedImage c)) varianceEstimate s0
  = (Ok tt, s1) ->
  fst (getConditionNumber ctype s1) = Ok cNumber ->
  is_nan cNumber = true \/ (getAsDouble ps "maxConditionNumber" <? cNumber) = false ->
  let regularized := (0 <? size hMat)%nat in
  let solved := KernelCandidate.virtual_solve fuel (solution_of regularized hMat ps s1) in
  KernelCandidate._buildKernelSolution fuel varianceEstimate basisList hMat w
  = (fst solved,
     {| KernelCandidate.SolutionId := (KernelCandidate.SolutionId w + 1)%Z;
        KernelCandidate.this :=
          slot_of (KernelCandidate._isInitialized c) (snd solved)
            (KernelCandidate.set_useRegularization regularized c) |})
  /\ KernelCandidate._status
       (KernelCandidate.this
          (snd (KernelCandidate._buildKernelSolution fuel varianceEstimate basisList hMat w)))
     = KernelCandidate._status c.
Proof.
  intros c ps Hcheck Hctype Hnew Hbuild Hcond Hgate regularized solved.
  assert (Hmax : (getAsDouble ps "maxConditionNumber" <? cNumber) = false).
  { destruct Hgate as [Hnan | Hle]; [apply ltb_nan; exact Hnan | exact Hle]. }
  assert (Hrun : KernelCandidate._buildKernelSolution fuel varianceEstimate basisList hMat w
                 = (fst solved,
                    {| KernelCandidate.SolutionId := (KernelCandidate.SolutionId w + 1)%Z;
                       KernelCandidate.this :=
                         slot_of (KernelCandidate._isInitialized c) (snd solved)
                           (KernelCandidate.set_useRegularization regularized c) |})).
  { rewrite buildKernelSolution_run. unfold buildKernelSolution_steps.
    fold c. fold ps. fold regularized. cbv zeta.
    rewrite (ctype_of_recognized ps ctype Hctype).
    pose proof (new_counter (KernelCandidate.SolutionId w) basisList
                  (KernelCandidate._fitForBackground c)) as Hid.
    destruct (new (KernelCandidate.SolutionId w) basisList
                (KernelCandidate._fitForBackground c)) as [r0 id].
    cbn [fst snd] in Hnew, Hid. subst r0 id.
    rewrite Hbuild, Hcheck, Hcond, Hmax. fold solved.
    unfold with_slot. destruct solved as [[[] | e | ] sol]; reflexivity. }
  split; [exact Hrun|].
  rewrite Hrun. cbn [snd KernelCandidate.this].
  unfold slot_of. destruct (KernelCandidate._isInitialized c); reflexivity.
Qed.

Lemma rebuilt_refl (c : KernelCandidate.t) : rebuilt c c.
Proof. unfold rebuilt. repeat split; auto. Qed.

Lemma rebuilt_trans (c1 c2 c3 : KernelCandidate.t) :
  rebuilt c1 c2 -> rebuilt c2 c3 -> rebuilt c1 c3.
Proof.
  unfold rebuilt.
  intros [Hs [Hi [Hp [Ht [Hsc [Hf [Hcf [Ho Hpc]]]]]]]]
         [Hs' [Hi' [Hp' [Ht' [Hsc' [Hf' [Hcf' [Ho' Hpc']]]]]]]].
  repeat split; try congruence.
  - destruct Hs' as [Hs' | Hs']; [| right; exact Hs'].
    destruct Hs as [Hs | Hs]; [left | right]; congruence.
  - intros H. rewrite Ho'; [apply Ho; exact H | congruence].
  - intros H. rewrite Hpc'; [apply Hpc; exact H | congruence].
Qed.

Lemma rebuilt_slot (initialized regularized : bool) (sol : KernelCandidate.Solution)
    (c : KernelCandidate.t) :
  initialized = KernelCandidate._isInitialized c ->
  rebuilt c (slot_of initialized sol (KernelCandidate.set_useRegularization regularized c))
  /\ recent (slot_of initialized sol (KernelCandidate.set_useRegularization regularized c))
     <> None.
Proof.
  intros Hi. unfold rebuilt, recent, slot_of.
  destruct initialized; cbn.
  - repeat split; auto; try discriminate. intros H. congruence.
  - repeat split; auto; try discriminate.
    + intros H. congruence.
    + destruct (KernelCandidate._kernelSolutionPca c); discriminate.
Qed.

Lemma rebuilt_BAD (c c' : KernelCandidate.t) :
  rebuilt c c' -> rebuilt c (KernelCandidate.setStatus BAD c').
Proof.
  unfold rebuilt. cbn. intros [Hs H]. split; [right; reflexivity | exact H].
Qed.

(** What one run of [_buildKernelSolution] keeps of the candidate, and the
    slot it fills when it returns. *)
Lemma buildKernelSolution_keeps (fuel : nat) (varianceEstimate : Image)
    (basisList : list Kernel) (hMat : MatrixXd) (w : KernelCandidate.state) :
  let r := KernelCandidate._buildKernelSolution fuel varianceEstimate basisList hMat w in
  rebuilt (KernelCandidate.this w) (KernelCandidate.this (snd r))
  /\ KernelCandidate._varianceEstimate (KernelCandidate.this (snd r))
     = KernelCandidate._varianceEstimate (KernelCandidate.this w)
  /\ (fst r = Ok tt -> recent (KernelCandidate.this (snd r)) <> None).
Proof.
  cbv zeta. rewrite buildKernelSolution_run. unfold buildKernelSolution_steps.
  assert (Hslot : forall id regularized sol,
            rebuilt (KernelCandidate.this w)
              (KernelCandidate.this (with_slot w id regularized sol))
            /\ KernelCandidate._varianceEstimate
                 (KernelCandidate.this (with_slot w id regularized sol))
               = KernelCandidate._varianceEstimate (KernelCandidate.this w)
            /\ recent (KernelCandidate.this (with_slot w id regularized sol)) <> None).
  { intros id regularized sol. unfold with_slot. cbn [KernelCandidate.this].
    destruct (rebuilt_slot (KernelCandidate._isInitialized (KernelCandidate.this w))
                regularized sol (KernelCandidate.this w) eq_refl) as [H1 H2].
    split; [exact H1|]. split; [| exact H2].
    unfold slot_of. destruct (KernelCandidate._isInitialized (KernelCandidate.this w));
      reflexivity. }
  assert (Hflag : forall regularized,
            rebuilt (KernelCandidate.this w)
              (KernelCandidate.set_useRegularization regularized (KernelCandidate.this w)))
    by (intros; unfold rebuilt; cbn; repeat split; auto).
  cbv zeta.
  destruct (ctype_of _) as [ctype|];
    [| cbn [fst snd]; split; [apply rebuilt_refl | split; [reflexivity | discriminate]]].
  destruct (new _ _ _) as [[s0 | e | ] id]; cbn [fst snd KernelCandidate.this];
    [| split; [apply Hflag | split; [reflexivity | discriminate]] ..].
  destruct (build _ _ _ s0) as [[[] | e | ] s1]; cbn [fst snd];
    [| destruct (Hslot id (0 <? size hMat)%nat
                   (solution_of (0 <? size hMat)%nat hMat
                      (KernelCandidate._ps (KernelCandidate.this w)) s1)) as [H1 [H2 H3]];
       split; [exact H1 | split; [exact H2 | discriminate]] ..].
  assert (Hsolved :
    forall x, x = KernelCandidate.virtual_solve fuel
                    (solution_of (0 <? size hMat)%nat hMat
                       (KernelCandidate._ps (KernelCandidate.this w)) s1) ->
    let r := match x with
             | (Ok _, sol) => (Ok tt, with_slot w id (0 <? size hMat)%nat sol)
             | (Throw e, sol) => (Throw e, with_slot w id (0 <? size hMat)%nat sol)
             | (Unfinished, sol) => (Unfinished, with_slot w id (0 <? size hMat)%nat sol)
             end in
    rebuilt (KernelCandidate.this w) (KernelCandidate.this (snd r))
    /\ KernelCandidate._varianceEstimate (KernelCandidate.this (snd r))
       = KernelCandidate._varianceEstimate (KernelCandidate.this w)
    /\ (fst r = Ok tt -> recent (KernelCandidate.this (snd r)) <> None)).
  { intros x _. destruct x as [[u | e | ] sol]; cbv zeta; cbn [fst snd];
      destruct (Hslot id (0 <? size hMat)%nat sol) as [H1 [H2 H3]];
      (split; [exact H1 | split; [exact H2 | intros _; exact H3]]). }
  destruct (getAsBool _ "checkConditionNumber"); [| apply Hsolved; reflexivity].
  destruct (fst (getConditionNumber ctype s1)) as [cNumber | e | ]; cbn [fst snd].
  - destruct (_ <? cNumber); [| apply Hsolved; reflexivity].
    cbn [fst snd KernelCandidate.on_this KernelCandidate.this].
    destruct (Hslot id (0 <? size hMat)%nat
                (solution_of (0 <? size hMat)%nat hMat
                   (KernelCandidate._ps (KernelCandidate.this w)) s1)) as [H1 [H2 H3]].
    split; [apply rebuilt_BAD; exact H1|]. split; [exact H2 | intros _; exact H3].
  - destruct (Hslot id (0 <? size hMat)%nat
                (solution_of (0 <? size hMat)%nat hMat
                   (KernelCandidate._ps (KernelCandidate.this w)) s1)) as [H1 [H2 H3]].
    split; [exact H1 | split; [exact H2 | discriminate]].
  - destruct (Hslot id (0 <? size hMat)%nat
                (solution_of (0 <? size hMat)%nat hMat
                   (KernelCandidate._ps (KernelCandidate.this w)) s1)) as [H1 [H2 H3]].
    split; [exact H1 | split; [exact H2 | discriminate]].
Qed.

(** The difference image reads the candidate; what it throws when there is
    a solution is the refusal of an unsolved one. *)
Lemma getDifferenceImage_reads (cand : KernelCandidate.CandidateSwitch)
    (w : KernelCandidate.state) :
  snd (KernelCandidate.getDifferenceImage cand w) = w.
Proof.
  assert (H : forall call sol, snd (KernelCandidate.differenceImage_of call sol w) = w).
  { intros call sol. unfold KernelCandidate.differenceImage_of.
    destruct (getKernel_first call);
      unfold KernelCandidate.read, KernelCandidate.getDifferenceImage_kb; run;
      repeat match goal with
             | |- context [getKernel ?x] => destruct (getKernel x) as [[? | ? | ] ?]
             | |- context [getBackground ?x] =>
                 destruct (getBackground x) as [[? | ? | ] ?]
             end; reflexivity. }
  unfold KernelCandidate.getDifferenceImage. run. cbv beta.
  destruct cand;
    repeat match goal with
           | |- context [match ?o with Some _ => _ | None => _ end] => destruct o
           end; try reflexivity; apply H.
Qed.

Lemma recent_throws_Exception (w : KernelCandidate.state) (e : exception) :
  recent (KernelCandidate.this w) <> None ->
  fst (KernelCandidate.getDifferenceImage KernelCandidate.RECENT w) = Throw e ->
  etype e = Exception.
Proof.
  assert (H : forall call sol,
            fst (KernelCandidate.differenceImage_of call sol w) = Throw e ->
            etype e = Exception).
  { intros call sol. unfold KernelCandidate.differenceImage_of.
    destruct (getKernel_first call);
      unfold KernelCandidate.read, KernelCandidate.getDifferenceImage_kb,
        getKernel, getBackground; run;
      destruct (_solvedBy (base (KernelCandidate.static_of sol))); cbn;
      intros H; inversion H; reflexivity. }
  unfold recent, KernelCandidate.getDifferenceImage. run. cbv beta.
  destruct (KernelCandidate._kernelSolutionPca (KernelCandidate.this w));
    [intros _; apply H|].
  destruct (KernelCandidate._kernelSolutionOrig (KernelCandidate.this w));
    [intros _; apply H|].
  intros Hn. exfalso. apply Hn. reflexivity.
Qed.

(** The run of [build(basisList, hMat)], by what it leaves. *)
Lemma build_h_keeps (fuel : nat) (basisList : list Kernel) (hMat : MatrixXd)
    (w : KernelCandidate.state) :
  let c := KernelCandidate.this w in
  let r := KernelCandidate.build_h fuel basisList hMat w in
  let c' := KernelCandidate.this (snd r) in
  (KernelCandidate._status c' = KernelCandidate._status c
   \/ KernelCandidate._status c' = BAD)
  /\ (forall e, fst r = Throw e -> etype e = Exception)
  /\ KernelCandidate._isInitialized c'
     = match fst r with Ok _ => true | _ => KernelCandidate._isInitialized c end
  /\ KernelCandidate._varianceEstimate c' <> None
  /\ KernelCandidate._ps c' = KernelCandidate._ps c
  /\ KernelCandidate._templateMaskedImage c' = KernelCandidate._templateMaskedImage c
  /\ KernelCandidate._scienceMaskedImage c' = KernelCandidate._scienceMaskedImage c
  /\ KernelCandidate._fitForBackground c' = KernelCandidate._fitForBackground c
  /\ (KernelCandidate._isInitialized c = true ->
      KernelCandidate._kernelSolutionOrig c' = KernelCandidate._kernelSolutionOrig c)
  /\ (KernelCandidate._isInitialized c = false ->
      KernelCandidate._kernelSolutionPca c' = KernelCandidate._kernelSolutionPca c).
Proof.
  intros c r c'.
  assert (Hgoal : forall (x : result unit) (c2 : KernelCandidate.t),
            rebuilt c c2 ->
            KernelCandidate._varianceEstimate c2 <> None ->
            (forall e, x = Throw e -> etype e = Exception) ->
            x <> Ok tt ->
            (KernelCandidate._status c2 = KernelCandidate._status c
             \/ KernelCandidate._status c2 = BAD)
            /\ (forall e, x = Throw e -> etype e = Exception)
            /\ KernelCandidate._isInitialized c2
               = match x with Ok _ => true | _ => KernelCandidate._isInitialized c end
            /\ KernelCandidate._varianceEstimate c2 <> None
            /\ KernelCandidate._ps c2 = KernelCandidate._ps c
            /\ KernelCandidate._templateMaskedImage c2
               = KernelCandidate._templateMaskedImage c
            /\ KernelCandidate._scienceMaskedImage c2
               = KernelCandidate._scienceMaskedImage c
            /\ KernelCandidate._fitForBackground c2 = KernelCandidate._fitForBackground c
            /\ (KernelCandidate._isInitialized c = true ->
                KernelCandidate._kernelSolutionOrig c2
                = KernelCandidate._kernelSolutionOrig c)
            /\ (KernelCandidate._isInitialized c = false ->
                KernelCandidate._kernelSolutionPca c2
                = KernelCandidate._kernelSolutionPca c)).
  { intros x c2 [Hs [Hi [Hp [Ht [Hsc [Hf [Hcf [Ho Hpc]]]]]]]] Hv He Hx.
    repeat split; auto.
    destruct x as [[] | e | ]; [exfalso; apply Hx; reflexivity | exact Hi | exact Hi]. }
  assert (Hdone : forall c2 : KernelCandidate.t,
            rebuilt c c2 ->
            KernelCandidate._varianceEstimate c2 <> None ->
            let c3 := KernelCandidate.set_isInitialized true c2 in
            (KernelCandidate._status c3 = KernelCandidate._status c
             \/ KernelCandidate._status c3 = BAD)
            /\ (forall e, @Ok unit tt = Throw e -> etype e = Exception)
            /\ KernelCandidate._isInitialized c3 = true
            /\ KernelCandidate._varianceEstimate c3 <> None
            /\ KernelCandidate._ps c3 = KernelCandidate._ps c
            /\ KernelCandidate._templateMaskedImage c3
               = KernelCandidate._templateMaskedImage c
            /\ KernelCandidate._scienceMaskedImage c3
               = KernelCandidate._scienceMaskedImage c
            /\ KernelCandidate._fitForBackground c3 = KernelCandidate._fitForBackground c
            /\ (KernelCandidate._isInitialized c = true ->
                KernelCandidate._kernelSolutionOrig c3
                = KernelCandidate._kernelSolutionOrig c)
            /\ (KernelCandidate._isInitialized c = false ->
                KernelCandidate._kernelSolutionPca c3
                = KernelCandidate._kernelSolutionPca c)).
  { intros c2 [Hs [Hi [Hp [Ht [Hsc [Hf [Hcf [Ho Hpc]]]]]]]] Hv. cbn.
    repeat split; auto. intros e H. discriminate H. }
  assert (Hset : forall (x : Image) (c2 : KernelCandidate.t),
            rebuilt c c2 -> rebuilt c (KernelCandidate.set_varianceEstimate x c2)).
  { intros x c2 H. exact H. }
  assert (Hrethrown : forall e0 e, @Throw unit (rethrown e0) = Throw e -> etype e = Exception).
  { intros e0 e H. inversion H. reflexivity. }
  subst c' r. unfold KernelCandidate.build_h. run. cbv beta. fold c.
  match goal with
  | |- context [KernelCandidate.on_this (KernelCandidate.set_varianceEstimate ?v) w] =>
      set (var := v)
  end.
  set (w1 := KernelCandidate.on_this (KernelCandidate.set_varianceEstimate var) w).
  destruct (buildKernelSolution_keeps fuel var basisList hMat w1) as [K1 [V1 R1]].
  assert (Hw1 : rebuilt c (KernelCandidate.this w1))
    by (apply Hset; apply rebuilt_refl).
  pose proof (rebuilt_trans _ _ _ Hw1 K1) as K1'.
  assert (V1' : KernelCandidate._varianceEstimate
                  (KernelCandidate.this
                     (snd (KernelCandidate._buildKernelSolution fuel var basisList hMat w1)))
                <> None)
    by (rewrite V1; discriminate).
  destruct (KernelCandidate._buildKernelSolution fuel var basisList hMat w1)
    as [[[] | e1 | ] w2]; cbn [fst snd] in *.
  2: { apply Hgoal; [exact K1' | exact V1' | apply Hrethrown | discriminate]. }
  2: { apply Hgoal; [exact K1' | exact V1' | discriminate | discriminate]. }
  destruct (getAsBool (KernelCandidate._ps c) "iterateSingleKernel"
            && negb (getAsBool (KernelCandidate._ps c) "constantVarianceWeighting"));
    [| cbn [fst snd KernelCandidate.on_this KernelCandidate.this];
       apply Hdone; [exact K1' | exact V1']].
  pose proof (getDifferenceImage_reads KernelCandidate.RECENT w2) as Hread.
  pose proof (recent_throws_Exception w2) as Hthrows.
  destruct (KernelCandidate.getDifferenceImage KernelCandidate.RECENT w2)
    as [[diffim | e2 | ] w3]; cbn [fst snd] in *; subst w3.
  2: { apply Hgoal; [exact K1' | exact V1' | | discriminate].
       intros e H. inversion H. subst e2. apply Hthrows; [apply R1 |]; reflexivity. }
  2: { apply Hgoal; [exact K1' | exact V1' | discriminate | discriminate]. }
  set (w4 := KernelCandidate.on_this
               (KernelCandidate.set_varianceEstimate (getVariance diffim)) w2).
  destruct (buildKernelSolution_keeps fuel (getVariance diffim) basisList hMat w4)
    as [K2 [V2 _]].
  assert (Hw4 : rebuilt c (KernelCandidate.this w4)) by (apply Hset; exact K1').
  pose proof (rebuilt_trans _ _ _ Hw4 K2) as K2'.
  assert (V2' : KernelCandidate._varianceEstimate
                  (KernelCandidate.this
                     (snd (KernelCandidate._buildKernelSolution fuel (getVariance diffim)
                             basisList hMat w4)))
                <> None)
    by (rewrite V2; discriminate).
  destruct (KernelCandidate._buildKernelSolution fuel (getVariance diffim) basisList hMat w4)
    as [[[] | e3 | ] w5]; cbn [fst snd] in *.
  - cbn [fst snd KernelCandidate.on_this KernelCandidate.this].
    apply Hdone; [exact K2' | exact V2'].
  - apply Hgoal; [exact K2' | exact V2' | apply Hrethrown | discriminate].
  - apply Hgoal; [exact K2' | exact V2' | discriminate | discriminate].
Qed.

(** X6. What [build(basisList, hMat)] does to a candidate, whatever the
    images, the basis and the property set. The status is left as it was
    or becomes BAD, never anything else; every exception of pexExcept that
    leaves the call has the base class Exception (the TypeError of an unrecognized
    conditionNumberType and the classes of afw are lost in [throw e]); the
    candidate is marked initialized exactly when the call returns; the
    variance estimate is set, also when the call throws; the images, the
    property set and the background flag are kept; and the build of an
    initialized candidate never touches the original solution, that of an
    uninitialized one never the pca solution. *)
Theorem build_outcome (fuel : nat) (basisList : list Kernel) (hMat : MatrixXd)
    (w : KernelCandidate.state) :
  let c := KernelCandidate.this w in
  let r := KernelCandidate.build_h fuel basisList hMat w in
  let c' := KernelCandidate.this (snd r) in
  (KernelCandidate._status c' = KernelCandidate._status c
   \/ KernelCandidate._status c' = BAD)
  /\ (forall e, fst r = Throw e -> etype e = Exception)
  /\ KernelCandidate._isInitialized c'
     = match fst r with Ok _ => true | _ => KernelCandidate._isInitialized c end
  /\ KernelCandidate._varianceEstimate c' <> None
  /\ KernelCandidate._ps c' = KernelCandidate._ps c
  /\ KernelCandidate._templateMaskedImage c' = KernelCandidate._templateMaskedImage c
  /\ KernelCandidate._scienceMaskedImage c' = KernelCandidate._scienceMaskedImage c
  /\ KernelCandidate._fitForBackground c' = KernelCandidate._fitForBackground c
  /\ (KernelCandidate._isInitialized c = true ->
      KernelCandidate._kernelSolutionOrig c' = KernelCandidate._kernelSolutionOrig c)
  /\ (KernelCandidate._isInitialized c = false ->
      KernelCandidate._kernelSolutionPca c' = KernelCandidate._kernelSolutionPca c).
Proof. exact (build_h_keeps fuel basisList hMat w). Qed.

(** *** From a build to the getters of KernelCandidate *)

Lemma copy_coefficients_copied (err : nat -> exception) (aVec : VectorXd)
    (idxs : list nat) (l : list float) :
  copy_coefficients err aVec idxs = inr l ->
  Forall (fun x => is_nan x = false) l.
Proof.
  revert l. induction idxs as [|i idxs IH]; intros l H; cbn in H.
  - injection H as H. subst l. constructor.
  - destruct (is_nan (vcoeff aVec i)) eqn:Hi; [discriminate H|].
    destruct (copy_coefficients err aVec idxs) as [e | l0]; [discriminate H|].
    injection H as H. subst l. constructor; [exact Hi | apply IH; reflexivity].
Qed.

(** A [_setKernel] that returns leaves results that can be read. *)
Lemma setKernel_ok_usable (s s' : t) :
  _setKernel s = (Ok tt, s') ->
  usable s' /\ base s' = base s
  /\ getKernelList (_kernel s') = getKernelList (_kernel s).
Proof.
  rewrite static_setKernel_run. cbv zeta.
  assert (Hbody : _solvedBy (base s) <> NONE ->
    (if negb (length (_aVec (base s))
              =? length (getKernelList (_kernel s))
                 + (if _fitForBackground (base s) then 1 else 0))%nat
     then (Throw (LSST_EXCEPT Exception (text "Mismatched sizes in kernel solution")), s)
     else
       match copy_coefficients kernel_nan (_aVec (base s))
               (seq 0 (length (getKernelList (_kernel s)))) with
       | inl e => (Throw e, s)
       | inr kValues =>
           if _fitForBackground (base s) then
             if is_nan (vcoeff (_aVec (base s)) (length (_aVec (base s)) - 1)) then
               (Throw (background_nan (length (_aVec (base s)) - 1)),
                set_kSum (snd (computeImage (setKernelParameters kValues (_kernel s))))
                  (set_kernel (setKernelParameters kValues (_kernel s)) s))
             else
               (Ok tt,
                set_background (vcoeff (_aVec (base s)) (length (_aVec (base s)) - 1))
                  (set_kSum (snd (computeImage (setKernelParameters kValues (_kernel s))))
                     (set_kernel (setKernelParameters kValues (_kernel s)) s)))
           else
             (Ok tt,
              set_kSum (snd (computeImage (setKernelParameters kValues (_kernel s))))
                (set_kernel (setKernelParameters kValues (_kernel s)) s))
       end) = (Ok tt, s') ->
    usable s' /\ base s' = base s
    /\ getKernelList (_kernel s') = getKernelList (_kernel s)).
  { intros Hsolved.
    destruct (negb _); [discriminate|].
    destruct (copy_coefficients _ _ _) as [e | kValues] eqn:Hcopy; [discriminate|].
    apply copy_coefficients_copied in Hcopy.
    destruct (_fitForBackground (base s)) eqn:Hfit.
    - destruct (is_nan _) eqn:Hnan; [discriminate|].
      intros H. injection H as H. subst s'. unfold usable. cbn.
      repeat split; auto.
    - intros H. injection H as H. subst s'. unfold usable. cbn.
      repeat split; auto. rewrite Hfit. discriminate. }
  destruct (_solvedBy (base s)) eqn:Hs; [discriminate | |];
    apply Hbody; discriminate.
Qed.

Lemma static_solve_ok_usable (s s' : t) :
  solve s = (Ok tt, s') -> usable s'.
Proof.
  intros H.
  destruct (static_solve_run s) as [[a [k [Hk Hrun]]] | Hrun];
    rewrite Hrun in H; [| discriminate H].
  apply setKernel_ok_usable in H. apply H.
Qed.

Lemma regularized_solve_ok_usable (fuel : nat) (r r' : RegularizedKernelSolution.t) :
  RegularizedKernelSolution.solve fuel r = (Ok tt, r') ->
  usable (RegularizedKernelSolution.static r').
Proof.
  unfold RegularizedKernelSolution.solve, RegularizedKernelSolution.solve_system,
    RegularizedKernelSolution.super2, RegularizedKernelSolution.super, super.
  run. cbv beta.
  destruct (RegularizedKernelSolution.chooseLambda fuel _) as [[[] | e | ] r1];
    [| discriminate ..].
  destruct (solve_mb _ _ _) as [[[] | e | ] b]; [| discriminate ..].
  destruct (_setKernel _) as [[[] | e | ] s3] eqn:Hset; [| discriminate ..].
  intros H. injection H as H. subst r'. cbn.
  apply setKernel_ok_usable in Hset. apply Hset.
Qed.

Lemma virtual_solve_ok_usable (fuel : nat) (sol sol' : KernelCandidate.Solution) :
  KernelCandidate.virtual_solve fuel sol = (Ok tt, sol') ->
  usable (KernelCandidate.static_of sol').
Proof.
  unfold KernelCandidate.virtual_solve. destruct sol as [s | r].
  - destruct (solve s) as [[[] | e | ] s'] eqn:Hs; intros H; inversion H.
    cbn. apply (static_solve_ok_usable s). exact Hs.
  - destruct (RegularizedKernelSolution.solve fuel r) as [[[] | e | ] r'] eqn:Hs;
      intros H; inversion H.
    cbn. apply (regularized_solve_ok_usable fuel r). exact Hs.
Qed.

(** A run of [_buildKernelSolution] that returns without marking the
    candidate BAD has solved the solution in the slot it fills. *)
Lemma buildKernelSolution_ok_usable (fuel : nat) (varianceEstimate : Image)
    (basisList : list Kernel) (hMat : MatrixXd) (w w' : KernelCandidate.state) :
  KernelCandidate._buildKernelSolution fuel varianceEstimate basisList hMat w = (Ok tt, w') ->
  KernelCandidate._status (KernelCandidate.this w') <> BAD ->
  exists sol,
    usable (KernelCandidate.static_of sol)
    /\ (if KernelCandidate._isInitialized (KernelCandidate.this w)
        then KernelCandidate._kernelSolutionPca (KernelCandidate.this w')
        else KernelCandidate._kernelSolutionOrig (KernelCandidate.this w')) = Some sol.
Proof.
  intros Hrun Hst. revert Hrun.
  rewrite buildKernelSolution_run. unfold buildKernelSolution_steps. cbv zeta.
  destruct (ctype_of _) as [ctype|]; [| discriminate].
  destruct (new _ _ _) as [[s0 | e | ] id]; [| discriminate ..].
  destruct (build _ _ _ s0) as [[[] | e | ] s1]; [| discriminate ..].
  match goal with
  | |- context [KernelCandidate.virtual_solve fuel ?x] => set (sol0 := x)
  end.
  assert (Hsolved :
    match KernelCandidate.virtual_solve fuel sol0 with
    | (Ok _, sol) => (Ok tt, with_slot w id (0 <? size hMat)%nat sol)
    | (Throw e, sol) => (Throw e, with_slot w id (0 <? size hMat)%nat sol)
    | (Unfinished, sol) => (Unfinished, with_slot w id (0 <? size hMat)%nat sol)
    end = (Ok tt, w') ->
    exists sol,
      usable (KernelCandidate.static_of sol)
      /\ (if KernelCandidate._isInitialized (KernelCandidate.this w)
          then KernelCandidate._kernelSolutionPca (KernelCandidate.this w')
          else KernelCandidate._kernelSolutionOrig (KernelCandidate.this w')) = Some sol).
  { destruct (KernelCandidate.virtual_solve fuel sol0) as [[[] | e | ] sol] eqn:Hv;
      intros H; inversion H.
    exists sol. split; [apply (virtual_solve_ok_usable fuel sol0); exact Hv|].
    unfold with_slot, slot_of. cbn [KernelCandidate.this].
    destruct (KernelCandidate._isInitialized (KernelCandidate.this w)); reflexivity. }
  destruct (getAsBool _ "checkConditionNumber"); [| exact Hsolved].
  destruct (fst (getConditionNumber ctype s1)) as [cNumber | e | ]; [| discriminate ..].
  destruct (_ <? cNumber); [| exact Hsolved].
  intros H. inversion H. subst w'. exfalso. apply Hst. reflexivity.
Qed.

(** The same of [build(basisList, hMat)]. *)
Lemma build_ok_usable (fuel : nat) (basisList : list Kernel) (hMat : MatrixXd)
    (w w' : KernelCandidate.state) :
  KernelCandidate.build_h fuel basisList hMat w = (Ok tt, w') ->
  KernelCandidate._status (KernelCandidate.this w') <> BAD ->
  exists sol,
    usable (KernelCandidate.static_of sol)
    /\ (if KernelCandidate._isInitialized (KernelCandidate.this w)
        then KernelCandidate._kernelSolutionPca (KernelCandidate.this w')
        else KernelCandidate._kernelSolutionOrig (KernelCandidate.this w')) = Some sol.
Proof.
  unfold KernelCandidate.build_h. run. cbv beta.
  match goal with
  | |- context [KernelCandidate.on_this (KernelCandidate.set_varianceEstimate ?v) w] =>
      set (var := v)
  end.
  set (w1 := KernelCandidate.on_this (KernelCandidate.set_varianceEstimate var) w).
  destruct (buildKernelSolution_keeps fuel var basisList hMat w1) as [K1 _].
  destruct (KernelCandidate._buildKernelSolution fuel var basisList hMat w1)
    as [[[] | e1 | ] w2] eqn:H1; [| discriminate ..].
  cbn [fst snd] in K1.
  assert (Hi2 : KernelCandidate._isInitialized (KernelCandidate.this w2)
                = KernelCandidate._isInitialized (KernelCandidate.this w))
    by (destruct K1 as [_ [Hi _]]; exact Hi).
  destruct (getAsBool _ "iterateSingleKernel" && negb _).
  - pose proof (getDifferenceImage_reads KernelCandidate.RECENT w2) as Hread.
    destruct (KernelCandidate.getDifferenceImage KernelCandidate.RECENT w2)
      as [[diffim | e2 | ] w3]; [| discriminate ..].
    cbn [snd] in Hread. subst w3.
    set (w4 := KernelCandidate.on_this
                 (KernelCandidate.set_varianceEstimate (getVariance diffim)) w2).
    destruct (KernelCandidate._buildKernelSolution fuel (getVariance diffim) basisList hMat w4)
      as [[[] | e3 | ] w5] eqn:H2; [| discriminate ..].
    intros H Hst. injection H as H. subst w'.
    destruct (buildKernelSolution_ok_usable _ _ _ _ _ _ H2 Hst) as [sol [Hu Hslot]].
    exists sol. split; [exact Hu|].
    replace (KernelCandidate._isInitialized (KernelCandidate.this w4))
      with (KernelCandidate._isInitialized (KernelCandidate.this w)) in Hslot
      by (symmetry; exact Hi2).
    exact Hslot.
  - intros H Hst. injection H as H. subst w'.
    destruct (buildKernelSolution_ok_usable _ _ _ _ _ _ H1 Hst) as [sol [Hu Hslot]].
    exists sol. split; [exact Hu|]. exact Hslot.
Qed.

(** What the getters return for RECENT when the most recent solution is
    solved. *)
Lemma recent_getters (w : KernelCandidate.state) (sol : KernelCandidate.Solution) :
  recent (KernelCandidate.this w) = Some sol ->
  _solvedBy (base (KernelCandidate.static_of sol)) <> NONE ->
  let s := KernelCandidate.static_of sol in
  let c := KernelCandidate.this w in
  KernelCandidate.getKernel KernelCandidate.RECENT w = (Ok (_kernel s), w)
  /\ KernelCandidate.getBackground KernelCandidate.RECENT w = (Ok (_background s), w)
  /\ KernelCandidate.getKsum KernelCandidate.RECENT w = (Ok (_kSum s), w)
  /\ KernelCandidate.getKernelImage KernelCandidate.RECENT w
     = (Ok (fst (computeImage (_kernel s))), w)
  /\ KernelCandidate.getKernelSolution KernelCandidate.RECENT w = (Ok sol, w)
  /\ KernelCandidate.getDifferenceImage KernelCandidate.RECENT w
     = (Ok (convolveAndSubtract (KernelCandidate._templateMaskedImage c)
              (KernelCandidate._scienceMaskedImage c) (_kernel s) (_background s)), w).
Proof.
  intros Hrecent Hsolved. cbv zeta.
  assert (Hread :
    KernelCandidate.read sol getKernel w = (Ok (_kernel (KernelCandidate.static_of sol)), w)
    /\ KernelCandidate.read sol getBackground w
       = (Ok (_background (KernelCandidate.static_of sol)), w)
    /\ KernelCandidate.read sol getKsum w = (Ok (_kSum (KernelCandidate.static_of sol)), w)
    /\ KernelCandidate.read sol makeKernelImage w
       = (Ok (fst (computeImage (_kernel (KernelCandidate.static_of sol)))), w)
    /\ forall call,
         KernelCandidate.differenceImage_of call sol w
         = (Ok (convolveAndSubtract
                  (KernelCandidate._templateMaskedImage (KernelCandidate.this w))
                  (KernelCandidate._scienceMaskedImage (KernelCandidate.this w))
                  (_kernel (KernelCandidate.static_of sol))
                  (_background (KernelCandidate.static_of sol))), w)).
  { unfold KernelCandidate.differenceImage_of, KernelCandidate.getDifferenceImage_kb,
      KernelCandidate.read, getKernel, getBackground, getKsum, makeKernelImage. run.
    destruct (_solvedBy (base (KernelCandidate.static_of sol)));
      [exfalso; apply Hsolved; reflexivity | |]; repeat split;
      intros call; destruct (getKernel_first call); reflexivity. }
  destruct Hread as [Hk [Hb [Hs [Hi Hd]]]].
  unfold recent in Hrecent.
  unfold KernelCandidate.getKernel, KernelCandidate.getBackground, KernelCandidate.getKsum,
    KernelCandidate.getKernelImage, KernelCandidate.getKernelSolution,
    KernelCandidate.getDifferenceImage.
  run. cbv beta.
  destruct (KernelCandidate._kernelSolutionPca (KernelCandidate.this w)) as [x|].
  - injection Hrecent as Hx. subst x. repeat split; try assumption; apply Hd.
  - rewrite Hrecent. repeat split; try assumption; apply Hd.
Qed.

(** X7. From [build] to the getters. When [build(basisList, hMat)]
    returns and the status is not BAD, the slot the build fills (the pca
    one of an initialized candidate, the original one otherwise) holds a
    solution that is solved, none of whose kernel parameters is NaN, nor
    its background when that is fit; the other slot is as it was. For a
    candidate that was initialized or had no pca solution, the getters read
    that solution for RECENT: [getKernel], [getBackground], [getKsum],
    [getKernelImage], [getKernelSolution] and [getDifferenceImage] return
    its results and leave the candidate alone; after a first build, ORIG
    reads the same and PCA throws "Pca kernel does not exist". *)
Theorem build_then_getters (fuel : nat) (basisList : list Kernel) (hMat : MatrixXd)
    (w w' : KernelCandidate.state) :
  KernelCandidate.build_h fuel basisList hMat w = (Ok tt, w') ->
  KernelCandidate._status (KernelCandidate.this w') <> BAD ->
  KernelCandidate._isInitialized (KernelCandidate.this w) = true
  \/ KernelCandidate._kernelSolutionPca (KernelCandidate.this w) = None ->
  let c := KernelCandidate.this w in
  let c' := KernelCandidate.this w' in
  exists sol,
    let s := KernelCandidate.static_of sol in
    usable s
    /\ (if KernelCandidate._isInitialized c
        then KernelCandidate._kernelSolutionPca c' = Some sol
             /\ KernelCandidate._kernelSolutionOrig c' = KernelCandidate._kernelSolutionOrig c
        else KernelCandidate._kernelSolutionOrig c' = Some sol
             /\ KernelCandidate._kernelSolutionPca c' = None)
    /\ KernelCandidate.getKernel KernelCandidate.RECENT w' = (Ok (_kernel s), w')
    /\ KernelCandidate.getBackground KernelCandidate.RECENT w' = (Ok (_background s), w')
    /\ KernelCandidate.getKsum KernelCandidate.RECENT w' = (Ok (_kSum s), w')
    /\ KernelCandidate.getKernelImage KernelCandidate.RECENT w'
       = (Ok (fst (computeImage (_kernel s))), w')
    /\ KernelCandidate.getKernelSolution KernelCandidate.RECENT w' = (Ok sol, w')
    /\ KernelCandidate.getDifferenceImage KernelCandidate.RECENT w'
       = (Ok (convolveAndSubtract (KernelCandidate._templateMaskedImage c)
                (KernelCandidate._scienceMaskedImage c) (_kernel s) (_background s)), w')
    /\ (KernelCandidate._isInitialized c = false ->
        KernelCandidate.getKernel KernelCandidate.ORIG w' = (Ok (_kernel s), w')
        /\ KernelCandidate.getKernel KernelCandidate.PCA w'
           = (Throw (LSST_EXCEPT RuntimeError (text "Pca kernel does not exist")), w')).
Proof.
  intros Hbuild Hst Hinv c c'.
  destruct (build_ok_usable fuel basisList hMat w w' Hbuild Hst) as [sol [Hu Hslot]].
  pose proof (build_h_keeps fuel basisList hMat w) as Hkeep. cbv zeta in Hkeep.
  rewrite Hbuild in Hkeep. cbn [fst snd] in Hkeep.
  destruct Hkeep as [_ [_ [_ [_ [_ [Ht [Hs [_ [Ho Hp]]]]]]]]].
  fold c in Hslot, Ho, Hp, Ht, Hs. fold c' in Hslot, Ho, Hp, Ht, Hs.
  exists sol. cbv zeta.
  assert (Hrecent : recent c' = Some sol).
  { unfold recent. destruct (KernelCandidate._isInitialized c) eqn:Hi.
    - rewrite Hslot. reflexivity.
    - destruct Hinv as [Hinv | Hinv]; [fold c in Hinv; congruence|].
      fold c in Hinv. rewrite (Hp eq_refl), Hinv. exact Hslot. }
  destruct (recent_getters w' sol Hrecent (proj1 Hu)) as [G1 [G2 [G3 [G4 [G5 G6]]]]].
  fold c' in G6. rewrite Ht, Hs in G6.
  split; [exact Hu|].
  split.
  { destruct (KernelCandidate._isInitialized c) eqn:Hi.
    - split; [exact Hslot | apply Ho; reflexivity].
    - split; [exact Hslot|].
      destruct Hinv as [Hinv | Hinv]; [fold c in Hinv; congruence|].
      fold c in Hinv. rewrite (Hp eq_refl). exact Hinv. }
  repeat (split; [assumption|]).
  intros Hi. rewrite Hi in Hslot.
  assert (Hpca : KernelCandidate._kernelSolutionPca c' = None).
  { destruct Hinv as [Hinv | Hinv]; [fold c in Hinv; congruence|].
    fold c in Hinv. rewrite (Hp Hi). exact Hinv. }
  unfold KernelCandidate.getKernel. run. cbv beta. fold c'.
  rewrite Hslot, Hpca.
  split; [| reflexivity].
  unfold KernelCandidate.read, getKernel. run.
  destruct (_solvedBy (base (KernelCandidate.static_of sol))) eqn:Hsb;
    [exfalso; apply (proj1 Hu); exact Hsb | reflexivity | reflexivity].
Qed.

(** *** The grid of lambdas and the risk of RegularizedKernelSolution *)

Lemma stepped_next (l lStep : float) (k : nat) :
  stepped l lStep (S k) = stepped (l + lStep) lStep k.
Proof. reflexivity. Qed.

Lemma stepped_fixed (l lStep : float) (k : nat) :
  l + lStep = l -> stepped l lStep k = l.
Proof.
  intros H. induction k as [|k IH]; [reflexivity|].
  rewrite stepped_next, H. exact IH.
Qed.

Lemma map_stepped_next (f : float -> float) (l lStep : float) (n : nat) :
  map (fun k => f (stepped l lStep k)) (seq 0 (S n))
  = f l :: map (fun k => f (stepped (l + lStep) lStep k)) (seq 0 n).
Proof.
  cbn [seq map stepped]. f_equal.
  rewrite <- seq_shift, map_map. reflexivity.
Qed.

(** The lambdas a loop that ends has pushed. *)
Lemma lambdaLoop_some (f : float -> float) (lMax lStep : float) (fuel : nat) :
  forall (l : float) (ls : list float),
  RegularizedKernelSolution.lambdaLoop fuel f l lMax lStep = Some ls ->
  ls = map (fun k => f (stepped l lStep k)) (seq 0 (length ls))
  /\ (forall k, (k < length ls)%nat -> (stepped l lStep k <=? lMax) = true)
  /\ (stepped l lStep (length ls) <=? lMax) = false
  /\ (length ls < fuel)%nat.
Proof.
  induction fuel as [|fuel IH]; intros l ls H; [discriminate H|].
  cbn [RegularizedKernelSolution.lambdaLoop] in H.
  destruct (l <=? lMax) eqn:Hl.
  - destruct (RegularizedKernelSolution.lambdaLoop fuel f (l + lStep) lMax lStep)
      as [ls0|] eqn:Hrec; [| discriminate H].
    injection H as H. subst ls.
    destruct (IH _ _ Hrec) as [Hmap [Hin [Hout Hlen]]].
    cbn [length]. rewrite map_stepped_next.
    split; [f_equal; exact Hmap|].
    split; [| split; [exact Hout | lia]].
    intros [|k] Hk; [exact Hl | apply Hin; lia].
  - injection H as H. subst ls. cbn [length seq map stepped].
    split; [reflexivity|]. split; [intros k Hk; lia|]. split; [exact Hl | lia].
Qed.

(** A loop that passes the bound after [n] steps ends, given the fuel. *)
Lemma lambdaLoop_enough (f : float -> float) (lMax lStep : float) (n : nat) :
  forall (fuel : nat) (l : float),
  (forall k, (k < n)%nat -> (stepped l lStep k <=? lMax) = true) ->
  (stepped l lStep n <=? lMax) = false ->
  (n < fuel)%nat ->
  RegularizedKernelSolution.lambdaLoop fuel f l lMax lStep
  = Some (map (fun k => f (stepped l lStep k)) (seq 0 n)).
Proof.
  induction n as [|n IH]; intros fuel l Hin Hout Hfuel;
    (destruct fuel as [|fuel]; [lia|]); cbn [RegularizedKernelSolution.lambdaLoop].
  - cbn [stepped] in Hout. rewrite Hout. reflexivity.
  - assert (H0 : (l <=? lMax) = true) by (apply (Hin 0%nat); lia).
    rewrite H0.
    rewrite (IH fuel (l + lStep)); [| | exact Hout | lia].
    + rewrite map_stepped_next. reflexivity.
    + intros k Hk. apply (Hin (S k)). lia.
Qed.

(** A loop that never passes the bound does not end. *)
Lemma lambdaLoop_never (f : float -> float) (lMax lStep : float) (fuel : nat) :
  forall l : float,
  (forall k, (stepped l lStep k <=? lMax) = true) ->
  RegularizedKernelSolution.lambdaLoop fuel f l lMax lStep = None.
Proof.
  induction fuel as [|fuel IH]; intros l H; [reflexivity|].
  cbn [RegularizedKernelSolution.lambdaLoop].
  assert (H0 : (l <=? lMax) = true) by (apply (H 0%nat)).
  rewrite H0. rewrite IH; [reflexivity|].
  intros k. apply (H (S k)).
Qed.

Lemma createLambdaSteps_run (fuel : nat) (s : RegularizedKernelSolution.t)
    (f : float -> float) (lMin lMax lStep : float) :
  lambda_loop_of (RegularizedKernelSolution._policy s) f lMin lMax lStep ->
  RegularizedKernelSolution._createLambdaSteps fuel s
  = match RegularizedKernelSolution.lambdaLoop fuel f lMin lMax lStep with
    | Some lambdas => (Ok lambdas, s)
    | None => (Unfinished, s)
    end.
Proof.
  unfold RegularizedKernelSolution._createLambdaSteps. run. cbv beta.
  intros [[Ht [Hf [H1 [H2 H3]]]] | [Ht [Hf [H1 [H2 H3]]]]]; rewrite Ht; subst.
  - replace (String.eqb "linear" "linear") with true by reflexivity.
    destruct (RegularizedKernelSolution.lambdaLoop _ _ _ _ _); reflexivity.
  - replace (String.eqb "log" "linear") with false by reflexivity.
    replace (String.eqb "log" "log") with true by reflexivity.
    destruct (RegularizedKernelSolution.lambdaLoop _ _ _ _ _); reflexivity.
Qed.

(** X12. The grid of [_createLambdaSteps]. A lambdaStepType other than
    "linear" and "log" throws. Otherwise the loop variable starts at the
    minimum and is increased by the step, each sum rounded; when after [n]
    additions it is for the first time not at most the maximum (or the
    comparison fails, as with a NaN), the call returns the [n] values
    pushed so far: the variable itself for "linear", ten to its power for
    "log"; none when the minimum is already above the maximum. When the
    variable never passes the maximum the call never returns, whatever
    the number of iterations allowed (the program goes on pushing values
    until no memory is left): so with a minimum at most the maximum and a
    step that leaves the variable as it is, zero for one. The call does not
    change the solution. *)
Theorem createLambdaSteps_grid (s : RegularizedKernelSolution.t) :
  let policy := RegularizedKernelSolution._policy s in
  (getAsString policy "lambdaStepType" <> "linear"%string ->
   getAsString policy "lambdaStepType" <> "log"%string ->
   forall fuel,
     RegularizedKernelSolution._createLambdaSteps fuel s
     = (Throw (LSST_EXCEPT Exception (text "lambdaStepType in Policy not recognized")), s))
  /\ (forall f lMin lMax lStep,
        lambda_loop_of policy f lMin lMax lStep ->
        (forall n,
           (forall k, (k < n)%nat -> (stepped lMin lStep k <=? lMax) = true) ->
           (stepped lMin lStep n <=? lMax) = false ->
           forall fuel, (n < fuel)%nat ->
             RegularizedKernelSolution._createLambdaSteps fuel s
             = (Ok (map (fun k => f (stepped lMin lStep k)) (seq 0 n)), s))
        /\ ((forall k, (stepped lMin lStep k <=? lMax) = true) ->
            forall fuel,
              RegularizedKernelSolution._createLambdaSteps fuel s = (Unfinished, s))
        /\ ((lMin <=? lMax) = true -> lMin + lStep = lMin ->
            forall fuel,
              RegularizedKernelSolution._createLambdaSteps fuel s = (Unfinished, s))
        /\ (forall fuel lambdas s',
              RegularizedKernelSolution._createLambdaSteps fuel s = (Ok lambdas, s') ->
              s' = s
              /\ lambdas = map (fun k => f (stepped lMin lStep k)) (seq 0 (length lambdas))
              /\ (forall k, (k < length lambdas)%nat ->
                            (stepped lMin lStep k <=? lMax) = true)
              /\ (stepped lMin lStep (length lambdas) <=? lMax) = false)).
Proof.
  cbv zeta. split.
  - intros H1 H2 fuel.
    unfold RegularizedKernelSolution._createLambdaSteps. run. cbv beta.
    apply String.eqb_neq in H1. apply String.eqb_neq in H2.
    rewrite H1, H2. reflexivity.
  - intros f lMin lMax lStep Hloop.
    assert (Hnever : (forall k, (stepped lMin lStep k <=? lMax) = true) ->
                     forall fuel,
                       RegularizedKernelSolution._createLambdaSteps fuel s = (Unfinished, s)).
    { intros H fuel. rewrite (createLambdaSteps_run fuel s f lMin lMax lStep Hloop).
      rewrite (lambdaLoop_never f lMax lStep fuel lMin H). reflexivity. }
    split; [| split; [exact Hnever | split]].
    + intros n Hin Hout fuel Hfuel.
      rewrite (createLambdaSteps_run fuel s f lMin lMax lStep Hloop).
      rewrite (lambdaLoop_enough f lMax lStep n fuel lMin Hin Hout Hfuel). reflexivity.
    + intros Hle Hfix. apply Hnever. intros k.
      rewrite (stepped_fixed lMin lStep k Hfix). exact Hle.
    + intros fuel lambdas s' H.
      rewrite (createLambdaSteps_run fuel s f lMin lMax lStep Hloop) in H.
      destruct (RegularizedKernelSolution.lambdaLoop fuel f lMin lMax lStep)
        as [ls|] eqn:Hl; [| discriminate H].
      injection H as H1 H2. subst ls s'.
      destruct (lambdaLoop_some f lMax lStep fuel lMin lambdas Hl) as [Hm [Hi [Ho _]]].
      repeat split; assumption.
Qed.

Lemma min_element_index_lt (v : list float) :
  v <> [] -> (RegularizedKernelSolution.min_element_index v < length v)%nat.
Proof.
  destruct v as [|x xs]; [intros H; exfalso; apply H; reflexivity | intros _].
  unfold RegularizedKernelSolution.min_element_index.
  assert (Hgen : forall (l : list float) (best : nat) (bestv : float) (i : nat),
            (best < i)%nat ->
            (fst (fst (fold_left
                         (fun '(best, bestv, i) y =>
                            if (y <? bestv)%float then (i, y, S i)
                            else (best, bestv, S i))
                         l (best, bestv, i))) < i + length l)%nat).
  { induction l as [|y l IH]; intros best bestv i Hb; cbn [fold_left length].
    - cbn. lia.
    - destruct (y <? bestv).
      + specialize (IH i y (S i) ltac:(lia)). lia.
      + specialize (IH best bestv (S i) ltac:(lia)). lia. }
  specialize (Hgen xs 0%nat x 1%nat ltac:(lia)). cbn [length]. lia.
Qed.

Lemma same_system_refl (s : RegularizedKernelSolution.t) : same_system s s.
Proof. unfold same_system. repeat split. Qed.

Lemma same_system_trans (s1 s2 s3 : RegularizedKernelSolution.t) :
  same_system s1 s2 -> same_system s2 s3 -> same_system s1 s3.
Proof.
  unfold same_system. intros H1 H2.
  repeat match goal with H : _ /\ _ |- _ => destruct H end.
  repeat split; congruence.
Qed.

(** The loop of [estimateRisk]: a risk for each lambda, and a solution that
    differs in its coefficients only. *)
Lemma risks_of_spec (vMatvMatT mInv : MatrixXd) (lambdas : list float) :
  forall (s s' : RegularizedKernelSolution.t) (risks : list float),
  RegularizedKernelSolution.risks_of vMatvMatT mInv lambdas s = (Ok risks, s') ->
  length risks = length lambdas
  /\ same_system s s'
  /\ (lambdas = [] -> s' = s)
  /\ (lambdas <> [] ->
      _solvedBy (base (RegularizedKernelSolution.static s')) = LU
      \/ _solvedBy (base (RegularizedKernelSolution.static s')) = EIGENVECTOR).
Proof.
  induction lambdas as [|l rest IH]; intros s s' risks H.
  - cbn in H. injection H as H1 H2. subst.
    repeat split; auto using same_system_refl.
    intros Hne. exfalso. apply Hne. reflexivity.
  - cbn [RegularizedKernelSolution.risks_of] in H.
    unfold RegularizedKernelSolution.super2, RegularizedKernelSolution.super,
      StaticKernelSolution.super, lift in H.
    revert H. run. cbv beta.
    destruct (solve_mb_outcome
                (add (_mMat (base (RegularizedKernelSolution.static s)))
                     (scale l (RegularizedKernelSolution._hMat s)))
                (_bVec (base (RegularizedKernelSolution.static s)))
                (base (RegularizedKernelSolution.static s)))
      as [[a [k [Hk Hrun]]] | [e Hrun]]; rewrite Hrun; [| discriminate].
    cbv beta iota.
    set (s1 := RegularizedKernelSolution.set_static
                 (set_base (set_aVec a (set_solvedBy k
                              (base (RegularizedKernelSolution.static s))))
                    (RegularizedKernelSolution.static s)) s).
    assert (Hs1 : same_system s s1) by (unfold same_system; repeat split).
    assert (Hk1 : _solvedBy (base (RegularizedKernelSolution.static s1)) = k)
      by reflexivity.
    do 2 (match goal with
          | |- context [if negb ?c then _ else _] => destruct (negb c); [discriminate|]
          end).
    destruct (RegularizedKernelSolution.risks_of vMatvMatT mInv rest s1)
      as [[r | e | ] s2] eqn:Hrest; [| discriminate ..].
    intros H. injection H as H1 H2. subst risks s'.
    destruct (IH s1 s2 r Hrest) as [Hlen [Hsame [Hnil Hsolved]]].
    split; [cbn [length]; f_equal; exact Hlen|].
    split; [exact (same_system_trans _ _ _ Hs1 Hsame)|].
    split; [intros Hx; discriminate Hx|].
    intros _. destruct rest as [|l2 rest2].
    + rewrite (Hnil eq_refl), Hk1. exact Hk.
    + apply Hsolved. discriminate.
Qed.

(** What the linear solver finds depends on the matrix and the vector, not
    on the solution it is run on. *)
Lemma solve_mb_any_state (mMat : MatrixXd) (bVec : VectorXd) (s1 s2 : KernelSolution.t) :
  fst (KernelSolution.solve_mb mMat bVec s1) = fst (KernelSolution.solve_mb mMat bVec s2)
  /\ (fst (KernelSolution.solve_mb mMat bVec s1) = Ok tt ->
      _aVec (snd (KernelSolution.solve_mb mMat bVec s1))
      = _aVec (snd (KernelSolution.solve_mb mMat bVec s2))).
Proof.
  rewrite !solve_mb_run.
  destruct (FullPivLU_isInvertible mMat); [split; reflexivity|].
  destruct (SelfAdjointEigenSolver mMat) as [e | [rMat eValues]].
  - split; [reflexivity | intros H; discriminate H].
  - split; reflexivity.
Qed.

(** The loop of [estimateRisk] leaves the coefficients of the last lambda. *)
Lemma risks_of_last (vMatvMatT mInv : MatrixXd) (lambdas : list float) :
  forall (s s' : RegularizedKernelSolution.t) (risks : list float),
  RegularizedKernelSolution.risks_of vMatvMatT mInv lambdas s = (Ok risks, s') ->
  lambdas <> [] ->
  let last_solve :=
    KernelSolution.solve_mb
      (add (_mMat (base (RegularizedKernelSolution.static s)))
           (scale (last lambdas 0) (RegularizedKernelSolution._hMat s)))
      (_bVec (base (RegularizedKernelSolution.static s)))
      (base (RegularizedKernelSolution.static s)) in
  fst last_solve = Ok tt
  /\ _aVec (base (RegularizedKernelSolution.static s')) = _aVec (snd last_solve).
Proof.
  induction lambdas as [|l rest IH]; intros s s' risks H Hne; [exfalso; apply Hne; reflexivity|].
  cbv zeta.
  cbn [RegularizedKernelSolution.risks_of] in H.
  unfold RegularizedKernelSolution.super2, RegularizedKernelSolution.super,
    StaticKernelSolution.super, lift in H.
  revert H. run. cbv beta.
  destruct (solve_mb_outcome
              (add (_mMat (base (RegularizedKernelSolution.static s)))
                   (scale l (RegularizedKernelSolution._hMat s)))
              (_bVec (base (RegularizedKernelSolution.static s)))
              (base (RegularizedKernelSolution.static s)))
    as [[a [k [Hk Hrun]]] | [e Hrun]]; rewrite Hrun; [| discriminate].
  cbv beta iota.
  set (s1 := RegularizedKernelSolution.set_static
               (set_base (set_aVec a (set_solvedBy k
                            (base (RegularizedKernelSolution.static s))))
                  (RegularizedKernelSolution.static s)) s).
  do 2 (match goal with
        | |- context [if negb ?c then _ else _] => destruct (negb c); [discriminate|]
        end).
  destruct (RegularizedKernelSolution.risks_of vMatvMatT mInv rest s1)
    as [[r | e | ] s2] eqn:Hrest; [| discriminate ..].
  intros H. injection H as H1 H2. subst risks s'.
  destruct rest as [|l2 rest2].
  - cbn in Hrest. injection Hrest as _ Hs2. subst s2.
    cbn [last]. rewrite Hrun. split; reflexivity.
  - destruct (IH s1 s2 r Hrest ltac:(discriminate)) as [Hok Ha].
    cbv zeta in Hok, Ha.
    change (last (l :: l2 :: rest2) 0) with (last (l2 :: rest2) 0).
    destruct (solve_mb_any_state
                (add (_mMat (base (RegularizedKernelSolution.static s)))
                     (scale (last (l2 :: rest2) 0) (RegularizedKernelSolution._hMat s)))
                (_bVec (base (RegularizedKernelSolution.static s)))
                (base (RegularizedKernelSolution.static s1))
                (base (RegularizedKernelSolution.static s)))
      as [Hfst Hsame].
    split.
    + rewrite <- Hfst. exact Hok.
    + rewrite Ha. apply Hsame. exact Hok.
Qed.

(** X13. The lambda of the risk estimate is one of the grid. When
    [estimateRisk] returns, the grid was made, and with a grid that is not
    empty the value returned is one of its lambdas; the call has solved for
    every lambda of the grid in turn, so it leaves behind the coefficients
    the linear solver finds for the last one ([solvedBy] is LU or
    EIGENVECTOR) and nothing else changed: the design matrix, the normal equations, the kernel, the
    background, H, the property set and [_lambda] are as before. With the
    lambda types "minimizeBiasedRisk" and "minimizeUnbiasedRisk" that value
    is what the choice of lambda stores in [_lambda]. *)
Theorem estimateRisk_picks_from_grid (fuel : nat) (s : RegularizedKernelSolution.t) :
  (forall maxCond l s',
     RegularizedKernelSolution.estimateRisk fuel maxCond s = (Ok l, s') ->
     exists lambdas,
       RegularizedKernelSolution._createLambdaSteps fuel s = (Ok lambdas, s)
       /\ same_system s s'
       /\ (lambdas = [] -> s' = s)
       /\ (lambdas <> [] ->
           In l lambdas
           /\ (_solvedBy (base (RegularizedKernelSolution.static s')) = LU
               \/ _solvedBy (base (RegularizedKernelSolution.static s')) = EIGENVECTOR)
           /\ (let last_solve :=
                 KernelSolution.solve_mb
                   (add (_mMat (base (RegularizedKernelSolution.static s)))
                        (scale (last lambdas 0) (RegularizedKernelSolution._hMat s)))
                   (_bVec (base (RegularizedKernelSolution.static s)))
                   (base (RegularizedKernelSolution.static s)) in
               fst last_solve = Ok tt
               /\ _aVec (base (RegularizedKernelSolution.static s'))
                  = _aVec (snd last_solve))))
  /\ (getAsString (RegularizedKernelSolution._policy s) "lambdaType"
      = "minimizeBiasedRisk"%string
      \/ getAsString (RegularizedKernelSolution._policy s) "lambdaType"
         = "minimizeUnbiasedRisk"%string ->
      forall s2,
        RegularizedKernelSolution.chooseLambda fuel s = (Ok tt, s2) ->
        exists lambdas l,
          RegularizedKernelSolution._createLambdaSteps fuel s = (Ok lambdas, s)
          /\ RegularizedKernelSolution._lambda s2 = Some l
          /\ (lambdas <> [] -> In l lambdas)).
Proof.
  assert (Hrisk : forall maxCond l s',
     RegularizedKernelSolution.estimateRisk fuel maxCond s = (Ok l, s') ->
     exists lambdas,
       RegularizedKernelSolution._createLambdaSteps fuel s = (Ok lambdas, s)
       /\ same_system s s'
       /\ (lambdas = [] -> s' = s)
       /\ (lambdas <> [] ->
           In l lambdas
           /\ (_solvedBy (base (RegularizedKernelSolution.static s')) = LU
               \/ _solvedBy (base (RegularizedKernelSolution.static s')) = EIGENVECTOR)
           /\ (let last_solve :=
                 KernelSolution.solve_mb
                   (add (_mMat (base (RegularizedKernelSolution.static s)))
                        (scale (last lambdas 0) (RegularizedKernelSolution._hMat s)))
                   (_bVec (base (RegularizedKernelSolution.static s)))
                   (base (RegularizedKernelSolution.static s)) in
               fst last_solve = Ok tt
               /\ _aVec (base (RegularizedKernelSolution.static s'))
                  = _aVec (snd last_solve)))).
  { intros maxCond l s'.
    unfold RegularizedKernelSolution.estimateRisk. run. cbv beta.
    destruct (SelfAdjointEigenSolver _) as [e | [rMat eValues]]; [discriminate|].
    assert (Hkeep : forall r s1,
              RegularizedKernelSolution._createLambdaSteps fuel s = (r, s1) -> s1 = s).
    { unfold RegularizedKernelSolution._createLambdaSteps. run. cbv beta.
      intros r s1.
      repeat match goal with
             | |- context [if ?c then _ else _] => destruct c
             | |- context [match ?x with Some _ => _ | None => _ end] => destruct x
             end; intros H; inversion H; reflexivity. }
    destruct (RegularizedKernelSolution._createLambdaSteps fuel s)
      as [[lambdas | e | ] s1] eqn:Hgrid; [| discriminate ..].
    rewrite (Hkeep _ _ eq_refl) in *. clear Hkeep.
    match goal with
    | |- context [RegularizedKernelSolution.risks_of ?v ?m lambdas s] =>
        destruct (RegularizedKernelSolution.risks_of v m lambdas s)
          as [[risks | e | ] s2] eqn:Hrisks; [| discriminate ..]
    end.
    intros H. injection H as H1 H2. subst l s'.
    destruct (risks_of_spec _ _ _ _ _ _ Hrisks) as [Hlen [Hsame [Hnil Hsolved]]].
    exists lambdas. split; [reflexivity|]. split; [exact Hsame|].
    split; [exact Hnil|].
    intros Hne.
    split; [| split; [apply Hsolved; exact Hne
                     | exact (risks_of_last _ _ _ _ _ _ Hrisks Hne)]].
    unfold vcoeff. apply nth_In. rewrite <- Hlen.
    apply min_element_index_lt. intros Hr. apply Hne.
    destruct lambdas; [reflexivity | rewrite Hr in Hlen; discriminate Hlen]. }
  split; [exact Hrisk|].
  intros Htype s2.
  unfold RegularizedKernelSolution.chooseLambda. run. cbv beta.
  destruct Htype as [Ht | Ht]; rewrite Ht.
  - replace (String.eqb "minimizeBiasedRisk" "absolute") with false by reflexivity.
    replace (String.eqb "minimizeBiasedRisk" "relative") with false by reflexivity.
    replace (String.eqb "minimizeBiasedRisk" "minimizeBiasedRisk") with true by reflexivity.
    destruct (RegularizedKernelSolution.estimateRisk fuel _ s) as [[l | e | ] s'] eqn:Hr;
      [| discriminate ..].
    intros H. injection H as H. subst s2.
    destruct (Hrisk _ _ _ Hr) as [lambdas [Hg [_ [_ Hin]]]].
    exists lambdas, l. split; [exact Hg|]. split; [reflexivity|].
    intros Hne. apply Hin. exact Hne.
  - replace (String.eqb "minimizeUnbiasedRisk" "absolute") with false by reflexivity.
    replace (String.eqb "minimizeUnbiasedRisk" "relative") with false by reflexivity.
    replace (String.eqb "minimizeUnbiasedRisk" "minimizeBiasedRisk") with false
      by reflexivity.
    replace (String.eqb "minimizeUnbiasedRisk" "minimizeUnbiasedRisk") with true
      by reflexivity.
    destruct (RegularizedKernelSolution.estimateRisk fuel _ s) as [[l | e | ] s'] eqn:Hr;
      [| discriminate ..].
    intros H. injection H as H. subst s2.
    destruct (Hrisk _ _ _ Hr) as [lambdas [Hg [_ [_ Hin]]]].
    exists lambdas, l. split; [exact Hg|]. split; [reflexivity|].
    intros Hne. apply Hin. exact Hne.
Qed.

(** *** The coefficients SpatialKernelSolution::solve hands to the kernel *)

Lemma copy_coefficients_map (err : nat -> exception) (aVec : VectorXd)
    (idxs : list nat) (l : list float) :
  copy_coefficients err aVec idxs = inr l -> l = map (vcoeff aVec) idxs.
Proof.
  revert l. induction idxs as [|i idxs IH]; intros l H; cbn in H.
  - injection H as H. subst l. reflexivity.
  - destruct (is_nan (vcoeff aVec i)); [discriminate H|].
    destruct (copy_coefficients err aVec idxs) as [e | l0]; [discriminate H|].
    injection H as H. subst l. cbn [map]. f_equal. apply IH. reflexivity.
Qed.

(** The rows of the loop over the bases, from a basis after the first on:
    [idx] is then at the offset of the block of the basis. *)
Lemma spatial_coefficients_later (cNumber : float) (aVec : VectorXd) (nkt : Z)
    (constantFirstTerm : bool) (n : nat) :
  (0 <= nkt)%Z ->
  forall (i0 idx : nat) (rows : list (list float)),
  (1 <= i0)%nat ->
  idx = SpatialKernelSolution.offset nkt (if constantFirstTerm then nkt - 1 else 0)%Z
          (Z.of_nat i0) ->
  SpatialKernelSolution.spatial_coefficients cNumber aVec (Z.to_nat nkt) constantFirstTerm
    (seq i0 n) idx
  = inr rows ->
  rows = map (spatial_row aVec nkt constantFirstTerm) (seq i0 n).
Proof.
  intros Hnkt. induction n as [|n IH]; intros i0 idx rows Hi0 Hidx H; cbn [seq] in H |- *.
  - cbn in H. injection H as H. subst rows. reflexivity.
  - cbn [SpatialKernelSolution.spatial_coefficients] in H.
    assert (Hz : (i0 =? 0)%nat = false) by (apply Nat.eqb_neq; lia).
    rewrite Hz in H. cbn [andb] in H.
    destruct (copy_coefficients _ aVec _) as [e | row] eqn:Hrow; [discriminate H|].
    apply copy_coefficients_map in Hrow.
    destruct (SpatialKernelSolution.spatial_coefficients _ _ _ _ (seq (S i0) n) _)
      as [e | rows0] eqn:Hrest; [discriminate H|].
    injection H as H. subst rows. cbn [map]. f_equal.
    + unfold spatial_row. rewrite Hz. cbn [andb]. rewrite <- Hidx. exact Hrow.
    + apply (IH (S i0) (idx + Z.to_nat nkt)%nat); [lia | | exact Hrest].
      subst idx. unfold SpatialKernelSolution.offset. destruct constantFirstTerm; nia.
Qed.

(** The rows of the loop over all the bases. *)
Lemma spatial_coefficients_rows (cNumber : float) (aVec : VectorXd) (nkt : Z)
    (constantFirstTerm : bool) (n : nat) (rows : list (list float)) :
  (0 <= nkt)%Z ->
  SpatialKernelSolution.spatial_coefficients cNumber aVec (Z.to_nat nkt) constantFirstTerm
    (seq 0 n) 0 = inr rows ->
  rows = map (spatial_row aVec nkt constantFirstTerm) (seq 0 n).
Proof.
  intros Hnkt H. destruct n as [|n]; cbn [seq] in H |- *.
  - cbn in H. injection H as H. subst rows. reflexivity.
  - cbn [SpatialKernelSolution.spatial_coefficients] in H.
    cbn [Nat.eqb andb] in H.
    destruct constantFirstTerm.
    + destruct (is_nan (vcoeff aVec 0)); [discriminate H|].
      destruct (SpatialKernelSolution.spatial_coefficients _ _ _ _ (seq 1 n) _)
        as [e | rows0] eqn:Hrest; [discriminate H|].
      injection H as H. subst rows. cbn [map]. f_equal.
      apply (spatial_coefficients_later cNumber aVec nkt true n Hnkt 1 1 rows0);
        [lia | unfold SpatialKernelSolution.offset; lia | exact Hrest].
    + destruct (copy_coefficients _ aVec _) as [e | row] eqn:Hrow; [discriminate H|].
      apply copy_coefficients_map in Hrow.
      destruct (SpatialKernelSolution.spatial_coefficients _ _ _ _ (seq 1 n) _)
        as [e | rows0] eqn:Hrest; [discriminate H|].
      injection H as H. subst rows. cbn [map]. f_equal.
      * unfold spatial_row. cbn [Nat.eqb andb].
        replace (SpatialKernelSolution.offset nkt 0%Z (Z.of_nat 0)) with 0%nat
          by (unfold SpatialKernelSolution.offset; lia).
        exact Hrow.
      * apply (spatial_coefficients_later cNumber aVec nkt false n Hnkt 1
                 (0 + Z.to_nat nkt)%nat rows0);
          [lia | unfold SpatialKernelSolution.offset; lia | exact Hrest].
Qed.

Lemma spatial_set_base_base (s : SpatialKernelSolution.t) :
  SpatialKernelSolution.set_base (SpatialKernelSolution.base s) s = s.
Proof. destruct s. reflexivity. Qed.


(** The run of [_setKernel] of SpatialKernelSolution, step by step. *)
Lemma spatial_setKernel_run (s : SpatialKernelSolution.t) :
  SpatialKernelSolution._setKernel s
  = match SelfAdjointEigenSolver (_mMat (SpatialKernelSolution.base s)) with
    | inl e => (Throw e, s)
    | inr (_, eValues) =>
        match spatial_kernel_of (maxCoeff eValues / minCoeff eValues) s with
        | inl e => (Throw e, s)
        | inr kernel =>
            let s1 := SpatialKernelSolution.set_kSum (snd (computeImage kernel))
                        (SpatialKernelSolution.set_kernel kernel s) in
            match spatial_background_of s with
            | inl e => (Throw e, s1)
            | inr bgCoeffs =>
                (Ok tt,
                 SpatialKernelSolution.set_background
                   (setParameters (SpatialKernelSolution._background s) bgCoeffs) s1)
            end
        end
    end.
Proof.
  unfold SpatialKernelSolution._setKernel, SpatialKernelSolution.super,
    KernelSolution.getConditionNumber, getConditionNumber_m, of_sum,
    spatial_kernel_of, spatial_background_of.
  run. cbv beta.
  destruct (SelfAdjointEigenSolver _) as [e | [rMat eValues]]; cbv beta iota;
    rewrite spatial_set_base_base; [reflexivity|].
  destruct (SpatialKernelSolution._nkt s =? 1)%Z.
  - destruct (copy_coefficients (SpatialKernelSolution.kernel_nan_I _) _ _);
      [reflexivity|]. cbv beta iota.
    cbn [SpatialKernelSolution.base SpatialKernelSolution.set_kernel
         SpatialKernelSolution.set_kSum SpatialKernelSolution._kernel
         SpatialKernelSolution._background].
    destruct (_fitForBackground (SpatialKernelSolution.base s)); [| reflexivity].
    destruct (copy_coefficients SpatialKernelSolution.background_nan _ _); reflexivity.
  - destruct (SpatialKernelSolution.spatial_coefficients _ _ _ _ _ _);
      [reflexivity|]. cbv beta iota.
    cbn [SpatialKernelSolution.base SpatialKernelSolution.set_kernel
         SpatialKernelSolution.set_kSum SpatialKernelSolution._kernel
         SpatialKernelSolution._background].
    destruct (_fitForBackground (SpatialKernelSolution.base s)); [| reflexivity].
    destruct (copy_coefficients SpatialKernelSolution.background_nan _ _); reflexivity.
Qed.

(** The linear solver, run by the [solve] of a spatial solution on the
    matrix with its other half filled in. *)
Lemma spatial_solve_run (s : SpatialKernelSolution.t) :
  (exists a k, (k = LU \/ k = EIGENVECTOR)
     /\ SpatialKernelSolution.solve s
        = SpatialKernelSolution._setKernel
            (SpatialKernelSolution.set_base
               (set_aVec a (set_solvedBy k (symmetrized s))) s))
  \/ (exists e,
        SpatialKernelSolution.solve s
        = (Throw (rethrown (LSST_EXCEPT_ADD e "Unable to solve spatial kernel matrix")),
           SpatialKernelSolution.set_base (set_solvedBy NONE (symmetrized s)) s)).
Proof.
  unfold SpatialKernelSolution.solve, SpatialKernelSolution.super, KernelSolution.solve,
    SpatialKernelSolution.upd_mMat, symmetrized.
  run. cbv beta.
  cbn [SpatialKernelSolution.base SpatialKernelSolution.set_base _mMat _bVec set_mMat].
  match goal with
  | |- context [solve_mb ?m ?b ?x] =>
      destruct (solve_mb_outcome m b x) as [[a [k [Hk Hrun]]] | [e Hrun]]; rewrite Hrun
  end.
  - left. exists a, k. split; [exact Hk|]. reflexivity.
  - right. exists e. reflexivity.
Qed.

(** X14. The layout of the coefficients. When [solve] of a spatial
    solution (of the sizes its constructor sets) returns, the matrix it
    keeps is the one with its other half filled in, none of the [_nt]
    coefficients is NaN, and they have been handed out in the order
    [addConstraint] laid the blocks out: basis kernel [m] has the [_nkt]
    coefficients from the offset [m * _nkt - dm] of its block on (with a
    constant first term the first kernel has the first coefficient,
    followed by zeros), the background has the last [_nbt] ones (a single
    zero when it is not fit); [_kSum] is the sum of the image of the new
    kernel. With [_nkt] equal to one the kernel is replaced by one that
    does not vary, with one coefficient per basis kernel.
    [getSolutionPair] then returns the kernel and the background. *)
Theorem spatial_solve_layout (s s' : SpatialKernelSolution.t) :
  spatial_sizes s ->
  SpatialKernelSolution.solve s = (Ok tt, s') ->
  let aVec := _aVec (SpatialKernelSolution.base s') in
  let nbases := Z.to_nat (SpatialKernelSolution._nbases s) in
  let nkt := SpatialKernelSolution._nkt s in
  let nt := SpatialKernelSolution._nt s in
  let nbt := SpatialKernelSolution._nbt s in
  let kernel := SpatialKernelSolution._kernel s in
  let kernel' := SpatialKernelSolution._kernel s' in
  (_solvedBy (SpatialKernelSolution.base s') = LU
   \/ _solvedBy (SpatialKernelSolution.base s') = EIGENVECTOR)
  /\ _mMat (SpatialKernelSolution.base s')
     = SpatialKernelSolution.fill_other_half (_mMat (SpatialKernelSolution.base s)) nt
  /\ _bVec (SpatialKernelSolution.base s') = _bVec (SpatialKernelSolution.base s)
  /\ (forall i, (i < Z.to_nat nt)%nat -> is_nan (vcoeff aVec i) = false)
  /\ getKernelList kernel' = getKernelList kernel
  /\ (if (nkt =? 1)%Z
      then kernelParameters kernel' = map (vcoeff aVec) (seq 0 nbases)
           /\ spatialFunction kernel' = None
           /\ spatialParameters kernel' = []
      else spatialParameters kernel'
           = map (spatial_row aVec nkt (SpatialKernelSolution._constantFirstTerm s))
                 (seq 0 nbases)
           /\ spatialFunction kernel' = spatialFunction kernel
           /\ kernelParameters kernel' = kernelParameters kernel)
  /\ SpatialKernelSolution._kSum s' = snd (computeImage kernel')
  /\ getParameters (SpatialKernelSolution._background s')
     = (if _fitForBackground (SpatialKernelSolution.base s)
        then map (vcoeff aVec) (seq (Z.to_nat (nt - nbt)) (Z.to_nat nbt))
        else [0])
  /\ evaluate (SpatialKernelSolution._background s')
     = evaluate (SpatialKernelSolution._background s)
  /\ SpatialKernelSolution.getSolutionPair s'
     = (Ok (kernel', SpatialKernelSolution._background s'), s').
Proof.
  intros Hsizes Hsolve. cbv zeta.
  destruct (spatial_solve_run s) as [[a [k [Hk Hrun]]] | [e Hrun]];
    rewrite Hrun in Hsolve; [| discriminate Hsolve].
  clear Hrun. rewrite spatial_setKernel_run in Hsolve.
  set (s2 := SpatialKernelSolution.set_base (set_aVec a (set_solvedBy k (symmetrized s))) s)
    in *.
  assert (Hsizes2 : spatial_sizes s2) by exact Hsizes.
  destruct (SelfAdjointEigenSolver _) as [e | [rMat eValues]]; [discriminate Hsolve|].
  destruct (spatial_kernel_of _ s2) as [e | kernel] eqn:Hkernel; [discriminate Hsolve|].
  cbv zeta in Hsolve.
  destruct (spatial_background_of s2) as [e | bgCoeffs] eqn:Hbg; [discriminate Hsolve|].
  injection Hsolve as Hs'. subst s'.
  cbn [SpatialKernelSolution.base SpatialKernelSolution.set_background
       SpatialKernelSolution.set_kSum SpatialKernelSolution.set_kernel
       SpatialKernelSolution._kernel SpatialKernelSolution._kSum
       SpatialKernelSolution._background].
  change (_aVec (SpatialKernelSolution.base s2)) with a.
  pose proof (spatial_kernel_span s Hsizes) as Hspan. cbv zeta in Hspan.
  destruct Hspan as [Hspan1 Hspan].
  pose proof (spatial_geometry s Hsizes) as Hgeo. cbv zeta in Hgeo.
  destruct Hgeo as [_ Hnt].
  destruct Hsizes as [Hnb [Hnkt [Hnbt [Hntdef Hnofit]]]].
  (* the kernel *)
  assert (Hkernel' :
    getKernelList kernel = getKernelList (SpatialKernelSolution._kernel s)
    /\ (forall i, (i < Z.to_nat (SpatialKernelSolution._nt s - SpatialKernelSolution._nbt s))%nat ->
                  is_nan (vcoeff a i) = false)
    /\ (if (SpatialKernelSolution._nkt s =? 1)%Z
        then kernelParameters kernel
             = map (vcoeff a) (seq 0 (Z.to_nat (SpatialKernelSolution._nbases s)))
             /\ spatialFunction kernel = None /\ spatialParameters kernel = []
        else spatialParameters kernel
             = map (spatial_row a (SpatialKernelSolution._nkt s)
                      (SpatialKernelSolution._constantFirstTerm s))
                   (seq 0 (Z.to_nat (SpatialKernelSolution._nbases s)))
             /\ spatialFunction kernel = spatialFunction (SpatialKernelSolution._kernel s)
             /\ kernelParameters kernel
                = kernelParameters (SpatialKernelSolution._kernel s))).
  { unfold spatial_kernel_of in Hkernel.
    cbn [SpatialKernelSolution.base SpatialKernelSolution.set_base s2
         SpatialKernelSolution._nkt SpatialKernelSolution._nbases
         SpatialKernelSolution._kernel SpatialKernelSolution._constantFirstTerm
         _aVec set_aVec]
      in Hkernel.
    destruct (SpatialKernelSolution._nkt s =? 1)%Z eqn:Hone.
    - destruct (copy_coefficients _ a _) as [e | kCoeffs] eqn:Hcopy;
        [discriminate Hkernel|].
      injection Hkernel as Hkernel. subst kernel.
      split; [reflexivity|].
      split; [| split; [exact (copy_coefficients_map _ _ _ _ Hcopy) | split; reflexivity]].
      intros i Hi. apply (copy_coefficients_inr _ _ _ _ Hcopy).
      apply in_seq. rewrite (Hspan1 eq_refl). lia.
    - destruct (SpatialKernelSolution.spatial_coefficients _ a _ _ _ _)
        as [e | kCoeffs] eqn:Hcopy; [discriminate Hkernel|].
      injection Hkernel as Hkernel. subst kernel.
      split; [reflexivity|].
      split; [| split; [exact (spatial_coefficients_rows _ _ _ _ _ _ Hnkt Hcopy)
                       | split; reflexivity]].
      intros i Hi. apply (spatial_coefficients_inr _ _ _ _ _ _ _ Hcopy).
      rewrite Hspan. lia. }
  destruct Hkernel' as [Hlist [Hclean Hlayout]].
  (* the background *)
  assert (Hbg' :
    bgCoeffs = (if _fitForBackground (SpatialKernelSolution.base s)
                then map (vcoeff a)
                       (seq (Z.to_nat (SpatialKernelSolution._nt s
                                       - SpatialKernelSolution._nbt s))
                            (Z.to_nat (SpatialKernelSolution._nbt s)))
                else [0])
    /\ (forall i, (Z.to_nat (SpatialKernelSolution._nt s - SpatialKernelSolution._nbt s) <= i
                   < Z.to_nat (SpatialKernelSolution._nt s))%nat ->
                  is_nan (vcoeff a i) = false)).
  { unfold spatial_background_of in Hbg.
    cbn [SpatialKernelSolution.base SpatialKernelSolution.set_base s2
         SpatialKernelSolution._nt SpatialKernelSolution._nbt
         _fitForBackground _aVec set_aVec set_solvedBy symmetrized set_mMat] in Hbg.
    destruct (_fitForBackground (SpatialKernelSolution.base s)) eqn:Hfit.
    - split; [exact (copy_coefficients_map _ _ _ _ Hbg)|].
      intros i Hi. apply (copy_coefficients_inr _ _ _ _ Hbg). apply in_seq. lia.
    - injection Hbg as Hbg. split; [symmetry; exact Hbg|].
      intros i Hi. specialize (Hnofit eq_refl). lia. }
  destruct Hbg' as [Hbgc Hbgclean].
  split; [exact Hk|]. split; [reflexivity|]. split; [reflexivity|].
  split.
  { intros i Hi.
    destruct (Nat.lt_ge_cases i
                (Z.to_nat (SpatialKernelSolution._nt s - SpatialKernelSolution._nbt s)))
      as [Hlt | Hge]; [apply Hclean; exact Hlt | apply Hbgclean; lia]. }
  split; [exact Hlist|]. split; [exact Hlayout|]. split; [reflexivity|].
  split; [exact Hbgc|]. split; [reflexivity|].
  unfold SpatialKernelSolution.getSolutionPair. run.
  cbn [SpatialKernelSolution.base SpatialKernelSolution.set_background
       SpatialKernelSolution.set_kSum SpatialKernelSolution.set_kernel
       SpatialKernelSolution.set_base s2 _solvedBy set_aVec set_solvedBy].
  destruct Hk as [Hk | Hk]; rewrite Hk; reflexivity.
Qed.

(** X15. A [solve] of a spatial solution that throws. When the linear
    solver threw, the exception is its own with "Unable to solve spatial
    kernel matrix" added, [solvedBy] is NONE, and only the matrix has
    changed: its other half is filled in. When the linear solver returned
    and [_setKernel] threw, [solvedBy] stays LU or EIGENVECTOR and the
    coefficients are those of the solver, so [getSolutionPair] returns
    instead of throwing "Kernel not solved": with the kernel and the
    background from before the call when the eigenvalues could not be
    found or a kernel coefficient is NaN, and with the new kernel beside
    the old background when a background coefficient is NaN. *)
Theorem failed_spatial_solve (s s' : SpatialKernelSolution.t) (e : exception) :
  SpatialKernelSolution.solve s = (Throw e, s') ->
  (exists e0,
     e = rethrown (LSST_EXCEPT_ADD e0 "Unable to solve spatial kernel matrix")
     /\ s' = SpatialKernelSolution.set_base (set_solvedBy NONE (symmetrized s)) s)
  \/ (exists a k,
        let s2 := SpatialKernelSolution.set_base
                    (set_aVec a (set_solvedBy k (symmetrized s))) s in
        (k = LU \/ k = EIGENVECTOR)
        /\ SpatialKernelSolution.getSolutionPair s'
           = (Ok (SpatialKernelSolution._kernel s', SpatialKernelSolution._background s), s')
        /\ ((s' = s2
             /\ (SelfAdjointEigenSolver (_mMat (symmetrized s)) = inl e
                 \/ exists cNumber, spatial_kernel_of cNumber s2 = inl e))
            \/ (exists cNumber kernel,
                  spatial_kernel_of cNumber s2 = inr kernel
                  /\ spatial_background_of s2 = inl e
                  /\ s' = SpatialKernelSolution.set_kSum (snd (computeImage kernel))
                            (SpatialKernelSolution.set_kernel kernel s2)))).
Proof.
  intros Hsolve.
  destruct (spatial_solve_run s) as [[a [k [Hk Hrun]]] | [e0 Hrun]];
    rewrite Hrun in Hsolve.
  2: { left. exists e0. injection Hsolve as H1 H2. subst. split; reflexivity. }
  right. exists a, k. cbv zeta. clear Hrun.
  rewrite spatial_setKernel_run in Hsolve.
  set (s2 := SpatialKernelSolution.set_base (set_aVec a (set_solvedBy k (symmetrized s))) s)
    in *.
  assert (Hpair : forall u,
            _solvedBy (SpatialKernelSolution.base u) = k ->
            SpatialKernelSolution.getSolutionPair u
            = (Ok (SpatialKernelSolution._kernel u, SpatialKernelSolution._background u), u)).
  { intros u Hu. unfold SpatialKernelSolution.getSolutionPair. run. rewrite Hu.
    destruct Hk as [Hk | Hk]; rewrite Hk; reflexivity. }
  split; [exact Hk|].
  change (_mMat (SpatialKernelSolution.base s2)) with (_mMat (symmetrized s)) in Hsolve.
  destruct (SelfAdjointEigenSolver (_mMat (symmetrized s))) as [e1 | [rMat eValues]] eqn:Heig.
  { injection Hsolve as H1 H2. subst e1 s'.
    split; [exact (Hpair s2 eq_refl)|]. left. split; [reflexivity | left; reflexivity]. }
  destruct (spatial_kernel_of _ s2) as [e1 | kernel] eqn:Hkernel.
  { injection Hsolve as H1 H2. subst e1 s'.
    split; [exact (Hpair s2 eq_refl)|]. left. split; [reflexivity|].
    right. eexists. exact Hkernel. }
  cbv zeta in Hsolve.
  destruct (spatial_background_of s2) as [e1 | bgCoeffs] eqn:Hbg; [| discriminate Hsolve].
  injection Hsolve as H1 H2. subst e1 s'.
  split; [exact (Hpair (SpatialKernelSolution.set_kSum (snd (computeImage kernel))
                          (SpatialKernelSolution.set_kernel kernel s2)) eq_refl)|].
  right. eexists. exists kernel. split; [exact Hkernel|]. split; reflexivity.
Qed.

(** *** NaN coefficients: what is thrown, and what is left *)

(** The checks of [_setKernel] of SpatialKernelSolution stop where making
    the kernel and the background coefficients stops. *)
Lemma spatial_kernel_of_check (cNumber : float) (s : SpatialKernelSolution.t) :
  spatial_kernel_check cNumber s
  = match spatial_kernel_of cNumber s with inl e => inl e | inr _ => inr tt end.
Proof.
  unfold spatial_kernel_check, spatial_kernel_of.
  destruct (SpatialKernelSolution._nkt s =? 1)%Z.
  - destruct (copy_coefficients _ _ _); reflexivity.
  - destruct (SpatialKernelSolution.spatial_coefficients _ _ _ _ _ _); reflexivity.
Qed.

(** The exception for a background coefficient of a spatial solution
    carries no number. *)
Lemma background_nan_mentions_nothing (i : nat) (d : float) :
  ~ mentions (SpatialKernelSolution.background_nan i) d.
Proof.
  intros [m [Hin Hop]].
  destruct Hin as [Hm | []]. subst m.
  destruct Hop as [Hop | []]. discriminate Hop.
Qed.

(** C6. A NaN coefficient in [_setKernel], on a solved solution. A NaN
    among the kernel coefficients makes the call throw and leaves the
    solution as it was; in the spatial solution the exception carries the
    condition number. A NaN background coefficient behind kernel
    coefficients that are clean makes the call throw too, but not before
    the kernel is made: [_kernel] and [_kSum] are the new ones when the
    exception leaves. In the spatial solution that exception, "Unable to
    determine spatial background solution %d (nan)", carries the index
    alone: the condition number, which the three kernel messages of the
    same function report, is not in it. *)
Theorem nan_coefficient_outcome :
  (forall s : StaticKernelSolution.t,
     _solvedBy (base s) <> NONE ->
     let aVec := _aVec (base s) in
     let nKernel := length (getKernelList (_kernel s)) in
     length aVec = (nKernel + (if _fitForBackground (base s) then 1 else 0))%nat ->
     (forall idx, (idx < nKernel)%nat -> is_nan (vcoeff aVec idx) = true ->
        exists i, (i < nKernel)%nat /\ is_nan (vcoeff aVec i) = true
                  /\ _setKernel s = (Throw (kernel_nan i), s))
     /\ ((forall i, (i < nKernel)%nat -> is_nan (vcoeff aVec i) = false) ->
         _fitForBackground (base s) = true ->
         is_nan (vcoeff aVec nKernel) = true ->
         let kernel := setKernelParameters (firstn nKernel aVec) (_kernel s) in
         _setKernel s
         = (Throw (background_nan nKernel),
            set_kSum (snd (computeImage kernel)) (set_kernel kernel s))))
  /\ (forall (s : SpatialKernelSolution.t) rMat eValues,
        spatial_sizes s ->
        SelfAdjointEigenSolver (_mMat (SpatialKernelSolution.base s)) = inr (rMat, eValues) ->
        let aVec := _aVec (SpatialKernelSolution.base s) in
        let cNumber := maxCoeff eValues / minCoeff eValues in
        let nt := Z.to_nat (SpatialKernelSolution._nt s) in
        let nKernel :=
          Z.to_nat (SpatialKernelSolution._nt s - SpatialKernelSolution._nbt s) in
        fst (getConditionNumber_m (_mMat (SpatialKernelSolution.base s)) EIGENVALUE
               (SpatialKernelSolution.base s)) = Ok cNumber
        /\ (forall idx, (idx < nKernel)%nat -> is_nan (vcoeff aVec idx) = true ->
              exists e, SpatialKernelSolution._setKernel s = (Throw e, s)
                        /\ mentions e cNumber /\ etype e = Exception)
        /\ ((forall i, (i < nKernel)%nat -> is_nan (vcoeff aVec i) = false) ->
            forall idx, (nKernel <= idx < nt)%nat -> is_nan (vcoeff aVec idx) = true ->
            exists i kernel,
              (nKernel <= i < nt)%nat
              /\ is_nan (vcoeff aVec i) = true
              /\ spatial_kernel_of cNumber s = inr kernel
              /\ SpatialKernelSolution._setKernel s
                 = (Throw (SpatialKernelSolution.background_nan i),
                    SpatialKernelSolution.set_kSum (snd (computeImage kernel))
                      (SpatialKernelSolution.set_kernel kernel s))
              /\ operands_of (SpatialKernelSolution.background_nan i)
                 = [ArgInt (Z.of_nat i)]
              /\ forall d, ~ mentions (SpatialKernelSolution.background_nan i) d)).
Proof.
  split.
  - intros s Hsolved aVec nKernel Hlen.
    pose proof (static_setKernel_run s) as Hrun. cbv zeta in Hrun.
    fold aVec nKernel in Hrun.
    assert (Heqb : (length aVec
                    =? nKernel + (if _fitForBackground (base s) then 1 else 0))%nat = true)
      by (apply Nat.eqb_eq; exact Hlen).
    rewrite Heqb in Hrun. cbn [negb] in Hrun.
    assert (Hrun' :
      _setKernel s
      = match copy_coefficients kernel_nan aVec (seq 0 nKernel) with
        | inl e => (Throw e, s)
        | inr kValues =>
            if _fitForBackground (base s)
            then if is_nan (vcoeff aVec (length aVec - 1))
                 then (Throw (background_nan (length aVec - 1)),
                       set_kSum (snd (computeImage (setKernelParameters kValues (_kernel s))))
                         (set_kernel (setKernelParameters kValues (_kernel s)) s))
                 else (Ok tt,
                       set_background (vcoeff aVec (length aVec - 1))
                         (set_kSum
                            (snd (computeImage (setKernelParameters kValues (_kernel s))))
                            (set_kernel (setKernelParameters kValues (_kernel s)) s)))
            else (Ok tt,
                  set_kSum (snd (computeImage (setKernelParameters kValues (_kernel s))))
                    (set_kernel (setKernelParameters kValues (_kernel s)) s))
        end).
    { rewrite Hrun. destruct (_solvedBy (base s)); [exfalso; apply Hsolved; reflexivity | |];
        reflexivity. }
    clear Hrun. split.
    + intros idx Hidx Hnan.
      destruct (copy_coefficients_nan kernel_nan aVec (seq 0 nKernel))
        as [i [Hin [Hi Hcopy]]].
      { exists idx. split; [apply in_seq; lia | exact Hnan]. }
      apply in_seq in Hin. exists i. rewrite Hrun', Hcopy.
      split; [lia|]. split; [exact Hi | reflexivity].
    + intros Hclean Hfit Hnan. cbv zeta.
      destruct (copy_coefficients_clean kernel_nan aVec (seq 0 nKernel)) as [l Hl].
      { intros i Hi. apply in_seq in Hi. apply Hclean. lia. }
      pose proof (copy_coefficients_firstn kernel_nan aVec nKernel l ltac:(lia) Hl) as Hfirst.
      subst l. rewrite Hrun', Hl, Hfit.
      rewrite Hfit in Hlen.
      replace (length aVec - 1)%nat with nKernel by lia.
      rewrite Hnan. reflexivity.
  - intros s rMat eValues Hsizes Heig aVec cNumber nt nKernel.
    split; [unfold getConditionNumber_m; rewrite Heig; reflexivity|].
    pose proof (spatial_setKernel_run s) as Hrun. rewrite Heig in Hrun.
    fold cNumber in Hrun. cbv zeta in Hrun.
    pose proof (spatial_kernel_of_check cNumber s) as Hcheck.
    split.
    + intros idx Hidx Hnan.
      destruct (spatial_kernel_check_nan cNumber s idx Hsizes Hidx Hnan)
        as [e [i [Hc [_ He]]]].
      rewrite Hc in Hcheck.
      destruct (spatial_kernel_of cNumber s) as [e' | kernel]; [| discriminate Hcheck].
      injection Hcheck as He'. subst e'.
      exists e. split; [exact Hrun|]. exact (mentions_kernel_nan _ _ _ He).
    + intros Hclean idx Hidx Hnan.
      rewrite (spatial_kernel_check_clean cNumber s Hsizes Hclean) in Hcheck.
      destruct (spatial_kernel_of cNumber s) as [e' | kernel]; [discriminate Hcheck|].
      assert (Hfit : _fitForBackground (SpatialKernelSolution.base s) = true).
      { destruct Hsizes as [_ [_ [_ [_ Hnofit]]]].
        destruct (_fitForBackground (SpatialKernelSolution.base s)); [reflexivity|].
        specialize (Hnofit eq_refl). unfold nt, nKernel in Hidx. rewrite Hnofit in Hidx. lia. }
      destruct (copy_coefficients_nan SpatialKernelSolution.background_nan aVec
                  (seq nKernel (Z.to_nat (SpatialKernelSolution._nbt s))))
        as [i [Hin [Hi Hcopy]]].
      { exists idx. split; [| exact Hnan]. apply in_seq.
        destruct Hsizes as [_ [_ [Hnbt _]]]. unfold nt, nKernel in *. lia. }
      apply in_seq in Hin.
      unfold spatial_background_of in Hrun. rewrite Hfit in Hrun.
      fold aVec nKernel in Hrun. rewrite Hcopy in Hrun.
      exists i, kernel.
      split.
      { pose proof (spatial_geometry s Hsizes) as Hgeo. cbv zeta in Hgeo.
        destruct Hgeo as [_ Hn]. destruct Hsizes as [_ [_ [Hnbt _]]].
        unfold nt, nKernel in *. lia. }
      split; [exact Hi|]. split; [reflexivity|]. split; [exact Hrun|].
      split; [reflexivity|]. intros d. apply background_nan_mentions_nothing.
Qed.

(** *** SpatialKernelSolution::addConstraint: the first term, and what is not written *)

(** The geometry of the blocks and the lengths of the P vectors, from the
    sizes of the solution. *)
Ltac accumulation s xCenter yCenter Hsizes :=
  let Hgeo := fresh "Hgeo" in
  pose proof (spatial_geometry s Hsizes) as Hgeo; cbv zeta in Hgeo;
  destruct Hgeo as [Hmb Hn];
  destruct Hsizes as [Hnb [Hnkt [Hnbt [Hnt Hnofit]]]];
  assert (HpK : length (SpatialKernelSolution.pK_of s xCenter yCenter)
                = Z.to_nat (SpatialKernelSolution._nkt s))
    by apply length_basis_values;
  assert (HpB : _fitForBackground (SpatialKernelSolution.base s) = true ->
                length (SpatialKernelSolution.pB_of s xCenter yCenter)
                = Z.to_nat (SpatialKernelSolution._nbt s))
    by (let H := fresh in
        intros H; unfold SpatialKernelSolution.pB_of; rewrite H; apply length_basis_values).

(** An entry [addConstraint] does not write. *)
Lemma addConstraint_keeps (xCenter yCenter : float) (qMat : MatrixXd) (wVec : VectorXd)
    (s : SpatialKernelSolution.t) (r c : nat) :
  spatial_sizes s ->
  sized (Z.to_nat (SpatialKernelSolution._nt s)) s ->
  let nkt := SpatialKernelSolution._nkt s in
  let m0 := if SpatialKernelSolution._constantFirstTerm s then 1%Z else 0%Z in
  let dm := if SpatialKernelSolution._constantFirstTerm s then (nkt - 1)%Z else 0%Z in
  let mb := Z.to_nat (SpatialKernelSolution._nt s - SpatialKernelSolution._nbt s) in
  let start := SpatialKernelSolution.offset nkt dm in
  (r < Z.to_nat (SpatialKernelSolution._nt s))%nat ->
  (c < Z.to_nat (SpatialKernelSolution._nt s))%nat ->
  (SpatialKernelSolution._constantFirstTerm s = true -> (1 <= r)%nat) ->
  (forall m, (m0 <= m < SpatialKernelSolution._nbases s)%Z ->
             (r < start m \/ start m + Z.to_nat nkt <= r \/ c < start m)%nat) ->
  (r < mb \/ c < mb)%nat ->
  coeff (mMat_of (SpatialKernelSolution.addConstraint_state xCenter yCenter qMat wVec s)) r c
  = coeff (mMat_of s) r c.
Proof.
  intros Hsizes Hsized. cbv zeta. intros Hr Hc Hfirst Hrows Hback.
  accumulation s xCenter yCenter Hsizes.
  rewrite addConstraint_state_stages.
  apply (stages_keeps qMat wVec _ _ _ _ _ _ _ _ _ _
           Hnb Hnkt Hnbt eq_refl Hmb Hn HpK HpB r c _ (evaluated s)
           Hr Hc Hfirst Hrows Hback).
  apply evaluated_keeps_entry. exact Hsized.
Qed.

(** A row above the background rows, and not the row of a constant first
    term, is a row of the block of one basis kernel. *)
Lemma kernel_row_block (s : SpatialKernelSolution.t) (r : nat) :
  spatial_sizes s ->
  let nkt := SpatialKernelSolution._nkt s in
  let m0 := if SpatialKernelSolution._constantFirstTerm s then 1%Z else 0%Z in
  let dm := if SpatialKernelSolution._constantFirstTerm s then (nkt - 1)%Z else 0%Z in
  let mb := Z.to_nat (SpatialKernelSolution._nt s - SpatialKernelSolution._nbt s) in
  (r < mb)%nat ->
  (SpatialKernelSolution._constantFirstTerm s = true -> (1 <= r)%nat) ->
  exists m i, (m0 <= m < SpatialKernelSolution._nbases s)%Z
              /\ (i < Z.to_nat nkt)%nat
              /\ r = (SpatialKernelSolution.offset nkt dm m + i)%nat.
Proof.
  intros Hsizes. cbv zeta. intros Hr Hfirst.
  pose proof (spatial_geometry s Hsizes) as Hgeo. cbv zeta in Hgeo.
  destruct Hgeo as [Hmb _].
  destruct Hsizes as [Hnb [Hnkt [Hnbt [Hnt _]]]].
  remember (SpatialKernelSolution._nkt s) as nkt eqn:Enkt.
  remember (SpatialKernelSolution._nbases s) as nbases eqn:Enb.
  remember (Z.to_nat (SpatialKernelSolution._nt s - SpatialKernelSolution._nbt s)) as mb
    eqn:Emb.
  remember (SpatialKernelSolution._constantFirstTerm s) as cft eqn:Ecft.
  clear Enkt Enb Emb Ecft Hnt Hnbt.
  assert (Hpos : (0 < nkt)%Z).
  { destruct cft; [specialize (Hfirst eq_refl)|]; nia. }
  set (dm := if cft then (nkt - 1)%Z else 0%Z) in *.
  pose proof (Z.div_mod (Z.of_nat r + dm) nkt ltac:(lia)) as Hdiv.
  pose proof (Z.mod_pos_bound (Z.of_nat r + dm) nkt Hpos) as Hmod.
  set (qt := ((Z.of_nat r + dm) / nkt)%Z) in *.
  set (rem := ((Z.of_nat r + dm) mod nkt)%Z) in *.
  assert (Hlo : ((if cft then 1 else 0) <= qt)%Z).
  { subst dm. destruct cft; [specialize (Hfirst eq_refl)|]; nia. }
  assert (Hhi : (qt < nbases)%Z) by nia.
  exists qt, (Z.to_nat rem). split; [lia|]. split; [lia|].
  unfold SpatialKernelSolution.offset.
  assert (0 <= qt * nkt - dm)%Z by (subst dm; destruct cft; nia).
  lia.
Qed.

(** [addConstraint] writes no entry below the diagonal but with an added
    zero: a matrix that is zero there stays so. *)
Lemma addConstraint_upper_triangular (xCenter yCenter : float) (qMat : MatrixXd)
    (wVec : VectorXd) (s : SpatialKernelSolution.t) :
  spatial_sizes s ->
  sized (Z.to_nat (SpatialKernelSolution._nt s)) s ->
  upper_triangular (Z.to_nat (SpatialKernelSolution._nt s)) (mMat_of s) ->
  upper_triangular (Z.to_nat (SpatialKernelSolution._nt s))
    (mMat_of (SpatialKernelSolution.addConstraint_state xCenter yCenter qMat wVec s)).
Proof.
  intros Hsizes Hsized Hup r c Hcr Hr.
  pose proof Hsizes as Hsizes'.
  pose proof (fun r => kernel_row_block s r Hsizes) as Hblock. cbv zeta in Hblock.
  pose proof (addConstraint_keeps xCenter yCenter qMat wVec s r c Hsizes Hsized) as Hkeep.
  cbv zeta in Hkeep.
  rewrite addConstraint_state_stages in Hkeep |- *.
  accumulation s xCenter yCenter Hsizes'.
  remember (SpatialKernelSolution._nkt s) as nkt eqn:Enkt.
  remember (SpatialKernelSolution._nbases s) as nbases eqn:Enb.
  remember (SpatialKernelSolution._nbt s) as nbt eqn:Enbt.
  remember (Z.to_nat (SpatialKernelSolution._nt s - nbt)) as mb eqn:Emb.
  remember (Z.to_nat (SpatialKernelSolution._nt s)) as n eqn:En.
  remember (SpatialKernelSolution._constantFirstTerm s) as cft eqn:Ecft.
  remember (_fitForBackground (SpatialKernelSolution.base s)) as fit eqn:Efit.
  assert (Hstart : forall m, ((if cft then 1 else 0) <= m <= nbases)%Z ->
            Z.of_nat (SpatialKernelSolution.offset nkt
                        (if cft then (nkt - 1)%Z else 0%Z) m)
            = (m * nkt - (if cft then (nkt - 1)%Z else 0%Z))%Z).
  { intros m Hm. unfold SpatialKernelSolution.offset.
    rewrite Z2Nat.id; [reflexivity|]. destruct cft; nia. }
  assert (Hfirst : cft = true -> (1 <= r)%nat) by (intros _; lia).
  destruct (le_lt_dec mb r) as [Hback | Hkern].
  - (* a background row *)
    destruct (lt_dec c mb) as [Hc | Hc].
    + rewrite Hkeep; [apply Hup; assumption | exact Hr | lia | exact Hfirst | | right; exact Hc].
      intros m Hm. right. left.
      pose proof (Hstart m ltac:(lia)) as Hs. nia.
    + assert (Hfit : fit = true).
      { destruct fit; [reflexivity|]. specialize (Hnofit eq_refl). lia. }
      pose proof (stages_background qMat wVec _ _ _ _ _ _ _ _ _ _
                    Hnb Hnkt Hnbt eq_refl Hmb Hn HpK HpB (r - mb) (c - mb) _ (evaluated s)
                    Hfit ltac:(lia) ltac:(lia)
                    (evaluated_keeps_entry _ _ _ s Hsized)) as [_ Hx].
      replace (mb + (r - mb))%nat with r in Hx by lia.
      replace (mb + (c - mb))%nat with c in Hx by lia.
      rewrite Hx. rewrite (Hup r c Hcr Hr).
      replace (r - mb <=? c - mb)%nat with false by (symmetry; apply Nat.leb_gt; lia).
      reflexivity.
  - (* a row of the block of a basis kernel *)
    destruct (Hblock r Hkern Hfirst) as [m [i [Hm [Hi Hri]]]].
    pose proof (Hstart m ltac:(lia)) as Hsm.
    destruct (Nat.eq_dec c 0) as [Hc0 | Hc0].
    { destruct cft eqn:Hcft.
      - (* the column of the constant first term *)
        rewrite Hkeep; [apply Hup; assumption | exact Hr | lia | exact Hfirst | | right; lia].
        intros m' Hm'. right. right.
        pose proof (Hstart m' ltac:(lia)) as Hs'. nia.
      - (* column 0 of the first block *)
        destruct (Z.eq_dec m 0) as [Hm0 | Hm0].
        + subst m.
          pose proof (stages_diagonal qMat wVec _ _ _ _ _ _ _ _ false _
                        Hnb Hnkt Hnbt eq_refl Hmb Hn HpK HpB 0%Z i 0%nat _ (evaluated s)
                        Hm Hi ltac:(lia)
                        (evaluated_keeps_entry _ _ _ s Hsized)) as [_ Hx].
              assert (H0 : SpatialKernelSolution.offset nkt 0 0 = 0%nat)
            by (unfold SpatialKernelSolution.offset; lia).
          rewrite H0 in Hx, Hri. cbn [Nat.add] in Hx, Hri.
          replace i with r in Hx by lia. subst c.
          rewrite Hx. rewrite (Hup r 0%nat Hcr Hr).
          replace (r <=? 0)%nat with false by (symmetry; apply Nat.leb_gt; lia).
          reflexivity.
        + rewrite Hkeep; [apply Hup; assumption | exact Hr | lia | exact Hfirst | | right; lia].
          intros m' Hm'.
          pose proof (Hstart m' ltac:(lia)) as Hs'.
          destruct (Z_lt_le_dec m' m) as [Hlt | Hge].
          * right. left. nia.
          * destruct (Z.eq_dec m' m) as [He | Hne].
            -- right. right. subst m'. nia.
            -- left. nia. }
    assert (Hcfirst : cft = true -> (1 <= c)%nat) by (intros _; lia).
    destruct (Hblock c ltac:(lia) Hcfirst) as [m2 [j [Hm2 [Hj Hcj]]]].
    pose proof (Hstart m2 ltac:(lia)) as Hsm2.
    assert (Hle : (m2 <= m)%Z) by nia.
    destruct (Z.eq_dec m2 m) as [He | Hne].
    + subst m2.
      pose proof (stages_diagonal qMat wVec _ _ _ _ _ _ _ _ _ _
                    Hnb Hnkt Hnbt eq_refl Hmb Hn HpK HpB m i j _ (evaluated s)
                    Hm Hi Hj
                    (evaluated_keeps_entry _ _ _ s Hsized)) as [_ Hx].
      rewrite <- Hri, <- Hcj in Hx.
      rewrite Hx. rewrite (Hup r c Hcr Hr).
      replace (i <=? j)%nat with false by (symmetry; apply Nat.leb_gt; lia).
      reflexivity.
    + rewrite Hkeep; [apply Hup; assumption | exact Hr | lia | exact Hfirst | | right; lia].
      intros m' Hm'.
      pose proof (Hstart m' ltac:(lia)) as Hs'.
      destruct (Z_lt_le_dec m' m) as [Hlt | Hge].
      * right. left. nia.
      * destruct (Z.eq_dec m' m) as [He' | Hne'].
        -- right. right. subst m'. nia.
        -- left. nia.
Qed.

(** [addConstraint] keeps the sizes the constructor set and the flag of the
    background. *)
Lemma addConstraint_same_sizes (xCenter yCenter : float) (qMat : MatrixXd)
    (wVec : VectorXd) (s : SpatialKernelSolution.t) :
  let s' := SpatialKernelSolution.addConstraint_state xCenter yCenter qMat wVec s in
  SpatialKernelSolution._nkt s' = SpatialKernelSolution._nkt s
  /\ SpatialKernelSolution._nbt s' = SpatialKernelSolution._nbt s
  /\ _fitForBackground (SpatialKernelSolution.base s')
     = _fitForBackground (SpatialKernelSolution.base s).
Proof.
  cbv zeta. rewrite addConstraint_state_stages.
  set (same := fun s' : SpatialKernelSolution.t =>
         SpatialKernelSolution._nkt s' = SpatialKernelSolution._nkt s
         /\ SpatialKernelSolution._nbt s' = SpatialKernelSolution._nbt s
         /\ _fitForBackground (SpatialKernelSolution.base s')
            = _fitForBackground (SpatialKernelSolution.base s)).
  assert (HM : forall f s', same s' -> same (SpatialKernelSolution.upd_mMat f s')).
  { intros f s' H. exact H. }
  assert (HB : forall f s', same s' -> same (SpatialKernelSolution.upd_bVec f s')).
  { intros f s' H. exact H. }
  assert (He : same (evaluated s)).
  { unfold same, evaluated.
    destruct (_fitForBackground (SpatialKernelSolution.base s)) eqn:Hf;
      cbn; rewrite ?Hf; repeat split. }
  assert (Hrow : forall qM wV pK a b nb nkt nbt dm mb fit s' m,
             same s' ->
             same (SpatialKernelSolution.fill_block_row qM wV pK a b nb nkt nbt dm mb
                     fit s' m)).
  { intros qM wV pK a b nb nkt nbt dm mb fit s' m Hs'.
    unfold SpatialKernelSolution.fill_block_row.
    apply HB.
    apply (if_holds fit same); intros _; [apply HM|];
      (apply fold_invariant; [intros; apply HM; assumption |]; apply HM; exact Hs'). }
  unfold stages.
  apply (if_holds _ same); intros _;
    [unfold SpatialKernelSolution.fill_background; apply HB; apply HM |];
    (apply fold_invariant; [intros; apply Hrow; assumption |];
     apply (if_holds _ same); intros _; [| exact He];
     unfold SpatialKernelSolution.fill_first_term;
     apply (if_holds _ same); intros _; [apply HM|];
     (apply HB; apply fold_invariant; [intros; apply HM; assumption |];
      apply HM; exact He)).
Qed.

(** The spatial functions, which [addConstraint] evaluates with one
    parameter set to one and the others to zero: a function of [n]
    parameters gives the same values whatever parameters it holds. *)
Lemma unit_parameters_full (p p' : list float) (n idx : nat) :
  length p = n -> length p' = n ->
  SpatialKernelSolution.unit_parameters p n idx
  = SpatialKernelSolution.unit_parameters p' n idx.
Proof.
  intros Hp Hp'. unfold SpatialKernelSolution.unit_parameters. rewrite Hp, Hp'.
  apply map_ext_in. intros k Hk. apply in_seq in Hk.
  destruct (k =? idx)%nat; [reflexivity|].
  replace (k <? n)%nat with true by (symmetry; apply Nat.ltb_lt; lia). reflexivity.
Qed.

Lemma basis_values_any (f : SpatialFunction) (p : list float) (n : nat) (x y : float) :
  length (getParameters f) = n -> length p = n ->
  SpatialKernelSolution.basis_values (setParameters f p) n x y
  = SpatialKernelSolution.basis_values f n x y.
Proof.
  intros Hf Hp. unfold SpatialKernelSolution.basis_values.
  apply map_ext. intros idx. unfold call, setParameters.
  cbn [getParameters evaluate].
  rewrite (unit_parameters_full p (getParameters f) n idx Hp Hf). reflexivity.
Qed.

Lemma length_unit_parameters (p : list float) (n idx : nat) :
  length (SpatialKernelSolution.unit_parameters p n idx) = length p.
Proof.
  unfold SpatialKernelSolution.unit_parameters. rewrite length_map, length_seq. reflexivity.
Qed.

(** The function as the loop over its parameters leaves it. *)
Lemma after_basis_values_spec (f : SpatialFunction) (n : nat) :
  length (getParameters f) = n ->
  evaluate (SpatialKernelSolution.after_basis_values f n) = evaluate f
  /\ length (getParameters (SpatialKernelSolution.after_basis_values f n)) = n
  /\ ((0 < n)%nat ->
      getParameters (SpatialKernelSolution.after_basis_values f n) = last_unit n)
  /\ (forall x y,
        SpatialKernelSolution.basis_values
          (SpatialKernelSolution.after_basis_values f n) n x y
        = SpatialKernelSolution.basis_values f n x y).
Proof.
  intros Hf. destruct n as [|k].
  - cbn [SpatialKernelSolution.after_basis_values].
    repeat split; [exact Hf | intros H0; lia].
  - cbn [SpatialKernelSolution.after_basis_values].
    split; [reflexivity|].
    split; [cbn [getParameters setParameters]; rewrite length_unit_parameters; exact Hf|].
    split.
    + intros _. cbn [getParameters setParameters].
      unfold SpatialKernelSolution.unit_parameters, last_unit. rewrite Hf.
      apply map_ext_in. intros j Hj. apply in_seq in Hj.
      replace (S k - 1)%nat with k by lia.
      destruct (j =? k)%nat; [reflexivity|].
      replace (j <? S k)%nat with true by (symmetry; apply Nat.ltb_lt; lia). reflexivity.
    + intros x y. apply basis_values_any; [exact Hf|].
      rewrite length_unit_parameters. exact Hf.
Qed.

(** Beside the matrix and the vector, [addConstraint] changes the two
    spatial functions, which it leaves as its loops left them. *)
Lemma addConstraint_frame (xCenter yCenter : float) (qMat : MatrixXd) (wVec : VectorXd)
    (s : SpatialKernelSolution.t) :
  let s' := SpatialKernelSolution.addConstraint_state xCenter yCenter qMat wVec s in
  SpatialKernelSolution._kernel s' = SpatialKernelSolution._kernel s
  /\ SpatialKernelSolution._kSum s' = SpatialKernelSolution._kSum s
  /\ SpatialKernelSolution._policy s' = SpatialKernelSolution._policy s
  /\ _solvedBy (SpatialKernelSolution.base s') = _solvedBy (SpatialKernelSolution.base s)
  /\ _aVec (SpatialKernelSolution.base s') = _aVec (SpatialKernelSolution.base s)
  /\ _id (SpatialKernelSolution.base s') = _id (SpatialKernelSolution.base s)
  /\ SpatialKernelSolution._spatialKernelFunction s'
     = SpatialKernelSolution.after_basis_values
         (SpatialKernelSolution._spatialKernelFunction s)
         (Z.to_nat (SpatialKernelSolution._nkt s))
  /\ SpatialKernelSolution._background s'
     = (if _fitForBackground (SpatialKernelSolution.base s)
        then SpatialKernelSolution.after_basis_values
               (SpatialKernelSolution._background s)
               (Z.to_nat (SpatialKernelSolution._nbt s))
        else SpatialKernelSolution._background s).
Proof.
  cbv zeta. rewrite addConstraint_state_stages.
  set (same := fun s' : SpatialKernelSolution.t =>
         SpatialKernelSolution._kernel s' = SpatialKernelSolution._kernel (evaluated s)
         /\ SpatialKernelSolution._kSum s' = SpatialKernelSolution._kSum (evaluated s)
         /\ SpatialKernelSolution._policy s' = SpatialKernelSolution._policy (evaluated s)
         /\ _solvedBy (SpatialKernelSolution.base s')
            = _solvedBy (SpatialKernelSolution.base (evaluated s))
         /\ _aVec (SpatialKernelSolution.base s')
            = _aVec (SpatialKernelSolution.base (evaluated s))
         /\ _id (SpatialKernelSolution.base s') = _id (SpatialKernelSolution.base (evaluated s))
         /\ SpatialKernelSolution._spatialKernelFunction s'
            = SpatialKernelSolution._spatialKernelFunction (evaluated s)
         /\ SpatialKernelSolution._background s'
            = SpatialKernelSolution._background (evaluated s)).
  assert (HM : forall f s', same s' -> same (SpatialKernelSolution.upd_mMat f s')).
  { intros f s' H. exact H. }
  assert (HB : forall f s', same s' -> same (SpatialKernelSolution.upd_bVec f s')).
  { intros f s' H. exact H. }
  assert (He : same (evaluated s)) by (unfold same; repeat split).
  assert (Hrow : forall qM wV pK a b nb nkt nbt dm mb fit s' m,
             same s' ->
             same (SpatialKernelSolution.fill_block_row qM wV pK a b nb nkt nbt dm mb
                     fit s' m)).
  { intros qM wV pK a b nb nkt nbt dm mb fit s' m Hs'.
    unfold SpatialKernelSolution.fill_block_row.
    apply HB.
    apply (if_holds fit same); intros _; [apply HM|];
      (apply fold_invariant; [intros; apply HM; assumption |]; apply HM; exact Hs'). }
  match goal with
  | |- SpatialKernelSolution._kernel ?u = _ /\ _ => assert (Hsame : same u)
  end.
  { unfold stages.
    apply (if_holds _ same); intros _;
      [unfold SpatialKernelSolution.fill_background; apply HB; apply HM |];
      (apply fold_invariant; [intros; apply Hrow; assumption |];
       apply (if_holds _ same); intros _; [| exact He];
       unfold SpatialKernelSolution.fill_first_term;
       apply (if_holds _ same); intros _; [apply HM|];
       (apply HB; apply fold_invariant; [intros; apply HM; assumption |];
        apply HM; exact He)). }
  destruct Hsame as [H1 [H2 [H3 [H4 [H5 [H6 [H7 H8]]]]]]].
  rewrite H1, H2, H3, H4, H5, H6, H7, H8.
  unfold evaluated.
  destruct (_fitForBackground (SpatialKernelSolution.base s)); repeat split.
Qed.

(** The sizes of the functions are kept, and with them the P vectors. *)
Lemma addConstraint_function_sizes (xCenter yCenter : float) (qMat : MatrixXd)
    (wVec : VectorXd) (s : SpatialKernelSolution.t) :
  spatial_sizes s -> function_sizes s ->
  let s' := SpatialKernelSolution.addConstraint_state xCenter yCenter qMat wVec s in
  function_sizes s'
  /\ forall x y, SpatialKernelSolution.pK_of s' x y = SpatialKernelSolution.pK_of s x y
                 /\ SpatialKernelSolution.pB_of s' x y = SpatialKernelSolution.pB_of s x y.
Proof.
  intros Hsizes [HfK HfB]. cbv zeta.
  destruct (addConstraint_spatial_sizes xCenter yCenter qMat wVec s Hsizes) as [Hsizes' _].
  pose proof (addConstraint_frame xCenter yCenter qMat wVec s) as Hframe.
  cbv zeta in Hframe.
  destruct Hframe as [_ [_ [_ [_ [_ [_ [HK HBg]]]]]]].
  pose proof (addConstraint_same_sizes xCenter yCenter qMat wVec s) as Hsame.
  destruct Hsame as [Hnkt [Hnbt Hfit]].
  destruct Hsizes as [_ [Hnkt0 [Hnbt0 _]]].
  destruct (after_basis_values_spec (SpatialKernelSolution._spatialKernelFunction s)
              (Z.to_nat (SpatialKernelSolution._nkt s)) ltac:(lia))
    as [_ [HlK [_ HvK]]].
  split; [split|].
  - rewrite HK, Hnkt, HlK. lia.
  - intros Hfit'. rewrite Hfit in Hfit'. rewrite HBg, Hnbt, Hfit'.
    destruct (after_basis_values_spec (SpatialKernelSolution._background s)
                (Z.to_nat (SpatialKernelSolution._nbt s))
                ltac:(specialize (HfB Hfit'); lia))
      as [_ [HlB _]].
    rewrite HlB. lia.
  - intros x y. unfold SpatialKernelSolution.pK_of, SpatialKernelSolution.pB_of.
    rewrite HK, HBg, Hnkt, Hnbt, Hfit. split; [apply HvK|].
    destruct (_fitForBackground (SpatialKernelSolution.base s)) eqn:Hf; [| reflexivity].
    destruct (after_basis_values_spec (SpatialKernelSolution._background s)
                (Z.to_nat (SpatialKernelSolution._nbt s))
                ltac:(specialize (HfB eq_refl); lia))
      as [_ [_ [_ HvB]]].
    apply HvB.
Qed.

(** X17. The constant first term. With a constant first term (the basis
    set "alard-lupton", or PCA) [addConstraint] gives the first basis kernel
    the single row 0, which it fills by hand: it adds [Q(0,0)] to M(0,0),
    [Q(0,m2) * pK] to the columns of the block of each other kernel [m2],
    which begins at [(m2 - 1) * nkt + 1], [Q(0,nBases) * pB] to the columns
    of the background when it is fit, and [w(0)] to b(0): the values of the
    spatial functions of row 0 itself do not enter. Column 0 below the
    diagonal is not written. *)
Theorem addConstraint_constant_first_term (xCenter yCenter : float) (qMat : MatrixXd)
    (wVec : VectorXd) (s : SpatialKernelSolution.t) :
  spatial_sizes s ->
  sized (Z.to_nat (SpatialKernelSolution._nt s)) s ->
  SpatialKernelSolution._constantFirstTerm s = true ->
  let nbases := SpatialKernelSolution._nbases s in
  let nkt := SpatialKernelSolution._nkt s in
  let nbt := SpatialKernelSolution._nbt s in
  let mb := Z.to_nat (SpatialKernelSolution._nt s - nbt) in
  let start := SpatialKernelSolution.offset nkt (nkt - 1) in
  let pK := vcoeff (SpatialKernelSolution.pK_of s xCenter yCenter) in
  let pB := vcoeff (SpatialKernelSolution.pB_of s xCenter yCenter) in
  let q := fun a b : Z => coeff qMat (Z.to_nat a) (Z.to_nat b) in
  let s' := SpatialKernelSolution.addConstraint_state xCenter yCenter qMat wVec s in
  coeff (mMat_of s') 0 0 = coeff (mMat_of s) 0 0 + q 0%Z 0%Z
  /\ (forall m2 j, (1 <= m2 < nbases)%Z -> (j < Z.to_nat nkt)%nat ->
        Z.of_nat (start m2) = ((m2 - 1) * nkt + 1)%Z
        /\ coeff (mMat_of s') 0 (start m2 + j)
           = coeff (mMat_of s) 0 (start m2 + j) + q 0%Z m2 * pK j)
  /\ (_fitForBackground (SpatialKernelSolution.base s) = true ->
      forall j, (j < Z.to_nat nbt)%nat ->
        coeff (mMat_of s') 0 (mb + j)
        = coeff (mMat_of s) 0 (mb + j) + q 0%Z nbases * pB j)
  /\ vcoeff (bVec_of s') 0 = vcoeff (bVec_of s) 0 + vcoeff wVec 0
  /\ (forall r, (1 <= r < Z.to_nat (SpatialKernelSolution._nt s))%nat ->
        coeff (mMat_of s') r 0 = coeff (mMat_of s) r 0).
Proof.
  intros Hsizes Hsized Hcft. cbv zeta.
  pose proof (fun r => addConstraint_keeps xCenter yCenter qMat wVec s r 0 Hsizes Hsized)
    as Hkeep.
  cbv zeta in Hkeep.
  rewrite addConstraint_state_stages in Hkeep |- *.
  accumulation s xCenter yCenter Hsizes.
  rewrite Hcft in *.
  assert (Hn1 : (1 <= Z.to_nat (SpatialKernelSolution._nt s))%nat) by nia.
  assert (Hstart : forall m, (1 <= m <= SpatialKernelSolution._nbases s)%Z ->
            Z.of_nat (SpatialKernelSolution.offset (SpatialKernelSolution._nkt s)
                        (SpatialKernelSolution._nkt s - 1) m)
            = ((m - 1) * SpatialKernelSolution._nkt s + 1)%Z).
  { intros m Hm. unfold SpatialKernelSolution.offset. rewrite Z2Nat.id; nia. }
  split.
  { apply (stages_first_row qMat wVec _ _ _ _ _ _ _ _ true _
             Hnb Hnkt Hnbt eq_refl Hmb Hn HpK HpB 0%nat _ (coeff qMat 0 0) (evaluated s)
             eq_refl ltac:(lia)).
    - intros s0 Hs0.
      apply (first_term_corner qMat wVec _ _ _ _ _ _ _ _ true _
               Hnb Hnkt eq_refl Hmb Hn HpK HpB _ s0 eq_refl Hn1 Hs0).
    - apply evaluated_keeps_entry. exact Hsized. }
  split.
  { intros m2 j Hm2 Hj. split; [apply Hstart; lia|].
    pose proof (Hstart m2 ltac:(lia)) as Hs2.
    assert (Hcn : (SpatialKernelSolution.offset (SpatialKernelSolution._nkt s)
                     (SpatialKernelSolution._nkt s - 1) m2 + j
                   < Z.to_nat (SpatialKernelSolution._nt s))%nat) by nia.
    apply (stages_first_row qMat wVec _ _ _ _ _ _ _ _ true _
             Hnb Hnkt Hnbt eq_refl Hmb Hn HpK HpB _ _
             (coeff qMat 0 (Z.to_nat m2)
              * vcoeff (SpatialKernelSolution.pK_of s xCenter yCenter) j)
             (evaluated s) eq_refl Hcn).
    - intros s0 Hs0.
      apply (first_term_row qMat wVec _ _ _ _ _ _ _ _ true _
               Hnb Hnkt Hnbt eq_refl Hmb Hn HpK HpB m2 j _ s0 eq_refl Hm2 Hj Hs0).
    - apply evaluated_keeps_entry. exact Hsized. }
  split.
  { intros Hfit j Hj.
    assert (Hcn : (Z.to_nat (SpatialKernelSolution._nt s - SpatialKernelSolution._nbt s) + j
                   < Z.to_nat (SpatialKernelSolution._nt s))%nat) by lia.
    apply (stages_first_row qMat wVec _ _ _ _ _ _ _ _ true _
             Hnb Hnkt Hnbt eq_refl Hmb Hn HpK HpB _ _
             (coeff qMat 0 (Z.to_nat (SpatialKernelSolution._nbases s))
              * vcoeff (SpatialKernelSolution.pB_of s xCenter yCenter) j)
             (evaluated s) eq_refl Hcn).
    - intros s0 Hs0.
      apply (first_term_cross qMat wVec _ _ _ _ _ _ _ _ true _
               Hnb Hnkt Hnbt eq_refl Hmb Hn HpK HpB j _ s0 eq_refl Hfit Hj Hs0).
    - apply evaluated_keeps_entry. exact Hsized. }
  split.
  { apply (stages_first_segment qMat wVec _ _ _ _ _ _ _ _ true _
             Hnb Hnkt Hnbt eq_refl Hmb Hn HpK HpB _ (evaluated s) eq_refl).
    apply evaluated_keeps_segment. exact Hsized. }
  intros r Hr.
  apply Hkeep; [lia | lia | intros _; lia | | right; nia].
  intros m Hm. right. right.
  pose proof (Hstart m ltac:(lia)) as Hs. nia.
Qed.

(** X18. What [addConstraint] leaves alone. The matrix is written from the
    block diagonal up only: the block of a pair of kernels [m2 < m1], and
    the rows of the background left of the background block, are as
    before. Beside the matrix and the vector the call changes the two
    spatial functions, which its loops leave holding the unit vector of
    their last parameter (the background function only when the
    background is fit): what parameters they had is lost, their lengths are
    not, and the vectors pK and pB of a later call are the same for it.
    The kernel, [_kSum], the property set, [solvedBy] and the coefficients
    are not touched. *)
Theorem addConstraint_footprint (xCenter yCenter : float) (qMat : MatrixXd)
    (wVec : VectorXd) (s : SpatialKernelSolution.t) :
  spatial_sizes s ->
  sized (Z.to_nat (SpatialKernelSolution._nt s)) s ->
  function_sizes s ->
  let nbases := SpatialKernelSolution._nbases s in
  let nkt := SpatialKernelSolution._nkt s in
  let nbt := SpatialKernelSolution._nbt s in
  let fit := _fitForBackground (SpatialKernelSolution.base s) in
  let m0 := if SpatialKernelSolution._constantFirstTerm s then 1%Z else 0%Z in
  let dm := if SpatialKernelSolution._constantFirstTerm s then (nkt - 1)%Z else 0%Z in
  let mb := Z.to_nat (SpatialKernelSolution._nt s - nbt) in
  let start := SpatialKernelSolution.offset nkt dm in
  let s' := SpatialKernelSolution.addConstraint_state xCenter yCenter qMat wVec s in
  (forall m1 m2 i j, (m0 <= m2 < m1)%Z -> (m1 < nbases)%Z ->
     (i < Z.to_nat nkt)%nat -> (j < Z.to_nat nkt)%nat ->
     coeff (mMat_of s') (start m1 + i) (start m2 + j)
     = coeff (mMat_of s) (start m1 + i) (start m2 + j))
  /\ (forall i c, (i < Z.to_nat nbt)%nat -> (c < mb)%nat ->
        coeff (mMat_of s') (mb + i) c = coeff (mMat_of s) (mb + i) c)
  /\ evaluate (SpatialKernelSolution._spatialKernelFunction s')
     = evaluate (SpatialKernelSolution._spatialKernelFunction s)
  /\ ((0 < nkt)%Z ->
      getParameters (SpatialKernelSolution._spatialKernelFunction s')
      = last_unit (Z.to_nat nkt))
  /\ (if fit
      then evaluate (SpatialKernelSolution._background s')
           = evaluate (SpatialKernelSolution._background s)
           /\ ((0 < nbt)%Z ->
               getParameters (SpatialKernelSolution._background s')
               = last_unit (Z.to_nat nbt))
      else SpatialKernelSolution._background s' = SpatialKernelSolution._background s)
  /\ function_sizes s'
  /\ (forall x y,
        SpatialKernelSolution.pK_of s' x y = SpatialKernelSolution.pK_of s x y
        /\ SpatialKernelSolution.pB_of s' x y = SpatialKernelSolution.pB_of s x y)
  /\ SpatialKernelSolution._kernel s' = SpatialKernelSolution._kernel s
  /\ SpatialKernelSolution._kSum s' = SpatialKernelSolution._kSum s
  /\ SpatialKernelSolution._policy s' = SpatialKernelSolution._policy s
  /\ _solvedBy (SpatialKernelSolution.base s') = _solvedBy (SpatialKernelSolution.base s)
  /\ _aVec (SpatialKernelSolution.base s') = _aVec (SpatialKernelSolution.base s).
Proof.
  intros Hsizes Hsized Hfun. cbv zeta.
  pose proof (fun r c => addConstraint_keeps xCenter yCenter qMat wVec s r c Hsizes Hsized)
    as Hkeep.
  cbv zeta in Hkeep.
  pose proof (addConstraint_frame xCenter yCenter qMat wVec s) as Hframe.
  cbv zeta in Hframe.
  destruct Hframe as [Hk [Hks [Hpol [Hsolved [Ha [_ [HK HBg]]]]]]].
  destruct (addConstraint_function_sizes xCenter yCenter qMat wVec s Hsizes Hfun)
    as [Hfun' Hvalues].
  pose proof (spatial_geometry s Hsizes) as Hgeo. cbv zeta in Hgeo.
  destruct Hgeo as [Hmb Hn].
  destruct Hsizes as [Hnb [Hnkt [Hnbt [Hnt Hnofit]]]].
  destruct Hfun as [HfK HfB].
  assert (Hstart : forall m,
            ((if SpatialKernelSolution._constantFirstTerm s then 1 else 0) <= m
             <= SpatialKernelSolution._nbases s)%Z ->
            Z.of_nat (SpatialKernelSolution.offset (SpatialKernelSolution._nkt s)
                        (if SpatialKernelSolution._constantFirstTerm s
                         then (SpatialKernelSolution._nkt s - 1)%Z else 0%Z) m)
            = (m * SpatialKernelSolution._nkt s
               - (if SpatialKernelSolution._constantFirstTerm s
                  then (SpatialKernelSolution._nkt s - 1)%Z else 0%Z))%Z).
  { intros m Hm. unfold SpatialKernelSolution.offset.
    rewrite Z2Nat.id; [reflexivity|].
    destruct (SpatialKernelSolution._constantFirstTerm s); nia. }
  split.
  { intros m1 m2 i j Hm2 Hm1 Hi Hj.
    pose proof (Hstart m1 ltac:(lia)) as H1. pose proof (Hstart m2 ltac:(lia)) as H2.
    apply Hkeep.
    - nia.
    - nia.
    - intros Hcft. rewrite Hcft in *. nia.
    - intros m Hm. pose proof (Hstart m ltac:(lia)) as H3.
      destruct (Z_lt_le_dec m m1) as [Hlt | Hge].
      + right. left. nia.
      + destruct (Z.eq_dec m m1) as [He | Hne].
        * right. right. subst m. nia.
        * left. nia.
    - left. nia. }
  split.
  { intros i c Hi Hc. apply Hkeep.
    - lia.
    - lia.
    - intros Hcft. rewrite Hcft in *. nia.
    - intros m Hm. pose proof (Hstart m ltac:(lia)) as H3. right. left. nia.
    - right. exact Hc. }
  destruct (after_basis_values_spec (SpatialKernelSolution._spatialKernelFunction s)
              (Z.to_nat (SpatialKernelSolution._nkt s)) ltac:(lia))
    as [HeK [_ [HuK _]]].
  split; [rewrite HK; exact HeK|].
  split; [intros Hpos; rewrite HK; apply HuK; lia|].
  split.
  { rewrite HBg.
    destruct (_fitForBackground (SpatialKernelSolution.base s)) eqn:Hfit; [| reflexivity].
    destruct (after_basis_values_spec (SpatialKernelSolution._background s)
                (Z.to_nat (SpatialKernelSolution._nbt s))
                ltac:(specialize (HfB eq_refl); lia))
      as [HeB [_ [HuB _]]].
    split; [exact HeB | intros Hpos; apply HuB; lia]. }
  split; [exact Hfun'|]. split; [exact Hvalues|].
  repeat split; assumption.
Qed.

(** X19. From the constructor to [solve]. The constructor leaves a
    solution with M and b zero, of the size [_nt] it computes, and not
    solved. Whatever constraints are added then, in any number, the calls
    return, the sizes stay, and M is zero below the diagonal: only its upper
    half is accumulated, which [solve] copies to the other. The solution
    stays unsolved, so [getSolutionPair] throws; the kernel is the one the
    constructor made, and the vectors pK and pB of a position are those of
    the spatial functions the constructor was given. *)
Theorem constraints_fill_upper_half (id : Z) (basisList : list Kernel)
    (spatialKernelFunction background : SpatialFunction) (policy : PropertySet)
    (s0 : SpatialKernelSolution.t) (id' : Z) (cs : list constraint) :
  SpatialKernelSolution.new id basisList spatialKernelFunction background policy
  = (Ok s0, id') ->
  let n := Z.to_nat (SpatialKernelSolution._nt s0) in
  (forall r c, (r < n)%nat -> (c < n)%nat -> coeff (mMat_of s0) r c = 0)
  /\ (forall k, (k < n)%nat -> vcoeff (bVec_of s0) k = 0)
  /\ exists s,
       addConstraints cs s0 = (Ok tt, s)
       /\ spatial_sizes s
       /\ SpatialKernelSolution._nt s = SpatialKernelSolution._nt s0
       /\ sized n s
       /\ upper_triangular n (mMat_of s)
       /\ _solvedBy (SpatialKernelSolution.base s) = NONE
       /\ SpatialKernelSolution.getSolutionPair s
          = (Throw (LSST_EXCEPT Exception
                      (text "Kernel not solved; cannot return solution")), s)
       /\ SpatialKernelSolution._kernel s = SpatialKernelSolution._kernel s0
       /\ (forall x y,
             SpatialKernelSolution.pK_of s x y
             = SpatialKernelSolution.basis_values spatialKernelFunction
                 (length (getParameters spatialKernelFunction)) x y
             /\ SpatialKernelSolution.pB_of s x y
                = (if getAsBool policy "fitForBackground"
                   then SpatialKernelSolution.basis_values background
                          (length (getParameters background)) x y
                   else [])).
Proof.
  intros Hnew. cbv zeta.
  destruct (new_spatial_sizes id basisList spatialKernelFunction background policy s0 id'
              Hnew) as [Hsizes0 Hsized0].
  (* what the constructor sets *)
  assert (Hinit : (forall r c, (r < Z.to_nat (SpatialKernelSolution._nt s0))%nat ->
                               (c < Z.to_nat (SpatialKernelSolution._nt s0))%nat ->
                               coeff (mMat_of s0) r c = 0)
                  /\ (forall k, (k < Z.to_nat (SpatialKernelSolution._nt s0))%nat ->
                                vcoeff (bVec_of s0) k = 0)
                  /\ _solvedBy (SpatialKernelSolution.base s0) = NONE
                  /\ function_sizes s0
                  /\ (forall x y,
                        SpatialKernelSolution.pK_of s0 x y
                        = SpatialKernelSolution.basis_values spatialKernelFunction
                            (length (getParameters spatialKernelFunction)) x y
                        /\ SpatialKernelSolution.pB_of s0 x y
                           = (if getAsBool policy "fitForBackground"
                              then SpatialKernelSolution.basis_values background
                                     (length (getParameters background)) x y
                              else []))).
  { clear Hsizes0 Hsized0. revert Hnew. unfold SpatialKernelSolution.new.
    unfold KernelSolution.new, KernelSolution.new_fit.
    destruct basisList as [|k0 ks]; [discriminate|].
    intros Hnew. injection Hnew as Hs _. subst s0.
    unfold mMat_of, bVec_of, function_sizes,
      SpatialKernelSolution.pK_of, SpatialKernelSolution.pB_of.
    cbn [SpatialKernelSolution._nbases SpatialKernelSolution._nkt SpatialKernelSolution._nbt
         SpatialKernelSolution._nt SpatialKernelSolution._constantFirstTerm
         SpatialKernelSolution._spatialKernelFunction SpatialKernelSolution._background
         SpatialKernelSolution.base
         KernelSolution._fitForBackground KernelSolution._mMat KernelSolution._bVec
         KernelSolution._solvedBy
         KernelSolution.set_fitForBackground KernelSolution.set_mMat KernelSolution.set_bVec].
    rewrite !Nat2Z.id.
    split; [intros r c Hr Hc; unfold Zero; rewrite coeff_generate by assumption; reflexivity|].
    split; [intros k Hk; unfold vZero; rewrite vcoeff_vgenerate by assumption; reflexivity|].
    split; [reflexivity|].
    split; [split; [reflexivity | intros Hfit; rewrite Hfit; reflexivity]|].
    intros x y. split; [reflexivity|].
    destruct (getAsBool policy "fitForBackground"); [rewrite Nat2Z.id|]; reflexivity. }
  destruct Hinit as [HM0 [Hb0 [Hnone0 [Hfun0 Hvalues0]]]].
  split; [exact HM0|]. split; [exact Hb0|].
  assert (Hup0 : upper_triangular (Z.to_nat (SpatialKernelSolution._nt s0)) (mMat_of s0)).
  { intros r c Hcr Hr. apply HM0; lia. }
  (* the calls, one after the other *)
  assert (Hrun : forall cs s,
            spatial_sizes s ->
            sized (Z.to_nat (SpatialKernelSolution._nt s)) s ->
            function_sizes s ->
            upper_triangular (Z.to_nat (SpatialKernelSolution._nt s)) (mMat_of s) ->
            exists s',
              addConstraints cs s = (Ok tt, s')
              /\ spatial_sizes s'
              /\ SpatialKernelSolution._nt s' = SpatialKernelSolution._nt s
              /\ sized (Z.to_nat (SpatialKernelSolution._nt s)) s'
              /\ upper_triangular (Z.to_nat (SpatialKernelSolution._nt s)) (mMat_of s')
              /\ _solvedBy (SpatialKernelSolution.base s')
                 = _solvedBy (SpatialKernelSolution.base s)
              /\ SpatialKernelSolution._kernel s' = SpatialKernelSolution._kernel s
              /\ (forall x y,
                    SpatialKernelSolution.pK_of s' x y = SpatialKernelSolution.pK_of s x y
                    /\ SpatialKernelSolution.pB_of s' x y
                       = SpatialKernelSolution.pB_of s x y)).
  { clear. intros cs. induction cs as [|c cs IH]; intros s Hsizes Hsized Hfun Hup.
    - exists s.
      split; [reflexivity|]. split; [exact Hsizes|]. split; [reflexivity|].
      split; [exact Hsized|]. split; [exact Hup|]. split; [reflexivity|].
      split; [reflexivity|]. intros x y. split; reflexivity.
    - set (s1 := SpatialKernelSolution.addConstraint_state
                   (at_x c) (at_y c) (q_of c) (w_of c) s).
      destruct (addConstraint_spatial_sizes (at_x c) (at_y c) (q_of c) (w_of c) s Hsizes)
        as [Hsizes1 Hnt1].
      pose proof (addConstraint_sized _ (at_x c) (at_y c) (q_of c) (w_of c) s Hsized)
        as Hsized1.
      destruct (addConstraint_function_sizes (at_x c) (at_y c) (q_of c) (w_of c) s
                  Hsizes Hfun) as [Hfun1 Hvalues1].
      pose proof (addConstraint_upper_triangular (at_x c) (at_y c) (q_of c) (w_of c) s
                    Hsizes Hsized Hup) as Hup1.
      pose proof (addConstraint_frame (at_x c) (at_y c) (q_of c) (w_of c) s) as Hframe.
      cbv zeta in Hframe. destruct Hframe as [Hk1 [_ [_ [Hsolved1 _]]]].
      fold s1 in Hsizes1, Hnt1, Hsized1, Hfun1, Hvalues1, Hup1, Hk1, Hsolved1.
      rewrite <- Hnt1 in Hsized1, Hup1.
      destruct (IH s1 Hsizes1 Hsized1 Hfun1 Hup1)
        as [s' [Hrun [Hsizes' [Hnt' [Hsized' [Hup' [Hsolved' [Hk' Hvalues']]]]]]]].
      exists s'. cbn [addConstraints].
      unfold SpatialKernelSolution.addConstraint. run. fold s1. rewrite Hrun.
      rewrite Hnt1 in Hsized', Hup', Hnt'.
      split; [reflexivity|]. split; [exact Hsizes'|]. split; [exact Hnt'|].
      split; [exact Hsized'|]. split; [exact Hup'|].
      split; [congruence|]. split; [congruence|].
      intros x y. destruct (Hvalues' x y) as [H1 H2]. destruct (Hvalues1 x y) as [H3 H4].
      split; congruence. }
  destruct (Hrun cs s0 Hsizes0 Hsized0 Hfun0 Hup0)
    as [s [Hadd [Hsizes [Hnt [Hsized [Hup [Hsolved [Hk Hvalues]]]]]]]].
  exists s. rewrite Hnone0 in Hsolved.
  split; [exact Hadd|]. split; [exact Hsizes|]. split; [exact Hnt|].
  split; [exact Hsized|]. split; [exact Hup|]. split; [exact Hsolved|].
  split.
  { unfold SpatialKernelSolution.getSolutionPair. run. rewrite Hsolved. reflexivity. }
  split; [exact Hk|].
  intros x y. destruct (Hvalues x y) as [H1 H2]. destruct (Hvalues0 x y) as [H3 H4].
  split; congruence.
Qed.

(** *** The pixels MaskedKernelSolution::buildWithMask uses *)

Lemma select_good_app {A : Type} (m1 m2 : list Z) (v1 v2 : list A) :
  length m1 = length v1 ->
  MaskedKernelSolution.select_good (m1 ++ m2) (v1 ++ v2)
  = MaskedKernelSolution.select_good m1 v1 ++ MaskedKernelSolution.select_good m2 v2.
Proof.
  revert v1. induction m1 as [|m m1 IH]; intros [|x v1] Hlen; try discriminate Hlen.
  - reflexivity.
  - cbn [app MaskedKernelSolution.select_good].
    injection Hlen as Hlen. rewrite (IH v1 Hlen).
    destruct (m =? 0)%Z; reflexivity.
Qed.

Lemma select_good_map {A B : Type} (fm : B -> Z) (fv : B -> A) (xs : list B) :
  MaskedKernelSolution.select_good (map fm xs) (map fv xs)
  = map fv (filter (fun x => (fm x =? 0)%Z) xs).
Proof.
  induction xs as [|x xs IH]; [reflexivity|].
  cbn [map MaskedKernelSolution.select_good filter]. rewrite IH.
  destruct (fm x =? 0)%Z; reflexivity.
Qed.

(** The pixels the loops keep: those of the positions of the box at which
    the mask is zero, in the order of the box. *)
Lemma select_good_flatten {A : Type} (d : A) (box : Box2I) (mask : list (list Z))
    (mox moy : Z) (arr : list (list A)) (ox oy : Z) :
  MaskedKernelSolution.select_good
    (MaskedKernelSolution.flatten 0%Z box mask mox moy)
    (MaskedKernelSolution.flatten d box arr ox oy)
  = map (at_position d arr ox oy) (good_positions box mask mox moy).
Proof.
  unfold MaskedKernelSolution.flatten, good_positions.
  induction (MaskedKernelSolution.Zseq (minY box) (Z.to_nat (maxY box - minY box + 1)))
    as [|y ys IH]; [reflexivity|].
  cbn [flat_map]. rewrite select_good_app by (rewrite !length_map; reflexivity).
  rewrite IH, map_app. f_equal.
  rewrite (select_good_map
             (fun x => nth (Z.to_nat (x - mox)) (nth (Z.to_nat (y - moy)) mask []) 0%Z)
             (fun x => nth (Z.to_nat (x - ox)) (nth (Z.to_nat (y - oy)) arr []) d)).
  rewrite map_map. reflexivity.
Qed.

Lemma loadVectors_dims (l : list VectorXd) :
  forall cMat k, rows (MaskedKernelSolution.loadVectors cMat k l) = rows cMat
                 /\ cols (MaskedKernelSolution.loadVectors cMat k l) = cols cMat.
Proof.
  induction l as [|c l IH]; intros cMat k; [split; reflexivity|].
  cbn [MaskedKernelSolution.loadVectors].
  destruct (IH (set_col cMat k c) (S k)) as [Hr Hc].
  rewrite Hr, Hc. split; reflexivity.
Qed.

Ltac dims :=
  repeat first
    [ rewrite (proj1 (loadVectors_dims _ _ _))
    | rewrite (proj2 (loadVectors_dims _ _ _))
    | progress cbn [rows cols generate set_col fill_col Zero mul mul_diag transpose
                    mulv vgenerate getKernelList length]
    | progress unfold mulv
    | rewrite length_vgenerate
    | rewrite length_map
    | rewrite length_seq ].

(** X16. The pixels [buildWithMask] uses. When the call returns, the data
    vector holds the science pixels, and the weights the reciprocals of the
    variance pixels, of exactly the positions of the template's box at
    which the final mask (the flagged pixels of the pixel mask, grown by
    the half width of the kernel) is zero, in the order of the box; the
    design matrix has one row for each of them and one column for each
    parameter, the last one all ones when the background is fit; M is
    C^T V C and b is C^T V i, square and of the number of parameters
    whatever the mask leaves (also when it leaves no pixel); the kernel and
    the state of the solver are untouched. So science and variance images
    that differ only at masked positions give the same system, as long as
    the variance passes the test on its minimum, which is taken over the
    whole image, masked pixels included. *)
Theorem buildWithMask_uses_good_pixels
    (templateImage scienceImage varianceEstimate : Image) (pixelMask : Mask) (s s' : t) :
  MaskedKernelSolution.buildWithMask templateImage scienceImage varianceEstimate pixelMask s
  = (Ok tt, s') ->
  let good := good_positions (getBBox templateImage)
                (mask_array (finalMask_of (_kernel s) pixelMask))
                (x0 templateImage) (y0 templateImage) in
  let nParameters := (length (getKernelList (_kernel s))
                      + (if _fitForBackground (base s) then 1 else 0))%nat in
  let science (im : Image) := at_position 0 (array im) (x0 im) (y0 im) in
  _iVec s' = map (science scienceImage) good
  /\ _ivVec s' = map (fun p => 1 / science varianceEstimate p) good
  /\ rows (_cMat s') = length good
  /\ cols (_cMat s') = nParameters
  /\ (_fitForBackground (base s) = true ->
      forall i, (i < length good)%nat -> coeff (_cMat s') i (nParameters - 1) = 1)
  /\ _mMat (base s') = mul (mul_diag (transpose (_cMat s')) (_ivVec s')) (_cMat s')
  /\ _bVec (base s') = mulv (mul_diag (transpose (_cMat s')) (_ivVec s')) (_iVec s')
  /\ (rows (_mMat (base s')) = nParameters /\ cols (_mMat (base s')) = nParameters
      /\ length (_bVec (base s')) = nParameters)
  /\ (_kernel s' = _kernel s /\ _background s' = _background s /\ _kSum s' = _kSum s
      /\ _solvedBy (base s') = _solvedBy (base s) /\ _aVec (base s') = _aVec (base s))
  /\ (forall scienceImage2 varianceEstimate2,
        (forall p, In p good -> science scienceImage2 p = science scienceImage p) ->
        (forall p, In p good -> science varianceEstimate2 p = science varianceEstimate p) ->
        (makeStatistics_MIN varianceEstimate2 <? 0) = false ->
        (makeStatistics_MIN varianceEstimate2 =? 0) = false ->
        MaskedKernelSolution.buildWithMask templateImage scienceImage2 varianceEstimate2
          pixelMask s = (Ok tt, s')).
Proof.
  intros Hbuild. cbv zeta.
  set (good := good_positions (getBBox templateImage)
                 (mask_array (finalMask_of (_kernel s) pixelMask))
                 (x0 templateImage) (y0 templateImage)).
  assert (Hgood : forall (im : Image),
            MaskedKernelSolution.select_good
              (MaskedKernelSolution.flatten 0%Z (getBBox templateImage)
                 (mask_array (finalMask_of (_kernel s) pixelMask))
                 (x0 templateImage) (y0 templateImage))
              (MaskedKernelSolution.flatten 0 (getBBox templateImage)
                 (array im) (x0 im) (y0 im))
            = map (at_position 0 (array im) (x0 im) (y0 im)) good).
  { intros im. apply select_good_flatten. }
  revert Hbuild.
  unfold MaskedKernelSolution.buildWithMask.
  destruct (makeStatistics_MIN varianceEstimate <? 0); [discriminate|].
  destruct (makeStatistics_MIN varianceEstimate =? 0); [discriminate|].
  unfold super. run. cbv beta zeta.
  fold (finalMask_of (_kernel s) pixelMask).
  rewrite !Hgood.
  intros Hbuild.
  split; [| split; [| split; [| split; [| split; [| split; [| split; [| split; [| split]]]]]]]].
  10: { intros sci2 var2 Hsci Hvar Hneg Hzero.
        rewrite Hneg, Hzero. rewrite !Hgood.
        rewrite (map_ext_in _ _ good Hsci), (map_ext_in _ _ good Hvar).
        exact Hbuild. }
  all: injection Hbuild as Hs'; subst s';
    cbn [base set_base _cMat set_cMat _iVec set_iVec _ivVec set_ivVec
         _kernel _background _kSum _mMat set_mMat _bVec set_bVec _aVec _solvedBy
         _fitForBackground].
  - reflexivity.
  - unfold varray_inverse. rewrite map_map. reflexivity.
  - destruct (_fitForBackground (base s)); dims; reflexivity.
  - destruct (_fitForBackground (base s)); dims; reflexivity.
  - intros Hfit i Hi. rewrite Hfit. apply coeff_fill_col; dims; lia.
  - reflexivity.
  - reflexivity.
  - destruct (_fitForBackground (base s)); dims; repeat split; reflexivity.
  - repeat split; reflexivity.
Qed.

(** *** BuildSingleKernelVisitor::processCandidate *)

(** The most recent solution after a build that returned without marking
    the candidate BAD. *)
Lemma build_ok_recent (fuel : nat) (basisList : list Kernel) (hMat : MatrixXd)
    (w w' : KernelCandidate.state) :
  KernelCandidate.build_h fuel basisList hMat w = (Ok tt, w') ->
  KernelCandidate._status (KernelCandidate.this w') <> BAD ->
  KernelCandidate._isInitialized (KernelCandidate.this w) = true
  \/ KernelCandidate._kernelSolutionPca (KernelCandidate.this w) = None ->
  exists sol, recent (KernelCandidate.this w') = Some sol
              /\ usable (KernelCandidate.static_of sol).
Proof.
  intros Hbuild Hst Hinv.
  destruct (build_ok_usable fuel basisList hMat w w' Hbuild Hst) as [sol [Hu Hslot]].
  pose proof (build_h_keeps fuel basisList hMat w) as Hkeep. cbv zeta in Hkeep.
  rewrite Hbuild in Hkeep. cbn [fst snd] in Hkeep.
  destruct Hkeep as [_ [_ [_ [_ [_ [_ [_ [_ [_ Hp]]]]]]]]].
  exists sol. split; [| exact Hu].
  unfold recent. destruct (KernelCandidate._isInitialized (KernelCandidate.this w)) eqn:Hi.
  - rewrite Hslot. reflexivity.
  - destruct Hinv as [Hinv | Hinv]; [congruence|].
    rewrite (Hp eq_refl), Hinv. exact Hslot.
Qed.

Lemma status_not_BAD {A : Type} (s : Status) (a b : A) :
  s <> BAD -> match s with BAD => a | _ => b end = b.
Proof. destruct s; [intros H; exfalso; apply H; reflexivity | reflexivity ..]. Qed.

Lemma setStatus_same (c : KernelCandidate.t) :
  KernelCandidate.setStatus (KernelCandidate._status c) c = c.
Proof. destruct c. reflexivity. Qed.

Section Visitor.
Context {I : Statistics}.

(** The build of a visit, on the candidate. *)
Lemma visitor_build (fuel : nat) (v : BuildSingleKernelVisitor.t)
    (w : BuildSingleKernelVisitor.world) :
  (if BuildSingleKernelVisitor._useRegularization v
   then
     fun t0 : BuildSingleKernelVisitor.world =>
       let (r, s') :=
         KernelCandidate.build_h fuel (BuildSingleKernelVisitor._basisList v)
           (BuildSingleKernelVisitor._hMat v) (BuildSingleKernelVisitor.kCandidate t0) in
       (r, BuildSingleKernelVisitor.set_kCandidate s' t0)
   else
     fun t0 : BuildSingleKernelVisitor.world =>
       let (r, s') :=
         KernelCandidate.build fuel (BuildSingleKernelVisitor._basisList v)
           (BuildSingleKernelVisitor.kCandidate t0) in
       (r, BuildSingleKernelVisitor.set_kCandidate s' t0)) w
  = let (r, s') :=
      KernelCandidate.build_h fuel (BuildSingleKernelVisitor._basisList v) (hMat_of v)
        (BuildSingleKernelVisitor.kCandidate w) in
    (r, BuildSingleKernelVisitor.set_kCandidate s' w).
Proof.
  unfold hMat_of. destruct (BuildSingleKernelVisitor._useRegularization v); reflexivity.
Qed.

(** The first statistics of a visit, on the visitor's object. *)
Lemma apply_first (v : BuildSingleKernelVisitor.t) (diffim : MaskedImage)
    (w : BuildSingleKernelVisitor.world) :
  BuildSingleKernelVisitor.self w = v ->
  BuildSingleKernelVisitor.apply diffim
    (if BuildSingleKernelVisitor._useCoreStats v
     then Some (BuildSingleKernelVisitor._coreRadius v) else None) w
  = (match fst (first_statistics v diffim) with Some e => Throw e | None => Ok tt end,
     BuildSingleKernelVisitor.set_self
       (BuildSingleKernelVisitor.set_imstats (snd (first_statistics v diffim)) v) w).
Proof.
  intros Hv. unfold BuildSingleKernelVisitor.apply, first_statistics. rewrite Hv.
  destruct (BuildSingleKernelVisitor._useCoreStats v);
    match goal with |- context [let (_, _) := ?x in _] => destruct x end; reflexivity.
Qed.

Ltac same_candidate :=
  match goal with
  | |- exists x, ?c = KernelCandidate.setStatus x ?c2 =>
      first [ exists (KernelCandidate._status c2); symmetry; apply setStatus_same
            | eexists; reflexivity ]
  end.

Ltac visit :=
  unfold BuildSingleKernelVisitor.processCandidate; cbn [negb];
  run; cbv beta;
  unfold BuildSingleKernelVisitor.setStatus, BuildSingleKernelVisitor.reject;
  unfold BuildSingleKernelVisitor.on_candidate, BuildSingleKernelVisitor.on_self, lift;
  run; cbv beta.

Ltac visitor_fields :=
  cbn [BuildSingleKernelVisitor.kCandidate BuildSingleKernelVisitor.set_kCandidate
       BuildSingleKernelVisitor.self BuildSingleKernelVisitor.set_self
       BuildSingleKernelVisitor._chi2 BuildSingleKernelVisitor.setChi2
       BuildSingleKernelVisitor._imstats BuildSingleKernelVisitor.set_imstats
       BuildSingleKernelVisitor._nRejected BuildSingleKernelVisitor.set_nRejected
       BuildSingleKernelVisitor._nProcessed BuildSingleKernelVisitor.set_nProcessed
       BuildSingleKernelVisitor._basisList BuildSingleKernelVisitor._policy
       BuildSingleKernelVisitor._hMat BuildSingleKernelVisitor._skipBuilt
       BuildSingleKernelVisitor._useRegularization BuildSingleKernelVisitor._useCoreStats
       BuildSingleKernelVisitor._coreRadius
       KernelCandidate.this KernelCandidate.on_this KernelCandidate.SolutionId
       KernelCandidate._status KernelCandidate.setStatus
       negb fst snd].

(** X8. BAD is absorbing under [processCandidate]. A candidate that is BAD
    when the visitor reaches it is BAD when the visitor leaves it, and no
    exception of pexExcept leaves the call. Unless the visit is skipped (skipBuilt, and the
    candidate initialized) the candidate is built again; whatever the build
    does, the visit ends before any statistics are taken (chi2, the
    statistics object and the count of processed candidates are as they
    were), and a visit that returns counts the candidate as rejected once
    more. *)
Theorem processCandidate_keeps_BAD (fuel : nat) (w : BuildSingleKernelVisitor.world) :
  KernelCandidate._status
    (KernelCandidate.this (BuildSingleKernelVisitor.kCandidate w)) = BAD ->
  let v := BuildSingleKernelVisitor.self w in
  let r := BuildSingleKernelVisitor.processCandidate fuel true w in
  let w' := snd r in
  let v' := BuildSingleKernelVisitor.self w' in
  KernelCandidate._status
    (KernelCandidate.this (BuildSingleKernelVisitor.kCandidate w')) = BAD
  /\ (forall e, fst r <> Throw e)
  /\ BuildSingleKernelVisitor._chi2 w' = BuildSingleKernelVisitor._chi2 w
  /\ BuildSingleKernelVisitor._imstats v' = BuildSingleKernelVisitor._imstats v
  /\ BuildSingleKernelVisitor._nProcessed v' = BuildSingleKernelVisitor._nProcessed v
  /\ (if BuildSingleKernelVisitor._skipBuilt v
         && KernelCandidate._isInitialized
              (KernelCandidate.this (BuildSingleKernelVisitor.kCandidate w))
      then r = (Ok tt, w)
      else
        (fst r = Ok tt ->
         BuildSingleKernelVisitor._nRejected v'
         = (BuildSingleKernelVisitor._nRejected v + 1)%Z)
        /\ (fst r <> Ok tt ->
            BuildSingleKernelVisitor._nRejected v' = BuildSingleKernelVisitor._nRejected v)).
Proof.
  intros Hbad v r w'. cbv zeta. subst w' r.
  visit. fold v.
  destruct (BuildSingleKernelVisitor._skipBuilt v && _) eqn:Hskip.
  { cbn [fst snd]. repeat split; auto; discriminate. }
  rewrite visitor_build.
  pose proof (build_h_keeps fuel (BuildSingleKernelVisitor._basisList v) (hMat_of v)
                (BuildSingleKernelVisitor.kCandidate w)) as Hkeep.
  cbv zeta in Hkeep. destruct Hkeep as [Hst _].
  destruct (KernelCandidate.build_h _ _ _ _) as [[[] | e | ] k2]; cbn [fst snd] in *.
  all: assert (Hk2 : KernelCandidate._status (KernelCandidate.this k2) = BAD)
         by (destruct Hst as [Hst | Hst]; congruence).
  all: visitor_fields.
  all: try rewrite Hk2.
  all: cbn.
  all: repeat split; auto; try discriminate;
    try (intros H; exfalso; apply H; reflexivity).
Qed.

(** The visit of a candidate, by what it leaves. *)
Lemma visit_outcome (fuel : nat) (w : BuildSingleKernelVisitor.world) :
  let k := BuildSingleKernelVisitor.kCandidate w in
  let v := BuildSingleKernelVisitor.self w in
  KernelCandidate._isInitialized (KernelCandidate.this k) = true
  \/ KernelCandidate._kernelSolutionPca (KernelCandidate.this k) = None ->
  let r := BuildSingleKernelVisitor.processCandidate fuel true w in
  let w' := snd r in
  let v' := BuildSingleKernelVisitor.self w' in
  let status' := KernelCandidate._status
                   (KernelCandidate.this (BuildSingleKernelVisitor.kCandidate w')) in
  (forall e, fst r <> Throw e)
  /\ (BuildSingleKernelVisitor._nRejected v' = BuildSingleKernelVisitor._nRejected v
      \/ BuildSingleKernelVisitor._nRejected v'
         = (BuildSingleKernelVisitor._nRejected v + 1)%Z)
  /\ (BuildSingleKernelVisitor._nProcessed v' = BuildSingleKernelVisitor._nProcessed v
      \/ BuildSingleKernelVisitor._nProcessed v'
         = (BuildSingleKernelVisitor._nProcessed v + 1)%Z)
  /\ (BuildSingleKernelVisitor._basisList v' = BuildSingleKernelVisitor._basisList v
      /\ BuildSingleKernelVisitor._policy v' = BuildSingleKernelVisitor._policy v
      /\ BuildSingleKernelVisitor._hMat v' = BuildSingleKernelVisitor._hMat v
      /\ BuildSingleKernelVisitor._skipBuilt v' = BuildSingleKernelVisitor._skipBuilt v
      /\ BuildSingleKernelVisitor._useRegularization v'
         = BuildSingleKernelVisitor._useRegularization v
      /\ BuildSingleKernelVisitor._useCoreStats v' = BuildSingleKernelVisitor._useCoreStats v
      /\ BuildSingleKernelVisitor._coreRadius v' = BuildSingleKernelVisitor._coreRadius v)
  /\ (BuildSingleKernelVisitor._nRejected v'
      = (BuildSingleKernelVisitor._nRejected v + 1)%Z ->
      fst r = Ok tt /\ status' = BAD)
  /\ (if BuildSingleKernelVisitor._skipBuilt v
         && KernelCandidate._isInitialized (KernelCandidate.this k)
      then r = (Ok tt, w)
      else
        let k2 := snd (KernelCandidate.build_h fuel (BuildSingleKernelVisitor._basisList v)
                         (hMat_of v) k) in
        KernelCandidate.SolutionId (BuildSingleKernelVisitor.kCandidate w')
        = KernelCandidate.SolutionId k2
        /\ exists x,
             KernelCandidate.this (BuildSingleKernelVisitor.kCandidate w')
             = KernelCandidate.setStatus x (KernelCandidate.this k2))
  /\ (BuildSingleKernelVisitor._skipBuilt v
      && KernelCandidate._isInitialized (KernelCandidate.this k) = false ->
      fst r = Ok tt ->
      (status' = BAD \/ status' = GOOD)
      /\ (status' = GOOD ->
      exists k2 sol st,
        KernelCandidate.build_h fuel (BuildSingleKernelVisitor._basisList v) (hMat_of v) k
        = (Ok tt, k2)
        /\ recent (KernelCandidate.this k2) = Some sol
        /\ usable (KernelCandidate.static_of sol)
        /\ first_statistics v (diffim_of k2 sol) = (None, st)
        /\ residuals_pass (BuildSingleKernelVisitor._policy v) st
        /\ BuildSingleKernelVisitor._chi2 w' = ImageStatistics_getVariance st
        /\ BuildSingleKernelVisitor._nProcessed v'
           = (BuildSingleKernelVisitor._nProcessed v + 1)%Z
        /\ BuildSingleKernelVisitor._nRejected v'
           = BuildSingleKernelVisitor._nRejected v)).
Proof.
  intros k v Hinv r w' v' status'. subst status' v' w' r.
  visit. fold v. fold k.
  destruct (BuildSingleKernelVisitor._skipBuilt v && _) eqn:Hskip.
  { cbn [fst snd]. fold v.
    repeat split; auto; try discriminate; try lia; try same_candidate. }
  rewrite visitor_build. fold k.
  pose proof (build_h_keeps fuel (BuildSingleKernelVisitor._basisList v) (hMat_of v) k)
    as Hkeep.
  cbv zeta in Hkeep. destruct Hkeep as [Hst _].
  pose proof (build_ok_recent fuel (BuildSingleKernelVisitor._basisList v) (hMat_of v) k)
    as Hrecent.
  destruct (KernelCandidate.build_h _ _ _ k) as [[[] | e | ] k2]; cbn [fst snd] in *.
  2, 3: visitor_fields; fold v; repeat split; auto; try discriminate; try lia; try same_candidate.
  specialize (Hrecent k2 eq_refl).
  visitor_fields.
  assert (Hcases : KernelCandidate._status (KernelCandidate.this k2) = BAD
                   \/ KernelCandidate._status (KernelCandidate.this k2) <> BAD)
    by (destruct (KernelCandidate._status (KernelCandidate.this k2));
        [left | right | right]; congruence).
  destruct Hcases as [Hb | Hnb].
  { rewrite Hb. visitor_fields. fold v. rewrite Hb.
    repeat split; auto; try discriminate; try lia; try same_candidate. }
  rewrite (status_not_BAD _ _ _ Hnb).
  destruct (Hrecent Hnb Hinv) as [sol [Hrec Hu]].
  destruct (recent_getters k2 sol Hrec (proj1 Hu)) as [_ [G2 [G3 [_ [_ G6]]]]].
  visitor_fields. rewrite G6. cbv beta iota. visitor_fields.
  fold (diffim_of k2 sol).
  rewrite (apply_first v (diffim_of k2 sol)) by reflexivity.
  destruct (first_statistics v (diffim_of k2 sol)) as [[e1 | ] st] eqn:Hfs;
    cbn [fst snd]; cbv beta iota; visitor_fields.
  { repeat split; auto; try discriminate; try lia; try same_candidate. }
  rewrite G3. cbv beta iota. visitor_fields.
  rewrite G2. cbv beta iota. visitor_fields.
  destruct (is_nan (ImageStatistics_getMean st)) eqn:Hm;
    [| destruct (is_nan (ImageStatistics_getRms st)) eqn:Hr]; cbn [orb];
    cbv beta iota; visitor_fields.
  1, 2: repeat split; auto; try discriminate; try lia; try same_candidate.
  destruct (getAsBool (BuildSingleKernelVisitor._policy v) "singleKernelClipping") eqn:Hc;
    [destruct (getAsDouble (BuildSingleKernelVisitor._policy v) "candidateResidualMeanMax"
               <? abs (ImageStatistics_getMean st)) eqn:Hmean;
     [| destruct (getAsDouble (BuildSingleKernelVisitor._policy v) "candidateResidualStdMax"
                  <? ImageStatistics_getRms st) eqn:Hrms] |];
    cbv beta iota; visitor_fields.
  all: destruct (BuildSingleKernelVisitor._useCoreStats v) eqn:Hcore; cbn [negb];
    cbv beta iota; unfold BuildSingleKernelVisitor.apply; visitor_fields.
  all: try match goal with
           | |- context [ImageStatistics_apply_core ?d ?c ?i] =>
               destruct (ImageStatistics_apply_core d c i) as [[e2 | ] st2]
           end; cbv beta iota; visitor_fields.
  all: repeat split; auto; try discriminate; try lia; try same_candidate.
  all: intros _; exists k2, sol, st; unfold residuals_pass;
    repeat (split; [try assumption; try reflexivity |]); try assumption;
    try reflexivity.
  all: repeat split; try assumption; intros; congruence.
Qed.

(** X9. What a visit of [processCandidate] guarantees for a KernelCandidate
    that is initialized or has no pca solution. No exception of pexExcept
    leaves the call (on a grid of lambdas that never ends it does not
    return: the program runs there until no memory is left).
    Each of the two counters stays or goes up by one, and nothing else of
    the visitor changes but the statistics object. A visit that counts a
    rejection returns with the candidate BAD. A visit that is skipped
    changes nothing; one that is not leaves the candidate as [build] left
    it but for the status. A visit that is not skipped,
    returns and leaves the candidate GOOD has built it, read the difference image
    of a most recent solution that is solved and free of NaN, taken
    statistics that are not NaN and, with singleKernelClipping, not above
    candidateResidualMeanMax and candidateResidualStdMax, set chi2 to their
    variance, counted the candidate as processed and not as rejected. A
    visit that is not skipped and returns leaves the candidate BAD or
    GOOD, never UNKNOWN. *)
Theorem processCandidate_outcome (fuel : nat) (w : BuildSingleKernelVisitor.world) :
  let k := BuildSingleKernelVisitor.kCandidate w in
  let v := BuildSingleKernelVisitor.self w in
  KernelCandidate._isInitialized (KernelCandidate.this k) = true
  \/ KernelCandidate._kernelSolutionPca (KernelCandidate.this k) = None ->
  let r := BuildSingleKernelVisitor.processCandidate fuel true w in
  let w' := snd r in
  let v' := BuildSingleKernelVisitor.self w' in
  let status' := KernelCandidate._status
                   (KernelCandidate.this (BuildSingleKernelVisitor.kCandidate w')) in
  (forall e, fst r <> Throw e)
  /\ (BuildSingleKernelVisitor._nRejected v' = BuildSingleKernelVisitor._nRejected v
      \/ BuildSingleKernelVisitor._nRejected v'
         = (BuildSingleKernelVisitor._nRejected v + 1)%Z)
  /\ (BuildSingleKernelVisitor._nProcessed v' = BuildSingleKernelVisitor._nProcessed v
      \/ BuildSingleKernelVisitor._nProcessed v'
         = (BuildSingleKernelVisitor._nProcessed v + 1)%Z)
  /\ (BuildSingleKernelVisitor._basisList v' = BuildSingleKernelVisitor._basisList v
      /\ BuildSingleKernelVisitor._policy v' = BuildSingleKernelVisitor._policy v
      /\ BuildSingleKernelVisitor._hMat v' = BuildSingleKernelVisitor._hMat v
      /\ BuildSingleKernelVisitor._skipBuilt v' = BuildSingleKernelVisitor._skipBuilt v
      /\ BuildSingleKernelVisitor._useRegularization v'
         = BuildSingleKernelVisitor._useRegularization v
      /\ BuildSingleKernelVisitor._useCoreStats v' = BuildSingleKernelVisitor._useCoreStats v
      /\ BuildSingleKernelVisitor._coreRadius v' = BuildSingleKernelVisitor._coreRadius v)
  /\ (BuildSingleKernelVisitor._nRejected v'
      = (BuildSingleKernelVisitor._nRejected v + 1)%Z ->
      fst r = Ok tt /\ status' = BAD)
  /\ (if BuildSingleKernelVisitor._skipBuilt v
         && KernelCandidate._isInitialized (KernelCandidate.this k)
      then r = (Ok tt, w)
      else
        let k2 := snd (KernelCandidate.build_h fuel (BuildSingleKernelVisitor._basisList v)
                         (hMat_of v) k) in
        KernelCandidate.SolutionId (BuildSingleKernelVisitor.kCandidate w')
        = KernelCandidate.SolutionId k2
        /\ exists x,
             KernelCandidate.this (BuildSingleKernelVisitor.kCandidate w')
             = KernelCandidate.setStatus x (KernelCandidate.this k2))
  /\ (BuildSingleKernelVisitor._skipBuilt v
      && KernelCandidate._isInitialized (KernelCandidate.this k) = false ->
      fst r = Ok tt ->
      (status' = BAD \/ status' = GOOD)
      /\ (status' = GOOD ->
      exists k2 sol st,
        KernelCandidate.build_h fuel (BuildSingleKernelVisitor._basisList v) (hMat_of v) k
        = (Ok tt, k2)
        /\ recent (KernelCandidate.this k2) = Some sol
        /\ usable (KernelCandidate.static_of sol)
        /\ first_statistics v (diffim_of k2 sol) = (None, st)
        /\ residuals_pass (BuildSingleKernelVisitor._policy v) st
        /\ BuildSingleKernelVisitor._chi2 w' = ImageStatistics_getVariance st
        /\ BuildSingleKernelVisitor._nProcessed v'
           = (BuildSingleKernelVisitor._nProcessed v + 1)%Z
        /\ BuildSingleKernelVisitor._nRejected v'
           = BuildSingleKernelVisitor._nRejected v)).
Proof. exact (visit_outcome fuel w). Qed.


(** X10. Rejections the visitor does not count. When the first statistics
    of a visit throw, the candidate is marked BAD and the visit returns
    with neither counter changed and chi2 as it was. When the residuals
    pass and the statistics of the core, taken last when useCoreStats is
    off, throw, the candidate, just marked GOOD, is marked BAD: it has been
    counted as processed, its chi2 is set, and it is not counted as
    rejected. *)
Theorem statistics_failure_not_counted (fuel : nat) (w : BuildSingleKernelVisitor.world)
    (k2 : KernelCandidate.state) (sol : KernelCandidate.Solution) :
  let k := BuildSingleKernelVisitor.kCandidate w in
  let v := BuildSingleKernelVisitor.self w in
  BuildSingleKernelVisitor._skipBuilt v
  && KernelCandidate._isInitialized (KernelCandidate.this k) = false ->
  KernelCandidate.build_h fuel (BuildSingleKernelVisitor._basisList v) (hMat_of v) k
  = (Ok tt, k2) ->
  KernelCandidate._status (KernelCandidate.this k2) <> BAD ->
  recent (KernelCandidate.this k2) = Some sol ->
  _solvedBy (base (KernelCandidate.static_of sol)) <> NONE ->
  (forall e st,
     first_statistics v (diffim_of k2 sol) = (Some e, st) ->
     BuildSingleKernelVisitor.processCandidate fuel true w
     = (Ok tt,
        {| BuildSingleKernelVisitor.self := BuildSingleKernelVisitor.set_imstats st v;
           BuildSingleKernelVisitor.kCandidate :=
             KernelCandidate.on_this (KernelCandidate.setStatus BAD) k2;
           BuildSingleKernelVisitor._chi2 := BuildSingleKernelVisitor._chi2 w |}))
  /\ (forall st e st2,
        first_statistics v (diffim_of k2 sol) = (None, st) ->
        residuals_pass (BuildSingleKernelVisitor._policy v) st ->
        BuildSingleKernelVisitor._useCoreStats v = false ->
        ImageStatistics_apply_core (diffim_of k2 sol)
          (BuildSingleKernelVisitor._coreRadius v) st = (Some e, st2) ->
        BuildSingleKernelVisitor.processCandidate fuel true w
        = (Ok tt,
           {| BuildSingleKernelVisitor.self :=
                BuildSingleKernelVisitor.set_imstats st2
                  (BuildSingleKernelVisitor.set_nProcessed
                     (BuildSingleKernelVisitor._nProcessed v + 1) v);
              BuildSingleKernelVisitor.kCandidate :=
                KernelCandidate.on_this (KernelCandidate.setStatus BAD) k2;
              BuildSingleKernelVisitor._chi2 := ImageStatistics_getVariance st |})).
Proof.
  intros k v Hskip Hbuild Hnb Hrec Hsolved.
  destruct (recent_getters k2 sol Hrec Hsolved) as [_ [G2 [G3 [_ [_ G6]]]]].
  split.
  - intros e st Hfs.
    visit. fold v. fold k. rewrite Hskip. rewrite visitor_build. fold k.
    rewrite Hbuild. cbv beta iota. visitor_fields.
    rewrite (status_not_BAD _ _ _ Hnb).
    visitor_fields. rewrite G6. cbv beta iota. visitor_fields.
    fold (diffim_of k2 sol).
    rewrite (apply_first v (diffim_of k2 sol)) by reflexivity.
    rewrite Hfs. reflexivity.
  - intros st e st2 Hfs [Hm [Hr Hclip]] Hcore Hlast.
    visit. fold v. fold k. rewrite Hskip. rewrite visitor_build. fold k.
    rewrite Hbuild. cbv beta iota. visitor_fields.
    rewrite (status_not_BAD _ _ _ Hnb).
    visitor_fields. rewrite G6. cbv beta iota. visitor_fields.
    fold (diffim_of k2 sol).
    rewrite (apply_first v (diffim_of k2 sol)) by reflexivity.
    rewrite Hfs. cbn [fst snd]. cbv beta iota. visitor_fields.
    rewrite G3. cbv beta iota. visitor_fields.
    rewrite G2. cbv beta iota. visitor_fields.
    rewrite Hm, Hr. cbn [orb]. cbv beta iota.
    rewrite Hcore. cbn [negb].
    unfold BuildSingleKernelVisitor.apply.
    destruct (getAsBool (BuildSingleKernelVisitor._policy v) "singleKernelClipping");
      [destruct (Hclip eq_refl) as [H1 H2]; rewrite H1, H2 |];
      cbv beta iota; visitor_fields; rewrite Hlast; reflexivity.
Qed.

(** The slot a first build fills when it returns. *)
Lemma build_ok_orig (fuel : nat) (basisList : list Kernel) (hMat : MatrixXd)
    (w : KernelCandidate.state) :
  KernelCandidate._isInitialized (KernelCandidate.this w) = false ->
  KernelCandidate._kernelSolutionPca (KernelCandidate.this w) = None ->
  fst (KernelCandidate.build_h fuel basisList hMat w) = Ok tt ->
  KernelCandidate._kernelSolutionOrig
    (KernelCandidate.this (snd (KernelCandidate.build_h fuel basisList hMat w))) <> None.
Proof.
  intros Hi Hp.
  assert (Hpass : forall var w1,
            KernelCandidate._isInitialized (KernelCandidate.this w1) = false ->
            KernelCandidate._kernelSolutionPca (KernelCandidate.this w1) = None ->
            let r := KernelCandidate._buildKernelSolution fuel var basisList hMat w1 in
            KernelCandidate._isInitialized (KernelCandidate.this (snd r)) = false
            /\ KernelCandidate._kernelSolutionPca (KernelCandidate.this (snd r)) = None
            /\ (fst r = Ok tt ->
                KernelCandidate._kernelSolutionOrig (KernelCandidate.this (snd r)) <> None)).
  { intros var w1 Hi1 Hp1. cbv zeta.
    destruct (buildKernelSolution_keeps fuel var basisList hMat w1) as [K [_ R]].
    destruct K as [_ [Hi' [_ [_ [_ [_ [_ [_ Hp']]]]]]]].
    split; [congruence|]. split; [rewrite (Hp' Hi1); exact Hp1|].
    intros Hok. specialize (R Hok). unfold recent in R.
    rewrite (Hp' Hi1), Hp1 in R. exact R. }
  unfold KernelCandidate.build_h. run. cbv beta.
  match goal with
  | |- context [KernelCandidate.on_this (KernelCandidate.set_varianceEstimate ?v) w] =>
      set (var := v)
  end.
  set (w1 := KernelCandidate.on_this (KernelCandidate.set_varianceEstimate var) w).
  destruct (Hpass var w1 Hi Hp) as [Hi2 [Hp2 Ho2]].
  destruct (KernelCandidate._buildKernelSolution fuel var basisList hMat w1)
    as [[[] | e1 | ] w2]; cbn [fst snd] in *; [| discriminate ..].
  destruct (getAsBool _ "iterateSingleKernel" && negb _).
  - pose proof (getDifferenceImage_reads KernelCandidate.RECENT w2) as Hread.
    destruct (KernelCandidate.getDifferenceImage KernelCandidate.RECENT w2)
      as [[diffim | e2 | ] w3]; cbn [fst snd] in *; [| discriminate ..].
    subst w3.
    set (w4 := KernelCandidate.on_this
                 (KernelCandidate.set_varianceEstimate (getVariance diffim)) w2).
    destruct (Hpass (getVariance diffim) w4 Hi2 Hp2) as [_ [_ Ho5]].
    destruct (KernelCandidate._buildKernelSolution fuel (getVariance diffim) basisList hMat w4)
      as [[[] | e3 | ] w5]; cbn [fst snd] in *; [| discriminate ..].
    intros _. apply Ho5. reflexivity.
  - intros _. apply Ho2. reflexivity.
Qed.

Lemma build_well_formed (fuel : nat) (basisList : list Kernel) (hMat : MatrixXd)
    (k : KernelCandidate.state) :
  well_formed (KernelCandidate.this k) ->
  well_formed (KernelCandidate.this (snd (KernelCandidate.build_h fuel basisList hMat k))).
Proof.
  intros [Ho Hp].
  pose proof (build_h_keeps fuel basisList hMat k) as Hkeep. cbv zeta in Hkeep.
  destruct Hkeep as [_ [_ [Hi [_ [_ [_ [_ [_ [Ho' Hp']]]]]]]]].
  pose proof (build_ok_orig fuel basisList hMat k) as Hfirst.
  unfold well_formed.
  destruct (KernelCandidate._isInitialized (KernelCandidate.this k)) eqn:Hik.
  - assert (Hi2 : KernelCandidate._isInitialized
                    (KernelCandidate.this (snd (KernelCandidate.build_h fuel basisList hMat k)))
                  = true)
      by (rewrite Hi; destruct (fst _); reflexivity).
    split; [intros _; rewrite (Ho' eq_refl); apply Ho; reflexivity|].
    intros H. congruence.
  - specialize (Hfirst eq_refl (Hp eq_refl)).
    destruct (fst (KernelCandidate.build_h fuel basisList hMat k)) as [[] | e | ].
    + split; [intros _; apply Hfirst; reflexivity | intros H; congruence].
    + split; [intros H; congruence | intros _; rewrite (Hp' eq_refl); apply Hp; reflexivity].
    + split; [intros H; congruence | intros _; rewrite (Hp' eq_refl); apply Hp; reflexivity].
Qed.

(** X11. The candidate stays well formed: once initialized it has an
    original solution, and before it has no pca solution. Both constructors
    make such a candidate (uninitialized, with no solution, its status
    UNKNOWN or, when the statistics of the core throw, BAD, which the
    constructor absorbs); [build] and [processCandidate] keep it so,
    whether they return or throw. So [getKernelSolution(ORIG)] of an
    initialized candidate returns. *)
Theorem candidate_stays_well_formed :
  (forall templateMaskedImage scienceMaskedImage ps,
     let c := KernelCandidate.new templateMaskedImage scienceMaskedImage ps in
     well_formed c
     /\ KernelCandidate._isInitialized c = false
     /\ KernelCandidate._kernelSolutionOrig c = None
     /\ KernelCandidate._status c
        = match fst (ImageStatistics_apply_core scienceMaskedImage
                       (getAsInt ps "candidateCoreRadius") (ImageStatistics_new ps)) with
          | Some _ => BAD
          | None => UNKNOWN
          end)
  /\ (forall psfInstFlux templateMaskedImage scienceMaskedImage ps,
        well_formed
          (KernelCandidate.new_source psfInstFlux templateMaskedImage scienceMaskedImage ps))
  /\ (forall fuel basisList hMat k,
        well_formed (KernelCandidate.this k) ->
        well_formed
          (KernelCandidate.this (snd (KernelCandidate.build_h fuel basisList hMat k))))
  /\ (forall fuel w,
        well_formed (KernelCandidate.this (BuildSingleKernelVisitor.kCandidate w)) ->
        well_formed
          (KernelCandidate.this
             (BuildSingleKernelVisitor.kCandidate
                (snd (BuildSingleKernelVisitor.processCandidate fuel true w)))))
  /\ (forall k,
        well_formed (KernelCandidate.this k) ->
        KernelCandidate._isInitialized (KernelCandidate.this k) = true ->
        exists sol,
          KernelCandidate.getKernelSolution KernelCandidate.ORIG k = (Ok sol, k)).
Proof.
  split; [| split; [| split; [| split]]].
  - intros t s ps. cbv zeta. unfold KernelCandidate.new.
    destruct (ImageStatistics_apply_core s _ _) as [[e | ] st]; cbn;
      unfold well_formed; cbn; repeat split; auto; discriminate.
  - intros f t s ps. unfold well_formed. cbn. split; [discriminate | reflexivity].
  - intros fuel basisList hMat k. apply build_well_formed.
  - intros fuel w Hw.
    assert (Hinv : KernelCandidate._isInitialized
                     (KernelCandidate.this (BuildSingleKernelVisitor.kCandidate w)) = true
                   \/ KernelCandidate._kernelSolutionPca
                        (KernelCandidate.this (BuildSingleKernelVisitor.kCandidate w)) = None).
    { destruct (KernelCandidate._isInitialized _) eqn:Hi; [left; reflexivity|].
      right. apply Hw. exact Hi. }
    pose proof (visit_outcome fuel w Hinv) as Hvisit. cbv zeta in Hvisit.
    destruct Hvisit as [_ [_ [_ [_ [_ [Hcand _]]]]]].
    destruct (BuildSingleKernelVisitor._skipBuilt (BuildSingleKernelVisitor.self w) && _).
    + rewrite Hcand. exact Hw.
    + destruct Hcand as [_ [x Hx]]. rewrite Hx.
      pose proof (build_well_formed fuel
                    (BuildSingleKernelVisitor._basisList (BuildSingleKernelVisitor.self w))
                    (hMat_of (BuildSingleKernelVisitor.self w))
                    (BuildSingleKernelVisitor.kCandidate w) Hw) as Hb.
      exact Hb.
  - intros k [Ho _] Hi. specialize (Ho Hi).
    unfold KernelCandidate.getKernelSolution. run. cbv beta.
    destruct (KernelCandidate._kernelSolutionOrig (KernelCandidate.this k)) as [sol|];
      [exists sol; reflexivity | exfalso; apply Ho; reflexivity].
Qed.

End Visitor.

End Properties.

(** ** The properties on concrete solutions *)

Import KernelSolution.
Open Scope float_scope.

(** [solve] on a matrix the LU decomposition inverts, on a singular
    diagonal one, and on one whose eigendecomposition fails. *)
Lemma solve_LU_then_eigenvector_witness :
  (FullPivLU_isInvertible (Externals := Small.externals) (Small.matrix2 2 0 0 4) = true
   /\ solve_mb (E := Small.externals) (Small.matrix2 2 0 0 4) [2; 4] Small.fresh
      = (Ok tt, set_aVec [1; 1] (set_solvedBy LU Small.fresh)))
  /\ (FullPivLU_isInvertible (Externals := Small.externals) (Small.matrix2 0 0 0 2) = false
      /\ exists eInv,
           solve_mb (E := Small.externals) (Small.matrix2 0 0 0 2) [3; 4] Small.fresh
           = (Ok tt, set_aVec [0; 2] (set_solvedBy EIGENVECTOR Small.fresh))
           /\ eInv = [0; 0.5])
  /\ (FullPivLU_isInvertible (Externals := Small.externals) (Small.matrix2 1 1 1 1) = false
      /\ solve_mb (E := Small.externals) (Small.matrix2 1 1 1 1) [3; 4] Small.fresh
         = (Throw unable_to_solve, set_solvedBy NONE Small.fresh)).
Proof.
  split; [| split].
  - split; [reflexivity|].
    exact (proj1 (solve_LU_then_eigenvector (E := Small.externals)
                    (Small.matrix2 2 0 0 4) [2; 4] Small.fresh) eq_refl).
  - split; [reflexivity|].
    destruct (proj1 (proj2 (solve_LU_then_eigenvector (E := Small.externals)
                              (Small.matrix2 0 0 0 2) [3; 4] Small.fresh))
                    eq_refl (Small.identity 2) [0; 2] eq_refl)
      as [eInv [Hsolve [Hlen Hinv]]].
    destruct eInv as [|a [|b [|c l]]]; try discriminate Hlen.
    destruct (Hinv 0%nat (Nat.lt_0_succ 1)) as [_ H0].
    destruct (Hinv 1%nat (Nat.lt_succ_diag_r 1)) as [H1 _].
    destruct (H0 eq_refl) as [Ha _]. specialize (H1 eq_refl).
    cbv [vcoeff nth] in Ha, H1. subst a b.
    exists [0; 0.5]. split; [exact Hsolve | reflexivity].
  - split; [reflexivity|].
    exact (proj2 (proj2 (solve_LU_then_eigenvector (E := Small.externals)
                           (Small.matrix2 1 1 1 1) [3; 4] Small.fresh))
                 eq_refl Small.no_convergence eq_refl).
Defined.

(** The condition number of a positive definite matrix, where the ratio
    of the eigenvalues is also that of their absolute values. *)
Lemma getConditionNumber_ratio_witness :
  SelfAdjointEigenSolver (Externals := Small.externals) (Small.matrix2 2 0 0 4)
  = inr (Small.identity 2, [2; 4])
  /\ map abs [2; 4] = [2; 4]
  /\ getConditionNumber_m (E := Small.externals) (Small.matrix2 2 0 0 4) EIGENVALUE Small.fresh
     = (Ok (absolute_eigenvalue_ratio [2; 4]), Small.fresh)
  /\ absolute_eigenvalue_ratio [2; 4] = 2.
Proof.
  split; [reflexivity|]. split; [reflexivity|]. split; [| reflexivity].
  exact (proj2 (proj1 (getConditionNumber_ratio (E := Small.externals)
                         (Small.matrix2 2 0 0 4) Small.fresh)
                      (Small.identity 2) [2; 4] eq_refl)
               eq_refl).
Defined.

(** The condition number of a symmetric matrix with eigenvalues 1 and -2:
    the call returns 1 / -2, and the ratio of the largest to the smallest
    absolute eigenvalue is 2. *)
Lemma indefinite_condition_number :
  transpose Small.indefinite = Small.indefinite
  /\ SelfAdjointEigenSolver (Externals := Small.externals) Small.indefinite
     = inr ({| rows := 2; cols := 2; storage := [0; 1; 1; 0] |}, [-2; 1])
  /\ mul (mul_diag {| rows := 2; cols := 2; storage := [0; 1; 1; 0] |} [-2; 1])
         (transpose {| rows := 2; cols := 2; storage := [0; 1; 1; 0] |})
     = Small.indefinite
  /\ getConditionNumber_m (E := Small.externals) Small.indefinite EIGENVALUE Small.fresh
     = (Ok (-0.5), Small.fresh)
  /\ absolute_eigenvalue_ratio [-2; 1] = 2
  /\ getConditionNumber_m (E := Small.externals) Small.indefinite EIGENVALUE Small.fresh
     <> (Ok (absolute_eigenvalue_ratio [-2; 1]), Small.fresh).
Proof.
  split; [reflexivity|]. split; [reflexivity|]. split; [reflexivity|].
  split; [reflexivity|]. split; [reflexivity|].
  intros H.
  apply (f_equal (fun p => match fst p with Ok x => x <? 0 | _ => false end)) in H.
  vm_compute in H. discriminate H.
Defined.

(** [build] and [buildWithMask] on a variance image of -1, on one of 0 and
    on one of 2. *)
Lemma build_rejects_nonpositive_variance_witness :
  (fst (StaticKernelSolution.build Small.ramp Small.ramp (Small.constant_image 3 3 (-1))
          (Small.static true))
   = Throw StaticKernelSolution.variance_negative
   /\ fst (MaskedKernelSolution.buildWithMask Small.ramp Small.ramp
             (Small.constant_image 3 3 (-1)) Small.clear_mask (Small.static true))
      = Throw StaticKernelSolution.variance_negative)
  /\ (fst (StaticKernelSolution.build Small.ramp Small.ramp (Small.constant_image 3 3 0)
             (Small.static true))
      = Throw StaticKernelSolution.variance_zero
      /\ fst (MaskedKernelSolution.buildWithMask Small.ramp Small.ramp
                (Small.constant_image 3 3 0) Small.clear_mask (Small.static true))
         = Throw StaticKernelSolution.variance_zero)
  /\ (fst (StaticKernelSolution.build Small.ramp Small.ramp (Small.constant_image 3 3 2)
             (Small.static true)) = Ok tt
      /\ (makeStatistics_MIN (Externals := Small.externals) (Small.constant_image 3 3 2) <? 0)
         = false
      /\ (makeStatistics_MIN (Externals := Small.externals) (Small.constant_image 3 3 2) =? 0)
         = false).
Proof.
  split; [| split].
  - exact (proj1 (build_rejects_nonpositive_variance (E := Small.externals)
                    Small.ramp Small.ramp (Small.constant_image 3 3 (-1))
                    Small.clear_mask (Small.static true))
                 eq_refl).
  - exact (proj2 (proj2 (proj1 (proj2
             (build_rejects_nonpositive_variance (E := Small.externals)
                Small.ramp Small.ramp (Small.constant_image 3 3 0)
                Small.clear_mask (Small.static true)))
             eq_refl)) eq_refl).
  - split; [reflexivity|].
    exact (proj1 (proj2 (proj2
             (build_rejects_nonpositive_variance (E := Small.externals)
                Small.ramp Small.ramp (Small.constant_image 3 3 2)
                Small.clear_mask (Small.static true))))
             eq_refl).
Defined.

(** A [build] and a [buildWithMask] that fail on a variance of zero leave
    the solution as the constructor made it. *)
Lemma build_failure_leaves_solution_witness :
  (makeStatistics_MIN (Externals := Small.externals) (Small.constant_image 3 3 0) =? 0) = true
  /\ (exists e, StaticKernelSolution.build Small.ramp Small.ramp
                  (Small.constant_image 3 3 0) (Small.static true)
                = (Throw e, Small.static true))
  /\ (exists e, MaskedKernelSolution.buildWithMask Small.ramp Small.ramp
                  (Small.constant_image 3 3 0) Small.clear_mask (Small.static true)
                = (Throw e, Small.static true)).
Proof.
  split; [reflexivity|].
  exact (build_failure_leaves_solution (E := Small.externals)
           Small.ramp Small.ramp (Small.constant_image 3 3 0)
           Small.clear_mask (Small.static true) (or_intror eq_refl)).
Defined.

(** The getters on the solution the constructor makes, which is not solved. *)
Lemma unsolved_solution_has_no_result_witness :
  fst (StaticKernelSolution.new (E := Small.externals) 0 [Small.kernel 1] true)
  = Ok (Small.static true)
  /\ _solvedBy (StaticKernelSolution.base (Small.static true)) = NONE
  /\ _aVec (StaticKernelSolution.base (Small.static true)) = []
  /\ StaticKernelSolution.getKsum (Small.static true)
     = (Throw (StaticKernelSolution.not_solved "Kernel not solved; cannot return ksum"),
        Small.static true)
  /\ (exists e, fst (StaticKernelSolution.solve (Small.static true)) = Throw e).
Proof.
  pose proof (unsolved_solution_has_no_result (E := Small.externals)) as [Hget [Hnew Hsolve]].
  destruct (Hnew 0%Z [Small.kernel 1] true (Small.static true) eq_refl) as [Hnone Ha].
  split; [reflexivity|]. split; [exact Hnone|]. split; [exact Ha|].
  split.
  - exact (proj1 (proj2 (proj2 (Hget (Small.static true) Hnone)))).
  - exact (proj1 (Hsolve (Small.static true) eq_refl)).
Defined.

(** [solve] of a regularized solution with lambdaType "absolute" and
    lambdaValue 3, and with a lambdaType that is not known. *)
Lemma regularized_solve_lambda_witness :
  getAsString (RegularizedKernelSolution._policy (Small.regularized "absolute")) "lambdaType"
  = "absolute"%string
  /\ RegularizedKernelSolution._lambda
       (snd (RegularizedKernelSolution.solve 0 (Small.regularized "absolute")))
     = Some 3
  /\ getAsString (RegularizedKernelSolution._policy (Small.regularized "relative")) "lambdaType"
     = "relative"%string
  /\ RegularizedKernelSolution._lambda
       (snd (RegularizedKernelSolution.solve 0 (Small.regularized "relative")))
     = Some 13
  /\ recognized
       (getAsString (RegularizedKernelSolution._policy (Small.regularized "other")) "lambdaType")
     = false
  /\ fst (RegularizedKernelSolution.solve 0 (Small.regularized "other"))
     = Throw RegularizedKernelSolution.lambdaType_not_recognized.
Proof.
  split; [reflexivity|].
  split.
  { exact (proj1 (proj1 (regularized_solve_lambda (E := Small.externals) 0
                           (Small.regularized "absolute")) eq_refl)). }
  split; [reflexivity|].
  split.
  { exact (proj1 (proj1 (proj2 (regularized_solve_lambda (E := Small.externals) 0
                                  (Small.regularized "relative"))) eq_refl)). }
  split; [reflexivity|].
  exact (f_equal fst
           (proj1 (proj2 (proj2 (regularized_solve_lambda (E := Small.externals) 0
                                   (Small.regularized "other")))) eq_refl)).
Defined.

(** [_buildKernelSolution] on a candidate that checks the condition number
    against 0.5, where the solution built has condition number 1. *)
Lemma condition_number_gate_witness :
  getAsBool (KernelCandidate._ps (KernelCandidate.this
               (Small.candidate ["checkConditionNumber"%string] false)))
            "checkConditionNumber" = true
  /\ fst (StaticKernelSolution.getConditionNumber EIGENVALUE
            (snd (StaticKernelSolution.build Small.ramp Small.ramp
                    (Small.constant_image 3 3 2) (Small.static false)))) = Ok 1
  /\ fst (KernelCandidate._buildKernelSolution 0 (Small.constant_image 3 3 2)
            [Small.kernel 1] empty (Small.candidate ["checkConditionNumber"%string] false))
     = Ok tt
  /\ KernelCandidate._status
       (KernelCandidate.this
          (snd (KernelCandidate._buildKernelSolution 0 (Small.constant_image 3 3 2)
                  [Small.kernel 1] empty
                  (Small.candidate ["checkConditionNumber"%string] false))))
     = BAD
  /\ _solvedBy (StaticKernelSolution.base
                  (snd (StaticKernelSolution.build Small.ramp Small.ramp
                          (Small.constant_image 3 3 2) (Small.static false)))) = NONE.
Proof.
  pose proof (condition_number_gate (E := Small.externals) 0 (Small.constant_image 3 3 2)
                [Small.kernel 1] empty (Small.candidate ["checkConditionNumber"%string] false)
                EIGENVALUE (Small.static false)
                (snd (StaticKernelSolution.build Small.ramp Small.ramp
                        (Small.constant_image 3 3 2) (Small.static false)))
                1 eq_refl (or_intror (conj eq_refl eq_refl)) eq_refl eq_refl eq_refl eq_refl)
    as [Hrun Hnone].
  split; [reflexivity|]. split; [reflexivity|].
  split; [rewrite Hrun; reflexivity|].
  split; [rewrite Hrun; reflexivity|].
  exact Hnone.
Defined.

(** [build(basisList)] of the candidate, when its property set also asks to
    iterate the single kernel: after the condition number has set the
    status to BAD the call goes on to the difference image of the solution
    that was not solved, and throws; with the arguments evaluated from the
    last to the first what it throws is the refusal of [getBackground()]. *)
Lemma build_after_gate_witness :
  getAsBool (KernelCandidate._ps (KernelCandidate.this
               (Small.candidate ["checkConditionNumber"; "iterateSingleKernel"]%string false)))
            "iterateSingleKernel" = true
  /\ getKernel_first (Externals := Small.externals) call_RECENT_orig = false
  /\ fst (KernelCandidate.build 0 [Small.kernel 1]
            (Small.candidate ["checkConditionNumber"; "iterateSingleKernel"]%string false))
     = Throw (StaticKernelSolution.not_solved "Kernel not solved; cannot return background")
  /\ KernelCandidate._status
       (KernelCandidate.this
          (snd (KernelCandidate.build 0 [Small.kernel 1]
                  (Small.candidate ["checkConditionNumber"; "iterateSingleKernel"]%string
                     false))))
     = BAD.
Proof.
  pose proof (build_after_gate (E := Small.externals) 0 [Small.kernel 1] empty
                (Small.candidate ["checkConditionNumber"; "iterateSingleKernel"]%string false)
                EIGENVALUE (Small.static false)
                (snd (StaticKernelSolution.build Small.ramp Small.ramp
                        (Small.constant_image 3 3 2) (Small.static false)))
                1 eq_refl eq_refl (or_intror (conj eq_refl eq_refl)) eq_refl eq_refl
                eq_refl eq_refl (or_intror eq_refl))
    as [Hstatus [Hthrow _]].
  split; [reflexivity|]. split; [reflexivity|].
  split; [exact (proj1 (Hthrow eq_refl)) | exact Hstatus].
Defined.

(** [build] on a 3 by 3 stamp with one basis kernel of half-width 1 and
    the background: the good region is the pixel in the middle. *)
Lemma build_normal_equations_witness :
  StaticKernelSolution.build Small.ramp Small.ramp (Small.constant_image 3 3 2)
    (Small.static true)
  = (Ok tt, snd (StaticKernelSolution.build Small.ramp Small.ramp
                   (Small.constant_image 3 3 2) (Small.static true)))
  /\ _mMat (StaticKernelSolution.base
              (snd (StaticKernelSolution.build Small.ramp Small.ramp
                      (Small.constant_image 3 3 2) (Small.static true))))
     = Small.matrix2 12.5 2.5 2.5 0.5
  /\ StaticKernelSolution._cMat
       (snd (StaticKernelSolution.build Small.ramp Small.ramp
               (Small.constant_image 3 3 2) (Small.static true)))
     = {| rows := 1; cols := 2; storage := [5; 1] |}
  /\ StaticKernelSolution._ivVec
       (snd (StaticKernelSolution.build Small.ramp Small.ramp
               (Small.constant_image 3 3 2) (Small.static true)))
     = [0.5].
Proof.
  assert (Hin : forall im, width im = 3%nat -> height im = 3%nat ->
                  inside (Kernel_shrinkBBox (Externals := Small.externals)
                            (Small.kernel 1) (getBBox_LOCAL Small.ramp)) im).
  { intros im Hw Hh. unfold inside. rewrite Hw, Hh. cbn. lia. }
  pose proof (build_normal_equations (E := Small.externals)
                Small.ramp Small.ramp (Small.constant_image 3 3 2) (Small.static true)
                (snd (StaticKernelSolution.build Small.ramp Small.ramp
                        (Small.constant_image 3 3 2) (Small.static true)))
                eq_refl (Hin Small.ramp eq_refl eq_refl)
                (Hin (Small.constant_image 3 3 2) eq_refl eq_refl))
    as [HM [Hb [HV [HY [Hrows [HlenV [HlenY [Hfit _]]]]]]]].
  split; [reflexivity|].
  split; [rewrite HM; reflexivity|].
  split; [reflexivity|].
  rewrite HV. reflexivity.
Defined.

(** [addConstraint] at (2, 3) on the spatial solution of two bases with
    linear variation: the entries of a diagonal block, of the block above
    it, of the cross block and of the background block, and the sizes. *)
Lemma addConstraint_accumulates_witness :
  SpatialKernelSolution.new 0 [Small.kernel 1; Small.kernel 1] Small.linear Small.linear
    (SpatialKernelSolution._policy Small.spatial)
  = (Ok Small.spatial, 1%Z)
  /\ spatial_sizes Small.spatial
  /\ sized 6 Small.spatial
  /\ SpatialKernelSolution.pK_of Small.spatial 2 3 = [1; 2]
  /\ SpatialKernelSolution.pB_of Small.spatial 2 3 = [1; 2]
  /\ SpatialKernelSolution.addConstraint 2 3 (Small.ones 3) [1; 1; 1] Small.spatial
     = (Ok tt, SpatialKernelSolution.addConstraint_state 2 3 (Small.ones 3) [1; 1; 1]
                 Small.spatial)
  /\ coeff (mMat_of (SpatialKernelSolution.addConstraint_state 2 3 (Small.ones 3) [1; 1; 1]
                       Small.spatial)) 1 3 = 4
  /\ coeff (mMat_of (SpatialKernelSolution.addConstraint_state 2 3 (Small.ones 3) [1; 1; 1]
                       Small.spatial)) 2 3 = 2
  /\ coeff (mMat_of (SpatialKernelSolution.addConstraint_state 2 3 (Small.ones 3) [1; 1; 1]
                       Small.spatial)) 3 2 = 0
  /\ coeff (mMat_of (SpatialKernelSolution.addConstraint_state 2 3 (Small.ones 3) [1; 1; 1]
                       Small.spatial)) 4 5 = 2
  /\ vcoeff (bVec_of (SpatialKernelSolution.addConstraint_state 2 3 (Small.ones 3) [1; 1; 1]
                        Small.spatial)) 3 = 2.
Proof.
  destruct (new_spatial_sizes (E := Small.externals) 0 [Small.kernel 1; Small.kernel 1]
              Small.linear Small.linear (SpatialKernelSolution._policy Small.spatial)
              Small.spatial 1 eq_refl)
    as [Hsizes Hsized].
  pose proof (addConstraint_accumulates (E := Small.externals) 2 3 (Small.ones 3) [1; 1; 1]
                Small.spatial Hsizes Hsized)
    as [Hrun [_ [Hoff [Hdiag [Hfit [Hb _]]]]]].
  destruct (Hfit eq_refl) as [Hcross [Hback Hbb]].
  split; [reflexivity|].
  split; [exact Hsizes|]. split; [exact Hsized|].
  split; [reflexivity|]. split; [reflexivity|].
  split; [exact Hrun|].
  split.
  { refine (eq_trans (Hoff 0%Z 1%Z 1%nat 1%nat _ _ _ _) _); [cbn; lia .. | reflexivity]. }
  split.
  { refine (eq_trans (Hdiag 1%Z 0%nat 1%nat _ _ _) _); [cbn; lia .. | reflexivity]. }
  split.
  { refine (eq_trans (Hdiag 1%Z 1%nat 0%nat _ _ _) _); [cbn; lia .. | reflexivity]. }
  split.
  { refine (eq_trans (Hback 0%nat 1%nat _ _) _); [cbn; lia .. | reflexivity]. }
  refine (eq_trans (Hb 1%Z 1%nat _ _) _); [cbn; lia .. | reflexivity].
Defined.

(** The background block below its diagonal, and the kernel-kernel block
    of the second basis with the first: [addConstraint] leaves both at 0,
    where [Q(2,2) * pB(1) * pB(0)] is 2 and [Q(1,0) * pK(0) * pK(0)] is 1. *)
Lemma background_block_below_diagonal :
  coeff (mMat_of Small.spatial) 5 4 = 0
  /\ coeff (Small.ones 3) 2 2
     * (vcoeff (SpatialKernelSolution.pB_of Small.spatial 2 3) 1
        * vcoeff (SpatialKernelSolution.pB_of Small.spatial 2 3) 0) = 2
  /\ coeff (mMat_of (SpatialKernelSolution.addConstraint_state 2 3 (Small.ones 3) [1; 1; 1]
                       Small.spatial)) 5 4 = 0
  /\ coeff (mMat_of (SpatialKernelSolution.addConstraint_state 2 3 (Small.ones 3) [1; 1; 1]
                       Small.spatial)) 4 5 = 2
  /\ coeff (mMat_of (SpatialKernelSolution.addConstraint_state 2 3 (Small.ones 3) [1; 1; 1]
                       Small.spatial)) 2 0 = 0
  /\ coeff (mMat_of (SpatialKernelSolution.addConstraint_state 2 3 (Small.ones 3) [1; 1; 1]
                       Small.spatial)) 5 4
     <> coeff (mMat_of Small.spatial) 5 4
        + coeff (Small.ones 3) 2 2
          * (vcoeff (SpatialKernelSolution.pB_of Small.spatial 2 3) 1
             * vcoeff (SpatialKernelSolution.pB_of Small.spatial 2 3) 0).
Proof.
  split; [reflexivity|]. split; [reflexivity|]. split; [reflexivity|].
  split; [reflexivity|]. split; [reflexivity|].
  intros H. apply (f_equal (fun x => x =? 0)) in H. vm_compute in H. discriminate H.
Qed.

(** *** Further properties, on concrete objects *)

Lemma solve_gives_finite_coefficients_witness :
  let s := snd (StaticKernelSolution.build Small.ramp Small.ramp
                  (Small.constant_image 3 3 2) (Small.static false)) in
  let s' := snd (StaticKernelSolution.solve s) in
  StaticKernelSolution.solve s = (Ok tt, s')
  /\ _aVec (StaticKernelSolution.base s') = [1]
  /\ (_solvedBy (StaticKernelSolution.base s') = LU
      \/ _solvedBy (StaticKernelSolution.base s') = EIGENVECTOR).
Proof.
  cbv zeta. split; [reflexivity|]. split; [reflexivity|].
  exact (proj1 (solve_gives_finite_coefficients (E := Small.externals)
                  (snd (StaticKernelSolution.build Small.ramp Small.ramp
                          (Small.constant_image 3 3 2) (Small.static false)))
                  (snd (StaticKernelSolution.solve
                          (snd (StaticKernelSolution.build Small.ramp Small.ramp
                                  (Small.constant_image 3 3 2) (Small.static false)))))
                  eq_refl)).
Defined.

Lemma failed_solve_leaves_getters_open_witness :
  let s := Small.system 1 nan in
  let s' := snd (StaticKernelSolution.solve s) in
  StaticKernelSolution.solve s = (Throw (StaticKernelSolution.kernel_nan 0), s')
  /\ StaticKernelSolution.getKernel s' = (Ok (StaticKernelSolution._kernel s'), s').
Proof.
  cbv zeta. split; [reflexivity|].
  destruct (failed_solve_leaves_getters_open (E := Small.externals)
              (Small.system 1 nan) (snd (StaticKernelSolution.solve (Small.system 1 nan)))
              (StaticKernelSolution.kernel_nan 0) eq_refl)
    as [[He _] | [_ [Hg _]]].
  - discriminate He.
  - exact Hg.
Defined.

Lemma buildKernelSolution_failures_witness :
  let w := Small.candidate_of [] [("conditionNumberType", "FOO")]%string Small.ramp in
  getAsBool (KernelCandidate._ps (KernelCandidate.this w)) "checkConditionNumber" = false
  /\ KernelCandidate._buildKernelSolution 0 (Small.constant_image 3 3 2) [Small.kernel 1]
       empty w
     = (Throw (LSST_EXCEPT TypeError (text "conditionNumberType not recognized")), w).
Proof.
  cbv zeta. split; [reflexivity|].
  apply (proj1 (buildKernelSolution_failures (E := Small.externals) 0
                  (Small.constant_image 3 3 2) [Small.kernel 1] empty
                  (Small.candidate_of [] [("conditionNumberType", "FOO")]%string Small.ramp)));
    discriminate.
Defined.

Lemma gate_lets_nan_through_witness :
  let w := Small.candidate_of ["checkConditionNumber"]%string
             [("conditionNumberType", "EIGENVALUE")]%string (Small.constant_image 3 3 0) in
  let s1 := snd (StaticKernelSolution.build (Small.constant_image 3 3 0) Small.ramp
                   (Small.constant_image 3 3 2) (Small.static false)) in
  fst (StaticKernelSolution.getConditionNumber EIGENVALUE s1) = Ok nan
  /\ fst (KernelCandidate._buildKernelSolution 0 (Small.constant_image 3 3 2)
            [Small.kernel 1] empty w) = Ok tt
  /\ KernelCandidate._status
       (KernelCandidate.this
          (snd (KernelCandidate._buildKernelSolution 0 (Small.constant_image 3 3 2)
                  [Small.kernel 1] empty w)))
     = UNKNOWN.
Proof.
  cbv zeta.
  pose proof (gate_lets_nan_through (E := Small.externals) 0 (Small.constant_image 3 3 2)
                [Small.kernel 1] empty
                (Small.candidate_of ["checkConditionNumber"]%string
                   [("conditionNumberType", "EIGENVALUE")]%string (Small.constant_image 3 3 0))
                EIGENVALUE (Small.static false)
                (snd (StaticKernelSolution.build (Small.constant_image 3 3 0) Small.ramp
                        (Small.constant_image 3 3 2) (Small.static false)))
                nan eq_refl (or_intror (conj eq_refl eq_refl)) eq_refl eq_refl eq_refl
                (or_introl eq_refl))
    as [Hrun Hstatus].
  split; [reflexivity|].
  split; [rewrite Hrun; reflexivity | rewrite Hstatus; reflexivity].
Defined.

Lemma build_then_getters_witness :
  let w := Small.candidate [] false in
  let w' := snd (KernelCandidate.build_h 0 [Small.kernel 1] empty w) in
  KernelCandidate.build_h 0 [Small.kernel 1] empty w = (Ok tt, w')
  /\ KernelCandidate._status (KernelCandidate.this w') = UNKNOWN
  /\ exists sol,
       KernelCandidate.getKernelSolution KernelCandidate.RECENT w' = (Ok sol, w')
       /\ KernelCandidate.getKsum KernelCandidate.RECENT w'
          = (Ok (StaticKernelSolution._kSum (KernelCandidate.static_of sol)), w').
Proof.
  cbv zeta. split; [reflexivity|]. split; [reflexivity|].
  destruct (build_then_getters (E := Small.externals) 0 [Small.kernel 1] empty
              (Small.candidate [] false)
              (snd (KernelCandidate.build_h 0 [Small.kernel 1] empty (Small.candidate [] false)))
              eq_refl ltac:(discriminate) (or_intror eq_refl))
    as [sol [_ [_ [_ [_ [Hksum [_ [Hsol _]]]]]]]].
  exists sol. split; [exact Hsol | exact Hksum].
Defined.

Lemma processCandidate_keeps_BAD_witness :
  let w := Small.visit (Small.visitor false 0)
             (KernelCandidate.on_this (KernelCandidate.setStatus BAD)
                (Small.candidate [] false)) in
  KernelCandidate._status
    (KernelCandidate.this (BuildSingleKernelVisitor.kCandidate w)) = BAD
  /\ KernelCandidate._status
       (KernelCandidate.this
          (BuildSingleKernelVisitor.kCandidate
             (snd (BuildSingleKernelVisitor.processCandidate 0 true w)))) = BAD
  /\ BuildSingleKernelVisitor._nRejected
       (BuildSingleKernelVisitor.self
          (snd (BuildSingleKernelVisitor.processCandidate 0 true w))) = 1%Z.
Proof.
  cbv zeta. split; [reflexivity|].
  split; [| reflexivity].
  exact (proj1 (processCandidate_keeps_BAD (E := Small.externals) (I := Small.statistics) 0
                  (Small.visit (Small.visitor false 0)
                     (KernelCandidate.on_this (KernelCandidate.setStatus BAD)
                        (Small.candidate [] false)))
                  eq_refl)).
Defined.

Lemma processCandidate_outcome_witness :
  let w := Small.visit (Small.visitor false 0) (Small.candidate [] false) in
  KernelCandidate._kernelSolutionPca
    (KernelCandidate.this (BuildSingleKernelVisitor.kCandidate w)) = None
  /\ (forall e, fst (BuildSingleKernelVisitor.processCandidate 0 true w) <> Throw e)
  /\ KernelCandidate._status
       (KernelCandidate.this
          (BuildSingleKernelVisitor.kCandidate
             (snd (BuildSingleKernelVisitor.processCandidate 0 true w)))) = GOOD
  /\ BuildSingleKernelVisitor._nProcessed
       (BuildSingleKernelVisitor.self
          (snd (BuildSingleKernelVisitor.processCandidate 0 true w))) = 1%Z.
Proof.
  cbv zeta. split; [reflexivity|].
  split; [| split; reflexivity].
  exact (proj1 (processCandidate_outcome (E := Small.externals) (I := Small.statistics) 0
                  (Small.visit (Small.visitor false 0) (Small.candidate [] false))
                  (or_intror eq_refl))).
Defined.

Lemma statistics_failure_not_counted_witness :
  let w := Small.visit (Small.visitor true (-1)) (Small.candidate [] false) in
  let w' := snd (BuildSingleKernelVisitor.processCandidate 0 true w) in
  fst (first_statistics (I := Small.statistics) (Small.visitor true (-1))
         (KernelCandidate._scienceMaskedImage (KernelCandidate.this (Small.candidate [] false))))
  = Some Small.no_pixels
  /\ fst (BuildSingleKernelVisitor.processCandidate 0 true w) = Ok tt
  /\ KernelCandidate._status
       (KernelCandidate.this (BuildSingleKernelVisitor.kCandidate w')) = BAD
  /\ BuildSingleKernelVisitor._nRejected (BuildSingleKernelVisitor.self w') = 0%Z.
Proof.
  cbv zeta. split; [reflexivity|].
  pose proof (proj1 (statistics_failure_not_counted (E := Small.externals)
                       (I := Small.statistics) 0
                       (Small.visit (Small.visitor true (-1)) (Small.candidate [] false))
                       (snd (KernelCandidate.build_h 0 [Small.kernel 1] empty
                               (Small.candidate [] false)))
                       (KernelCandidate.Static
                          (snd (StaticKernelSolution.solve
                                  (snd (StaticKernelSolution.build Small.ramp Small.ramp
                                          (Small.constant_image 3 3 2)
                                          (Small.static false))))))
                       eq_refl eq_refl ltac:(discriminate) eq_refl ltac:(discriminate))
                Small.no_pixels (@ImageStatistics_new Small.statistics (Small.policy [] [] []))
                eq_refl) as Hrun.
  rewrite Hrun. repeat split.
Defined.

Lemma createLambdaSteps_grid_witness :
  RegularizedKernelSolution._createLambdaSteps 4 (Small.grid 0.5)
  = (Ok [0; 0.5; 1], Small.grid 0.5)
  /\ (forall fuel,
        RegularizedKernelSolution._createLambdaSteps fuel (Small.grid 0)
        = (Unfinished, Small.grid 0)).
Proof.
  split.
  - apply (proj1 (proj2 (createLambdaSteps_grid (E := Small.externals) (Small.grid 0.5))
                    (fun l => l) 0 1 0.5
                    (or_introl (conj eq_refl (conj eq_refl (conj eq_refl
                                  (conj eq_refl eq_refl))))))
             3%nat).
    + intros [|[|[|k]]] Hk; [reflexivity | reflexivity | reflexivity | lia].
    + reflexivity.
    + lia.
  - apply (proj1 (proj2 (proj2 (proj2 (createLambdaSteps_grid (E := Small.externals)
                                          (Small.grid 0))
                                  (fun l => l) 0 1 0
                                  (or_introl (conj eq_refl (conj eq_refl (conj eq_refl
                                                (conj eq_refl eq_refl))))))))).
    + reflexivity.
    + reflexivity.
Defined.

Lemma estimateRisk_picks_from_grid_witness :
  fst (RegularizedKernelSolution.estimateRisk 10 5 (Small.grid 0.5)) = Ok 1
  /\ In 1 [0; 0.5; 1].
Proof.
  split; [vm_compute; reflexivity|].
  assert (Hrun : RegularizedKernelSolution.estimateRisk 10 5 (Small.grid 0.5)
                 = (Ok 1, snd (RegularizedKernelSolution.estimateRisk 10 5 (Small.grid 0.5))))
    by (vm_compute; reflexivity).
  destruct (proj1 (estimateRisk_picks_from_grid (E := Small.externals) 10 (Small.grid 0.5))
              5 1 (snd (RegularizedKernelSolution.estimateRisk 10 5 (Small.grid 0.5)))
              Hrun)
    as [lambdas [Hgrid [_ [_ Hin]]]].
  assert (Hl : lambdas = [0; 0.5; 1]).
  { assert (H : RegularizedKernelSolution._createLambdaSteps 10 (Small.grid 0.5)
                = (Ok [0; 0.5; 1], Small.grid 0.5)) by (vm_compute; reflexivity).
    rewrite H in Hgrid. injection Hgrid as Hgrid. symmetry. exact Hgrid. }
  subst lambdas. apply Hin. discriminate.
Defined.

Lemma spatial_solve_layout_witness :
  let s := Small.spatial_solved [0; 0] in
  let s' := snd (SpatialKernelSolution.solve s) in
  spatial_sizes s
  /\ SpatialKernelSolution.solve s = (Ok tt, s')
  /\ _aVec (SpatialKernelSolution.base s') = [1; 1]
  /\ (forall i, (i < 2)%nat ->
                is_nan (vcoeff (_aVec (SpatialKernelSolution.base s')) i) = false).
Proof.
  cbv zeta.
  assert (Hsizes : spatial_sizes (E := Small.externals) (Small.spatial_solved [0; 0])).
  { unfold spatial_sizes. cbn. repeat split; try lia; try (intros H; discriminate H). }
  assert (Hrun : SpatialKernelSolution.solve (Small.spatial_solved [0; 0])
                 = (Ok tt, snd (SpatialKernelSolution.solve (Small.spatial_solved [0; 0]))))
    by (vm_compute; reflexivity).
  split; [exact Hsizes|]. split; [exact Hrun|]. split; [vm_compute; reflexivity|].
  exact (proj1 (proj2 (proj2 (proj2
           (spatial_solve_layout (E := Small.externals) (Small.spatial_solved [0; 0])
              (snd (SpatialKernelSolution.solve (Small.spatial_solved [0; 0])))
              Hsizes Hrun))))).
Defined.

Lemma failed_spatial_solve_witness :
  let s := Small.spatial in
  let s' := snd (SpatialKernelSolution.solve s) in
  SpatialKernelSolution.solve s
  = (Throw (rethrown (LSST_EXCEPT_ADD unable_to_solve
                        "Unable to solve spatial kernel matrix")), s')
  /\ _solvedBy (SpatialKernelSolution.base s') = NONE.
Proof.
  cbv zeta.
  assert (Hrun : SpatialKernelSolution.solve Small.spatial
                 = (Throw (rethrown (LSST_EXCEPT_ADD unable_to_solve
                                       "Unable to solve spatial kernel matrix")),
                    snd (SpatialKernelSolution.solve Small.spatial)))
    by (vm_compute; reflexivity).
  split; [exact Hrun|].
  destruct (failed_spatial_solve (E := Small.externals) Small.spatial
              (snd (SpatialKernelSolution.solve Small.spatial))
              (rethrown (LSST_EXCEPT_ADD unable_to_solve
                           "Unable to solve spatial kernel matrix"))
              Hrun)
    as [[e0 [_ Hs']] | [a [k [_ [Hpair _]]]]].
  - rewrite Hs'. reflexivity.
  - vm_compute in Hpair. discriminate Hpair.
Defined.

Lemma buildWithMask_uses_good_pixels_witness :
  let s' := snd (MaskedKernelSolution.buildWithMask Small.ramp Small.ramp
                   (Small.constant_image 3 3 2) Small.middle_mask (Small.static false)) in
  MaskedKernelSolution.buildWithMask Small.ramp Small.ramp
    (Small.constant_image 3 3 2) Small.middle_mask (Small.static false) = (Ok tt, s')
  /\ StaticKernelSolution._iVec s' = [1; 2; 3; 4; 6; 7; 8; 9]
  /\ MaskedKernelSolution.buildWithMask Small.ramp (Small.ramp_with 100)
       (Small.constant_image 3 3 2) Small.middle_mask (Small.static false) = (Ok tt, s').
Proof.
  cbv zeta. split; [reflexivity|]. split; [reflexivity|].
  apply (proj2 (proj2 (proj2 (proj2 (proj2 (proj2 (proj2 (proj2 (proj2
           (buildWithMask_uses_good_pixels (E := Small.externals) Small.ramp Small.ramp
              (Small.constant_image 3 3 2) Small.middle_mask (Small.static false)
              (snd (MaskedKernelSolution.buildWithMask Small.ramp Small.ramp
                      (Small.constant_image 3 3 2) Small.middle_mask
                      (Small.static false)))
              eq_refl)))))))))).
  - intros p Hp. cbv in Hp.
    repeat (destruct Hp as [Hp | Hp]; [subst p; reflexivity|]). contradiction.
  - intros p Hp. reflexivity.
  - reflexivity.
  - reflexivity.
Defined.

(** [addConstraint] at (2, 3), with Q all ones, on the solution of two
    Alard-Lupton kernels: row 0 gets Q(0,0) = 1, then pK = (1, 2) for the
    second kernel in columns 1 and 2, then pB = (1, 2) in columns 3 and 4;
    b(0) gets w(0) = 1; the entry (1, 0) stays 0. *)
Lemma addConstraint_constant_first_term_witness :
  SpatialKernelSolution.new 0 [Small.kernel 1; Small.kernel 1] Small.linear Small.linear
    (SpatialKernelSolution._policy Small.spatial_first_term)
  = (Ok Small.spatial_first_term, 1%Z)
  /\ SpatialKernelSolution._constantFirstTerm Small.spatial_first_term = true
  /\ (let s' := SpatialKernelSolution.addConstraint_state 2 3 (Small.ones 3) [1; 1; 1]
                  Small.spatial_first_term in
      coeff (mMat_of s') 0 0 = 1
      /\ coeff (mMat_of s') 0 1 = 1
      /\ coeff (mMat_of s') 0 2 = 2
      /\ coeff (mMat_of s') 0 3 = 1
      /\ coeff (mMat_of s') 0 4 = 2
      /\ vcoeff (bVec_of s') 0 = 1
      /\ coeff (mMat_of s') 1 0 = 0).
Proof.
  destruct (new_spatial_sizes (E := Small.externals) 0 [Small.kernel 1; Small.kernel 1]
              Small.linear Small.linear
              (SpatialKernelSolution._policy Small.spatial_first_term)
              Small.spatial_first_term 1 eq_refl)
    as [Hsizes Hsized].
  pose proof (addConstraint_constant_first_term (E := Small.externals) 2 3 (Small.ones 3)
                [1; 1; 1] Small.spatial_first_term Hsizes Hsized eq_refl)
    as [Hcorner [Hrow [Hcross [Hb Hcol]]]].
  split; [reflexivity|]. split; [reflexivity|].
  cbv zeta.
  split; [exact (eq_trans Hcorner eq_refl)|].
  split.
  { destruct (Hrow 1%Z 0%nat ltac:(cbn; lia) ltac:(cbn; lia)) as [_ H].
    exact (eq_trans H eq_refl). }
  split.
  { destruct (Hrow 1%Z 1%nat ltac:(cbn; lia) ltac:(cbn; lia)) as [_ H].
    exact (eq_trans H eq_refl). }
  split; [exact (eq_trans (Hcross eq_refl 0%nat ltac:(cbn; lia)) eq_refl)|].
  split; [exact (eq_trans (Hcross eq_refl 1%nat ltac:(cbn; lia)) eq_refl)|].
  split; [exact (eq_trans Hb eq_refl)|].
  exact (eq_trans (Hcol 1%nat ltac:(cbn; lia)) eq_refl).
Defined.

(** [addConstraint] at (2, 3) on the solution of two kernels with linear
    variation: the block of the second kernel with the first and the
    background rows left of their block stay zero, and both spatial
    functions are left with the parameters (0, 1). *)
Lemma addConstraint_footprint_witness :
  spatial_sizes Small.spatial
  /\ sized 6 Small.spatial
  /\ function_sizes Small.spatial
  /\ (let s' := SpatialKernelSolution.addConstraint_state 2 3 (Small.ones 3) [1; 1; 1]
                  Small.spatial in
      coeff (mMat_of s') 2 1 = 0
      /\ coeff (mMat_of s') 5 3 = 0
      /\ getParameters (SpatialKernelSolution._spatialKernelFunction s') = [0; 1]
      /\ getParameters (SpatialKernelSolution._background s') = [0; 1]
      /\ SpatialKernelSolution.pK_of s' 2 3 = [1; 2]
      /\ SpatialKernelSolution._kernel s' = SpatialKernelSolution._kernel Small.spatial).
Proof.
  destruct (new_spatial_sizes (E := Small.externals) 0 [Small.kernel 1; Small.kernel 1]
              Small.linear Small.linear (SpatialKernelSolution._policy Small.spatial)
              Small.spatial 1 eq_refl)
    as [Hsizes Hsized].
  assert (Hfun : function_sizes Small.spatial).
  { split; [reflexivity | intros _; reflexivity]. }
  pose proof (addConstraint_footprint (E := Small.externals) 2 3 (Small.ones 3) [1; 1; 1]
                Small.spatial Hsizes Hsized Hfun)
    as [Hblock [Hrows [_ [HK [HB [_ [Hvalues [Hkernel _]]]]]]]].
  split; [exact Hsizes|]. split; [exact Hsized|]. split; [exact Hfun|].
  cbv zeta.
  split.
  { exact (eq_trans (Hblock 1%Z 0%Z 0%nat 1%nat ltac:(cbn; lia) ltac:(cbn; lia)
                       ltac:(cbn; lia) ltac:(cbn; lia)) eq_refl). }
  split.
  { exact (eq_trans (Hrows 1%nat 3%nat ltac:(cbn; lia) ltac:(cbn; lia)) eq_refl). }
  split; [exact (eq_trans (HK ltac:(cbn; lia)) eq_refl)|].
  split; [exact (eq_trans (proj2 HB ltac:(cbn; lia)) eq_refl)|].
  split; [exact (eq_trans (proj1 (Hvalues 2 3)) eq_refl)|].
  exact Hkernel.
Defined.

(** Two constraints added to the solution as constructed: the calls return
    a solution of the same size whose matrix is zero below the diagonal,
    and which is not solved. *)
Lemma constraints_fill_upper_half_witness :
  SpatialKernelSolution.new 0 [Small.kernel 1; Small.kernel 1] Small.linear Small.linear
    (SpatialKernelSolution._policy Small.spatial)
  = (Ok Small.spatial, 1%Z)
  /\ exists s,
       addConstraints
         [ {| at_x := 2; at_y := 3; q_of := Small.ones 3; w_of := [1; 1; 1] |};
           {| at_x := 1; at_y := 0; q_of := Small.ones 3; w_of := [2; 0; 1] |} ]
         Small.spatial
       = (Ok tt, s)
       /\ sized 6 s
       /\ upper_triangular 6 (mMat_of s)
       /\ SpatialKernelSolution.getSolutionPair s
          = (Throw (LSST_EXCEPT Exception
                      (text "Kernel not solved; cannot return solution")), s)
       /\ SpatialKernelSolution.pK_of s 2 3 = [1; 2].
Proof.
  split; [reflexivity|].
  destruct (constraints_fill_upper_half (E := Small.externals) 0
              [Small.kernel 1; Small.kernel 1] Small.linear Small.linear
              (SpatialKernelSolution._policy Small.spatial) Small.spatial 1
              [ {| at_x := 2; at_y := 3; q_of := Small.ones 3; w_of := [1; 1; 1] |};
                {| at_x := 1; at_y := 0; q_of := Small.ones 3; w_of := [2; 0; 1] |} ]
              eq_refl)
    as [_ [_ [s [Hadd [_ [_ [Hsized [Hup [_ [Hpair [_ Hvalues]]]]]]]]]]].
  exists s.
  split; [exact Hadd|]. split; [exact Hsized|]. split; [exact Hup|].
  split; [exact Hpair|].
  exact (eq_trans (proj1 (Hvalues 2 3)) eq_refl).
Defined.

(** [_setKernel] on the coefficients (1, NaN), the NaN being that of the
    background. The static solution throws with its kernel already given
    the coefficient 1. The spatial solution, whose condition number is 2,
    throws the exception of the background, whose only operand is the
    index 1, with the new kernel in place. On (NaN, 1) the spatial solution
    throws an exception that carries the 2, and is left as it was. *)
Lemma nan_coefficient_outcome_witness :
  (_solvedBy (StaticKernelSolution.base (Small.solved [1; nan])) = LU
   /\ kernelParameters (StaticKernelSolution._kernel (Small.solved [1; nan])) = [0]
   /\ fst (StaticKernelSolution._setKernel (Small.solved [1; nan]))
      = Throw (StaticKernelSolution.background_nan 1)
   /\ kernelParameters
        (StaticKernelSolution._kernel
           (snd (StaticKernelSolution._setKernel (Small.solved [1; nan]))))
      = [1])
  /\ spatial_sizes (Small.spatial_solved [1; nan])
  /\ (fst (getConditionNumber_m (E := Small.externals)
             (_mMat (SpatialKernelSolution.base (Small.spatial_solved [1; nan]))) EIGENVALUE
             (SpatialKernelSolution.base (Small.spatial_solved [1; nan])))
      = Ok 2
      /\ kernelParameters (SpatialKernelSolution._kernel (Small.spatial_solved [1; nan]))
         = []
      /\ fst (SpatialKernelSolution._setKernel (Small.spatial_solved [1; nan]))
         = Throw (SpatialKernelSolution.background_nan 1)
      /\ kernelParameters
           (SpatialKernelSolution._kernel
              (snd (SpatialKernelSolution._setKernel (Small.spatial_solved [1; nan]))))
         = [1]
      /\ ~ mentions (SpatialKernelSolution.background_nan 1) 2)
  /\ (exists e,
        SpatialKernelSolution._setKernel (Small.spatial_solved [nan; 1])
        = (Throw e, Small.spatial_solved [nan; 1])
        /\ mentions e 2).
Proof.
  pose proof (nan_coefficient_outcome (E := Small.externals)) as [Hstatic Hspatial].
  assert (Hsolved : _solvedBy (StaticKernelSolution.base (Small.solved [1; nan])) <> NONE)
    by (intros H; discriminate H).
  assert (Hclean : forall v : float, is_nan v = false ->
            forall i, (i < 1)%nat -> is_nan (vcoeff [v; nan] i) = false).
  { intros v Hv i Hi. destruct i; [exact Hv | lia]. }
  destruct (Hstatic (Small.solved [1; nan]) Hsolved eq_refl) as [_ Hback].
  pose proof (Hback (Hclean 1 eq_refl) eq_refl eq_refl) as Hrun. cbv zeta in Hrun.
  split.
  { split; [reflexivity|]. split; [reflexivity|].
    split; [rewrite Hrun; reflexivity | rewrite Hrun; reflexivity]. }
  assert (Hsizes : forall a, spatial_sizes (Small.spatial_solved a)).
  { intros a. unfold spatial_sizes. cbn.
    repeat split; try lia; try (intros H; discriminate H). }
  split; [apply Hsizes|].
  destruct (Hspatial (Small.spatial_solved [1; nan]) (Small.identity 2) [2; 4]
              (Hsizes _) eq_refl) as [Hc [_ Hb]].
  destruct (Hb (Hclean 1 eq_refl) 1%nat ltac:(cbn; lia) eq_refl)
    as [i [kernel [Hi [_ [Hk [Hrun2 [_ Hno]]]]]]].
  assert (Hi1 : i = 1%nat) by (cbn in Hi; lia). subst i.
  assert (Hkernel : kernelParameters kernel = [1]).
  { vm_compute in Hk. injection Hk as Hk. subst kernel. reflexivity. }
  split.
  { split; [exact Hc|]. split; [reflexivity|].
    split; [rewrite Hrun2; reflexivity|].
    split; [rewrite Hrun2; exact Hkernel | apply Hno]. }
  destruct (Hspatial (Small.spatial_solved [nan; 1]) (Small.identity 2) [2; 4]
              (Hsizes _) eq_refl) as [_ [Hk2 _]].
  destruct (Hk2 0%nat ltac:(cbn; lia) eq_refl) as [e [Hrun3 [Hm _]]].
  exists e. split; [exact Hrun3 | exact Hm].
Defined.

(** C9. The gate does not stop [build]. A candidate checks the condition
    number against 0.5, the solution built for it has condition number 1,
    and its property set asks to iterate the single kernel (without
    constant variance weighting). [_buildKernelSolution] does what the gate
    is for: it sets the status to BAD and returns, the solution not solved.
    [build] does not look at the status: it goes on to the difference image
    of the most recent solution, the one that was not solved, and throws
    "Kernel not solved" (here the refusal of [getBackground()], the
    arguments of the call being evaluated from the last to the first),
    leaving the candidate BAD and not initialized. Without
    iterateSingleKernel the same build returns. *)
Theorem gate_does_not_stop_build :
  let w := Small.candidate ["checkConditionNumber"; "iterateSingleKernel"]%string false in
  let ps := KernelCandidate._ps (KernelCandidate.this w) in
  let var := Small.constant_image 3 3 2 in
  let built := snd (StaticKernelSolution.build Small.ramp Small.ramp var
                      (Small.static false)) in
  (getAsBool ps "checkConditionNumber" = true
   /\ getAsBool ps "iterateSingleKernel" = true
   /\ getAsBool ps "constantVarianceWeighting" = false
   /\ getAsDouble ps "maxConditionNumber" = 0.5
   /\ fst (StaticKernelSolution.getConditionNumber EIGENVALUE built) = Ok 1)
  /\ (fst (KernelCandidate._buildKernelSolution 0 var [Small.kernel 1] empty w) = Ok tt
      /\ KernelCandidate._status
           (KernelCandidate.this
              (snd (KernelCandidate._buildKernelSolution 0 var [Small.kernel 1] empty w)))
         = BAD
      /\ KernelCandidate._kernelSolutionOrig
           (KernelCandidate.this
              (snd (KernelCandidate._buildKernelSolution 0 var [Small.kernel 1] empty w)))
         = Some (KernelCandidate.Static built)
      /\ _solvedBy (StaticKernelSolution.base built) = NONE)
  /\ (fst (KernelCandidate.build 0 [Small.kernel 1] w)
      = Throw (StaticKernelSolution.not_solved "Kernel not solved; cannot return background")
      /\ KernelCandidate._status
           (KernelCandidate.this (snd (KernelCandidate.build 0 [Small.kernel 1] w)))
         = BAD
      /\ KernelCandidate._isInitialized
           (KernelCandidate.this (snd (KernelCandidate.build 0 [Small.kernel 1] w)))
         = false)
  /\ (fst (KernelCandidate.build 0 [Small.kernel 1]
             (Small.candidate ["checkConditionNumber"]%string false)) = Ok tt
      /\ KernelCandidate._status
           (KernelCandidate.this
              (snd (KernelCandidate.build 0 [Small.kernel 1]
                      (Small.candidate ["checkConditionNumber"]%string false))))
         = BAD).
Proof.
  cbv zeta.
  split; [repeat split; vm_compute; reflexivity|].
  split; [repeat split; vm_compute; reflexivity|].
  split; [repeat split; vm_compute; reflexivity|].
  split; vm_compute; reflexivity.
Qed.
